(* ===== verification/_CoqProject ===== *)
-Q . S2P
Prelude.v
CMemory.v
OspfsLayout.v
OspfsAlloc.v
OspfsFile.v
OspfsTree.v
OspfsWork.v
OspfsGrow.v
OspfsShrink.v
OspfsSize.v
OspfsIo.v
OspfsSpec.v
OspfsDir.v
OspfsDirSpec.v
OspfsNames.v
OspfsUnlink.v
OspfsDisks.v
MposLib.v
MposLibSpec.v
Mpos.v
MposSpec.v
MposCalls.v
MposProps.v
MposLoader.v
Md5.v
Md5Spec.v
FmtCache.v
Fmt.v
FmtCacheSpec.v
FmtStore.v
FmtFile.v
FmtBuild.v
FmtDir.v
FmtWrite.v
FmtFinish.v
FmtMain.v
FmtUsed.v
FmtMount.v
FmtSpec.v
Osprd.v
OsprdLock.v
OsprdCrypt.v
OsprdCryptSpec.v
ShellExec.v
ShellSpec.v
ShellRead.v
ShellText.v
ShellWords.v
ShellLines.v
ShellFind.v
ShellTree.v
ShellScript.v
ShellReadSpec.v
ShellPrint.v
BootDisk.v
BootDiskSpec.v
BootLoad.v
BootLoadSpec.v
ImgToC.v
