(* ===== verification/Prelude.v ===== *)
(** * A verification library for the CS111 operating-systems labs

    The repository holds four programs: OSPFS, a file system for Linux
    (src/Lab3-File-System); OSPRD, an encrypted RAM disk (src/Lab2-Encrypted-
    Ramdisk); MiniprocOS, a teaching kernel (src/weensyos1); and a shell
    (src/Lab1-Profiling-Shell).  They share no code; what their models share is
    in Prelude.v and CMemory.v.

    ** The vocabulary (Prelude.v, CMemory.v)

    A C function that works on shared state is a [prog]: from a bound on the
    rounds of each unbounded loop and a state it returns ([Ret]), faults ([Oops])
    or exhausts the bound ([Hang]).  [wp] is total correctness, so that every
    theorem about a result also says that the code terminates without a fault.
    Integers are [Z] with their wrap-around written out ([u8], [u32], [s32]).
    [mem] is a byte-addressed memory with little-endian words; [changes] is the
    frame of an operation and [≡] relates memories that read alike.

    ** OSPFS (ospfs.h, ospfsmod.c)

    The state is the disk image.  The structures of ospfs.h are field addresses
    in it, so that overlaps behave as in C.
    - OspfsLayout: ospfs.h and the accessors [ospfs_inode], [ospfs_block].
    - OspfsAlloc: the bitmap, [allocate_block], [free_block], and the class
      [BlockAllocator], against which the file operations are proved.
    - OspfsFile: [add_block], [remove_block], [change_size].  OspfsTree: the
      blocks of a file as a sequence; OspfsWork, OspfsGrow, OspfsShrink,
      OspfsSize: what each of them does to it.
    - OspfsIo: [ospfs_read], [ospfs_write]; Linux's [copy_to_user] and
      [copy_from_user] are the class [UserAccess].
    - OspfsSpec (C1 to C7, C9, C11): writing refines overwriting a list of bytes,
      reading delivers it, growing and shrinking take and free exactly the blocks
      needed; and where the code fails: a full disk loses a block, a failed growth
      leaves a dangling pointer, [free_block] hangs beyond block 1023, a read
      beyond the end is an error.
    - OspfsDir: the directory callbacks; OspfsDirSpec: a directory as a sequence
      of entries; OspfsNames (C13, C14, C16, C17): lookup, create, link, symlink
      and their errors, where a conditional link is stated by its text and a user
      reaches the half that is theirs; OspfsUnlink (C19, C20): removal and listing;
      OspfsDisks: the concrete disks of the witnesses.
    The consistent disks of the theorems ([fs_ok], [tree_ok]) have all blocks in
    use below 1024, because no other block can be freed.
    Bounds: loops over the blocks of a file make at most 1024 rounds, since
    [allocate_block] only scans 1024 bits per bitmap block; the directory loops
    at most 8200, for at most 8168 entries; names have at most 123 bytes.

    ** MiniprocOS (mpos-kern.c, mpos-kern.h, mpos.h, mpos-loader.c, lib.c, and
    the state of mpos-x86.c and x86.h)

    The state [kern] is the process table, [current], and the memory.
    - MposLib, MposLibSpec (C30 to C32): [memcpy] and [memmove] on overlapping
      memory, what [console_printf] shows for decimals and for a whole format whose
      arguments are passed; a lemma for the cut by a precision.
    - Mpos: [start], [interrupt] with its system calls, [do_fork], [copy_stack],
      [schedule], and the loader.
    - MposSpec: an abstract machine on tables ([effect]); MposCalls: the kernel
      refines it; MposProps (C22 to C27): refinement, the invariant of the
      reachable states, a runnable process runs after at most 15 yields, fork copies
      the stack and changes no other process, the wait and exit protocol, and that a
      second waiter strands the first.
    - MposLoader (C29): a loaded segment is in place and its BSS cleared, if its
      place does not begin among the bytes that are copied.
    Bounds: [schedule] makes at most 16 rounds; [console_vprintf] one per byte
    of the format; [copyseg] one per byte to clear; [memcpy] goes by its count.

    ** The boot of MiniprocOS (mkbootdisk.c, mpos-boot.c)

    - BootDisk: the program that writes the boot disk.  The state is its output and
      what [write] will return; the host's files are an argument.  BootDiskSpec: it
      writes exactly [disk_image], whatever sizes the writes have.
    - BootLoad: [bootmain], [readseg] and [readsect] over a drive that is reached
      through input and output instructions (class [Drive], laws [DriveLaws]).
      BootLoadSpec (C33): a kernel on a disk that the program wrote is loaded, and
      the loader jumps to its entry point; a simple drive is the instance.
    Bounds: one round per sector and per byte to clear, one per call of [write];
    the drive is ready within the polls that its laws name.

    ** MD5 (md5.c)

    Md5: the code, its table of 64 steps in the order of the source.  Md5Spec
    (C34): it computes the digest of RFC 1321 for messages below 512 MB fed in any
    pieces; and the carry of the bit count is wrong beyond.  All its functions
    are structural.

    ** The formatter of OSPFS disks (ospfsformat.c, fsimgtoc.c)

    The state [fmt] is the image file, the slots of the block cache and the
    counters of the free blocks and inodes; a block in memory is the number of
    its slot.  The host's files are an argument: directories, symbolic links, and
    files with what each [read] on them returns.
    - FmtCache, Fmt: the cache and the program from [opendisk] to [format_main].
    - FmtCacheSpec, FmtStore: a cache stands for a memory ([cached]), with the
      blocks in use by their slots, and a rule for each access; C35 says that the
      cache is transparent.  FmtFile, FmtBuild: what the blocks, inodes and entries
      that are made so far say ([layout], [built]); FmtDir, FmtWrite, FmtFinish,
      FmtMain: each function from such a state to the next; FmtUsed: the blocks in
      use are those below the next block; FmtMount: what the driver's functions find
      on the image.
    - FmtSpec: a formatted image holds the files with their bytes, and its bitmap
      has exactly the blocks that nothing uses (C10); the driver finds each by its
      name and reads it back, if the names differ and the blocks in use are among
      the first 1024 (C18); and a lemma on the error of [readn].
    - ImgToC (fsimgtoc.c): the text of the C array with which an image is linked
      into the driver; read by the rules of C it defines the image (C15).
    Bounds: 10000 rounds are enough for every loop of C10, whose disks have at
    most 8192 blocks.  The clock of the cache is not bounded in the model; in C it
    would wrap around only after 2^31 calls of [getblk].

    ** OSPRD (osprd.c, osprd.h, spinlock.h)

    The state [osprd_info] is the device's record, its linked lists as lists.
    - Osprd: each ioctl, cut where it can sleep or be preempted; the passwords
      (C40: only the password authorizes); the spin lock.
    - OsprdLock: threads that run the pieces in any order.  C36: the lock
      excludes and is granted in ticket order, for threads that lock with ACQUIRE
      and release once; C37: without signals it does not get stuck; C38: release
      and close count twice.  Examples show the race of TRYACQUIRE, a reader that
      is not woken, and a turn that gets lost.
    - OsprdCrypt: the block requests, and the reads, writes and key changes above
      the kernel's block device (class [Blkdev], laws [BlkdevLaws], a list of
      bytes as instance).  OsprdCryptSpec (C39): what is written is read back
      after any reads and key changes.
    Bounds: the loops over the sectors of a buffer make at most size / 64 + 2
    rounds; a [None] of these definitions is an access outside an array.

    ** The shell's executor (execute-command.c, main.c)

    - ShellExec: [execute_command] on trees of commands, with its redirections,
      children, pipes and profile, and the loop of [main].  A process is its table
      of descriptors, the descriptor of the profile, and the world that all
      processes share; the kernel and the programs are the class [Kernel].
    - ShellSpec (C12): it refines a big-step semantics in which a redirection is
      an environment of the commands inside it; so every command leaves the table
      of descriptors as it found it.
    The bound counts the depth of the tree and the rounds of its loops; C12 says
    that every ending of the semantics is reached by all large enough bounds.

    ** The shell's reader and printer (read-command.c, print-command.c)

    The state of the reader is the buffer of the characters that were read, which
    it changes in one case.  The words of its trees are buffers, whose last byte it
    does not set; [tree_held] says what memory may hold for them, the printer reads
    that memory, and [strings] is the executor's tree of it.
    - ShellRead: [make_command_stream], with the splitter ([split_everything], one
      definition for each case of its switch), the search for separators
      ([find_semi_pipes]) and the builders of the trees ([complete_command] and
      what it calls).  ShellPrint: [print_command].
    - ShellText: what the functions do where the buffer holds a given text;
      ShellWords, ShellLines: words, simple commands, pipelines and sequences with
      their texts and trees; ShellFind, ShellTree, ShellScript: the search, the
      builders and the splitter on such a text.
    - ShellReadSpec: the text of a script is read as its trees (C8), for sequences
      of pipelines of simple commands within the limits that the reader's mistakes
      set; a script that cannot begin is a syntax error at its line (C21); examples
      with compound commands and subshells, and of the mistakes.  C28 (ShellPrint):
      a simple command whose words happen to end with a 0 is printed such that it is
      read back, and no other is printed.
    The bound counts the rounds of each loop and the depth of compound commands;
    the length of the text plus two is enough for C8.

    ** Not modelled

    Of OSPFS: the mount, the superblock and inode callbacks that only fill in
    Linux structures, and module registration.  Of ospfsformat: its messages, the
    option -V, and failures of the image file.  Of the shell: freeing the trees,
    the wrappers of malloc, the options of the command line, and that the profile
    leaves a blank for each newline in the word itself.  Of OSPRD: module
    registration, [file2osprd], the patching of the file operations, and
    osprdaccess.c, a command-line tool around system calls; failed allocations of
    the lock's list nodes, which the code does not test for.  Of MiniprocOS: the
    tables of the processor (segments, interrupts), inline assembly, and the
    applications.  Of mkbootdisk and fsimgtoc: their messages; truncate.c, a call of
    ftruncate; src/Test/test.c, an older copy of the shell's reader. *)

From stdpp Require Export base tactics option numbers list gmap.
From Stdlib Require Export ZArith Lia.

#[export] Set Default Goal Selector "!".
Open Scope Z_scope.

(** ** Machine-width integers *)

(** Unsigned wrap-around at 8, 16 and 32 bits, and the value of a 32-bit word
    read as a two's-complement [int]. *)
Definition u8 (x : Z) : Z := x mod 2 ^ 8.
Definition u16 (x : Z) : Z := x mod 2 ^ 16.
Definition u32 (x : Z) : Z := x mod 2 ^ 32.
Definition s32 (x : Z) : Z := (x + 2 ^ 31) mod 2 ^ 32 - 2 ^ 31.

Create HintDb cmach.
Create Rewrite HintDb cmach_rw.

Lemma u8_range x : 0 <= u8 x < 2 ^ 8.
Proof. by apply Z.mod_pos_bound. Qed.

Lemma u32_range x : 0 <= u32 x < 2 ^ 32.
Proof. by apply Z.mod_pos_bound. Qed.

Lemma u8_small x : 0 <= x < 2 ^ 8 -> u8 x = x.
Proof. apply Z.mod_small. Qed.

Lemma u32_small x : 0 <= x < 2 ^ 32 -> u32 x = x.
Proof. apply Z.mod_small. Qed.

Lemma s32_small x : - 2 ^ 31 <= x < 2 ^ 31 -> s32 x = x.
Proof. intros H. unfold s32. rewrite Z.mod_small; lia. Qed.

Lemma u32_u32 x : u32 (u32 x) = u32 x.
Proof. apply Z.mod_mod. lia. Qed.

Lemma u8_u8 x : u8 (u8 x) = u8 x.
Proof. apply Z.mod_mod. lia. Qed.

#[export] Hint Rewrite u8_u8 u32_u32 : cmach_rw.
#[export] Hint Resolve u8_range u32_range : cmach.

(** Bits of a wrapped word: a bit below 32 survives the truncation, a bit at or
    above 32 is cleared. *)
Lemma testbit_u32 x i : 0 <= i < 32 -> Z.testbit (u32 x) i = Z.testbit x i.
Proof. intros. apply Z.mod_pow2_bits_low. lia. Qed.

(** ** Outcomes and programs

    A C function that works on shared state is a program: given a bound on the
    number of iterations of each of its unbounded loops and an initial state, it
    returns with a value and a state, it faults (a null dereference, a panic, an
    access the C code must not make), or it exhausts the bound. *)
Inductive outcome (S A : Type) : Type :=
| Ret (a : A) (s : S)
| Oops
| Hang.
Arguments Ret {S A} a s.
Arguments Oops {S A}.
Arguments Hang {S A}.

Definition prog (S A : Type) : Type := nat -> S -> outcome S A.

#[export] Instance prog_ret {S : Type} : MRet (prog S) := fun A a _ s => Ret a s.

#[export] Instance prog_bind {S : Type} : MBind (prog S) := fun A B f c fu s =>
  match c fu s with
  | Ret a s' => f a fu s'
  | Oops => Oops
  | Hang => Hang
  end.

Section Programs.
Context {S : Type}.

Definition oops {A : Type} : prog S A := fun _ _ => Oops.
Definition get : prog S S := fun _ s => Ret s s.
Definition put (s : S) : prog S unit := fun _ _ => Ret tt s.

(** [if (b) c;] *)
Definition when (b : bool) (c : prog S unit) : prog S unit :=
  if b then c else mret tt.

(** Dereferencing a C pointer that may be null. *)
Definition deref {A B : Type} (p : option A) (k : A -> prog S B) : prog S B :=
  match p with Some a => k a | None => oops end.

(** A [while] loop: the body returns [inl] to go round again and [inr] to
    leave; at most as many rounds as the bound. *)
Fixpoint loop_n {X R : Type} (n : nat) (body : X -> prog S (X + R)) (x : X) : prog S R :=
  fun fu s =>
  match n with
  | O => Hang
  | Datatypes.S n' =>
      match body x fu s with
      | Ret (inl x') s' => loop_n n' body x' fu s'
      | Ret (inr r) s' => Ret r s'
      | Oops => Oops
      | Hang => Hang
      end
  end.

Definition loop {X R : Type} (body : X -> prog S (X + R)) (x : X) : prog S R :=
  fun fu s => loop_n fu body x fu s.

(** A counted [for] loop with an early [return]: [for_ret n i body] runs [body]
    on [i], [i+1], ..., [i+n-1] until one of them returns [Some]. *)
Fixpoint for_ret {R : Type} (n : nat) (i : Z) (body : Z -> prog S (option R)) : prog S (option R) :=
  match n with
  | O => mret None
  | Datatypes.S n' =>
      r ← body i;
      match r with
      | Some _ => mret r
      | None => for_ret n' (i + 1) body
      end
  end.

(** A counted [for] loop without an early exit, over the indices or items [l]. *)
Fixpoint for_each {A : Type} (l : list A) (body : A -> prog S unit) : prog S unit :=
  match l with
  | [] => mret tt
  | a :: l' => _ ← body a; for_each l' body
  end.

Lemma for_ret_1 {R : Type} i (body : Z -> prog S (option R)) :
  for_ret 1 i body = (r ← body i; match r with Some _ => mret r | None => mret None end).
Proof. done. Qed.

(** ** Weakest preconditions

    [wp c fu s Q]: run from [s] with bound [fu], the program returns, and its
    value and final state satisfy [Q].  This is total correctness: a program
    that faults or exhausts its bound has no weakest precondition. *)
Definition wp {A : Type} (c : prog S A) (fu : nat) (s : S) (Q : A -> S -> Prop) : Prop :=
  match c fu s with
  | Ret a s' => Q a s'
  | Oops => False
  | Hang => False
  end.

Lemma wp_mono {A} (c : prog S A) fu s (Q Q' : A -> S -> Prop) :
  wp c fu s Q -> (forall a s', Q a s' -> Q' a s') -> wp c fu s Q'.
Proof. unfold wp. destruct (c fu s); naive_solver. Qed.

Lemma wp_ret {A} (a : A) fu s (Q : A -> S -> Prop) : Q a s -> wp (mret a) fu s Q.
Proof. done. Qed.

Lemma wp_bind {A B} (c : prog S A) (f : A -> prog S B) fu s Q :
  wp c fu s (fun a s' => wp (f a) fu s' Q) -> wp (c ≫= f) fu s Q.
Proof. unfold wp, mbind, prog_bind. by destruct (c fu s). Qed.

Lemma wp_bind_inv {A B} (c : prog S A) (f : A -> prog S B) fu s Q :
  wp (c ≫= f) fu s Q -> wp c fu s (fun a s' => wp (f a) fu s' Q).
Proof. unfold wp, mbind, prog_bind. by destruct (c fu s). Qed.

Lemma wp_get fu s (Q : S -> S -> Prop) : Q s s -> wp get fu s Q.
Proof. done. Qed.

Lemma wp_put fu s s' (Q : unit -> S -> Prop) : Q tt s' -> wp (put s') fu s Q.
Proof. done. Qed.

Lemma wp_deref {A B} (a : A) (k : A -> prog S B) fu s Q :
  wp (k a) fu s Q -> wp (deref (Some a) k) fu s Q.
Proof. done. Qed.

Lemma wp_run {A} (c : prog S A) fu s Q :
  wp c fu s Q -> exists a s', c fu s = Ret a s' /\ Q a s'.
Proof. unfold wp. destruct (c fu s); naive_solver. Qed.

Lemma wp_of_run {A} (c : prog S A) fu s a s' (Q : A -> S -> Prop) :
  c fu s = Ret a s' -> Q a s' -> wp c fu s Q.
Proof. unfold wp. by intros ->. Qed.

(** The loop rule: an invariant and a measure below the bound. *)
Lemma wp_loop_n {X R} (I : X -> S -> Prop) (mu : X -> nat) (body : X -> prog S (X + R)) n x fu s Q :
  I x s -> (mu x < n)%nat ->
  (forall y t, I y t ->
     wp (body y) fu t (fun r t' =>
       match r with inl y' => I y' t' /\ (mu y' < mu y)%nat | inr b => Q b t' end)) ->
  wp (loop_n n body x) fu s Q.
Proof.
  intros HI Hmu Hbody. revert x s HI Hmu.
  induction n as [|n IH]; intros x s HI Hmu; [lia|].
  specialize (Hbody x s HI) as Hb. unfold wp in Hb |- *. cbn.
  destruct (body x fu s) as [[y'|b] t| |]; try done.
  destruct Hb as [HI' Hlt]. apply IH; [done|lia].
Qed.

Lemma wp_loop {X R} (I : X -> S -> Prop) (mu : X -> nat) (body : X -> prog S (X + R)) x fu s Q :
  I x s -> (mu x < fu)%nat ->
  (forall y t, I y t ->
     wp (body y) fu t (fun r t' =>
       match r with inl y' => I y' t' /\ (mu y' < mu y)%nat | inr b => Q b t' end)) ->
  wp (loop body x) fu s Q.
Proof. apply wp_loop_n. Qed.

(** A counted loop keeps an invariant up to the index where it stops. *)
Lemma wp_for_ret {R} (I : Z -> S -> Prop) n i (body : Z -> prog S (option R)) fu s Q :
  I i s ->
  (forall j t, i <= j < i + Z.of_nat n -> I j t ->
     wp (body j) fu t (fun r t' =>
       match r with None => I (j + 1) t' | Some b => Q (Some b) t' end)) ->
  (forall t, I (i + Z.of_nat n) t -> Q None t) ->
  wp (for_ret n i body) fu s Q.
Proof.
  revert i s. induction n as [|n IH]; intros i s HI Hbody Hend; cbn.
  { apply Hend. by rewrite Z.add_0_r. }
  apply wp_bind. eapply wp_mono; [apply Hbody; [lia|done]|].
  intros [b|] t HQ; [done|].
  apply IH; [done| |].
  - intros j t' Hj. apply Hbody. lia.
  - intros t' Ht'. apply Hend. by replace (i + Z.of_nat (Datatypes.S n)) with (i + 1 + Z.of_nat n) by lia.
Qed.

(** The same for [for_each], by the number of items done. *)
Lemma wp_for_each {A} (I : nat -> S -> Prop) (l : list A) (body : A -> prog S unit) fu s Q :
  I 0%nat s ->
  (forall k a t, l !! k = Some a -> I k t -> wp (body a) fu t (fun _ t' => I (Datatypes.S k) t')) ->
  (forall t, I (length l) t -> Q tt t) ->
  wp (for_each l body) fu s Q.
Proof.
  revert I s. induction l as [|a l IH]; intros I s HI Hbody Hend; cbn; [by apply Hend|].
  apply wp_bind. eapply wp_mono; [by apply (Hbody 0%nat a)|]. intros [] s' Hs'.
  apply (IH (fun k => I (Datatypes.S k))); [done| |done].
  intros k b u Hk. by apply (Hbody (Datatypes.S k)).
Qed.
End Programs.

(** ** Lists *)

Lemma filter_ext_in {A} (P1 P2 : A -> Prop) `{!forall x, Decision (P1 x)} `{!forall x, Decision (P2 x)} (l : list A) :
  (forall x, x ∈ l -> P1 x <-> P2 x) -> filter P1 l = filter P2 l.
Proof.
  induction l as [|x l IH]; intros Hiff; [done|].
  rewrite !filter_cons. rewrite IH by (intros; apply Hiff; by right).
  specialize (Hiff x ltac:(by left)). case_decide; case_decide; first [done | exfalso; tauto].
Qed.

Lemma filter_none {A} (P : A -> Prop) `{!forall x, Decision (P x)} (l : list A) :
  (forall x, x ∈ l -> ~ P x) -> filter P l = [].
Proof.
  intros Hno. destruct (filter P l) as [|y k] eqn:E; [done|].
  assert (Hy : y ∈ filter P l) by (rewrite E; by left).
  apply list_elem_of_filter in Hy as [HP Hy]. by destruct (Hno y Hy).
Qed.

(** The first element of a run of integers that satisfies a predicate heads the
    filtered run, and removing it from the predicate removes the head. *)
Lemma filter_seqZ_first (P P' : Z -> Prop) `{!forall x, Decision (P x)} `{!forall x, Decision (P' x)} n e :
  0 <= e < n -> P e -> (forall j, 0 <= j < e -> ~ P j) ->
  (forall j, 0 <= j < n -> P' j <-> j <> e /\ P j) ->
  filter P (seqZ 0 n) = e :: filter P' (seqZ 0 n).
Proof.
  intros He HPe Hlow HP'.
  assert (Hsplit : seqZ 0 n = seqZ 0 e ++ e :: seqZ (e + 1) (n - e - 1)).
  { replace n with (e + (n - e)) at 1 by lia. rewrite seqZ_app by lia. f_equal.
    rewrite seqZ_cons by lia. replace (Z.succ (0 + e)) with (e + 1) by lia.
    by replace (Z.pred (n - e)) with (n - e - 1) by lia. }
  rewrite Hsplit, !filter_app, !filter_cons.
  rewrite (filter_none P (seqZ 0 e)), (filter_none P' (seqZ 0 e)).
  - rewrite decide_True by done. rewrite decide_False by (rewrite HP' by lia; tauto). cbn. f_equal.
    apply filter_ext_in. intros j Hj%elem_of_seqZ. rewrite HP' by lia. split; [intros ?; split; [lia|done]|tauto].
  - intros j Hj%elem_of_seqZ. rewrite HP' by lia. intros [_ Hp]. by apply (Hlow j).
  - intros j Hj%elem_of_seqZ. apply Hlow. lia.
Qed.

(** The head of a filtered run of integers is its least element. *)
Lemma filter_seqZ_least (P : Z -> Prop) `{!forall x, Decision (P x)} n a b l :
  filter P (seqZ a (Z.of_nat n)) = b :: l -> forall j, a <= j < a + Z.of_nat n -> P j -> b <= j.
Proof.
  revert a. induction n as [|n IH]; intros a; [done|].
  rewrite seqZ_cons by lia. replace (Z.pred (Z.of_nat (Datatypes.S n))) with (Z.of_nat n) by lia.
  rewrite filter_cons. case_decide as Ha.
  - intros [= <- _] j Hj _. lia.
  - intros Hf j Hj HP. destruct (decide (j = a)) as [->|]; [done|]. apply (IH _ Hf); [lia|done].
Qed.

(** ** Proof automation *)

(** Case analysis on the boolean comparisons of the goal, with the facts they
    stand for. *)
Ltac zcase :=
  match goal with
  | |- context [(?a <? ?b)%Z] => destruct (Z.ltb_spec a b)
  | |- context [(?a <=? ?b)%Z] => destruct (Z.leb_spec a b)
  | |- context [(?a =? ?b)%Z] => destruct (Z.eqb_spec a b)
  end.
Ltac zcases := repeat (zcase; cbn [andb orb negb] in *; try lia).

(** Arithmetic with division and remainder by constants. *)
Ltac divmod := Z.to_euclidean_division_equations; nia.
Ltac divlia := Z.to_euclidean_division_equations; lia.
