(* ===== verification/CMemory.v ===== *)
(** * Byte-addressed memory

    The flat memory that the C code reads and writes: a finite map from byte
    addresses to byte values, in which an address that was never written reads
    as 0.  32-bit accesses are little-endian, as on the i386 the labs run on.
    The file also gives the vocabulary of the frame properties: which bytes an
    operation may change ([changes]) and when two memories read alike ([≡]). *)

From S2P Require Import Prelude.

Abbreviation mem := (gmap Z Z).

(** ** Loads and stores *)

Definition ld8 (m : mem) (a : Z) : Z := u8 (default 0 (m !! a)).
Definition st8 (m : mem) (a v : Z) : mem := <[a := u8 v]> m.

Definition ld32 (m : mem) (a : Z) : Z :=
  ld8 m a + 2 ^ 8 * ld8 m (a + 1) + 2 ^ 16 * ld8 m (a + 2) + 2 ^ 24 * ld8 m (a + 3).
Definition st32 (m : mem) (a v : Z) : mem :=
  st8 (st8 (st8 (st8 m a v) (a + 1) (v / 2 ^ 8)) (a + 2) (v / 2 ^ 16)) (a + 3) (v / 2 ^ 24).

(** [ld_bytes m a n] are the [n] bytes at [a]; [st_bytes m a l] writes the bytes
    [l] from [a] on (a [memcpy] into the memory); [memset m a c n] is C's. *)
Definition ld_bytes (m : mem) (a : Z) (n : nat) : list Z :=
  map (fun i => ld8 m (a + Z.of_nat i)) (seq 0 n).

Fixpoint st_bytes (m : mem) (a : Z) (l : list Z) : mem :=
  match l with
  | [] => m
  | b :: l' => st_bytes (st8 m a b) (a + 1) l'
  end.

Definition memset (m : mem) (a c : Z) (n : nat) : mem := st_bytes m a (replicate n c).

(** ** Memories that read alike *)

#[export] Instance mem_equiv : Equiv mem := fun m1 m2 => forall a, ld8 m1 a = ld8 m2 a.

#[export] Instance mem_equiv_equivalence : Equivalence (≡@{mem}).
Proof.
  split.
  - by intros m a.
  - by intros m1 m2 H a.
  - intros m1 m2 m3 H1 H2 a. by rewrite (H1 a).
Qed.

#[export] Instance ld8_proper : Proper ((≡@{mem}) ==> eq ==> eq) ld8.
Proof. intros m1 m2 H a ? <-. apply H. Qed.

#[export] Instance ld32_proper : Proper ((≡@{mem}) ==> eq ==> eq) ld32.
Proof. intros m1 m2 H a ? <-. unfold ld32. by rewrite H. Qed.

(** ** Read over write *)

Lemma ld8_range m a : 0 <= ld8 m a < 2 ^ 8.
Proof. apply u8_range. Qed.

Lemma ld32_range m a : 0 <= ld32 m a < 2 ^ 32.
Proof.
  unfold ld32.
  pose proof (ld8_range m a); pose proof (ld8_range m (a + 1));
  pose proof (ld8_range m (a + 2)); pose proof (ld8_range m (a + 3)). lia.
Qed.

Lemma ld8_st8_eq m a v : ld8 (st8 m a v) a = u8 v.
Proof. unfold ld8, st8. rewrite lookup_insert_eq. apply u8_u8. Qed.

Lemma ld8_st8_ne m a b v : a <> b -> ld8 (st8 m a v) b = ld8 m b.
Proof. intros H. unfold ld8, st8. by rewrite lookup_insert_ne. Qed.

Lemma ld8_st8 m a b v : ld8 (st8 m a v) b = if decide (a = b) then u8 v else ld8 m b.
Proof. case_decide; [subst; apply ld8_st8_eq | by apply ld8_st8_ne]. Qed.

#[export] Instance st8_proper : Proper ((≡@{mem}) ==> eq ==> eq ==> (≡@{mem})) st8.
Proof. intros m1 m2 H a ? <- v ? <- b. rewrite !ld8_st8. by rewrite (H b). Qed.

#[export] Instance st32_proper : Proper ((≡@{mem}) ==> eq ==> eq ==> (≡@{mem})) st32.
Proof. intros m1 m2 H a ? <- v ? <-. unfold st32. by rewrite H. Qed.

Lemma ld8_st32_ne m a b v : b < a \/ a + 4 <= b -> ld8 (st32 m a v) b = ld8 m b.
Proof. intros H. unfold st32. rewrite !ld8_st8_ne by lia. done. Qed.

Lemma ld32_st32_eq m a v : ld32 (st32 m a v) a = u32 v.
Proof.
  unfold ld32, st32.
  repeat (rewrite ld8_st8; case_decide; [try lia|try lia]).
  unfold u8, u32. divlia.
Qed.

Lemma ld32_st32_ne m a b v : b + 4 <= a \/ a + 4 <= b -> ld32 (st32 m a v) b = ld32 m b.
Proof. intros H. unfold ld32. rewrite !ld8_st32_ne by lia. done. Qed.

(** Storing back the word that is there changes nothing observable. *)
Lemma st32_ld32 m a v : u32 v = ld32 m a -> st32 m a v ≡ m.
Proof.
  intros Hv b. unfold st32. rewrite !ld8_st8.
  unfold ld32 in Hv.
  pose proof (ld8_range m a); pose proof (ld8_range m (a + 1));
  pose proof (ld8_range m (a + 2)); pose proof (ld8_range m (a + 3)).
  unfold u32 in Hv.
  repeat case_decide; subst; unfold u8; try done; divlia.
Qed.

(** ** Runs of bytes *)

Lemma ld_bytes_nil m a : ld_bytes m a 0 = [].
Proof. done. Qed.

Lemma length_ld_bytes m a n : length (ld_bytes m a n) = n.
Proof. unfold ld_bytes. by rewrite length_map, length_seq. Qed.

Lemma ld_bytes_lookup m a n i :
  (i < n)%nat -> ld_bytes m a n !! i = Some (ld8 m (a + Z.of_nat i)).
Proof.
  intros Hi. unfold ld_bytes. rewrite list_lookup_fmap.
  by rewrite lookup_seq_lt by done.
Qed.

Lemma ld_bytes_S m a n : ld_bytes m a (S n) = ld8 m a :: ld_bytes m (a + 1) n.
Proof.
  unfold ld_bytes. cbn [seq map]. f_equal; [f_equal; lia|].
  rewrite <- (seq_shift n 0), map_map. apply map_ext. intros i. f_equal. lia.
Qed.

Lemma ld_bytes_add m a n k :
  ld_bytes m a (n + k) = ld_bytes m a n ++ ld_bytes m (a + Z.of_nat n) k.
Proof.
  revert a. induction n as [|n IH]; intros a; cbn [Nat.add].
  - by rewrite Z.add_0_r.
  - rewrite !ld_bytes_S, IH. cbn. by replace (a + 1 + Z.of_nat n) with (a + Z.of_nat (S n)) by lia.
Qed.

Lemma ld_bytes_ext m m' a n :
  (forall b, a <= b < a + Z.of_nat n -> ld8 m' b = ld8 m b) -> ld_bytes m' a n = ld_bytes m a n.
Proof.
  intros H. unfold ld_bytes. apply map_ext_in. intros i Hi%in_seq. apply H. lia.
Qed.

Lemma ld8_st_bytes_out m a l b :
  b < a \/ a + Z.of_nat (length l) <= b -> ld8 (st_bytes m a l) b = ld8 m b.
Proof.
  revert m a. induction l as [|x l IH]; intros m a H; cbn in *; [done|].
  rewrite IH by lia. by rewrite ld8_st8_ne by lia.
Qed.

Lemma ld8_st_bytes_in m a l i x :
  l !! i = Some x -> ld8 (st_bytes m a l) (a + Z.of_nat i) = u8 x.
Proof.
  revert m a i. induction l as [|y l IH]; intros m a i Hi; [done|].
  destruct i as [|i]; cbn in Hi |- *.
  - simplify_eq. rewrite ld8_st_bytes_out by lia. rewrite Z.add_0_r. apply ld8_st8_eq.
  - replace (a + Z.of_nat (S i)) with (a + 1 + Z.of_nat i) by lia. by apply IH.
Qed.

Definition bytes (l : list Z) : Prop := Forall (fun b => 0 <= b < 2 ^ 8) l.

Lemma ld_bytes_bytes m a n : bytes (ld_bytes m a n).
Proof. unfold bytes, ld_bytes. apply Forall_fmap, Forall_true. intros. apply ld8_range. Qed.

Lemma ld_bytes_st_bytes m a l : bytes l -> ld_bytes (st_bytes m a l) a (length l) = l.
Proof.
  intros Hl. apply list_eq. intros i.
  destruct (decide (i < length l)%nat) as [Hi|Hi].
  - rewrite ld_bytes_lookup by done.
    destruct (lookup_lt_is_Some_2 l i Hi) as [x Hx]. rewrite Hx. f_equal.
    rewrite (ld8_st_bytes_in _ _ _ _ x) by done. apply u8_small.
    unfold bytes in Hl. rewrite Forall_lookup in Hl. eauto.
  - rewrite !lookup_ge_None_2; [done|lia|]. rewrite length_ld_bytes. lia.
Qed.

(** A copied run of bytes reads like its source. *)
Lemma ld8_copy m u a b n x : b <= x < b + Z.of_nat n ->
  ld8 (st_bytes u b (ld_bytes m a n)) x = ld8 m (a + (x - b)).
Proof.
  intros Hx. replace x with (b + Z.of_nat (Z.to_nat (x - b))) at 1 by lia.
  rewrite (ld8_st_bytes_in _ _ _ _ (ld8 m (a + (x - b)))).
  - apply u8_u8.
  - rewrite ld_bytes_lookup by lia. by rewrite Z2Nat.id by lia.
Qed.

Lemma ld8_memset_in m a c n b : a <= b < a + Z.of_nat n -> ld8 (memset m a c n) b = u8 c.
Proof.
  intros H. unfold memset. replace b with (a + Z.of_nat (Z.to_nat (b - a))) by lia.
  apply ld8_st_bytes_in. apply lookup_replicate_2. lia.
Qed.

Lemma ld8_memset_out m a c n b :
  b < a \/ a + Z.of_nat n <= b -> ld8 (memset m a c n) b = ld8 m b.
Proof. intros H. unfold memset. apply ld8_st_bytes_out. by rewrite length_replicate. Qed.

Lemma ld32_memset_0 m a n b :
  a <= b -> b + 4 <= a + Z.of_nat n -> ld32 (memset m a 0 n) b = 0.
Proof. intros H1 H2. unfold ld32. rewrite !ld8_memset_in by lia. done. Qed.

(** ** Frames *)

(** Only bytes in [P] may differ between [m] and [m']. *)
Definition changes (P : Z -> Prop) (m m' : mem) : Prop :=
  forall a, ~ P a -> ld8 m' a = ld8 m a.

Definition within (lo hi a : Z) : Prop := lo <= a < hi.
#[export] Instance within_dec lo hi a : Decision (within lo hi a).
Proof. unfold within. apply _. Defined.

Lemma changes_refl P m : changes P m m.
Proof. by intros a. Qed.

Lemma changes_trans P m1 m2 m3 : changes P m1 m2 -> changes P m2 m3 -> changes P m1 m3.
Proof. intros H1 H2 a Ha. rewrite H2 by done. by apply H1. Qed.

Lemma changes_weaken (P P' : Z -> Prop) m m' :
  changes P m m' -> (forall a, P a -> P' a) -> changes P' m m'.
Proof. intros H Hw a Ha. apply H. auto. Qed.

Lemma changes_st32 (P : Z -> Prop) m a v :
  (forall b, within a (a + 4) b -> P b) -> changes P m (st32 m a v).
Proof.
  intros H b Hb. apply ld8_st32_ne. destruct (decide (within a (a + 4) b)) as [|Hn]; [by destruct Hb; auto|].
  unfold within in Hn. lia.
Qed.

Lemma changes_st_bytes (P : Z -> Prop) m a l :
  (forall b, within a (a + Z.of_nat (length l)) b -> P b) -> changes P m (st_bytes m a l).
Proof.
  intros H b Hb. apply ld8_st_bytes_out.
  destruct (decide (within a (a + Z.of_nat (length l)) b)) as [|Hn]; [by destruct Hb; auto|].
  unfold within in Hn. lia.
Qed.

Lemma changes_memset (P : Z -> Prop) m a c n :
  (forall b, within a (a + Z.of_nat n) b -> P b) -> changes P m (memset m a c n).
Proof. intros H. apply changes_st_bytes. by rewrite length_replicate. Qed.

Lemma changes_ld32 P m m' a :
  changes P m m' -> (forall b, within a (a + 4) b -> ~ P b) -> ld32 m' a = ld32 m a.
Proof.
  intros H HP. unfold ld32. rewrite !H; [done|..]; apply HP; unfold within; lia.
Qed.

Lemma changes_none m m' : changes (fun _ => False) m m' -> m' ≡ m.
Proof. intros H a. apply H. intros []. Qed.

(** Writes to disjoint places commute. *)
Lemma ld8_st32 m a v b :
  ld8 (st32 m a v) b = if decide (within a (a + 4) b) then ld8 (st32 ∅ a v) b else ld8 m b.
Proof.
  case_decide as Hin; [|by apply (changes_st32 (within a (a + 4)))].
  unfold st32. rewrite !ld8_st8. unfold within in Hin. repeat case_decide; try done. lia.
Qed.

Lemma memset_st32_comm m a v b c n :
  a + 4 <= b \/ b + Z.of_nat n <= a ->
  memset (st32 m a v) b c n ≡ st32 (memset m b c n) a v.
Proof.
  intros H x. rewrite (ld8_st32 (memset m b c n)). unfold within.
  destruct (decide (within b (b + Z.of_nat n) x)) as [Hin|Hout]; unfold within in *.
  - rewrite ld8_memset_in by done. case_decide; [lia|]. by rewrite ld8_memset_in.
  - rewrite !ld8_memset_out by lia. rewrite ld8_st32. unfold within. done.
Qed.

Lemma st32_st32_comm m a v b w :
  a + 4 <= b \/ b + 4 <= a -> st32 (st32 m a v) b w ≡ st32 (st32 m b w) a v.
Proof.
  intros H x. rewrite (ld8_st32 (st32 m a v)), (ld8_st32 (st32 m b w)), (ld8_st32 m a), (ld8_st32 m b).
  unfold within. repeat case_decide; try done; lia.
Qed.

#[export] Hint Resolve ld8_range ld32_range changes_refl : cmach.
#[export] Hint Rewrite ld8_st8_eq ld32_st32_eq length_ld_bytes : cmach_rw.

(** ** Programs over the memory *)

Definition load8 (a : Z) : prog mem Z := fun _ m => Ret (ld8 m a) m.
Definition load32 (a : Z) : prog mem Z := fun _ m => Ret (ld32 m a) m.
Definition store8 (a v : Z) : prog mem unit := fun _ m => Ret tt (st8 m a v).
Definition store32 (a v : Z) : prog mem unit := fun _ m => Ret tt (st32 m a v).
Definition memsetp (a c : Z) (n : nat) : prog mem unit := fun _ m => Ret tt (memset m a c n).

Definition load_bytes (a n : Z) : prog mem (list Z) := fun _ m => Ret (ld_bytes m a (Z.to_nat n)) m.
Definition store_bytes (a : Z) (l : list Z) : prog mem unit := fun _ m => Ret tt (st_bytes m a l).

(** C's [strlen]: walk to the first zero byte. *)
Definition strlen (a : Z) : prog mem Z :=
  loop (fun n => b ← load8 (a + n); mret (if b =? 0 then inr n else inl (n + 1))) 0.

(** [memcmp(p, l, length l) == 0] against bytes the caller holds. *)
Definition memcmp_eq (a : Z) (l : list Z) : prog mem bool :=
  fun _ m => Ret (bool_decide (ld_bytes m a (length l) = l)) m.

Lemma wp_load8 a fu m (Q : Z -> mem -> Prop) : Q (ld8 m a) m -> wp (load8 a) fu m Q.
Proof. done. Qed.
Lemma wp_load32 a fu m (Q : Z -> mem -> Prop) : Q (ld32 m a) m -> wp (load32 a) fu m Q.
Proof. done. Qed.
Lemma wp_store8 a v fu m (Q : unit -> mem -> Prop) : Q tt (st8 m a v) -> wp (store8 a v) fu m Q.
Proof. done. Qed.
Lemma wp_store32 a v fu m (Q : unit -> mem -> Prop) : Q tt (st32 m a v) -> wp (store32 a v) fu m Q.
Proof. done. Qed.
Lemma wp_memsetp a c n fu m (Q : unit -> mem -> Prop) :
  Q tt (memset m a c n) -> wp (memsetp a c n) fu m Q.
Proof. done. Qed.
Lemma wp_load_bytes a n fu m (Q : list Z -> mem -> Prop) :
  Q (ld_bytes m a (Z.to_nat n)) m -> wp (load_bytes a n) fu m Q.
Proof. done. Qed.
Lemma wp_store_bytes a l fu m (Q : unit -> mem -> Prop) : Q tt (st_bytes m a l) -> wp (store_bytes a l) fu m Q.
Proof. done. Qed.
Lemma wp_memcmp_eq a l fu m (Q : bool -> mem -> Prop) :
  Q (bool_decide (ld_bytes m a (length l) = l)) m -> wp (memcmp_eq a l) fu m Q.
Proof. done. Qed.

(** A C string at [a]: the bytes before the first zero byte. *)
Definition cstring (m : mem) (a : Z) (l : list Z) : Prop :=
  ld_bytes m a (length l) = l /\ ld8 m (a + Z.of_nat (length l)) = 0 /\ Forall (fun b => b <> 0) l.

Lemma cstring_nonzero m a l i :
  cstring m a l -> 0 <= i < Z.of_nat (length l) -> ld8 m (a + i) <> 0.
Proof.
  intros (Hl & _ & Hnz) Hi.
  assert (Hlk : l !! Z.to_nat i = Some (ld8 m (a + i))).
  { rewrite <- Hl. rewrite ld_bytes_lookup by lia. do 3 f_equal. lia. }
  rewrite Forall_lookup in Hnz. eauto.
Qed.

Lemma wp_strlen a l fu m (Q : Z -> mem -> Prop) :
  cstring m a l -> (length l < fu)%nat -> Q (Z.of_nat (length l)) m -> wp (strlen a) fu m Q.
Proof.
  intros Hc Hfu HQ.
  apply (wp_loop (fun n t => t = m /\ 0 <= n <= Z.of_nat (length l))
                 (fun n => length l - Z.to_nat n)%nat); [split; [done|lia]|lia|].
  intros n t [-> Hn]. apply wp_bind, wp_load8, wp_ret.
  destruct (Z.eqb_spec (ld8 m (a + n)) 0) as [H0|H0].
  - destruct (decide (n = Z.of_nat (length l))) as [->|]; [done|].
    exfalso. apply (cstring_nonzero m a l n Hc); [lia|done].
  - destruct (decide (n = Z.of_nat (length l))) as [->|]; [|split; [split; [done|lia]|lia]].
    destruct Hc as (_ & Hz & _). done.
Qed.

(** One step of symbolic execution over the memory. *)
Ltac wp_step :=
  match goal with
  | |- wp (mbind _ _) _ _ _ => apply wp_bind
  | |- wp (mret _) _ _ _ => apply wp_ret
  | |- wp (load8 _) _ _ _ => apply wp_load8
  | |- wp (load32 _) _ _ _ => apply wp_load32
  | |- wp (store8 _ _) _ _ _ => apply wp_store8
  | |- wp (store32 _ _) _ _ _ => apply wp_store32
  | |- wp (memsetp _ _ _) _ _ _ => apply wp_memsetp
  | |- wp (memcmp_eq _ _) _ _ _ => apply wp_memcmp_eq
  | |- wp (load_bytes _ _) _ _ _ => apply wp_load_bytes
  | |- wp (store_bytes _ _) _ _ _ => apply wp_store_bytes
  | |- wp (deref (Some _) _) _ _ _ => apply wp_deref
  | |- wp (when true _) _ _ _ => unfold when
  | |- wp (when false _) _ _ _ => unfold when
  end.
Ltac wp_steps := repeat (wp_step; cbv beta).
