(* ===== verification/OspfsLayout.v ===== *)
(** * OSPFS: the on-disk layout (ospfs.h) and its accessors (ospfsmod.c)

    The disk image [ospfs_data] is the memory of CMemory: an address is the
    offset of a byte from [ospfs_data].  The structures of ospfs.h are given as
    the addresses of their fields, so that inodes, directory entries, bitmap
    words and file data overlap in the memory as they do in the image; the
    records are what a structure at an address holds. *)

From S2P Require Import Prelude CMemory.

(** ** Constants of ospfs.h *)

Definition OSPFS_BLKSIZE_BITS : Z := 10.
Definition OSPFS_BLKSIZE : Z := 1024.
Definition OSPFS_BLKBITSIZE : Z := OSPFS_BLKSIZE * 8.
Definition OSPFS_MAGIC : Z := 0x013101AE.
Definition OSPFS_FREEMAP_BLK : Z := 2.
Definition OSPFS_INODESIZE : Z := 64.
Definition OSPFS_BLKINODES : Z := OSPFS_BLKSIZE / OSPFS_INODESIZE.
Definition OSPFS_NDIRECT : Z := 10.
Definition OSPFS_NINDIRECT : Z := OSPFS_BLKSIZE / 4.
Definition OSPFS_MAXFILEBLKS : Z :=
  OSPFS_NDIRECT + OSPFS_NINDIRECT + OSPFS_NINDIRECT * OSPFS_NINDIRECT.
Definition OSPFS_MAXFILESIZE : Z := OSPFS_MAXFILEBLKS * OSPFS_BLKSIZE.
Definition OSPFS_FTYPE_REG : Z := 0.
Definition OSPFS_FTYPE_DIR : Z := 1.
Definition OSPFS_FTYPE_SYMLINK : Z := 2.
Definition OSPFS_ROOT_INO : Z := 1.
Definition OSPFS_MAXSYMLINKLEN : Z := OSPFS_INODESIZE - 13.
Definition OSPFS_DIRENTRY_SIZE : Z := 128.
Definition OSPFS_MAXNAMELEN : Z := OSPFS_DIRENTRY_SIZE - 5.

(** Linux's errno values that the module returns. *)
Definition EPERM : Z := 1.
Definition ENOENT : Z := 2.
Definition EIO : Z := 5.
Definition ENOMEM : Z := 12.
Definition EFAULT : Z := 14.
Definition EEXIST : Z := 17.
Definition EINVAL : Z := 22.
Definition ENOSPC : Z := 28.
Definition ENAMETOOLONG : Z := 36.

(** ** Structures: the address of each field *)

(** [struct ospfs_super], at the start of block 1. *)
Definition ospfs_super : Z := OSPFS_BLKSIZE.
Definition os_magic (s : Z) : Z := s.
Definition os_nblocks (s : Z) : Z := s + 4.
Definition os_ninodes (s : Z) : Z := s + 8.
Definition os_firstinob (s : Z) : Z := s + 12.

(** [struct ospfs_inode], 64 bytes. *)
Definition oi_size (oi : Z) : Z := oi.
Definition oi_ftype (oi : Z) : Z := oi + 4.
Definition oi_nlink (oi : Z) : Z := oi + 8.
Definition oi_mode (oi : Z) : Z := oi + 12.
Definition oi_direct (oi i : Z) : Z := oi + 16 + 4 * i.
Definition oi_indirect (oi : Z) : Z := oi + 56.
Definition oi_indirect2 (oi : Z) : Z := oi + 60.

(** [struct ospfs_symlink_inode]: the link text starts where [oi_mode] is in an
    ordinary inode. *)
Definition oi_symlink (oi : Z) : Z := oi + 12.

(** [struct ospfs_direntry], 128 bytes. *)
Definition od_ino (od : Z) : Z := od.
Definition od_name (od : Z) : Z := od + 4.

(** ** Structures as values *)

Record ospfs_super_t := OspfsSuper {
  s_magic : Z;
  s_nblocks : Z;
  s_ninodes : Z;
  s_firstinob : Z
}.

Record ospfs_inode_t := OspfsInode {
  i_size : Z;
  i_ftype : Z;
  i_nlink : Z;
  i_mode : Z;
  i_direct : list Z;
  i_indirect : Z;
  i_indirect2 : Z
}.

Record ospfs_direntry_t := OspfsDirentry {
  d_ino : Z;
  d_name : list Z   (* the 124 bytes of [od_name] *)
}.

Definition load_super (m : mem) : ospfs_super_t :=
  OspfsSuper (ld32 m (os_magic ospfs_super)) (ld32 m (os_nblocks ospfs_super))
             (ld32 m (os_ninodes ospfs_super)) (ld32 m (os_firstinob ospfs_super)).

Definition load_inode (m : mem) (oi : Z) : ospfs_inode_t :=
  OspfsInode (ld32 m (oi_size oi)) (ld32 m (oi_ftype oi)) (ld32 m (oi_nlink oi)) (ld32 m (oi_mode oi))
             (map (fun i => ld32 m (oi_direct oi (Z.of_nat i))) (seq 0 10))
             (ld32 m (oi_indirect oi)) (ld32 m (oi_indirect2 oi)).

Definition load_direntry (m : mem) (od : Z) : ospfs_direntry_t :=
  OspfsDirentry (ld32 m (od_ino od)) (ld_bytes m (od_name od) 124).

(** ** Accessors of ospfsmod.c *)

Definition ospfs_size2nblocks (size : Z) : Z :=
  u32 (size + OSPFS_BLKSIZE - 1) / OSPFS_BLKSIZE.

Definition ospfs_block (blockno : Z) : Z := u32 (blockno * OSPFS_BLKSIZE).

Definition ospfs_inode (ino : Z) : prog mem (option Z) :=
  ninodes ← load32 (os_ninodes ospfs_super);
  if ninodes <=? ino then mret None
  else
    firstinob ← load32 (os_firstinob ospfs_super);
    mret (Some (ospfs_block firstinob + OSPFS_INODESIZE * ino)).

Definition ospfs_inode_blockno (oi offset : Z) : prog mem Z :=
  let blockno := offset / OSPFS_BLKSIZE in
  size ← load32 (oi_size oi);
  ftype ← load32 (oi_ftype oi);
  if (size <=? offset) || (ftype =? OSPFS_FTYPE_SYMLINK) then mret 0
  else if OSPFS_NDIRECT + OSPFS_NINDIRECT <=? blockno then
    let blockoff := blockno - (OSPFS_NDIRECT + OSPFS_NINDIRECT) in
    indirect2 ← load32 (oi_indirect2 oi);
    indirect ← load32 (ospfs_block indirect2 + 4 * (blockoff / OSPFS_NINDIRECT));
    load32 (ospfs_block indirect + 4 * (blockoff mod OSPFS_NINDIRECT))
  else if OSPFS_NDIRECT <=? blockno then
    indirect ← load32 (oi_indirect oi);
    load32 (ospfs_block indirect + 4 * (blockno - OSPFS_NDIRECT))
  else load32 (oi_direct oi blockno).

Definition ospfs_inode_data (oi offset : Z) : prog mem Z :=
  blockno ← ospfs_inode_blockno oi offset;
  mret (ospfs_block blockno + offset mod OSPFS_BLKSIZE).

(** ** Facts about the layout *)

Lemma ospfs_block_small b : 0 <= b < 2 ^ 22 -> ospfs_block b = 1024 * b.
Proof. intros H. unfold ospfs_block, OSPFS_BLKSIZE. rewrite u32_small; lia. Qed.

(** The constants, as numbers. *)
Ltac ospfs_consts :=
  unfold OSPFS_MAXFILESIZE, OSPFS_MAXFILEBLKS, OSPFS_NDIRECT, OSPFS_MAXNAMELEN, OSPFS_MAXSYMLINKLEN,
    OSPFS_DIRENTRY_SIZE, OSPFS_BLKINODES, OSPFS_INODESIZE, OSPFS_BLKBITSIZE, OSPFS_FREEMAP_BLK in *;
  change OSPFS_NINDIRECT with 256 in *; unfold OSPFS_BLKSIZE in *.

(** [ospfs_size2nblocks] is the ceiling of [size / 1024] as long as the rounding
    does not overflow 32 bits. *)
Lemma size2nblocks_ceil size :
  0 <= size <= 2 ^ 32 - 1024 -> ospfs_size2nblocks size = (size + 1023) / 1024.
Proof.
  intros H. unfold ospfs_size2nblocks, OSPFS_BLKSIZE. rewrite u32_small by lia.
  f_equal. lia.
Qed.

Lemma size2nblocks_blocks n : 0 <= n < 2 ^ 22 -> ospfs_size2nblocks (n * 1024) = n.
Proof. intros H. rewrite size2nblocks_ceil by lia. divlia. Qed.
