(* ===== verification/OspfsAlloc.v ===== *)
(** * OSPFS: the free-block bitmap (ospfsmod.c, bitvector_* and *_block)

    The bit operations, [allocate_block] and [free_block], and the interface
    [BlockAllocator] that the file operations are proved against. *)

From S2P Require Import Prelude CMemory OspfsLayout.

(** ** Bit vectors *)

Definition bitvector_set (vector i : Z) : prog mem unit :=
  w ← load32 (vector + 4 * (Z.quot i 32));
  store32 (vector + 4 * (Z.quot i 32)) (Z.lor w (u32 (Z.shiftl 1 (Z.rem i 32)))).

Definition bitvector_clear (vector i : Z) : prog mem unit :=
  w ← load32 (vector + 4 * (Z.quot i 32));
  store32 (vector + 4 * (Z.quot i 32)) (Z.land w (u32 (Z.lnot (Z.shiftl 1 (Z.rem i 32))))).

Definition bitvector_test (vector i : Z) : prog mem Z :=
  w ← load32 (vector + 4 * (Z.quot i 32));
  mret (if Z.land w (u32 (Z.shiftl 1 (Z.rem i 32))) =? 0 then 0 else 1).

(** ** Allocation *)

Definition allocate_block : prog mem Z :=
  firstinob ← load32 (os_firstinob ospfs_super);
  r ← for_ret (Z.to_nat (firstinob - 2)) 2 (fun hold =>
        for_ret 1024 0 (fun empty_block =>
          t ← bitvector_test (ospfs_block hold) empty_block;
          if t =? 1 then
            bitvector_clear (ospfs_block hold) empty_block;;
            mret (Some (u32 (empty_block + 1024 * (hold - 2))))
          else mret None));
  mret (default 0 r).

(** The [while (blockno > 1023)] loop tests a variable that its body does not
    change; the state of the loop is [(bitmap_pos, bitmap_blk)]. *)
Definition free_block (blockno : Z) : prog mem unit :=
  firstinob ← load32 (os_firstinob ospfs_super);
  ninodes ← load32 (os_ninodes ospfs_super);
  let start_data := u32 (firstinob + ninodes / OSPFS_BLKINODES) in
  if blockno <? start_data then mret tt
  else
    '(bitmap_pos, bitmap_blk) ← loop (fun '(bitmap_pos, bitmap_blk) =>
        mret (if 1023 <? blockno
              then inl (u32 (bitmap_pos - 1024), u32 (bitmap_blk + 1))
              else inr (bitmap_pos, bitmap_blk))) (blockno, 0);
    bitvector_set (ospfs_block (2 + bitmap_blk)) bitmap_pos.

(** ** The bits of a vector *)

Definition bit (m : mem) (vector i : Z) : bool :=
  Z.testbit (ld32 m (vector + 4 * (i / 32))) (i mod 32).

Lemma quot_rem_32 i : 0 <= i -> Z.quot i 32 = i / 32 /\ Z.rem i 32 = i mod 32.
Proof. intros H. rewrite Z.quot_div_nonneg, Z.rem_mod_nonneg by lia. done. Qed.

Lemma testbit_pow2 k j : 0 <= k -> Z.testbit (Z.shiftl 1 k) j = bool_decide (j = k).
Proof.
  intros Hk. rewrite Z.shiftl_1_l. case_bool_decide as H.
  - subst. by apply Z.pow2_bits_true.
  - by apply Z.pow2_bits_false.
Qed.

Lemma land_pow2_0 w k :
  0 <= k < 32 -> (Z.land w (u32 (Z.shiftl 1 k)) =? 0) = negb (Z.testbit w k).
Proof.
  intros Hk. destruct (Z.testbit w k) eqn:Hw; cbn.
  - apply Z.eqb_neq. intros H0. apply (f_equal (fun z => Z.testbit z k)) in H0.
    rewrite Z.land_spec, testbit_u32, testbit_pow2, Hw, Z.bits_0 in H0 by lia.
    by rewrite bool_decide_eq_true_2 in H0.
  - apply Z.eqb_eq, Z.bits_inj'. intros j Hj. rewrite Z.bits_0, Z.land_spec.
    destruct (decide (j < 32)).
    + rewrite testbit_u32, testbit_pow2 by lia. case_bool_decide; subst; by rewrite ?Hw, ?andb_false_r.
    + unfold u32. rewrite Z.mod_pow2_bits_high by lia. by rewrite andb_false_r.
Qed.

(** A store to the word of bit [i] that sets bit [i] to [v] and keeps the other
    bits of the word, seen bit by bit. *)
Lemma bit_update m vector i w v :
  0 <= i ->
  (forall j, 0 <= j < 32 ->
     Z.testbit w j = if decide (j = i mod 32) then v else Z.testbit (ld32 m (vector + 4 * (i / 32))) j) ->
  forall j, 0 <= j ->
    bit (st32 m (vector + 4 * (i / 32)) w) vector j = if decide (j = i) then v else bit m vector j.
Proof.
  intros Hi Hw j Hj. unfold bit. destruct (decide (j / 32 = i / 32)) as [He|Hne].
  - rewrite He, ld32_st32_eq, testbit_u32 by divlia.
    rewrite Hw by divlia. repeat case_decide; try done; exfalso; divlia.
  - rewrite ld32_st32_ne by divlia. case_decide; [by subst|done].
Qed.

Lemma wp_bitvector_test vector i fu m (Q : Z -> mem -> Prop) :
  0 <= i -> Q (if bit m vector i then 1 else 0) m -> wp (bitvector_test vector i) fu m Q.
Proof.
  intros Hi HQ. unfold bitvector_test. destruct (quot_rem_32 i Hi) as [-> ->].
  wp_steps. rewrite land_pow2_0 by divlia. unfold bit in HQ. by destruct (Z.testbit _ _).
Qed.

(** The word that holds bit [i]. *)
Definition bit_word (vector i : Z) : Z -> Prop :=
  within (vector + 4 * (i / 32)) (vector + 4 * (i / 32) + 4).

Lemma wp_bitvector_set vector i fu m (Q : unit -> mem -> Prop) :
  0 <= i ->
  (forall m', changes (bit_word vector i) m m' ->
     (forall j, 0 <= j -> bit m' vector j = if decide (j = i) then true else bit m vector j) ->
     Q tt m') ->
  wp (bitvector_set vector i) fu m Q.
Proof.
  intros Hi HQ. unfold bitvector_set. destruct (quot_rem_32 i Hi) as [-> ->].
  wp_steps. apply HQ; [by apply changes_st32|].
  apply bit_update; [done|]. intros j Hj.
  rewrite Z.lor_spec, testbit_u32, testbit_pow2 by divlia.
  case_decide; case_bool_decide; try done; by rewrite ?orb_true_r, ?orb_false_r.
Qed.

Lemma wp_bitvector_clear vector i fu m (Q : unit -> mem -> Prop) :
  0 <= i ->
  (forall m', changes (bit_word vector i) m m' ->
     (forall j, 0 <= j -> bit m' vector j = if decide (j = i) then false else bit m vector j) ->
     Q tt m') ->
  wp (bitvector_clear vector i) fu m Q.
Proof.
  intros Hi HQ. unfold bitvector_clear. destruct (quot_rem_32 i Hi) as [-> ->].
  wp_steps. apply HQ; [by apply changes_st32|].
  apply bit_update; [done|]. intros j Hj.
  rewrite Z.land_spec, testbit_u32, Z.lnot_spec, testbit_pow2 by divlia.
  case_decide; case_bool_decide; try done; by rewrite ?andb_true_r, ?andb_false_r.
Qed.

(** ** The file system's shared state *)

(** Block [b]'s bit in the free-block bitmap: 1 means free. *)
Definition is_free (m : mem) (b : Z) : bool := bit m (ospfs_block OSPFS_FREEMAP_BLK) b.

(** The abstract state of the allocator: the free blocks below 1024, in order. *)
Definition free_list (m : mem) : list Z :=
  filter (fun b => is_free m b = true) (seqZ 0 1024).

(** The first block after the inode table. *)
Definition data_start (m : mem) : Z := 3 + (ld32 m (os_ninodes ospfs_super) + 15) / 16.

(** What ospfsformat establishes and the module relies on: one bitmap block (an
    image has at most 8192 blocks), hence inodes from block 3 on, and no block
    of the boot sector, superblock, bitmap or inode table marked free. *)
Record fs_ok (m : mem) : Prop := FsOk {
  fs_firstinob : ld32 m (os_firstinob ospfs_super) = 3;
  fs_start : data_start m <= 1024;
  fs_reserved : forall b, b ∈ free_list m -> data_start m <= b
}.

(** The bytes of the bitmap that describe blocks 0 to 1023, and the bytes of the
    superblock. *)
Definition bitmap_area : Z -> Prop := within 2048 2176.
Definition super_area : Z -> Prop := within 1024 1040.

(** The contents of block [b]. *)
Definition in_block (b : Z) : Z -> Prop := within (1024 * b) (1024 * b + 1024).

(** What the allocator promises to the file operations, on the free list. *)
Class BlockAllocator (alloc : prog mem Z) (free : Z -> prog mem unit) : Prop := {
  (** A full disk is reported by 0 and left as it is; otherwise the head of the
      free list is taken off the list and returned. *)
  alloc_law : forall fu m (Q : Z -> mem -> Prop), fs_ok m ->
    (free_list m = [] -> Q 0 m) ->
    (forall b l m', free_list m = b :: l -> free_list m' = l -> changes bitmap_area m m' -> Q b m') ->
    wp alloc fu m Q;
  (** A data block is put back on the free list. *)
  free_law : forall b fu m (Q : unit -> mem -> Prop), fs_ok m -> (0 < fu)%nat ->
    data_start m <= b < 1024 ->
    (forall m', (forall j, j ∈ free_list m' <-> j = b \/ j ∈ free_list m) ->
       changes bitmap_area m m' -> Q tt m') ->
    wp (free b) fu m Q;
  (** Block 0 is never freed. *)
  free_law_0 : forall fu m (Q : unit -> mem -> Prop), fs_ok m -> Q tt m -> wp (free 0) fu m Q
}.

Lemma elem_of_free_list m b : b ∈ free_list m <-> is_free m b = true /\ 0 <= b < 1024.
Proof. unfold free_list. rewrite list_elem_of_filter, elem_of_seqZ. split; intros [? ?]; (split; [done|lia]). Qed.

Lemma free_list_NoDup m : NoDup (free_list m).
Proof. apply NoDup_filter, NoDup_seqZ. Qed.

Lemma free_list_ext m m' : (forall j, j ∈ free_list m' <-> j ∈ free_list m) -> free_list m' = free_list m.
Proof.
  intros H. apply filter_ext_in. intros j Hj%elem_of_seqZ.
  specialize (H j). rewrite !elem_of_free_list in H. naive_solver lia.
Qed.
(** The scan of one bitmap block: it stops at the lowest set bit. *)
Lemma wp_scan_bits hold fu m (Q : option Z -> mem -> Prop) :
  ((forall j, 0 <= j < 1024 -> bit m (ospfs_block hold) j = false) -> Q None m) ->
  (forall e m', 0 <= e < 1024 -> bit m (ospfs_block hold) e = true ->
     (forall j, 0 <= j < e -> bit m (ospfs_block hold) j = false) ->
     changes (bit_word (ospfs_block hold) e) m m' ->
     (forall j, 0 <= j -> bit m' (ospfs_block hold) j = if decide (j = e) then false else bit m (ospfs_block hold) j) ->
     Q (Some (u32 (e + 1024 * (hold - 2)))) m') ->
  wp (for_ret 1024 0 (fun empty_block =>
          t ← bitvector_test (ospfs_block hold) empty_block;
          if t =? 1 then
            bitvector_clear (ospfs_block hold) empty_block;;
            mret (Some (u32 (empty_block + 1024 * (hold - 2))))
          else mret None)) fu m Q.
Proof.
  intros Hnone Hsome.
  apply (wp_for_ret (fun e t => t = m /\ forall j, 0 <= j < e -> bit m (ospfs_block hold) j = false)).
  - split; [done|lia].
  - intros e t He [-> Hlow]. apply wp_bind, wp_bitvector_test; [lia|].
    destruct (bit m (ospfs_block hold) e) eqn:Hb; cbn [Z.eqb Pos.eqb].
    + apply wp_bind, wp_bitvector_clear; [lia|]. intros m' Hch Hbits.
      by apply wp_ret, Hsome.
    + apply wp_ret. split; [done|]. intros j Hj.
      destruct (decide (j = e)) as [->|]; [done|]. apply Hlow. lia.
  - intros t [-> Hall]. apply Hnone. intros j Hj. apply Hall. lia.
Qed.

(** Nothing but the superblock and the bitmap matters to [fs_ok]. *)
Lemma data_start_frame P m m' :
  changes P m m' -> (forall a, super_area a -> ~ P a) -> data_start m' = data_start m.
Proof.
  intros H HP. unfold data_start. rewrite (changes_ld32 P m m'); [done|done|].
  intros b Hb. apply HP. revert Hb.
  unfold within, super_area, os_ninodes, ospfs_super, OSPFS_BLKSIZE, within. lia.
Qed.

Lemma fs_ok_frame P m m' :
  fs_ok m -> changes P m m' -> (forall a, super_area a -> ~ P a) ->
  (forall b, b ∈ free_list m' -> data_start m <= b) -> fs_ok m'.
Proof.
  intros Hok Hch HP Hfree. pose proof (data_start_frame P m m' Hch HP) as Hds. split.
  - rewrite (changes_ld32 P m m'); [apply Hok|done|].
    intros b Hb. apply HP. revert Hb.
    unfold within, super_area, os_firstinob, ospfs_super, OSPFS_BLKSIZE, within. lia.
  - rewrite Hds. apply Hok.
  - intros b Hb. rewrite Hds. by apply Hfree.
Qed.

Lemma free_list_frame P m m' :
  changes P m m' -> (forall a, bitmap_area a -> ~ P a) -> free_list m' = free_list m.
Proof.
  intros H HP. apply filter_ext_in. intros b Hb%elem_of_seqZ.
  unfold is_free, bit. rewrite (changes_ld32 P m m'); [done|done|].
  intros a Ha. apply HP. revert Ha. rewrite ospfs_block_small by (unfold OSPFS_FREEMAP_BLK; lia).
  unfold within, bitmap_area, OSPFS_FREEMAP_BLK, within. divlia.
Qed.

Lemma super_not_bitmap a : super_area a -> ~ bitmap_area a.
Proof. unfold super_area, bitmap_area, within. lia. Qed.

Lemma data_start_ge m : 3 <= data_start m.
Proof. unfold data_start. pose proof (ld32_range m (os_ninodes ospfs_super)). divlia. Qed.

Lemma bit_word_area b a : 0 <= b < 1024 -> bit_word (ospfs_block 2) b a -> bitmap_area a.
Proof.
  intros Hb. rewrite ospfs_block_small by lia.
  unfold bit_word, bitmap_area, within. divlia.
Qed.

Lemma wp_allocate_block fu m (Q : Z -> mem -> Prop) :
  fs_ok m ->
  (free_list m = [] -> Q 0 m) ->
  (forall b l m', free_list m = b :: l -> free_list m' = l -> changes bitmap_area m m' -> Q b m') ->
  wp allocate_block fu m Q.
Proof.
  intros Hok Hfull Hfree. unfold allocate_block. do 2 wp_step.
  rewrite (fs_firstinob m Hok). change (Z.to_nat (3 - 2)) with 1%nat. rewrite for_ret_1.
  apply wp_bind, wp_bind, wp_scan_bits.
  - intros Hnone. do 2 wp_step. apply Hfull, filter_none.
    intros j Hj%elem_of_seqZ. unfold is_free, OSPFS_FREEMAP_BLK. rewrite Hnone by lia. done.
  - intros e m' He Hset Hlow Hch Hbits. do 2 wp_step. cbn [default id].
    replace (u32 (e + 1024 * (2 - 2))) with e by (rewrite u32_small; lia).
    apply (Hfree e (free_list m')); [|done|].
    + apply filter_seqZ_first; unfold is_free, OSPFS_FREEMAP_BLK; [done|done| |].
      * intros j Hj. by rewrite Hlow.
      * intros j Hj. rewrite Hbits by lia. case_decide; naive_solver.
    + eapply changes_weaken; [done|]. intros a. by apply bit_word_area.
Qed.

Lemma free_start_small m : fs_ok m ->
  u32 (ld32 m (os_firstinob ospfs_super) + ld32 m (os_ninodes ospfs_super) / OSPFS_BLKINODES)
  = 3 + ld32 m (os_ninodes ospfs_super) / 16.
Proof.
  intros Hok. pose proof (fs_start m Hok) as Hs. unfold data_start in Hs.
  pose proof (ld32_range m (os_ninodes ospfs_super)).
  change OSPFS_BLKINODES with 16. rewrite (fs_firstinob m Hok), u32_small; divlia.
Qed.

(** [free_block] for a block that one bitmap scan can reach. *)
Lemma wp_free_block b fu m (Q : unit -> mem -> Prop) :
  fs_ok m -> (0 < fu)%nat -> data_start m <= b < 1024 ->
  (forall m', (forall j, j ∈ free_list m' <-> j = b \/ j ∈ free_list m) ->
     changes bitmap_area m m' -> Q tt m') ->
  wp (free_block b) fu m Q.
Proof.
  intros Hok Hfu Hb HQ. unfold free_block. do 4 wp_step. rewrite (free_start_small m Hok).
  pose proof (data_start_ge m).
  assert (Hlt : (b <? 3 + ld32 m (os_ninodes ospfs_super) / 16) = false).
  { apply Z.ltb_ge. unfold data_start in Hb. divlia. }
  rewrite Hlt. apply wp_bind.
  apply (wp_loop (fun s t => s = (b, 0) /\ t = m) (fun _ => 0%nat)); [done|lia|].
  intros s t [-> ->]. apply wp_ret. replace (1023 <? b) with false by (symmetry; apply Z.ltb_ge; lia).
  apply wp_bitvector_set; [lia|]. intros m' Hch Hbits. apply HQ.
  - intros j. rewrite !elem_of_free_list. unfold is_free, OSPFS_FREEMAP_BLK.
    destruct (decide (0 <= j < 1024)) as [Hj|]; [|naive_solver lia].
    rewrite Hbits by lia. case_decide; naive_solver lia.
  - eapply changes_weaken; [done|]. intros a. apply bit_word_area. lia.
Qed.

Lemma wp_free_block_reserved b fu m (Q : unit -> mem -> Prop) :
  fs_ok m -> b < 3 -> Q tt m -> wp (free_block b) fu m Q.
Proof.
  intros Hok Hb HQ. unfold free_block. do 4 wp_step. rewrite (free_start_small m Hok).
  pose proof (ld32_range m (os_ninodes ospfs_super)).
  replace (b <? _) with true; [by apply wp_ret|].
  symmetry. apply Z.ltb_lt. divlia.
Qed.

#[export] Instance ospfs_allocator : BlockAllocator allocate_block free_block.
Proof.
  split.
  - intros. by apply wp_allocate_block.
  - intros. by apply (wp_free_block b).
  - intros. by apply wp_free_block_reserved.
Qed.
