(* ===== verification/OspfsFile.v ===== *)
(** * OSPFS: growing and shrinking files (ospfsmod.c, add_block to change_size) *)

From S2P Require Import Prelude CMemory OspfsLayout OspfsAlloc.

(** ** The index functions, as the module leaves them *)

Definition indir2_index (b : Z) : Z := -1.
Definition indir_index (b : Z) : Z := -1.
Definition direct_index (b : Z) : Z := -1.

(** ** add_block *)

(** [for(i = 0; i < OSPFS_NINDIRECT + 1; i++) if(block_contents[i + 1] == 0) break;] *)
Definition last_indirect (block_contents : Z) : prog mem Z :=
  r ← for_ret (Z.to_nat (OSPFS_NINDIRECT + 1)) 0 (fun i =>
        w ← load32 (block_contents + 4 * (i + 1));
        mret (if w =? 0 then Some i else None));
  mret (default (OSPFS_NINDIRECT + 1) r).

(** [for(i = 0; i < OSPFS_NINDIRECT; i++) if(block_contents[i] == 0) break;] *)
Definition first_zero (block_contents : Z) : prog mem Z :=
  r ← for_ret (Z.to_nat OSPFS_NINDIRECT) 0 (fun i =>
        w ← load32 (block_contents + 4 * i);
        mret (if w =? 0 then Some i else None));
  mret (default OSPFS_NINDIRECT r).

(** [oi->oi_size = (n + 1) * OSPFS_BLKSIZE; return 0;] *)
Definition add_block_done (oi n : Z) : prog mem Z :=
  store32 (oi_size oi) (u32 ((n + 1) * OSPFS_BLKSIZE));;
  mret 0.

(** The branch [n < OSPFS_NINDIRECT + OSPFS_NDIRECT]. *)
Definition add_block_indirect (oi n new_block : Z) : prog mem Z :=
  old ← load32 (oi_indirect oi);
  indirect ← (if old =? 0 then allocate_block else mret 0);
  if (old =? 0) && (indirect =? 0) then
    free_block new_block;;
    mret (- ENOSPC)
  else
    when (old =? 0) (store32 (oi_indirect oi) indirect);;
    ind ← load32 (oi_indirect oi);
    let block_contents := ospfs_block ind in
    when (negb (indirect =? 0)) (memsetp block_contents 0 (Z.to_nat OSPFS_BLKSIZE));;
    store32 (block_contents + 4 * (n - OSPFS_NDIRECT)) new_block;;
    add_block_done oi n.

(** The branch [n < OSPFS_MAXFILEBLKS]: [indirect2] is the block allocated here
    for the doubly-indirect block, 0 when there was one already. *)
Definition add_block_indirect2 (oi n new_block : Z) : prog mem Z :=
  old ← load32 (oi_indirect2 oi);
  indirect2 ← (if old =? 0 then allocate_block else mret 0);
  if (old =? 0) && (indirect2 =? 0) then
    free_block new_block;;
    mret (- ENOSPC)
  else
    when (old =? 0) (store32 (oi_indirect2 oi) indirect2);;
    ind2 ← load32 (oi_indirect2 oi);
    let block_contents := ospfs_block ind2 in
    if negb (indirect2 =? 0) then
      memsetp block_contents 0 (Z.to_nat OSPFS_BLKSIZE);;
      indirect ← allocate_block;
      if indirect =? 0 then
        free_block indirect2;;
        free_block new_block;;
        mret (- ENOSPC)
      else
        store32 block_contents indirect;;
        memsetp (ospfs_block indirect) 0 (Z.to_nat OSPFS_BLKSIZE);;
        store32 (ospfs_block indirect) new_block;;
        add_block_done oi n
    else
      last ← last_indirect block_contents;
      l ← load32 (block_contents + 4 * last);
      i ← first_zero (ospfs_block l);
      if i =? OSPFS_NINDIRECT then
        indirect ← allocate_block;
        if indirect =? 0 then
          free_block new_block;;
          mret (- ENOSPC)
        else
          memsetp (ospfs_block indirect) 0 (Z.to_nat OSPFS_BLKSIZE);;
          store32 (ospfs_block indirect) new_block;;
          ind2' ← load32 (oi_indirect2 oi);
          store32 (ospfs_block ind2' + 4 * (last + 1)) indirect;;
          add_block_done oi n
      else
        store32 (ospfs_block l + 4 * i) new_block;;
        add_block_done oi n.

Definition add_block (oi : Z) : prog mem Z :=
  size ← load32 (oi_size oi);
  let n := ospfs_size2nblocks size in
  new_block ← allocate_block;
  if new_block =? 0 then mret (- ENOSPC)
  else
    memsetp (ospfs_block new_block) 0 (Z.to_nat OSPFS_BLKSIZE);;
    if n <? OSPFS_NDIRECT then
      store32 (oi_direct oi n) new_block;;
      add_block_done oi n
    else if n <? OSPFS_NINDIRECT + OSPFS_NDIRECT then add_block_indirect oi n new_block
    else if n <? OSPFS_MAXFILEBLKS then add_block_indirect2 oi n new_block
    else
      free_block new_block;;
      mret (- EIO).

(** ** remove_block *)

Definition remove_block_done (oi n : Z) : prog mem Z :=
  store32 (oi_size oi) (u32 ((n - 1) * OSPFS_BLKSIZE));;
  mret 0.

(** The branch [n <= OSPFS_NDIRECT + OSPFS_NINDIRECT]. *)
Definition remove_block_indirect (oi n : Z) : prog mem Z :=
  ind ← load32 (oi_indirect oi);
  if ind =? 0 then mret (- EIO)
  else
    let block_contents := ospfs_block ind in
    if n =? OSPFS_NDIRECT + 1 then
      b ← load32 block_contents;
      free_block b;;
      store32 block_contents 0;;
      ind' ← load32 (oi_indirect oi);
      free_block ind';;
      store32 (oi_indirect oi) 0;;
      remove_block_done oi n
    else
      let i := n - OSPFS_NDIRECT - 1 in
      b ← load32 (block_contents + 4 * i);
      free_block b;;
      store32 (block_contents + 4 * i) 0;;
      remove_block_done oi n.

(** The branch [n <= OSPFS_MAXFILEBLKS]. *)
Definition remove_block_indirect2 (oi n : Z) : prog mem Z :=
  ind2 ← load32 (oi_indirect2 oi);
  if ind2 =? 0 then mret (- EIO)
  else
    let j := (n - OSPFS_NDIRECT - OSPFS_NINDIRECT - 1) mod OSPFS_NINDIRECT in
    i ← first_zero (ospfs_block ind2);
    if i =? 0 then mret (- EIO)
    else
      l ← load32 (ospfs_block ind2 + 4 * (i - 1));
      b ← load32 (ospfs_block l + 4 * j);
      free_block b;;
      store32 (ospfs_block l + 4 * j) 0;;
      when (j =? 0) (
        ind2' ← load32 (oi_indirect2 oi);
        let block_contents := ospfs_block ind2' in
        l' ← load32 (block_contents + 4 * (i - 1));
        free_block l';;
        store32 (block_contents + 4 * (i - 1)) 0;;
        when (i =? 1) (
          b0 ← load32 block_contents;
          free_block b0;;
          store32 block_contents 0;;
          ind2'' ← load32 (oi_indirect2 oi);
          free_block ind2'';;
          store32 (oi_indirect2 oi) 0));;
      remove_block_done oi n.

Definition remove_block (oi : Z) : prog mem Z :=
  size ← load32 (oi_size oi);
  let n := ospfs_size2nblocks size in
  if n =? 0 then mret 0
  else if n <=? OSPFS_NDIRECT then
    b ← load32 (oi_direct oi (n - 1));
    when (negb (b =? 0)) (b' ← load32 (oi_direct oi (n - 1)); free_block b');;
    store32 (oi_direct oi (n - 1)) 0;;
    remove_block_done oi n
  else if n <=? OSPFS_NDIRECT + OSPFS_NINDIRECT then remove_block_indirect oi n
  else if n <=? OSPFS_MAXFILEBLKS then remove_block_indirect2 oi n
  else mret (- EIO).

(** ** change_size *)

(** [while (old_size_blocks + block_count < new_size_blocks)]: the state is
    [block_count]; the loop ends with [block_count] and the last [r]. *)
Definition grow_loop (oi old_size_blocks new_size_blocks : Z) : prog mem (Z * Z) :=
  loop (fun '(block_count, r) =>
    if u32 (old_size_blocks + block_count) <? new_size_blocks then
      r' ← add_block oi;
      if r' <? 0 then mret (inr (block_count + 1, r'))
      else mret (inl (block_count + 1, r'))
    else mret (inr (block_count, r))) (0, 0).

Definition shrink_loop (oi old_size_blocks new_size_blocks : Z) : prog mem (Z * Z) :=
  loop (fun '(block_count, r) =>
    if u32 (new_size_blocks + block_count) <? old_size_blocks then
      r' ← remove_block oi;
      if r' <? 0 then mret (inr (block_count + 1, r'))
      else mret (inl (block_count + 1, r'))
    else mret (inr (block_count, r))) (0, 0).

(** The [abort:] label. *)
Definition change_size_abort (oi block_count r : Z) : prog mem Z :=
  if r =? - ENOSPC then
    loop (fun block_count =>
      if 0 <? block_count then
        r' ← remove_block oi;
        if r' <? 0 then mret (inr (- EIO)) else mret (inl (block_count - 1))
      else mret (inr r)) block_count
  else mret r.

Definition change_size (oi new_size : Z) : prog mem Z :=
  size ← load32 (oi_size oi);
  let old_size_blocks := ospfs_size2nblocks size in
  let new_size_blocks := ospfs_size2nblocks new_size in
  '(block_count, r) ← grow_loop oi old_size_blocks new_size_blocks;
  if r <? 0 then change_size_abort oi block_count r
  else
    '(block_count', r') ←
      (if block_count =? 0 then shrink_loop oi old_size_blocks new_size_blocks
       else mret (block_count, r));
    if r' <? 0 then change_size_abort oi block_count' r'
    else
      store32 (oi_size oi) new_size;;
      mret 0.
