(* ===== verification/OspfsTree.v ===== *)
(** * OSPFS: the block tree of a file

    A file owns blocks in four roles: the data blocks, the indirect block, the
    doubly-indirect block and the indirect blocks under it.  Each role has one
    slot, the word of the image that holds its block number.  [tree_ok] says
    that a set of roles is well formed: its blocks are distinct data blocks that
    are not free, and the unused slots of its index blocks hold 0.  Growing a
    file attaches roles, shrinking it detaches them; the lemmas here are the
    two, and the frame property. *)

From S2P Require Import Prelude CMemory OspfsLayout OspfsAlloc.

(** ** Roles and slots *)

Inductive role : Type :=
| RData (i : Z)   (* the [i]th data block of the file *)
| RInd            (* oi_indirect *)
| RInd2           (* oi_indirect2 *)
| RL1 (j : Z).    (* the [j]th indirect block under oi_indirect2 *)

#[export] Instance role_eq_dec : EqDecision role.
Proof. solve_decision. Defined.

(** The index block that holds a role's slot; [None] is the inode itself. *)
Definition parent (r : role) : option role :=
  match r with
  | RInd | RInd2 => None
  | RL1 _ => Some RInd2
  | RData i =>
      if i <? 10 then None else if i <? 266 then Some RInd else Some (RL1 ((i - 266) / 256))
  end.

(** The slot's byte offset from the inode or from the start of the index block. *)
Definition offset (r : role) : Z :=
  match r with
  | RInd => 56
  | RInd2 => 60
  | RL1 j => 4 * j
  | RData i =>
      if i <? 10 then 16 + 4 * i else if i <? 266 then 4 * (i - 10) else 4 * ((i - 266) mod 256)
  end.

Definition valid (r : role) : Prop :=
  match r with
  | RData i => 0 <= i < OSPFS_MAXFILEBLKS
  | RL1 j => 0 <= j < 256
  | RInd | RInd2 => True
  end.

Definition slot (m : mem) (oi : Z) (r : role) : Z :=
  match r with
  | RInd | RInd2 => oi + offset r
  | RL1 _ => ospfs_block (ld32 m (oi + 60)) + offset r
  | RData i =>
      if i <? 10 then oi + offset r
      else if i <? 266 then ospfs_block (ld32 m (oi + 56)) + offset r
      else ospfs_block (ld32 m (ospfs_block (ld32 m (oi + 60)) + 4 * ((i - 266) / 256))) + offset r
  end.

Definition blk (m : mem) (oi : Z) (r : role) : Z := ld32 m (slot m oi r).

#[export] Instance slot_proper : Proper ((≡@{mem}) ==> eq ==> eq ==> eq) slot.
Proof. intros m1 m2 H oi ? <- r ? <-. unfold slot. destruct r; by rewrite ?H. Qed.

#[export] Instance blk_proper : Proper ((≡@{mem}) ==> eq ==> eq ==> eq) blk.
Proof. intros m1 m2 H oi ? <- r ? <-. unfold blk. by rewrite H. Qed.

Lemma slot_unfold m oi r :
  slot m oi r = match parent r with
                | None => oi + offset r
                | Some q => ospfs_block (blk m oi q) + offset r
                end.
Proof. destruct r as [i| | |j]; cbn; try done. by destruct (i <? 10), (i <? 266). Qed.

Definition depth (r : role) : nat :=
  match r with RInd | RInd2 => 0 | RL1 _ => 1 | RData _ => 2 end.

Lemma parent_depth r q : parent r = Some q -> (depth q < depth r)%nat.
Proof.
  destruct r as [i| | |j]; cbn; try done; [|intros [= <-]; cbn; lia].
  destruct (i <? 10); [done|]. destruct (i <? 266); intros [= <-]; cbn; lia.
Qed.

Lemma valid_parent r q : valid r -> parent r = Some q -> valid q.
Proof.
  destruct r as [i| | |j]; cbn; try done; [|by intros ? [= <-]].
  intros Hi. ospfs_consts. zcases; intros [= <-]; cbn; [done|]. divlia.
Qed.

Lemma offset_inode r : valid r -> parent r = None -> 16 <= offset r /\ offset r + 4 <= 64.
Proof. destruct r as [i| | |j]; cbn; zcases; try done; lia. Qed.

Lemma offset_block r q : valid r -> parent r = Some q -> 0 <= offset r /\ offset r + 4 <= 1024.
Proof. destruct r as [i| | |j]; cbn; zcases; try done; intros; divlia. Qed.

(** Two roles in the same index block (or inode) have slots that do not overlap. *)
Lemma offset_inj r r' : valid r -> valid r' -> parent r = parent r' -> r <> r' ->
  offset r + 4 <= offset r' \/ offset r' + 4 <= offset r.
Proof.
  destruct r as [i| | |j], r' as [i'| | |j']; cbn; ospfs_consts; intros Hv Hv' Hp Hne;
    try done; revert Hp; zcases; intros Hp; simplify_eq/=; try lia;
    try (assert (i <> i') by congruence); try (assert (j <> j') by congruence); divlia.
Qed.

(** ** Well-formed trees *)

(** The shape of a tree whose blocks are blocks from [lo] on: of the free list it
    says nothing. *)
Record tree_in (lo : Z) (m : mem) (oi : Z) (L : role -> Prop) : Prop := TreeIn {
  (** the inode lies in the inode table *)
  tr_inode : 3072 <= oi /\ oi + 64 <= 1024 * lo;
  (** the roles are valid, and closed under index blocks *)
  tr_valid : forall r, L r -> valid r;
  tr_closed : forall r q, L r -> parent r = Some q -> L q;
  (** every role has a block of its own *)
  tr_range : forall r, L r -> lo <= blk m oi r < 2 ^ 22;
  tr_inj : forall r r', L r -> L r' -> blk m oi r = blk m oi r' -> r = r';
  (** the unused slots of index blocks, and the unused index slots of the inode, are 0 *)
  tr_zero : forall r q, ~ L r -> valid r -> parent r = Some q -> L q -> blk m oi r = 0;
  tr_zero_ind : ~ L RInd -> blk m oi RInd = 0;
  tr_zero_ind2 : ~ L RInd2 -> blk m oi RInd2 = 0
}.
Arguments tr_inode {lo} m oi L _.
Arguments tr_valid {lo} m oi L _ r _.
Arguments tr_closed {lo} m oi L _ r q _ _.
Arguments tr_range {lo} m oi L _ r _.
Arguments tr_inj {lo} m oi L _ r r' _ _ _.
Arguments tr_zero {lo} m oi L _ r q _ _ _ _.
Arguments tr_zero_ind {lo} m oi L _ _.
Arguments tr_zero_ind2 {lo} m oi L _ _.

(** A well-formed tree: its blocks are data blocks that are not free. *)
Record tree_ok (m : mem) (oi : Z) (L : role -> Prop) : Prop := TreeOk {
  tr_tree :> tree_in (data_start m) m oi L;
  tr_used : forall r, L r -> data_start m <= blk m oi r < 1024 /\ blk m oi r ∉ free_list m
}.

Lemma tree_in_iff lo m oi (L L' : role -> Prop) :
  (forall r, L r <-> L' r) -> tree_in lo m oi L -> tree_in lo m oi L'.
Proof.
  intros H T. split.
  - apply T.
  - intros r Hr. apply T. by apply H.
  - intros r q Hr Hq. apply H. eapply T; [by apply H|done].
  - intros r Hr. apply T. by apply H.
  - intros r r' Hr Hr'. apply T; by apply H.
  - intros r q Hr Hv Hp Hq. eapply T; [by rewrite H|done|done|by apply H].
  - intros Hr. apply T. by rewrite H.
  - intros Hr. apply T. by rewrite H.
Qed.

Lemma tree_ok_iff m oi (L L' : role -> Prop) :
  (forall r, L r <-> L' r) -> tree_ok m oi L -> tree_ok m oi L'.
Proof.
  intros H T. split; [by eapply tree_in_iff, T|]. intros r Hr. apply (tr_used _ _ _ T). by apply H.
Qed.

(** A role that is in the tree, or could be attached to it. *)
Definition attachable (L : role -> Prop) (r : role) : Prop :=
  valid r /\ match parent r with None => True | Some q => L q end.

(** The pointer words of the inode. *)
Definition inode_slots (oi : Z) : Z -> Prop := within (oi + 16) (oi + 64).

(** The bytes of an allocated word. *)
Definition word_at (a : Z) : Z -> Prop := within a (a + 4).

Section Trees.
Context {lo : Z} (m : mem) (oi : Z) (L : role -> Prop) (T : tree_in lo m oi L).

Lemma attachable_member r : L r -> attachable L r.
Proof.
  intros Hr. split; [by apply T|]. destruct (parent r) as [q|] eqn:E; [|done].
  by apply (tr_closed _ _ _ T r).
Qed.

Lemma block_of r : L r -> ospfs_block (blk m oi r) = 1024 * blk m oi r.
Proof.
  intros Hr. apply ospfs_block_small. pose proof (tr_range _ _ _ T r Hr). destruct (tr_inode _ _ _ T). lia.
Qed.

(** Where a slot lies: in the inode's pointer words, or in the block of the
    parent role. *)
Lemma slot_where r : attachable L r ->
  match parent r with
  | None => oi + 16 <= slot m oi r /\ slot m oi r + 4 <= oi + 64
  | Some q => 1024 * blk m oi q <= slot m oi r /\ slot m oi r + 4 <= 1024 * blk m oi q + 1024
  end.
Proof.
  intros [Hv Hp]. rewrite slot_unfold. destruct (parent r) as [q|] eqn:E.
  - rewrite block_of by done. pose proof (offset_block r q Hv E). lia.
  - pose proof (offset_inode r Hv E). lia.
Qed.

Lemma used_above r : L r -> oi + 64 <= 1024 * blk m oi r.
Proof. intros Hr. destruct (tr_range _ _ _ T r Hr). destruct (tr_inode _ _ _ T). lia. Qed.

(** Slots of different roles do not overlap. *)
Lemma slot_disjoint r r' : attachable L r -> attachable L r' -> r <> r' ->
  slot m oi r + 4 <= slot m oi r' \/ slot m oi r' + 4 <= slot m oi r.
Proof.
  intros Ha Ha' Hne. pose proof (slot_where r Ha) as W. pose proof (slot_where r' Ha') as W'.
  destruct Ha as [Hv Hp], Ha' as [Hv' Hp'].
  destruct (parent r) as [q|] eqn:E, (parent r') as [q'|] eqn:E'.
  - destruct (decide (q = q')) as [<-|Hq].
    + assert (Hpp : parent r = parent r') by congruence.
      rewrite !slot_unfold, E, E'. pose proof (offset_inj r r' Hv Hv' Hpp Hne). lia.
    + assert (blk m oi q <> blk m oi q') by (intros ?; by apply Hq, (tr_inj _ _ _ T)). lia.
  - pose proof (used_above q Hp). lia.
  - pose proof (used_above q' Hp'). lia.
  - assert (Hpp : parent r = parent r') by congruence.
    rewrite !slot_unfold, E, E'. pose proof (offset_inj r r' Hv Hv' Hpp Hne). lia.
Qed.

(** If the slot words of a closed part of the tree are unchanged, then so are
    the slots and blocks of its roles, and the slots attachable to it. *)
Lemma slots_preserved m' (L' : role -> Prop) :
  (forall r, L' r -> L r) ->
  (forall r q, L' r -> parent r = Some q -> L' q) ->
  (forall r, L' r -> ld32 m' (slot m oi r) = ld32 m (slot m oi r)) ->
  (forall r, L' r -> blk m' oi r = blk m oi r) /\
  (forall r, attachable L' r -> slot m' oi r = slot m oi r).
Proof.
  intros Hsub Hcl Hw.
  assert (Hb : forall r, L' r -> blk m' oi r = blk m oi r).
  { intros r. remember (depth r) as d eqn:Ed. revert r Ed.
    induction d as [d IH] using lt_wf_ind. intros r -> Hr.
    unfold blk. rewrite (slot_unfold m' oi r). rewrite <- (Hw r Hr), (slot_unfold m oi r).
    destruct (parent r) as [q|] eqn:E; [|done].
    rewrite (IH (depth q) (parent_depth _ _ E) q eq_refl); [done|]. by eapply Hcl. }
  split; [done|]. intros r [_ Hp]. rewrite !slot_unfold.
  destruct (parent r) as [q|]; [|done]. by rewrite Hb.
Qed.

(** A slot is an aligned-away-from word: above the superblock and the bitmap. *)
Lemma slot_above r : attachable L r -> 3072 <= slot m oi r.
Proof.
  intros Ha. pose proof (slot_where r Ha) as W. destruct Ha as [_ Hp].
  destruct (tr_inode _ _ _ T). destruct (parent r) as [q|]; [|lia].
  pose proof (used_above q Hp). lia.
Qed.

(** Writing one slot leaves the allocator's state alone. *)
Lemma slot_write_alloc r v : attachable L r ->
  changes (word_at (slot m oi r)) m (st32 m (slot m oi r) v) /\
  data_start (st32 m (slot m oi r) v) = data_start m /\
  free_list (st32 m (slot m oi r) v) = free_list m.
Proof.
  intros Ha. pose proof (slot_above r Ha).
  assert (Hc : changes (word_at (slot m oi r)) m (st32 m (slot m oi r) v)) by by apply changes_st32.
  split; [done|]. split.
  - eapply data_start_frame; [done|]. unfold word_at, super_area, within. lia.
  - eapply free_list_frame; [done|]. unfold word_at, bitmap_area, within. lia.
Qed.

(** Writing the slot of [r], which carries no role of the closed part [L'],
    keeps the blocks of [L'] and every other slot attachable to [L']. *)
Lemma slot_write_other r v (L' : role -> Prop) :
  attachable L r -> (forall r', L' r' -> L r' /\ r' <> r) ->
  (forall r' q, L' r' -> parent r' = Some q -> L' q) ->
  let m' := st32 m (slot m oi r) v in
  (forall r', L' r' -> blk m' oi r' = blk m oi r') /\
  (forall r', attachable L' r' -> slot m' oi r' = slot m oi r') /\
  (forall r', attachable L' r' -> r' <> r -> blk m' oi r' = blk m oi r').
Proof.
  intros Ha Hsub Hcl m'.
  assert (Hatt : forall r', attachable L' r' -> attachable L r').
  { intros r' [Hv Hp]. split; [done|]. destruct (parent r'); [by apply Hsub|done]. }
  assert (Hw : forall r', attachable L' r' -> r' <> r ->
                 ld32 m' (slot m oi r') = ld32 m (slot m oi r')).
  { intros r' Hr' Hne. apply ld32_st32_ne.
    destruct (slot_disjoint r' r); [by apply Hatt|done|done|lia|lia]. }
  destruct (slots_preserved m' L') as [Hb Hs].
  - intros r' Hr'. by apply Hsub.
  - done.
  - intros r' Hr'. apply Hw; [|by apply Hsub]. split; [apply T; by apply Hsub|].
    destruct (parent r') eqn:E; [by eapply Hcl|done].
  - split; [done|]. split; [done|]. intros r' Hr' Hne. unfold blk. rewrite Hs by done. by apply Hw.
Qed.

(** Attaching a role: a block that is not in the tree, and that is zero if it is
    an index block, is stored in the role's slot. *)
Lemma tree_in_attach r b :
  attachable L r -> ~ L r -> lo <= b < 2 ^ 22 ->
  (forall r', L r' -> blk m oi r' <> b) ->
  (forall r' a, parent r' = Some r -> in_block b a -> ld8 m a = 0) ->
  let m' := st32 m (slot m oi r) b in
  tree_in lo m' oi (fun r' => r' = r \/ L r') /\ blk m' oi r = b /\
  (forall r', L r' -> blk m' oi r' = blk m oi r').
Proof.
  intros Ha Hnr Hb Hnew Hzero m'.
  destruct (slot_write_other r b L Ha) as (Hkeep & Hslot & Hother).
  { intros r' Hr'. split; [done|by intros ->]. }
  { apply T. }
  fold m' in Hkeep, Hslot, Hother. destruct (tr_inode _ _ _ T) as [Hi1 Hi2].
  assert (Hbr : blk m' oi r = b).
  { unfold blk. rewrite Hslot by done. unfold m'. rewrite ld32_st32_eq. apply u32_small. lia. }
  split; [|done]. split.
  - done.
  - intros r' [->|Hr']; [apply Ha|by apply T].
  - intros r' q [->|Hr'] Hq; right; [|by eapply T]. destruct Ha as [_ Ha]. by rewrite Hq in Ha.
  - intros r' Hr'. destruct Hr' as [->|Hr']; [by rewrite Hbr|].
    rewrite Hkeep by done. by apply T.
  - intros r1 r2 [->|H1] [->|H2]; rewrite ?Hbr, ?Hkeep by done; intros He; try done.
    + by destruct (Hnew r2).
    + by destruct (Hnew r1).
    + by apply (tr_inj _ _ _ T).
  - intros r' q Hr' Hv Hp [->|Hq].
    + unfold blk. rewrite slot_unfold, Hp, Hbr.
      pose proof (offset_block r' r Hv Hp).
      rewrite ospfs_block_small by lia.
      unfold m'. rewrite ld32_st32_ne.
      * unfold ld32. rewrite !(Hzero r') by (done || (unfold in_block, within; lia)). done.
      * pose proof (slot_where r Ha) as W. destruct Ha as [_ Ha].
        destruct (parent r) as [q|]; [|lia]. pose proof (Hnew q Ha). lia.
    + rewrite Hother; [|unfold attachable; by rewrite Hp|naive_solver].
      apply (tr_zero _ _ _ T r' q); naive_solver.
  - intros Hr'. rewrite Hother; [apply T; naive_solver|done|naive_solver].
  - intros Hr'. rewrite Hother; [apply T; naive_solver|done|naive_solver].
Qed.

(** Detaching a leaf: its slot is set to 0. *)
Lemma tree_in_detach r :
  L r -> (forall r', L r' -> parent r' <> Some r) ->
  let m' := st32 m (slot m oi r) 0 in
  tree_in lo m' oi (fun r' => L r' /\ r' <> r) /\
  (forall r', L r' -> r' <> r -> blk m' oi r' = blk m oi r').
Proof.
  intros Hr Hleaf m'. pose proof (attachable_member r Hr) as Ha.
  destruct (slot_write_other r 0 (fun r' => L r' /\ r' <> r) Ha) as (Hkeep & Hslot & Hother).
  { done. }
  { intros r' q [Hr' Hne] Hq. split; [by eapply T|]. intros ->. by apply (Hleaf r'). }
  fold m' in Hkeep, Hslot, Hother.
  assert (Hbr : forall q, parent r = q -> blk m' oi r = 0).
  { intros q Hq. unfold blk. rewrite Hslot.
    - unfold m'. rewrite ld32_st32_eq. done.
    - split; [by apply T|]. destruct (parent r) as [p|] eqn:E; [|done].
      split; [by eapply T|]. intros ->. by apply (Hleaf r). }
  split; [|naive_solver]. split.
  - apply T.
  - intros r' [Hr' _]. by apply T.
  - intros r' q [Hr' _] Hq. split; [by eapply T|]. intros ->. by apply (Hleaf r').
  - intros r' [Hr' Hne]. rewrite Hkeep by done. by apply (tr_range _ _ _ T).
  - intros r1 r2 H1 H2. rewrite !Hkeep by done. apply T; naive_solver.
  - intros r' q Hr' Hv Hp Hq. destruct (decide (r' = r)) as [->|Hne]; [by eapply Hbr|].
    rewrite Hother; [|unfold attachable; by rewrite Hp|done].
    eapply (tr_zero _ _ _ T r' q); naive_solver.
  - intros Hr'. destruct (decide (RInd = r)) as [<-|Hne]; [by eapply Hbr|].
    rewrite Hother; [apply T; naive_solver|done|done].
  - intros Hr'. destruct (decide (RInd2 = r)) as [<-|Hne]; [by eapply Hbr|].
    rewrite Hother; [apply T; naive_solver|done|done].
Qed.

(** The frame property: what touches neither the superblock, nor the inode's
    pointers, nor an index block of the tree, and frees none of its blocks,
    leaves the tree as it is. *)
Definition is_index (r : role) : Prop := match r with RData _ => False | _ => True end.

Lemma parent_index r q : parent r = Some q -> is_index q.
Proof.
  destruct r as [i| | |j]; cbn; try done; [|by intros [= <-]].
  zcases; by intros [= <-].
Qed.

(** The bytes that hold the tree's own structure. *)
Definition tree_area (a : Z) : Prop :=
  inode_slots oi a \/ exists q, L q /\ is_index q /\ in_block (blk m oi q) a.

Lemma slot_in_area r a : attachable L r -> word_at (slot m oi r) a -> tree_area a.
Proof.
  intros Ha Hw. pose proof (slot_where r Ha) as W. destruct Ha as [_ Hp].
  unfold word_at, within in Hw. destruct (parent r) as [q|] eqn:E.
  - right. exists q. split; [done|]. split; [by eapply parent_index|]. unfold in_block, within. lia.
  - left. unfold inode_slots, within. lia.
Qed.

Lemma tree_in_frame P m' :
  changes P m m' -> (forall a, tree_area a -> ~ P a) ->
  tree_in lo m' oi L /\ (forall r, attachable L r -> slot m' oi r = slot m oi r /\ blk m' oi r = blk m oi r).
Proof.
  intros Hch Harea.
  assert (Hw : forall r, attachable L r -> ld32 m' (slot m oi r) = ld32 m (slot m oi r)).
  { intros r Ha. apply (changes_ld32 P m m'); [done|]. intros a Hin. apply Harea.
    by apply (slot_in_area r). }
  destruct (slots_preserved m' L) as [Hb Hs]; [done|apply T|..].
  { intros r Hr. by apply Hw, attachable_member. }
  assert (Hb' : forall r, attachable L r -> blk m' oi r = blk m oi r).
  { intros r Ha. unfold blk. rewrite Hs by done. by apply Hw. }
  split; [|auto]. split.
  - apply T.
  - apply T.
  - apply T.
  - intros r Hr. rewrite Hb by done. by apply T.
  - intros r r' Hr Hr'. rewrite !Hb by done. by apply T.
  - intros r q Hr Hv Hp Hq. rewrite Hb' by (unfold attachable; by rewrite Hp). by eapply T.
  - intros Hr. rewrite Hb' by done. by apply T.
  - intros Hr. rewrite Hb' by done. by apply T.
Qed.
End Trees.

(** ** Trees and the free list *)

Section OkTrees.
Context (m : mem) (oi : Z) (L : role -> Prop) (T : tree_ok m oi L).

Lemma tree_attach r b :
  attachable L r -> ~ L r -> data_start m <= b < 1024 -> b ∉ free_list m ->
  (forall r', L r' -> blk m oi r' <> b) -> (forall a, in_block b a -> ld8 m a = 0) ->
  let m' := st32 m (slot m oi r) b in
  tree_ok m' oi (fun r' => r' = r \/ L r') /\ blk m' oi r = b /\
  (forall r', L r' -> blk m' oi r' = blk m oi r').
Proof.
  intros Ha Hnr Hb Hnf Hnew Hzero m'.
  destruct (slot_write_alloc m oi L T r b Ha) as (_ & Hds & Hfl). fold m' in Hds, Hfl.
  destruct (tree_in_attach m oi L T r b) as (T' & Hbr & Hkeep); [done|done|lia|done|by intros ? ? _; apply Hzero|].
  fold m' in T', Hbr, Hkeep. split; [|done]. split; [by rewrite Hds|].
  intros r' [->|Hr']; rewrite Hds, Hfl; [by rewrite Hbr|]. rewrite Hkeep by done. by apply T.
Qed.

Lemma tree_detach r :
  L r -> (forall r', L r' -> parent r' <> Some r) ->
  let m' := st32 m (slot m oi r) 0 in
  tree_ok m' oi (fun r' => L r' /\ r' <> r) /\
  (forall r', L r' -> r' <> r -> blk m' oi r' = blk m oi r').
Proof.
  intros Hr Hleaf m'.
  destruct (slot_write_alloc m oi L T r 0 (attachable_member m oi L T r Hr)) as (_ & Hds & Hfl).
  destruct (tree_in_detach m oi L T r Hr Hleaf) as (T' & Hkeep). fold m' in Hds, Hfl, T', Hkeep.
  split; [|done]. split; [by rewrite Hds|].
  intros r' [Hr' Hne]. rewrite Hds, Hfl, Hkeep by done. by apply (tr_used _ _ _ T).
Qed.

Lemma tree_frame P m' :
  changes P m m' -> (forall a, super_area a -> ~ P a) -> (forall a, tree_area m oi L a -> ~ P a) ->
  (forall r, L r -> blk m oi r ∉ free_list m') ->
  tree_ok m' oi L /\ (forall r, attachable L r -> slot m' oi r = slot m oi r /\ blk m' oi r = blk m oi r).
Proof.
  intros Hch Hsup Harea Hfree.
  assert (Hds : data_start m' = data_start m) by by eapply data_start_frame.
  destruct (tree_in_frame m oi L T P m' Hch Harea) as (T' & Hk). split; [|done].
  split; [by rewrite Hds|]. intros r Hr. destruct (Hk r (attachable_member m oi L T r Hr)) as [_ ->].
  rewrite Hds. split; [by apply T|by apply Hfree].
Qed.
End OkTrees.
