(* ===== verification/OspfsWork.v ===== *)
(** * OSPFS: intermediate states of add_block

    While [add_block] runs it holds blocks that it has taken off the free list
    and not yet linked into the file.  [work] is the invariant of those states,
    relative to the state in which the call started, and the lemmas are the
    steps of the function: allocate, clear, link a block, free. *)

From S2P Require Import Prelude CMemory OspfsLayout OspfsAlloc OspfsTree.

Definition zeroed (m : mem) (b : Z) : Prop := forall a, in_block b a -> ld8 m a = 0.

(** The roles of a file of [n] data blocks. *)
Definition live (n : Z) (r : role) : Prop :=
  match r with
  | RData i => 0 <= i < n
  | RInd => 10 < n
  | RInd2 => 266 < n
  | RL1 j => 0 <= j /\ 266 + 256 * j < n
  end.

(** A file of [n] blocks whose inode is at [oi]. *)
Definition file_ok (m : mem) (oi n : Z) : Prop := 0 <= n /\ tree_ok m oi (live n).

(** What growing a file may write: the bitmap, the inode's size and pointers,
    the file's index blocks, and blocks that were free. *)
Definition grow_area (m : mem) (oi : Z) (L : role -> Prop) (a : Z) : Prop :=
  bitmap_area a \/ word_at (oi_size oi) a \/ tree_area m oi L a \/
  exists b, b ∈ free_list m /\ in_block b a.

(** What a failed attempt to grow a file may write: the bitmap and blocks that
    were free. *)
Definition fail_area (m : mem) (a : Z) : Prop :=
  bitmap_area a \/ exists b, b ∈ free_list m /\ in_block b a.

Section Work.
Context (m0 : mem) (oi : Z) (L0 : role -> Prop) {L0_dec : forall r, Decision (L0 r)}.
Context (F0 : fs_ok m0) (T0 : tree_ok m0 oi L0).

(** [work A k L H m]: only [A] was written; the first [k] free blocks are taken;
    the roles [L] are linked; the blocks [H] are held. *)
Record work (A : Z -> Prop) (k : nat) (L : role -> Prop) (H : list Z) (m : mem) : Prop := Work {
  wk_fs : fs_ok m;
  wk_tree : tree_ok m oi L;
  wk_start : data_start m = data_start m0;
  wk_free : free_list m = drop k (free_list m0);
  wk_held : forall b, b ∈ H -> b ∈ take k (free_list m0) /\ forall r, L r -> blk m oi r <> b;
  wk_sub : forall r, L0 r -> L r;
  wk_new : forall r, L r -> ~ L0 r -> blk m oi r ∈ free_list m0;
  wk_taken : forall b, b ∈ take k (free_list m0) -> b ∈ H \/ exists r, L r /\ ~ L0 r /\ blk m oi r = b;
  wk_keep : forall r, L0 r -> blk m oi r = blk m0 oi r;
  wk_changes : changes A m0 m
}.

Lemma free_block_range b : b ∈ free_list m0 -> data_start m0 <= b < 1024.
Proof. intros Hb. pose proof (fs_reserved m0 F0 b Hb). apply elem_of_free_list in Hb. lia. Qed.

Lemma held_free A k L H m b : work A k L H m -> b ∈ H -> b ∈ free_list m0.
Proof.
  intros W Hb. destruct (wk_held _ _ _ _ _ W b Hb) as [Ht _].
  apply elem_of_take in Ht as (i & Hi & _). by eapply list_elem_of_lookup_2.
Qed.

(** A taken block is no longer free. *)
Lemma taken_not_free k b : b ∈ take k (free_list m0) -> b ∉ drop k (free_list m0).
Proof.
  intros Ht. pose proof (free_list_NoDup m0) as Hnd. rewrite <- (take_drop k) in Hnd.
  apply NoDup_app in Hnd as (_ & Hd & _). by apply Hd.
Qed.

Lemma held_range A k L H m b : work A k L H m -> b ∈ H ->
  data_start m <= b < 1024 /\ (b ∉ free_list m) /\ (forall r, L r -> blk m oi r <> b).
Proof.
  intros W Hb. destruct (wk_held _ _ _ _ _ W b Hb) as [Ht Hne].
  rewrite (wk_start _ _ _ _ _ W), (wk_free _ _ _ _ _ W).
  split; [apply free_block_range; by eapply held_free|]. split; [by apply taken_not_free|done].
Qed.

Lemma tree_not_free r : L0 r -> blk m0 oi r ∉ free_list m0.
Proof. intros Hr. by apply (tr_used _ _ _ T0). Qed.

Lemma work_init A : work A 0 L0 [] m0.
Proof.
  split; try done.
  - intros b Hb. by apply not_elem_of_nil in Hb.
  - intros b Hb. by apply not_elem_of_nil in Hb.
Qed.

Lemma work_weaken (A A' : Z -> Prop) k L H m :
  work A k L H m -> (forall a, A a -> A' a) -> work A' k L H m.
Proof. intros [] HA. split; try done. by eapply changes_weaken. Qed.

(** The structure of the current tree lies where growing may write. *)
Lemma tree_area_grow A k L H m a :
  work A k L H m -> tree_area m oi L a -> grow_area m0 oi L0 a.
Proof.
  intros W [Hin|(q & Hq & Hix & Hb)]; [by right; right; left; left|].
  destruct (decide (L0 q)) as [H0|H0].
  - right; right; left; right. exists q. rewrite <- (wk_keep _ _ _ _ _ W) by done. done.
  - right; right; right. exists (blk m oi q). split; [|done]. by apply (wk_new _ _ _ _ _ W).
Qed.

Lemma held_block_outside A k L H m b a : work A k L H m -> b ∈ H -> in_block b a ->
  ~ super_area a /\ ~ bitmap_area a /\ ~ tree_area m oi L a.
Proof.
  intros W Hb Ha. destruct (held_range A k L H m b W Hb) as (Hr & _ & Hne).
  pose proof (wk_tree _ _ _ _ _ W) as T. pose proof (data_start_ge m).
  unfold in_block, within in Ha. split; [|split].
  - unfold super_area, within. lia.
  - unfold bitmap_area, within. lia.
  - intros [Hin|(q & Hq & _ & Hin)].
    + destruct (tr_inode _ _ _ T). unfold inode_slots, within in Hin. lia.
    + pose proof (Hne q Hq). unfold in_block, within in Hin. lia.
Qed.

(** A write that stays clear of the superblock, the bitmap and the structure of
    the tree. *)
Lemma work_write A k L H m (P : Z -> Prop) m' :
  work A k L H m -> changes P m m' ->
  (forall a, P a -> ~ super_area a /\ ~ bitmap_area a /\ ~ tree_area m oi L a /\ A a) ->
  work A k L H m' /\
  (forall r, attachable L r -> slot m' oi r = slot m oi r /\ blk m' oi r = blk m oi r).
Proof.
  intros W Hch HP.
  assert (Hs : forall a, super_area a -> ~ P a) by (intros a Ha Hp; by destruct (HP a Hp) as (? & ? & ? & ?)).
  assert (Hb : forall a, bitmap_area a -> ~ P a) by (intros a Ha Hp; by destruct (HP a Hp) as (? & ? & ? & ?)).
  assert (Ht : forall a, tree_area m oi L a -> ~ P a) by (intros a Ha Hp; by destruct (HP a Hp) as (? & ? & ? & ?)).
  pose proof (free_list_frame P m m' Hch Hb) as Hfl.
  pose proof (data_start_frame P m m' Hch Hs) as Hds.
  destruct (tree_frame m oi L (wk_tree _ _ _ _ _ W) P m' Hch Hs Ht) as [T' Hkeep].
  { intros r Hr. rewrite Hfl. by apply (tr_used _ _ _ (wk_tree _ _ _ _ _ W)). }
  assert (Hblk : forall r, L r -> blk m' oi r = blk m oi r).
  { intros r Hr. apply Hkeep. by apply (attachable_member m oi L (wk_tree _ _ _ _ _ W)). }
  split; [|done]. split.
  - eapply fs_ok_frame; [apply W|done|done|]. rewrite Hfl. apply W.
  - done.
  - rewrite Hds. apply W.
  - rewrite Hfl. apply W.
  - intros b Hin. destruct (wk_held _ _ _ _ _ W b Hin) as [? Hne]. split; [done|].
    intros r Hr. rewrite Hblk by done. by apply Hne.
  - apply W.
  - intros r Hr Hn. rewrite Hblk by done. by apply (wk_new _ _ _ _ _ W).
  - intros x Hx. destruct (wk_taken _ _ _ _ _ W x Hx) as [?|(r & Hr & ? & ?)]; [by left|].
    right. exists r. by rewrite Hblk.
  - intros r Hr. rewrite Hblk by by apply (wk_sub _ _ _ _ _ W). by apply (wk_keep _ _ _ _ _ W).
  - eapply changes_trans; [apply W|]. eapply changes_weaken; [done|]. intros a Ha. by apply HP.
Qed.

(** Two memories that read alike are in the same state. *)
Lemma work_equiv A k L H m m' : work A k L H m -> m' ≡ m -> work A k L H m'.
Proof.
  intros W He. eapply (work_write A k L H m (fun _ => False) m'); [done| |done].
  intros a _. apply He.
Qed.

(** [memset(ospfs_block(b), 0, OSPFS_BLKSIZE)] on a held block. *)
Lemma work_memset A k L H m b :
  work A k L H m -> b ∈ H -> (forall a, in_block b a -> A a) ->
  let m' := memset m (ospfs_block b) 0 (Z.to_nat OSPFS_BLKSIZE) in
  work A k L H m' /\ zeroed m' b /\ (forall x, x <> b -> zeroed m x -> zeroed m' x) /\
  (forall r, attachable L r -> slot m' oi r = slot m oi r /\ blk m' oi r = blk m oi r).
Proof.
  intros W Hb HA m'. destruct (held_range A k L H m b W Hb) as (Hr & _ & _).
  pose proof (data_start_ge m).
  assert (Hch : changes (in_block b) m m').
  { unfold m'. rewrite ospfs_block_small by lia. by apply changes_memset. }
  destruct (work_write A k L H m (in_block b) m' W Hch) as [W' Hkeep].
  { intros a Ha. destruct (held_block_outside A k L H m b a W Hb Ha) as (? & ? & ?). auto. }
  split; [done|]. split; [|split; [|done]].
  - intros a Ha. unfold m'. rewrite ospfs_block_small by lia. rewrite ld8_memset_in; [done|].
    unfold in_block, within, OSPFS_BLKSIZE in *. lia.
  - intros x Hx Hz a Ha. rewrite Hch; [by apply Hz|]. unfold in_block, within in *. lia.
Qed.

(** [oi->oi_size = v] *)
Lemma work_size A k L H m v :
  work A k L H m -> (forall a, word_at (oi_size oi) a -> A a) ->
  work A k L H (st32 m (oi_size oi) v) /\
  (forall r, attachable L r -> slot (st32 m (oi_size oi) v) oi r = slot m oi r /\
                               blk (st32 m (oi_size oi) v) oi r = blk m oi r).
Proof.
  intros W HA. apply (work_write A k L H m (word_at (oi_size oi))); [done|by apply changes_st32|].
  pose proof (wk_tree _ _ _ _ _ W) as T. destruct (tr_inode _ _ _ T) as [H1 H2].
  intros a Ha. split; [|split; [|split; [|by apply HA]]]; unfold word_at, oi_size, within in Ha.
  - unfold super_area, within. lia.
  - unfold bitmap_area, within. lia.
  - intros [Hin|(q & Hq & _ & Hin)]; [unfold inode_slots, within in Hin; lia|].
    pose proof (used_above m oi L T q Hq). unfold in_block, within in Hin. lia.
Qed.

(** [allocate_block()] *)
Lemma wp_work_alloc A k L H m fu (Q : Z -> mem -> Prop) :
  work A k L H m -> (forall a, bitmap_area a -> A a) ->
  (drop k (free_list m0) = [] -> Q 0 m) ->
  (forall b m', drop k (free_list m0) = b :: drop (S k) (free_list m0) -> b <> 0 -> b ∉ H ->
     work A (S k) L (b :: H) m' -> (forall x, x ∈ H -> zeroed m x -> zeroed m' x) ->
     (forall r, attachable L r -> slot m' oi r = slot m oi r /\ blk m' oi r = blk m oi r) -> Q b m') ->
  wp allocate_block fu m Q.
Proof.
  intros W HA Hnone Hsome. pose proof (wk_tree _ _ _ _ _ W) as T.
  apply alloc_law; [apply W|rewrite (wk_free _ _ _ _ _ W); done|].
  intros b l m' Hl Hl' Hch. rewrite (wk_free _ _ _ _ _ W) in Hl.
  assert (Hdrop : l = drop (S k) (free_list m0)).
  { replace (S k) with (k + 1)%nat by lia. rewrite <- drop_drop, Hl. done. }
  rewrite Hdrop in Hl, Hl'. clear l Hdrop. assert (Hlk : free_list m0 !! k = Some b).
  { rewrite <- (Nat.add_0_r k), <- lookup_drop, Hl. done. }
  assert (Hin0 : b ∈ free_list m0) by by eapply list_elem_of_lookup_2.
  pose proof (free_block_range b Hin0) as Hrange.
  assert (Htree : forall a, tree_area m oi L a -> ~ bitmap_area a).
  { intros a [Hin|(q & Hq & _ & Hin)] Hbm; unfold bitmap_area, within in Hbm.
    - destruct (tr_inode _ _ _ T). unfold inode_slots, within in Hin. lia.
    - pose proof (used_above m oi L T q Hq). destruct (tr_inode _ _ _ T).
      unfold in_block, within in Hin. lia. }
  assert (Hnf : forall x, x ∈ free_list m' -> x ∈ free_list m).
  { intros x. rewrite Hl', (wk_free _ _ _ _ _ W), Hl. by right. }
  destruct (tree_frame m oi L T bitmap_area m' Hch super_not_bitmap Htree) as [T' Hkeep].
  { intros r Hr Hin. by apply (tr_used _ _ _ T r Hr), Hnf. }
  assert (Hblk : forall r, L r -> blk m' oi r = blk m oi r).
  { intros r Hr. apply Hkeep. by apply (attachable_member m oi L T). }
  pose proof (data_start_frame _ _ _ Hch super_not_bitmap) as Hds.
  assert (Hfresh : b ∈ free_list m) by (rewrite (wk_free _ _ _ _ _ W), Hl; by left).
  apply Hsome; [done| | | | |done].
  - pose proof (data_start_ge m0). lia.
  - intros Hb. by apply (held_range A k L H m b W Hb).
  - split.
    + eapply fs_ok_frame; [apply W|done|apply super_not_bitmap|]. intros x Hx. by apply W, Hnf.
    + done.
    + rewrite Hds. apply W.
    + done.
    + intros x Hx. apply elem_of_cons in Hx as [->|Hx].
      * split; [apply elem_of_take; exists k; split; [done|lia]|].
        intros r Hr. rewrite Hblk by done. intros He. apply (tr_used _ _ _ T r Hr). by rewrite He.
      * destruct (wk_held _ _ _ _ _ W x Hx) as [Ht Hne]. split.
        -- apply elem_of_take in Ht as (i & Hi & Hlt). apply elem_of_take. exists i. split; [done|lia].
        -- intros r Hr. rewrite Hblk by done. by apply Hne.
    + apply W.
    + intros r Hr Hn. rewrite Hblk by done. by apply (wk_new _ _ _ _ _ W).
    + intros x. rewrite (take_S_r _ _ b) by done. rewrite elem_of_app, list_elem_of_singleton.
      intros [Hx| ->]; [|left; by left].
      destruct (wk_taken _ _ _ _ _ W x Hx) as [?|(r & Hr & ? & ?)]; [left; by right|].
      right. exists r. by rewrite Hblk.
    + intros r Hr. rewrite Hblk by by apply (wk_sub _ _ _ _ _ W). by apply (wk_keep _ _ _ _ _ W).
    + eapply changes_trans; [apply W|]. by eapply changes_weaken.
  - intros x Hx Hz a Ha. rewrite Hch; [by apply Hz|]. by apply (held_block_outside A k L H m x a W Hx).
Qed.

(** What remains held when a block is linked. *)
Lemma held_last (b : Z) : forall x, x ∈ [] <-> x ∈ [b] /\ x <> b.
Proof. intros x. rewrite list_elem_of_singleton. split; [by intros ?%not_elem_of_nil|tauto]. Qed.

Lemma held_head (b b' : Z) : b <> b' -> forall x, x ∈ [b] <-> x ∈ [b'; b] /\ x <> b'.
Proof. intros Hne x. rewrite !elem_of_cons, elem_of_nil. naive_solver. Qed.

(** Linking a held, cleared block into the file. *)
Lemma work_attach A k L H H' m r b :
  work A k L H m -> (forall a, grow_area m0 oi L0 a -> A a) ->
  attachable L r -> ~ L r -> b ∈ H -> zeroed m b -> (forall x, x ∈ H' <-> x ∈ H /\ x <> b) ->
  let m' := st32 m (slot m oi r) b in
  work A k (fun r' => r' = r \/ L r') H' m' /\ blk m' oi r = b /\
  (forall r', L r' -> blk m' oi r' = blk m oi r') /\
  (forall x, x ∈ H -> zeroed m x -> zeroed m' x).
Proof.
  intros W HA Ha Hnr Hb Hz HH' m'. pose proof (wk_tree _ _ _ _ _ W) as T.
  destruct (held_range A k L H m b W Hb) as (Hrange & Hnf & Hne).
  destruct (slot_write_alloc m oi L T r b Ha) as (Hch & Hds & Hfl).
  destruct (tree_attach m oi L T r b Ha Hnr Hrange Hnf Hne Hz) as (T' & Hbr & Hkeep).
  fold m' in Hch, Hds, Hfl, T', Hbr, Hkeep.
  assert (Hslot : forall a, word_at (slot m oi r) a -> tree_area m oi L a)
    by (intros a; by apply (slot_in_area m oi L T)).
  split; [|split; [done|split; [done|]]].
  - split.
    + eapply fs_ok_frame; [apply W|done| |rewrite Hfl; apply W].
      intros a Hs Hw. pose proof (slot_above m oi L T r Ha).
      unfold super_area, word_at, within in *. lia.
    + done.
    + rewrite Hds. apply W.
    + rewrite Hfl. apply W.
    + intros x Hx. apply HH' in Hx as [Hx' Hxb]. destruct (wk_held _ _ _ _ _ W x Hx') as [Ht Hxne].
      split; [done|]. intros r' [->|Hr']; [by rewrite Hbr|]. rewrite Hkeep by done. by apply Hxne.
    + intros r' Hr'. right. by apply (wk_sub _ _ _ _ _ W).
    + intros r' [->|Hr'] Hn; [rewrite Hbr; by eapply held_free|].
      rewrite Hkeep by done. by apply (wk_new _ _ _ _ _ W).
    + intros x Hx. destruct (decide (x = b)) as [->|Hxb].
      * right. exists r. split; [by left|]. split; [|done]. intros ?. by apply Hnr, (wk_sub _ _ _ _ _ W).
      * destruct (wk_taken _ _ _ _ _ W x Hx) as [?|(r' & Hr' & ? & ?)]; [left; by apply HH'|].
        right. exists r'. split; [by right|]. by rewrite Hkeep.
    + intros r' Hr'. rewrite Hkeep by by apply (wk_sub _ _ _ _ _ W). by apply (wk_keep _ _ _ _ _ W).
    + eapply changes_trans; [apply W|]. eapply changes_weaken; [done|].
      intros a Hw. apply HA. by eapply tree_area_grow, Hslot.
  - intros x Hx Hxz a Hin. rewrite Hch; [by apply Hxz|].
    intros Hw. by apply (held_block_outside A k L H m x a W Hx Hin), Hslot.
Qed.

(** The same when the block is cleared after it is linked. *)
Lemma work_attach_clear A k L H H' m r b :
  work A k L H m -> (forall a, grow_area m0 oi L0 a -> A a) ->
  attachable L r -> ~ L r -> b ∈ H -> (forall x, x ∈ H' <-> x ∈ H /\ x <> b) ->
  let m' := memset (st32 m (slot m oi r) b) (ospfs_block b) 0 (Z.to_nat OSPFS_BLKSIZE) in
  work A k (fun r' => r' = r \/ L r') H' m' /\ blk m' oi r = b /\
  (forall r', L r' -> blk m' oi r' = blk m oi r') /\
  (forall x, x ∈ H -> x <> b -> zeroed m x -> zeroed m' x).
Proof.
  intros W HA Ha Hnr Hb HH' m'.
  destruct (work_memset A k L H m b W Hb) as (W1 & Hz & Hzo & Hkeep).
  { intros a Hin. apply HA. right; right; right. exists b. split; [by eapply held_free|done]. }
  set (m1 := memset m (ospfs_block b) 0 (Z.to_nat OSPFS_BLKSIZE)) in *.
  destruct (Hkeep r Ha) as [Hslot _].
  destruct (work_attach A k L H H' m1 r b W1 HA Ha Hnr Hb Hz HH') as (W2 & Hbr & Hkeep2 & Hz2).
  rewrite Hslot in W2, Hbr, Hkeep2, Hz2.
  assert (Heq : m' ≡ st32 m1 (slot m oi r) b).
  { destruct (held_range A k L H m b W Hb) as (Hr & _). pose proof (data_start_ge m).
    unfold m', m1. apply memset_st32_comm. rewrite ospfs_block_small by lia.
    assert (Hout : forall a, word_at (slot m oi r) a -> ~ in_block b a).
    { intros a Hw Hin. eapply (held_block_outside A k L H m b a W Hb Hin), (slot_in_area m oi L (wk_tree _ _ _ _ _ W)); done. }
    pose proof (Hout (slot m oi r)). pose proof (Hout (slot m oi r + 3)).
    unfold word_at, in_block, within, OSPFS_BLKSIZE in *. lia. }
  assert (HL : forall r', L r' -> blk m' oi r' = blk m oi r').
  { intros r' Hr'. rewrite Heq, Hkeep2 by done. apply Hkeep.
    by apply (attachable_member m oi L (wk_tree _ _ _ _ _ W)). }
  split; [by eapply work_equiv|]. split; [by rewrite Heq|]. split; [done|].
  intros x Hx Hxb Hxz a Hin. rewrite (Heq a). apply (Hz2 x Hx); [by apply Hzo|done].
Qed.
End Work.
