(* ===== verification/OspfsGrow.v ===== *)
(** * OSPFS: add_block is correct in every region of the block tree *)

From S2P Require Import Prelude CMemory OspfsLayout OspfsAlloc OspfsFile OspfsTree OspfsWork.

#[export] Instance live_dec n r : Decision (live n r).
Proof. destruct r; unfold live; apply _. Defined.

(** ** What add_block promises *)

(** How many blocks the [n+1]st data block of a file takes. *)
Definition need (n : Z) : nat :=
  if n =? 10 then 2 else if n =? 266 then 3
  else if (266 <? n) && ((n - 266) mod 256 =? 0) then 2 else 1.

(** Success: the first [need n] free blocks are taken, the first of them is the
    new data block, cleared, and the file's other blocks are where they were. *)
Record grown (m : mem) (oi n : Z) (m' : mem) : Prop := Grown {
  gr_fs : fs_ok m';
  gr_file : file_ok m' oi (n + 1);
  gr_size : ld32 m' (oi_size oi) = (n + 1) * 1024;
  gr_free : free_list m' = drop (need n) (free_list m);
  gr_new : free_list m !! 0%nat = Some (blk m' oi (RData n));
  gr_zero : zeroed m' (blk m' oi (RData n));
  gr_keep : forall r, live n r -> blk m' oi r = blk m oi r;
  gr_fresh : forall r, live (n + 1) r -> ~ live n r -> blk m' oi r ∈ free_list m;
  gr_taken : forall b, b ∈ free_list m ->
    b ∈ free_list m' \/ exists r, live (n + 1) r /\ ~ live n r /\ blk m' oi r = b;
  gr_changes : changes (grow_area m oi (live n)) m m'
}.

(** The one failure that is not undone: the 267th block with two free blocks. *)
Definition dangling (m : mem) (n : Z) : Prop := n = 266 /\ length (free_list m) = 2%nat.

(** What a failed attempt may write. *)
Definition failure_area (m : mem) (oi n a : Z) : Prop :=
  fail_area m a \/ (dangling m n /\ word_at (oi_indirect2 oi) a).

(** Failure: every block is free again; apart from the bitmap and free blocks
    only [oi_indirect2] may have changed, and only when [dangling]: it is then
    left pointing at the second of the two free blocks. *)
Record grow_failed (m : mem) (oi n : Z) (m' : mem) : Prop := GrowFailed {
  gf_fs : fs_ok m';
  gf_free : free_list m' = free_list m;
  gf_changes : changes (failure_area m oi n) m m';
  gf_dangling : forall b b2, n = 266 -> free_list m = [b; b2] -> ld32 m' (oi_indirect2 oi) = b2
}.

(** ** Files have few blocks *)

Lemma tree_bound lo hi m oi n : 0 <= n -> lo <= hi -> tree_in lo m oi (live n) ->
  (forall i, 0 <= i < n -> blk m oi (RData i) < hi) -> n <= hi - lo.
Proof.
  intros Hn Hlo T Hhi.
  assert (Hnd : NoDup (map (fun i => blk m oi (RData i)) (seqZ 0 n))).
  { apply NoDup_fmap_2_strong; [|apply NoDup_seqZ].
    intros i j Hi%elem_of_seqZ Hj%elem_of_seqZ He.
    assert (Hr : RData i = RData j); [|congruence].
    apply (tr_inj _ _ _ T); [unfold live; lia|unfold live; lia|done]. }
  assert (Hsub : map (fun i => blk m oi (RData i)) (seqZ 0 n) ⊆ seqZ lo (hi - lo)).
  { intros b Hb. apply list_elem_of_fmap in Hb as (i & -> & Hi%elem_of_seqZ). specialize (Hhi i ltac:(lia)).
    pose proof (tr_range _ _ _ T (RData i) ltac:(unfold live; lia)). apply elem_of_seqZ. lia. }
  pose proof (submseteq_length _ _ (NoDup_submseteq _ _ Hnd Hsub)) as Hlen.
  rewrite length_map, !length_seqZ in Hlen. lia.
Qed.

Lemma file_bound m oi n : file_ok m oi n -> n <= 1021.
Proof.
  intros [Hn T]. pose proof (data_start_ge m). destruct (decide (n <= 0)); [lia|].
  assert (data_start m < 1024) by (destruct (tr_used _ _ _ T (RData 0)); [unfold live; lia|lia]).
  pose proof (tree_bound (data_start m) 1024 m oi n Hn ltac:(lia) T) as Hb. transitivity (1024 - data_start m); [|lia].
  apply Hb. intros i Hi. destruct (tr_used _ _ _ T (RData i)); [unfold live; lia|lia].
Qed.

Lemma live_valid n r : n <= 1021 -> live n r -> valid r.
Proof. destruct r; cbn; ospfs_consts; lia. Qed.

Lemma live_parent n r q : live n r -> parent r = Some q -> live n q.
Proof.
  destruct r as [i| | |j]; cbn; [|done|done|by intros ? [= <-]; cbn; lia].
  intros Hi. zcases; intros [= <-]; cbn; [lia|]. divlia.
Qed.

(** Equations between roles, as arithmetic. *)
Lemma role_eq r r' : r = r' <->
  match r, r' with
  | RData i, RData i' => i = i'
  | RInd, RInd | RInd2, RInd2 => True
  | RL1 j, RL1 j' => j = j'
  | _, _ => False
  end.
Proof. destruct r, r'; (split; [by intros [= <-]|by intros []]) || (split; done). Qed.

Ltac live_cases r := destruct r; cbn; rewrite !role_eq; lia.

Lemma live_11 r : r = RData 10 \/ (r = RInd \/ live 10 r) <-> live (10 + 1) r.
Proof. live_cases r. Qed.

Lemma live_267 r :
  r = RData 266 \/ (r = RL1 0 \/ (r = RInd2 \/ live 266 r)) <-> live (266 + 1) r.
Proof. live_cases r. Qed.

Lemma live_new_l1 n r : 266 < n -> (n - 266) mod 256 = 0 ->
  r = RData n \/ (r = RL1 ((n - 266) / 256) \/ live n r) <-> live (n + 1) r.
Proof.
  intros Hn Hmod. assert (He : n - 266 = 256 * ((n - 266) / 256)) by divlia.
  revert He. generalize ((n - 266) / 256). intros q He. live_cases r.
Qed.

Lemma live_succ n r : 0 <= n -> n <> 10 -> n <> 266 -> (266 < n -> (n - 266) mod 256 <> 0) ->
  r = RData n \/ live n r <-> live (n + 1) r.
Proof.
  intros H0 H1 H2 H3.
  assert (H4 : forall j, 0 <= j -> 266 + 256 * j <> n).
  { intros j Hj He. destruct (decide (j = 0)) as [->|]; [lia|]. apply H3; [lia|].
    replace (n - 266) with (j * 256) by lia. apply Z.mod_mul. lia. }
  destruct r as [i| | |j]; cbn; rewrite role_eq; [lia..|]. specialize (H4 j). lia.
Qed.

(** The slots that growing a file from [n] to [n+1] fills. *)
Lemma attachable_data n : 0 <= n -> n <= 1021 -> (10 < n \/ n < 10) -> n <> 266 ->
  (266 < n -> (n - 266) mod 256 <> 0) -> attachable (live n) (RData n).
Proof.
  intros H0 Hb H10 H266 Hmod. split; [cbn; ospfs_consts; lia|].
  cbn. zcases; cbn; [lia|]. specialize (Hmod ltac:(lia)). divlia.
Qed.

Lemma attachable_l1_0 (L : role -> Prop) : attachable (fun r => r = RInd2 \/ L r) (RL1 0).
Proof. split; [cbn; lia|]. cbn. by left. Qed.

Lemma attachable_266 (L : role -> Prop) : attachable (fun r => r = RL1 0 \/ L r) (RData 266).
Proof. split; [cbn; ospfs_consts; lia|]. cbn. by left. Qed.

Lemma new_l1_0 n : n = 266 -> ~ (RL1 0 = RInd2 \/ live n (RL1 0)).
Proof. intros -> [?|?]; [done|]. cbn in *. lia. Qed.

Lemma new_266 : ~ (RData 266 = RL1 0 \/ RData 266 = RInd2 \/ live 266 (RData 266)).
Proof. intros [?|[?|?]]; [done..|]. cbn in *. lia. Qed.

Lemma blk_ind m oi : blk m oi RInd = ld32 m (oi_indirect oi).
Proof. done. Qed.
Lemma blk_ind2 m oi : blk m oi RInd2 = ld32 m (oi_indirect2 oi).
Proof. done. Qed.
Lemma slot_direct m oi i : 0 <= i < 10 -> slot m oi (RData i) = oi_direct oi i.
Proof. intros H. cbn. zcases. unfold oi_direct. lia. Qed.
Lemma slot_indirect m oi i : 10 <= i < 266 ->
  slot m oi (RData i) = ospfs_block (blk m oi RInd) + 4 * (i - 10).
Proof. intros H. cbn. zcases. done. Qed.
Lemma slot_indirect2 m oi i : 266 <= i ->
  slot m oi (RData i) = ospfs_block (blk m oi (RL1 ((i - 266) / 256))) + 4 * ((i - 266) mod 256).
Proof. intros H. cbn. zcases. done. Qed.

(** ** The scans of index blocks *)

Lemma wp_first_zero a z fu m (Q : Z -> mem -> Prop) :
  0 <= z <= 256 -> (forall i, 0 <= i < z -> ld32 m (a + 4 * i) <> 0) ->
  (z < 256 -> ld32 m (a + 4 * z) = 0) -> Q z m -> wp (first_zero a) fu m Q.
Proof.
  intros Hz Hnz Hzero HQ. unfold first_zero. apply wp_bind.
  apply (wp_for_ret (fun i t => t = m /\ i <= z)); [split; [done|lia]| |].
  - intros i t Hi [-> Hle]. wp_steps. change (Z.to_nat OSPFS_NINDIRECT) with 256%nat in Hi.
    destruct (Z.eqb_spec (ld32 m (a + 4 * i)) 0) as [H0|H0].
    + assert (i = z) as ->; [|by wp_steps].
      destruct (decide (i = z)) as [|]; [done|]. by destruct (Hnz i ltac:(lia)).
    + split; [done|]. destruct (decide (i = z)) as [->|]; [|lia].
      destruct H0. apply Hzero. lia.
  - intros t [-> Hle]. wp_steps. change (0 + Z.of_nat (Z.to_nat OSPFS_NINDIRECT)) with 256 in Hle.
    by replace (default OSPFS_NINDIRECT None) with z by (change OSPFS_NINDIRECT with 256; cbn; lia).
Qed.

Lemma wp_last_indirect a z fu m (Q : Z -> mem -> Prop) :
  0 <= z < 257 -> (forall i, 0 <= i < z -> ld32 m (a + 4 * (i + 1)) <> 0) ->
  ld32 m (a + 4 * (z + 1)) = 0 -> Q z m -> wp (last_indirect a) fu m Q.
Proof.
  intros Hz Hnz Hzero HQ. unfold last_indirect. apply wp_bind.
  apply (wp_for_ret (fun i t => t = m /\ i <= z)); [split; [done|lia]| |].
  - intros i t Hi [-> Hle]. wp_steps.
    destruct (Z.eqb_spec (ld32 m (a + 4 * (i + 1))) 0) as [H0|H0].
    + assert (i = z) as ->; [|by wp_steps].
      destruct (decide (i = z)) as [|]; [done|]. by destruct (Hnz i ltac:(lia)).
    + split; [done|]. destruct (decide (i = z)) as [->|]; [done|lia].
  - intros t [-> Hle]. change (0 + Z.of_nat (Z.to_nat (OSPFS_NINDIRECT + 1))) with 257 in Hle. lia.
Qed.

Lemma live_nonzero m oi L r : tree_ok m oi L -> L r -> blk m oi r <> 0.
Proof. intros T Hr. destruct (tr_used _ _ _ T r Hr) as [? _]. pose proof (data_start_ge m). lia. Qed.

Section AddBlock.
Context (m0 : mem) (oi n : Z).
Context (F0 : fs_ok m0) (T0 : file_ok m0 oi n).

Abbreviation work := (work m0 oi (live n)).
Abbreviation area := (grow_area m0 oi (live n)).

Lemma n_range : 0 <= n <= 1021.
Proof. split; [apply T0|by eapply file_bound]. Qed.

(** [n] is fixed in the section: the tree of the initial state. *)
Lemma T0' : tree_ok m0 oi (live n).
Proof. apply T0. Qed.

Lemma fail_grow a : fail_area m0 a -> area a.
Proof. intros [H|H]; [by left|by right; right; right]. Qed.

(** The last two statements of every successful branch. *)
Lemma wp_add_block_done k L b m fu (Q : Z -> mem -> Prop) :
  work area k L [] m -> (forall r, L r <-> live (n + 1) r) -> k = need n ->
  free_list m0 !! 0%nat = Some b -> blk m oi (RData n) = b -> zeroed m b ->
  (forall m', grown m0 oi n m' -> Q 0 m') -> wp (add_block_done oi n) fu m Q.
Proof.
  intros W HL -> Hb Hnew Hz HQ. unfold add_block_done. do 3 wp_step. apply HQ.
  pose proof n_range as Hn. pose proof (wk_tree _ _ _ _ _ _ _ _ W) as T.
  assert (Hatt : forall r, live (n + 1) r -> attachable L r).
  { intros r Hr. apply (attachable_member m oi L T). by apply HL. }
  assert (Hlv : live (n + 1) (RData n)) by (cbn; lia).
  destruct (work_size m0 oi (live n) area _ L [] m (u32 ((n + 1) * OSPFS_BLKSIZE)) W) as [W' Hkeep].
  { intros a Ha. by right; left. }
  set (m' := st32 m (oi_size oi) (u32 ((n + 1) * OSPFS_BLKSIZE))) in *.
  assert (Hnew' : blk m' oi (RData n) = b) by (rewrite <- Hnew; apply Hkeep; by apply Hatt).
  split.
  - apply W'.
  - split; [lia|]. eapply tree_ok_iff; [exact HL|apply W'].
  - unfold m'. rewrite ld32_st32_eq, u32_u32. unfold OSPFS_BLKSIZE. apply u32_small. lia.
  - apply W'.
  - by rewrite Hnew'.
  - rewrite Hnew'. intros a Ha. rewrite <- (Hz a Ha). apply ld8_st32_ne.
    assert (Hlb : L (RData n)) by by apply HL. pose proof (used_above m oi L T (RData n) Hlb).
    rewrite Hnew in *. unfold in_block, within, oi_size in *. lia.
  - apply W'.
  - intros r Hr Hnr. apply (wk_new _ _ _ _ _ _ _ _ W'); [by apply HL|done].
  - intros x Hx. rewrite (wk_free _ _ _ _ _ _ _ _ W').
    rewrite <- (take_drop (need n) (free_list m0)) in Hx. apply elem_of_app in Hx as [Hx|]; [|by left].
    right. destruct (wk_taken _ _ _ _ _ _ _ _ W' x Hx) as [?%not_elem_of_nil|(r & Hr & ? & ?)]; [done|].
    exists r. by rewrite <- HL.
  - apply W'.
Qed.

(** Freeing the held blocks again ends in the failed state. *)
Lemma wp_fail_1 b m fu (Q : Z -> mem -> Prop) (A : Z -> Prop) :
  fs_ok m -> (0 < fu)%nat -> data_start m = data_start m0 ->
  free_list m0 = b :: free_list m -> changes A m0 m -> (forall a, bitmap_area a -> A a) ->
  (forall m', fs_ok m' -> free_list m' = free_list m0 -> changes A m0 m' -> Q (- ENOSPC) m') ->
  wp (free_block b;; mret (- ENOSPC)) fu m Q.
Proof.
  intros Hfs Hfu Hds Hfl Hch HA HQ.
  assert (Hb : b ∈ free_list m0) by (rewrite Hfl; by left).
  pose proof (free_block_range m0 F0 b Hb) as Hr.
  apply wp_bind, free_law; [done|done|by rewrite Hds|].
  intros m' Hin Hch'. wp_step.
  assert (Hfl' : free_list m' = free_list m0).
  { apply free_list_ext. intros j. rewrite Hin, Hfl, elem_of_cons. done. }
  apply HQ; [|done|].
  - eapply (fs_ok_frame bitmap_area m m'); [done|done|apply super_not_bitmap|].
    rewrite Hfl', Hds. apply F0.
  - eapply changes_trans; [done|]. by eapply changes_weaken.
Qed.

Lemma take_one b : drop 0 (free_list m0) = b :: drop 1 (free_list m0) -> free_list m0 !! 0%nat = Some b.
Proof. rewrite drop_0. by intros ->. Qed.

(** The allocation and clearing that every branch starts with. *)
Lemma wp_new_block fu (c : Z -> prog mem Z) (Q : Z -> mem -> Prop) :
  (length (free_list m0) = 0%nat -> Q (- ENOSPC) m0) ->
  (forall b m, free_list m0 = b :: drop 1 (free_list m0) -> b <> 0 ->
     OspfsWork.work m0 oi (live n) (fail_area m0) 1 (live n) [b] m -> zeroed m b -> wp (c b) fu m Q) ->
  wp (new_block ← allocate_block;
      if new_block =? 0 then mret (- ENOSPC)
      else memsetp (ospfs_block new_block) 0 (Z.to_nat OSPFS_BLKSIZE);; c new_block) fu m0 Q.
Proof.
  intros Hnone Hsome. apply wp_bind.
  apply (wp_work_alloc m0 oi (live n) F0 (fail_area m0) 0 (live n) [] m0).
  - apply work_init; [done|apply T0'].
  - intros a Ha. by left.
  - intros Hd. rewrite drop_0 in Hd. cbn [Z.eqb]. wp_step. apply Hnone. by rewrite Hd.
  - intros b m Hd Hb0 _ W _ _. rewrite drop_0 in Hd.
    apply Z.eqb_neq in Hb0 as Hb. rewrite Hb. do 2 wp_step.
    assert (Hbf : b ∈ free_list m0) by (rewrite Hd; by left).
    destruct (work_memset m0 oi (live n) F0 (fail_area m0) 1 (live n) [b] m b W) as (W' & Hz & _).
    { by left. }
    { intros a Ha. right. by exists b. }
    by apply Hsome.
Qed.

(** Storing the new data block in its slot ends in the grown state. *)
Lemma wp_link_data k L b m a fu (Q : Z -> mem -> Prop) :
  work area k L [b] m -> zeroed m b -> attachable L (RData n) -> ~ L (RData n) ->
  a = slot m oi (RData n) -> (forall r, r = RData n \/ L r <-> live (n + 1) r) -> k = need n ->
  free_list m0 = b :: drop 1 (free_list m0) ->
  (forall m', grown m0 oi n m' -> Q 0 m') -> wp (store32 a b;; add_block_done oi n) fu m Q.
Proof.
  intros W Hz Ha Hn -> HL Hk Hb HQ. do 2 wp_step.
  destruct (work_attach m0 oi (live n) F0 area k L [b] [] m (RData n) b W) as (W' & Hbr & _ & Hz').
  { done. } { done. } { done. } { by left. } { done. }
  { apply held_last. }
  eapply wp_add_block_done; [exact W'|exact HL|done| |exact Hbr| |done].
  - by rewrite Hb.
  - apply Hz'; [by left|done].
Qed.

Lemma failed_of_area m' : fs_ok m' -> free_list m' = free_list m0 -> changes (fail_area m0) m0 m' ->
  ~ dangling m0 n -> grow_failed m0 oi n m'.
Proof.
  intros ? ? Hc Hnd. split; [done|done| |].
  - eapply changes_weaken; [done|]. by left.
  - intros b b2 Hn Hf. destruct Hnd. split; [done|by rewrite Hf].
Qed.

Lemma need_1 : n <> 10 -> n <> 266 -> (266 < n -> (n - 266) mod 256 <> 0) -> need n = 1%nat.
Proof.
  intros. unfold need. zcases.
Qed.

Lemma need_2 : n = 10 \/ (266 < n /\ (n - 266) mod 256 = 0) -> need n = 2%nat.
Proof. intros H. unfold need. zcases. Qed.

Lemma wp_add_direct b m fu (Q : Z -> mem -> Prop) :
  n < 10 -> work (fail_area m0) 1 (live n) [b] m -> zeroed m b ->
  free_list m0 = b :: drop 1 (free_list m0) ->
  (forall m', grown m0 oi n m' -> Q 0 m') ->
  wp (store32 (oi_direct oi n) b;; add_block_done oi n) fu m Q.
Proof.
  intros Hn W Hz Hb HQ. pose proof n_range.
  eapply wp_link_data; [|exact Hz| | | | |by rewrite need_1 by lia|done|done].
  - eapply work_weaken; [done|apply fail_grow].
  - apply attachable_data; lia.
  - cbn. lia.
  - by rewrite slot_direct by lia.
  - intros r. apply live_succ; lia.
Qed.

Lemma wp_add_block_indirect b m fu (Q : Z -> mem -> Prop) :
  10 <= n < 266 -> (0 < fu)%nat -> work (fail_area m0) 1 (live n) [b] m -> zeroed m b ->
  free_list m0 = b :: drop 1 (free_list m0) ->
  ((need n <= length (free_list m0))%nat -> forall m', grown m0 oi n m' -> Q 0 m') ->
  ((length (free_list m0) < need n)%nat -> forall m', grow_failed m0 oi n m' -> Q (- ENOSPC) m') ->
  wp (add_block_indirect oi n b) fu m Q.
Proof.
  intros Hn Hfu W Hz Hb HQ HQf. pose proof n_range. pose proof (wk_tree _ _ _ _ _ _ _ _ W) as T.
  unfold add_block_indirect. do 2 wp_step. fold (blk m oi RInd).
  change (ld32 m (oi_indirect oi)) with (blk m oi RInd).
  destruct (decide (n = 10)) as [H10|H10].
  - rewrite (tr_zero_ind _ _ _ T) by (cbn; lia). cbn [Z.eqb andb when]. apply wp_bind.
    apply (wp_work_alloc m0 oi (live n) F0 (fail_area m0) 1 (live n) [b] m); [done|by left| |].
    + intros Hd. cbn [Z.eqb]. apply (wp_fail_1 b m fu Q (fail_area m0));
        [apply W|done|apply W|by rewrite (wk_free _ _ _ _ _ _ _ _ W)|apply W|by left|].
      intros m' Hfs Hfl Hch. apply HQf; [|apply failed_of_area; [done..|]; intros [? _]; lia].
      rewrite Hb, need_2, Hd by lia. cbn. lia.
    + intros b2 m2 Hd2 Hb2 Hnin W2 Hz2 _. apply Z.eqb_neq in Hb2 as Hb2'. rewrite Hb2'. cbn [negb when].
      wp_steps.
      assert (Hlt : b2 < 2 ^ 32 /\ 0 <= b2).
      { destruct (held_range m0 oi (live n) F0 _ _ _ _ m2 b2 W2) as (Hr & _); [by left|].
        pose proof (data_start_ge m2). lia. }
      rewrite ld32_st32_eq, u32_small by lia.
      destruct (work_attach_clear m0 oi (live n) F0 area 2 (live n) [b2; b] [b] m2 RInd b2)
        as (W3 & Hbr & _ & Hz3).
      { eapply work_weaken; [done|apply fail_grow]. }
      { done. } { done. } { cbn; lia. } { by left. }
      { apply held_head. intros ->. apply Hnin. by left. }
      change (slot m2 oi RInd) with (oi_indirect oi) in *.
      set (m3 := memset _ _ _ _) in *.
      assert (Hbz : zeroed m3 b).
      { apply Hz3; [by right; left| |by apply Hz2; [left|]]. intros ->. apply Hnin. by left. }
      apply (wp_link_data 2 _ b m3 _ fu Q W3 Hbz).
      * split; [cbn; ospfs_consts; lia|]. subst n. cbn. by left.
      * intros [?|?]; [done|]. cbn in *. lia.
      * rewrite slot_indirect by lia. by rewrite Hbr.
      * subst n. apply live_11.
      * by rewrite need_2 by lia.
      * done.
      * apply HQ. rewrite Hb, Hd2, need_2 by lia. cbn. lia.
  - assert (Hold : blk m oi RInd <> 0).
    { destruct (tr_used _ _ _ T RInd) as [Hr _]; [cbn; lia|]. pose proof (data_start_ge m). lia. }
    apply Z.eqb_neq in Hold. rewrite Hold. cbn [andb when]. wp_steps. cbn [Z.eqb negb when andb]. wp_steps.
    change (ld32 m (oi_indirect oi)) with (blk m oi RInd).
    apply (wp_link_data 1 (live n) b m _ fu Q); [|exact Hz| | | | |by rewrite need_1 by lia|done|].
    + eapply work_weaken; [done|apply fail_grow].
    + apply attachable_data; lia.
    + cbn. lia.
    + by rewrite slot_indirect by lia.
    + intros r. apply live_succ; lia.
    + apply HQ. rewrite need_1, Hb by lia. cbn. lia.
Qed.

(** Freeing the two held blocks of the 267th block's failed attempt. *)
Lemma wp_fail_2 b b2 m fu (Q : Z -> mem -> Prop) (A : Z -> Prop) :
  fs_ok m -> (0 < fu)%nat -> data_start m = data_start m0 ->
  free_list m0 = b :: b2 :: free_list m -> changes A m0 m -> (forall a, bitmap_area a -> A a) ->
  (forall m', fs_ok m' -> free_list m' = free_list m0 -> changes A m0 m' ->
     changes bitmap_area m m' -> Q (- ENOSPC) m') ->
  wp (free_block b2;; free_block b;; mret (- ENOSPC)) fu m Q.
Proof.
  intros Hfs Hfu Hds Hfl Hch HA HQ.
  assert (Hb2 : b2 ∈ free_list m0) by (rewrite Hfl; right; by left).
  pose proof (free_block_range m0 F0 b2 Hb2) as Hr.
  apply wp_bind, free_law; [done|done|by rewrite Hds|].
  intros m' Hin Hch'.
  assert (Hds' : data_start m' = data_start m).
  { apply (data_start_frame bitmap_area m m'); [done|apply super_not_bitmap]. }
  assert (Hsub : forall x, x ∈ b2 :: free_list m <-> x ∈ free_list m').
  { intros x. rewrite Hin, elem_of_cons. done. }
  assert (Hb : b ∈ free_list m0) by (rewrite Hfl; by left).
  pose proof (free_block_range m0 F0 b Hb) as Hrb.
  assert (Hfs' : fs_ok m').
  { eapply (fs_ok_frame bitmap_area m m'); [done|done|apply super_not_bitmap|].
    intros x Hx. rewrite Hds. apply (fs_reserved m0 F0). rewrite Hfl. right. by apply Hsub. }
  apply wp_bind, free_law; [done|done|by rewrite Hds', Hds|].
  intros m'' Hin' Hch''. wp_step.
  assert (Hfl' : free_list m'' = free_list m0).
  { apply free_list_ext. intros j. rewrite Hin', <- Hsub, Hfl, (elem_of_cons (b2 :: free_list m)). done. }
  apply HQ; [|done| |by eapply changes_trans].
  - eapply (fs_ok_frame bitmap_area m' m''); [done|done|apply super_not_bitmap|].
    rewrite Hfl', Hds', Hds. apply F0.
  - eapply changes_trans; [done|]. eapply changes_trans; by eapply changes_weaken.
Qed.

(** The first block under the doubly-indirect block: three blocks are needed.
    The state in which [oi_indirect2] has been set and its block cleared. *)
Lemma wp_add_267_link b b2 m fu (Q : Z -> mem -> Prop) :
  n = 266 -> (0 < fu)%nat -> work area 2 (fun r => r = RInd2 \/ live n r) [b] m ->
  zeroed m b -> blk m oi RInd2 = b2 ->
  free_list m0 = b :: drop 1 (free_list m0) -> drop 1 (free_list m0) = b2 :: drop 2 (free_list m0) ->
  changes (fun a => fail_area m0 a \/ word_at (oi_indirect2 oi) a) m0 m ->
  ((3 <= length (free_list m0))%nat -> forall m', grown m0 oi n m' -> Q 0 m') ->
  ((length (free_list m0) < 3)%nat -> forall m', grow_failed m0 oi n m' -> Q (- ENOSPC) m') ->
  wp (indirect ← allocate_block;
      if indirect =? 0 then free_block b2;; free_block b;; mret (- ENOSPC)
      else
        store32 (ospfs_block b2) indirect;;
        memsetp (ospfs_block indirect) 0 (Z.to_nat OSPFS_BLKSIZE);;
        store32 (ospfs_block indirect) b;;
        add_block_done oi n) fu m Q.
Proof.
  intros Hn Hfu W Hz Hbr Hb Hd2 Hch HQ HQf. apply wp_bind.
  apply (wp_work_alloc m0 oi (live n) F0 area 2 _ [b] m fu _ W); [by left| |].
  - intros Hd3. cbn [Z.eqb].
    assert (Hlen : length (free_list m0) = 2%nat) by (rewrite Hb, Hd2, Hd3; done).
    apply (wp_fail_2 b b2 m fu Q (fun a => fail_area m0 a \/ word_at (oi_indirect2 oi) a));
      [apply W|done|apply W| |exact Hch|by left; left|].
    { by rewrite (wk_free _ _ _ _ _ _ _ _ W), <- Hd2. }
    intros m' Hfs Hfl Hch' Hbm. apply HQf; [lia|]. split; [done|done| |].
    + eapply changes_weaken; [exact Hch'|]. intros a [Ha|Ha]; [by left|right]. split; [by split|done].
    + intros c c2 _ Hf. rewrite Hd2, Hd3 in Hb. rewrite Hb in Hf. injection Hf as _ <-.
      rewrite <- Hbr. apply (changes_ld32 bitmap_area m m'); [exact Hbm|].
      intros a Ha. destruct (tr_inode _ _ _ (wk_tree _ _ _ _ _ _ _ _ W)).
      unfold oi_indirect2, bitmap_area, within in *. lia.
  - intros b3 m4 Hd3 Hb3 Hnin3 W4 Hz4 Hk4. apply Z.eqb_neq in Hb3. rewrite Hb3.
    do 4 wp_step.
    pose proof (proj1 (Hk4 (RL1 0) (attachable_l1_0 _))) as Hsl.
    assert (Hsl4 : slot m4 oi (RL1 0) = ospfs_block b2).
    { rewrite Hsl, slot_unfold. cbn [parent offset]. rewrite Hbr. lia. }
    destruct (work_attach_clear m0 oi (live n) F0 area 3 _ [b3; b] [b] m4 (RL1 0) b3 W4)
      as (W5 & Hbr5 & _ & Hz5).
    { done. } { apply attachable_l1_0. } { by apply new_l1_0. } { by left. }
    { apply held_head. intros ->. apply Hnin3. by left. }
    rewrite Hsl4 in *.
    assert (Hbz5 : zeroed (memset (st32 m4 (ospfs_block b2) b3) (ospfs_block b3) 0 (Z.to_nat OSPFS_BLKSIZE)) b).
    { apply Hz5; [by right; left| |by apply Hz4; [left|]]. intros ->. apply Hnin3. by left. }
    eapply wp_link_data; [exact W5|exact Hbz5| | | | |by rewrite Hn|done|].
    + rewrite Hn. apply attachable_266.
    + rewrite Hn. apply new_266.
    + rewrite slot_indirect2, Hn by lia. change ((266 - 266) / 256) with 0. rewrite Hbr5.
      change ((266 - 266) mod 256) with 0. lia.
    + rewrite Hn. apply live_267.
    + apply HQ. rewrite Hb, Hd2, Hd3. cbn. lia.
Qed.

Lemma wp_add_block_267 b m fu (Q : Z -> mem -> Prop) :
  n = 266 -> (0 < fu)%nat -> work (fail_area m0) 1 (live n) [b] m -> zeroed m b ->
  free_list m0 = b :: drop 1 (free_list m0) ->
  ((3 <= length (free_list m0))%nat -> forall m', grown m0 oi n m' -> Q 0 m') ->
  ((length (free_list m0) < 3)%nat -> forall m', grow_failed m0 oi n m' -> Q (- ENOSPC) m') ->
  wp (add_block_indirect2 oi n b) fu m Q.
Proof.
  intros Hn Hfu W Hz Hb HQ HQf. pose proof (wk_tree _ _ _ _ _ _ _ _ W) as T.
  unfold add_block_indirect2. do 2 wp_step. change (ld32 m (oi_indirect2 oi)) with (blk m oi RInd2).
  rewrite (tr_zero_ind2 _ _ _ T) by (cbn; lia). cbn [Z.eqb andb when]. apply wp_bind.
  apply (wp_work_alloc m0 oi (live n) F0 (fail_area m0) 1 (live n) [b] m); [done|by left| |].
  - intros Hd. cbn [Z.eqb]. apply (wp_fail_1 b m fu Q (fail_area m0));
      [apply W|done|apply W|by rewrite (wk_free _ _ _ _ _ _ _ _ W)|apply W|by left|].
    assert (Hlen : length (free_list m0) = 1%nat) by (rewrite Hb, Hd; done).
    intros m' Hfs Hfl Hch. apply HQf; [lia|]. apply failed_of_area; [done..|]. intros [_ ?]; lia.
  - intros b2 m2 Hd2 Hb2 Hnin W2 Hz2 _. apply Z.eqb_neq in Hb2. rewrite Hb2. cbn [negb when].
    do 6 wp_step.
    destruct (held_range m0 oi (live n) F0 _ _ _ _ m2 b2 W2) as (Hr & _); [by left|].
    pose proof (data_start_ge m2). rewrite ld32_st32_eq, u32_small by lia.
    destruct (work_attach_clear m0 oi (live n) F0 area 2 (live n) [b2; b] [b] m2 RInd2 b2)
      as (W3 & Hbr & _ & Hz3).
    { eapply work_weaken; [done|apply fail_grow]. }
    { done. } { done. } { cbn; lia. } { by left. }
    { apply held_head. intros ->. apply Hnin. by left. }
    change (slot m2 oi RInd2) with (oi_indirect2 oi) in *.
    apply (wp_add_267_link b b2); [done|done|exact W3| |exact Hbr|done|done| |done|done].
    + apply Hz3; [by right; left| |by apply Hz2; [left|]]. intros ->. apply Hnin. by left.
    + eapply changes_trans; [eapply changes_weaken; [apply W2|by left]|].
      eapply changes_trans; [apply changes_st32; intros a Ha; right; exact Ha|].
      apply changes_memset.
      rewrite ospfs_block_small by lia. intros a Ha. left. right. exists b2.
      split; [rewrite Hb, Hd2; by right; left|]. done.
Qed.

(** *** The blocks after the 267th *)

(** The last indirect block in use under [oi_indirect2]. *)
Definition last_l1 : Z := (n - 267) / 256.

Lemma last_l1_range : 266 < n -> 0 <= last_l1 /\ last_l1 < 3 /\ 266 + 256 * last_l1 < n <= 522 + 256 * last_l1.
Proof.
  intros Hn. pose proof n_range. pose proof (Z.div_mod (n - 267) 256 ltac:(lia)).
  pose proof (Z.mod_pos_bound (n - 267) 256 ltac:(lia)). unfold last_l1. lia.
Qed.

Lemma wp_last_l1 m fu (Q : Z -> mem -> Prop) :
  266 < n -> tree_ok m oi (live n) -> Q last_l1 m ->
  wp (last_indirect (ospfs_block (blk m oi RInd2))) fu m Q.
Proof.
  intros Hn T HQ. pose proof (last_l1_range Hn) as Hr.
  apply (wp_last_indirect _ last_l1); [lia| | |done].
  - intros i Hi. apply (live_nonzero m oi (live n) (RL1 (i + 1)) T). cbn. lia.
  - apply (tr_zero _ _ _ T (RL1 (last_l1 + 1)) RInd2); [cbn; lia|cbn; lia|done|cbn; lia].
Qed.

(** The first unused entry of that block: 256 when the block is full. *)
Lemma wp_first_unused m fu (Q : Z -> mem -> Prop) :
  266 < n -> tree_ok m oi (live n) -> Q (n - 266 - 256 * last_l1) m ->
  wp (first_zero (ospfs_block (blk m oi (RL1 last_l1)))) fu m Q.
Proof.
  intros Hn T HQ. pose proof (last_l1_range Hn) as Hr. pose proof n_range.
  assert (Hw : forall i, 0 <= i < 256 ->
    ld32 m (ospfs_block (blk m oi (RL1 last_l1)) + 4 * i) = blk m oi (RData (266 + 256 * last_l1 + i))).
  { intros i Hi. unfold blk at 2. rewrite slot_indirect2 by lia.
    replace ((266 + 256 * last_l1 + i - 266) / 256) with last_l1 by divlia.
    by replace ((266 + 256 * last_l1 + i - 266) mod 256) with i by divlia. }
  apply (wp_first_zero _ (n - 266 - 256 * last_l1)); [lia| | |done].
  - intros i Hi. rewrite Hw by lia. apply (live_nonzero m oi (live n)); [done|cbn; lia].
  - intros Hi. rewrite Hw by lia. apply (tr_zero _ _ _ T _ (RL1 last_l1)).
    + cbn. lia.
    + cbn. ospfs_consts. lia.
    + cbn. zcases. do 2 f_equal. divlia.
    + cbn. lia.
Qed.

(** A full block: a new indirect block is needed.  The code stores the data
    block in it before it links it; the two stores commute. *)
Lemma work_new_l1 b b2 m :
  266 < n -> (n - 266) mod 256 = 0 -> b <> b2 -> work area 2 (live n) [b2; b] m ->
  zeroed m b2 -> zeroed m b ->
  let m' := st32 (st32 m (ospfs_block b2) b) (slot m oi (RL1 (last_l1 + 1))) b2 in
  work area 2 (fun r => r = RData n \/ (r = RL1 (last_l1 + 1) \/ live n r)) [] m' /\
  blk m' oi (RData n) = b /\ zeroed m' b.
Proof.
  intros Hn Hmod Hne W Hz2 Hz m'. pose proof n_range as Hrange. pose proof (last_l1_range Hn) as Hl1.
  assert (Hnl : (n - 266) / 256 = last_l1 + 1) by (unfold last_l1; divlia).
  pose proof (wk_tree _ _ _ _ _ _ _ _ W) as T.
  destruct (held_range m0 oi (live n) F0 _ _ _ _ m b2 W) as (Hr2 & _ & Hd); [by left|].
  assert (Ha2 : ospfs_block b2 = 1024 * b2) by (apply ospfs_block_small; pose proof (data_start_ge m); lia).
  assert (Hatt : attachable (live n) (RL1 (last_l1 + 1))) by (split; cbn; lia).
  destruct (work_attach m0 oi (live n) F0 area 2 (live n) [b2; b] [b] m (RL1 (last_l1 + 1)) b2 W)
    as (W4 & Hbr & _ & Hz4).
  { done. } { done. } { cbn. lia. } { by left. } { done. }
  { by apply held_head. }
  specialize (Hz4 b ltac:(right; by left) Hz).
  destruct (work_attach m0 oi (live n) F0 area 2 _ [b] [] _ (RData n) b W4) as (W5 & Hbr5 & _ & Hz5).
  { done. } { split; [cbn; ospfs_consts; lia|]. cbn. zcases. left. by rewrite Hnl. }
  { intros [?|Hl]; [done|cbn in Hl; lia]. } { by left. } { done. }
  { apply held_last. }
  specialize (Hz5 b ltac:(by left) Hz4).
  assert (Hs5 : slot (st32 m (slot m oi (RL1 (last_l1 + 1))) b2) oi (RData n) = ospfs_block b2).
  { rewrite slot_indirect2, Hnl, Hbr, Hmod by lia. lia. }
  rewrite Hs5 in W5, Hbr5, Hz5.
  assert (Heq : m' ≡ st32 (st32 m (slot m oi (RL1 (last_l1 + 1))) b2) (ospfs_block b2) b).
  { apply st32_st32_comm.
    pose proof (slot_where m oi (live n) T _ Hatt) as Hw. cbn [parent] in Hw.
    pose proof (Hd RInd2 ltac:(cbn; lia)). lia. }
  split; [by eapply work_equiv|]. split; [by rewrite Heq|].
  intros a Ha. rewrite (Heq a). by apply Hz5.
Qed.

Lemma wp_new_l1_link b b2 m fu (Q : Z -> mem -> Prop) :
  266 < n -> (n - 266) mod 256 = 0 -> b <> b2 -> work area 2 (live n) [b2; b] m ->
  zeroed m b2 -> zeroed m b -> free_list m0 !! 0%nat = Some b ->
  (forall m', grown m0 oi n m' -> Q 0 m') ->
  wp (store32 (ospfs_block b2) b;;
      ind2' ← load32 (oi_indirect2 oi);
      store32 (ospfs_block ind2' + 4 * (last_l1 + 1)) b2;;
      add_block_done oi n) fu m Q.
Proof.
  intros Hn Hmod Hne W Hz2 Hz Hb HQ. pose proof (last_l1_range Hn) as Hl1.
  destruct (work_new_l1 b b2 m Hn Hmod Hne W Hz2 Hz) as (W' & Hbr & Hz').
  pose proof (wk_tree _ _ _ _ _ _ _ _ W) as T.
  destruct (held_range m0 oi (live n) F0 _ _ _ _ m b2 W) as (Hr2 & _); [by left|].
  do 4 wp_step.
  assert (Hind2 : ld32 (st32 m (ospfs_block b2) b) (oi_indirect2 oi) = blk m oi RInd2).
  { pose proof (data_start_ge m). destruct (tr_inode _ _ _ T). apply ld32_st32_ne.
    rewrite ospfs_block_small by lia. unfold oi_indirect2. lia. }
  rewrite Hind2. do 2 wp_step.
  change (ospfs_block (blk m oi RInd2) + 4 * (last_l1 + 1)) with (slot m oi (RL1 (last_l1 + 1))).
  apply (wp_add_block_done 2 _ b _ fu Q W'); [|by rewrite need_2 by lia|done|done|done|done].
  intros r. replace (last_l1 + 1) with ((n - 266) / 256) by (unfold last_l1; divlia). by apply live_new_l1.
Qed.

Lemma wp_add_block_new_l1 b m fu (Q : Z -> mem -> Prop) :
  266 < n -> (n - 266) mod 256 = 0 -> (0 < fu)%nat ->
  work (fail_area m0) 1 (live n) [b] m -> zeroed m b ->
  free_list m0 = b :: drop 1 (free_list m0) ->
  ((2 <= length (free_list m0))%nat -> forall m', grown m0 oi n m' -> Q 0 m') ->
  ((length (free_list m0) < 2)%nat -> forall m', grow_failed m0 oi n m' -> Q (- ENOSPC) m') ->
  wp (indirect ← allocate_block;
      if indirect =? 0 then free_block b;; mret (- ENOSPC)
      else
        memsetp (ospfs_block indirect) 0 (Z.to_nat OSPFS_BLKSIZE);;
        store32 (ospfs_block indirect) b;;
        ind2' ← load32 (oi_indirect2 oi);
        store32 (ospfs_block ind2' + 4 * (last_l1 + 1)) indirect;;
        add_block_done oi n) fu m Q.
Proof.
  intros Hn Hmod Hfu W Hz Hb HQ HQf. apply wp_bind.
  apply (wp_work_alloc m0 oi (live n) F0 (fail_area m0) 1 (live n) [b] m); [done|by left| |].
  - intros Hd. cbn [Z.eqb]. apply (wp_fail_1 b m fu Q (fail_area m0));
      [apply W|done|apply W|by rewrite (wk_free _ _ _ _ _ _ _ _ W)|apply W|by left|].
    assert (Hlen : length (free_list m0) = 1%nat) by (rewrite Hb, Hd; done).
    intros m' Hfs Hfl Hch. apply HQf; [lia|]. apply failed_of_area; [done..|]. intros [_ ?]; lia.
  - intros b2 m2 Hd2 Hb2 Hnin W2 Hz2 Hk2. apply Z.eqb_neq in Hb2. rewrite Hb2.
    assert (Hne : b <> b2) by (intros ->; apply Hnin; by left).
    do 2 wp_step.
    destruct (work_memset m0 oi (live n) F0 area 2 (live n) [b2; b] m2 b2) as (W3 & Hz3 & Hzo3 & Hk3).
    { eapply work_weaken; [done|apply fail_grow]. }
    { by left. }
    { intros a Ha. right; right; right. exists b2. split; [|done]. rewrite Hb, Hd2. right. by left. }
    apply wp_new_l1_link; [done..| |by rewrite Hb|].
    + apply Hzo3; [done|]. apply Hz2; [by left|done].
    + apply HQ. rewrite Hb, Hd2. cbn. lia.
Qed.

Lemma wp_add_block_indirect2 b m fu (Q : Z -> mem -> Prop) :
  266 < n -> (0 < fu)%nat -> work (fail_area m0) 1 (live n) [b] m -> zeroed m b ->
  free_list m0 = b :: drop 1 (free_list m0) ->
  ((need n <= length (free_list m0))%nat -> forall m', grown m0 oi n m' -> Q 0 m') ->
  ((length (free_list m0) < need n)%nat -> forall m', grow_failed m0 oi n m' -> Q (- ENOSPC) m') ->
  wp (add_block_indirect2 oi n b) fu m Q.
Proof.
  intros Hn Hfu W Hz Hb HQ HQf. pose proof n_range as Hrange. pose proof (last_l1_range Hn) as Hl1.
  pose proof (wk_tree _ _ _ _ _ _ _ _ W) as T.
  unfold add_block_indirect2. do 2 wp_step. change (ld32 m (oi_indirect2 oi)) with (blk m oi RInd2).
  assert (Hold : blk m oi RInd2 <> 0) by (apply (live_nonzero m oi (live n)); [done|cbn; lia]).
  apply Z.eqb_neq in Hold. rewrite Hold. cbn [andb when]. do 6 wp_step. cbn [Z.eqb negb when andb].
  change (ld32 m (oi_indirect2 oi)) with (blk m oi RInd2).
  apply wp_bind, wp_last_l1; [done|done|]. do 2 wp_step.
  change (ld32 m (ospfs_block (blk m oi RInd2) + 4 * last_l1)) with (blk m oi (RL1 last_l1)).
  apply wp_bind, wp_first_unused; [done|done|].
  change OSPFS_NINDIRECT with 256.
  destruct (Z.eqb_spec (n - 266 - 256 * last_l1) 256) as [Hfull|Hpart].
  - assert (Hmod : (n - 266) mod 256 = 0) by divlia.
    rewrite need_2 in HQ, HQf by lia. by apply (wp_add_block_new_l1 b m).
  - assert (Hmod : (n - 266) mod 256 <> 0) by divlia.
    apply (wp_link_data 1 (live n) b m _ fu Q); [|exact Hz| | | | |by rewrite need_1 by lia|done|].
    + eapply work_weaken; [done|apply fail_grow].
    + apply attachable_data; lia.
    + cbn. lia.
    + rewrite slot_indirect2 by lia. replace ((n - 266) / 256) with last_l1 by divlia.
      replace ((n - 266) mod 256) with (n - 266 - 256 * last_l1) by divlia. done.
    + intros r. apply live_succ; lia.
    + apply HQ. rewrite need_1, Hb by lia. cbn. lia.
Qed.
End AddBlock.

(** [add_block] on a file of [n] whole blocks: it succeeds exactly when the
    disk has the blocks it needs, and then extends the file by a cleared block. *)
Lemma wp_add_block oi n fu m (Q : Z -> mem -> Prop) :
  fs_ok m -> file_ok m oi n -> ospfs_size2nblocks (ld32 m (oi_size oi)) = n -> (0 < fu)%nat ->
  ((need n <= length (free_list m))%nat -> forall m', grown m oi n m' -> Q 0 m') ->
  ((length (free_list m) < need n)%nat -> forall m', grow_failed m oi n m' -> Q (- ENOSPC) m') ->
  wp (add_block oi) fu m Q.
Proof.
  intros F0 T0 Hsz Hfu HQ HQf. pose proof (n_range m oi n T0) as Hrange.
  unfold add_block. do 2 wp_step. rewrite Hsz.
  apply (wp_new_block m oi n F0 T0).
  - intros Hlen. apply HQf.
    + assert (0 < need n)%nat by (unfold need; zcases). lia.
    + apply failed_of_area; [done|done|apply changes_refl|]. intros [_ ?]. lia.
  - intros b m' Hb _ W Hz. ospfs_consts. zcases.
    + apply (wp_add_direct m oi n F0 T0 b m' fu Q); [lia|done|done|done|].
      apply HQ. rewrite need_1, Hb by lia. cbn. lia.
    + apply (wp_add_block_indirect m oi n F0 T0 b m'); (lia || done).
    + destruct (decide (n = 266)) as [H266|].
      * assert (Hneed : need n = 3%nat) by by rewrite H266.
        rewrite Hneed in HQ, HQf. by apply (wp_add_block_267 m oi n F0 T0 b m').
      * apply (wp_add_block_indirect2 m oi n F0 T0 b m'); (lia || done).
Qed.
