(* ===== verification/OspfsShrink.v ===== *)
(** * OSPFS: remove_block is correct in every region of the block tree

    [remove_block] frees the last data block of a file and the index blocks
    that become empty.  [shed] is the invariant of its intermediate states: the
    roles [L] that are still linked, every other block of the file being free
    again. *)

From S2P Require Import Prelude CMemory OspfsLayout OspfsAlloc OspfsFile OspfsTree OspfsWork OspfsGrow.

(** What shrinking a file may write. *)
Definition shrink_area (m : mem) (oi : Z) (L : role -> Prop) (a : Z) : Prop :=
  bitmap_area a \/ word_at (oi_size oi) a \/ tree_area m oi L a.

(** What [remove_block] promises: the file has one block less, whose blocks are
    free again; the remaining blocks of the file are where they were. *)
Record shrunk (m : mem) (oi n : Z) (m' : mem) : Prop := Shrunk {
  sh_fs : fs_ok m';
  sh_file : file_ok m' oi (n - 1);
  sh_size : ld32 m' (oi_size oi) = (n - 1) * 1024;
  sh_free : forall j, j ∈ free_list m' <->
    j ∈ free_list m \/ exists r, live n r /\ ~ live (n - 1) r /\ blk m oi r = j;
  sh_keep : forall r, live (n - 1) r -> blk m' oi r = blk m oi r;
  sh_changes : changes (shrink_area m oi (live n)) m m'
}.

Lemma changes_st32_both P m m' a v : changes P m m' -> changes P (st32 m a v) (st32 m' a v).
Proof. intros H b Hb. rewrite (ld8_st32 m), (ld8_st32 m'). case_decide; [done|by apply H]. Qed.

Lemma tree_area_sub m oi (L L' : role -> Prop) a :
  (forall r, L' r -> L r) -> tree_area m oi L' a -> tree_area m oi L a.
Proof. intros HL [H|(q & Hq & ?)]; [by left|]. right. exists q. auto. Qed.

Lemma tree_area_keep m m' oi (L : role -> Prop) a :
  (forall r, L r -> blk m' oi r = blk m oi r) -> tree_area m' oi L a -> tree_area m oi L a.
Proof. intros HL [H|(q & Hq & Hix & Hb)]; [by left|]. right. exists q. rewrite HL in Hb by done. done. Qed.

Section Shed.
Context (m0 : mem) (oi : Z) (L0 : role -> Prop) (F0 : fs_ok m0) (T0 : tree_ok m0 oi L0).

Record shed (L : role -> Prop) (m : mem) : Prop := Shed {
  sd_fs : fs_ok m;
  sd_tree : tree_ok m oi L;
  sd_sub : forall r, L r -> L0 r;
  sd_keep : forall r, L r -> blk m oi r = blk m0 oi r;
  sd_free : forall j, j ∈ free_list m <-> j ∈ free_list m0 \/ exists r, L0 r /\ ~ L r /\ blk m0 oi r = j;
  sd_changes : changes (shrink_area m0 oi L0) m0 m
}.

Lemma shed_init : shed L0 m0.
Proof.
  split; try done. intros j. split; [by left|]. intros [|(r & ? & ? & _)]; done.
Qed.

Lemma shed_iff L L' m : (forall r, L r <-> L' r) -> shed L m -> shed L' m.
Proof.
  intros HL D. split; try apply D.
  - by eapply tree_ok_iff, D.
  - intros r Hr. apply (sd_sub _ _ D). by apply HL.
  - intros r Hr. apply (sd_keep _ _ D). by apply HL.
  - intros j. rewrite (sd_free _ _ D). by setoid_rewrite HL.
Qed.

Lemma shed_area L m a : shed L m -> tree_area m oi L a -> shrink_area m0 oi L0 a.
Proof.
  intros D Ha. right; right. eapply tree_area_sub; [apply D|]. eapply tree_area_keep; [apply D|done].
Qed.

(** A write elsewhere. *)
Lemma shed_write L m (P : Z -> Prop) m' :
  shed L m -> changes P m m' ->
  (forall a, P a -> ~ super_area a /\ ~ bitmap_area a /\ ~ tree_area m oi L a /\ shrink_area m0 oi L0 a) ->
  shed L m'.
Proof.
  intros D Hch HP.
  assert (Hs : forall a, super_area a -> ~ P a) by (intros a Ha Hp; by destruct (HP a Hp) as (? & ? & ? & ?)).
  assert (Hb : forall a, bitmap_area a -> ~ P a) by (intros a Ha Hp; by destruct (HP a Hp) as (? & ? & ? & ?)).
  assert (Ht : forall a, tree_area m oi L a -> ~ P a) by (intros a Ha Hp; by destruct (HP a Hp) as (? & ? & ? & ?)).
  pose proof (free_list_frame P m m' Hch Hb) as Hfl.
  destruct (tree_frame m oi L (sd_tree _ _ D) P m' Hch Hs Ht) as [T' Hkeep].
  { intros r Hr. rewrite Hfl. by apply (tr_used _ _ _ (sd_tree _ _ D)). }
  split.
  - eapply fs_ok_frame; [apply D|done|done|]. rewrite Hfl. apply D.
  - done.
  - apply D.
  - intros r Hr. rewrite <- (sd_keep _ _ D) by done. apply Hkeep.
    by apply (attachable_member m oi L (sd_tree _ _ D)).
  - intros j. rewrite Hfl. apply D.
  - eapply changes_trans; [apply D|]. eapply changes_weaken; [done|]. intros a Ha. by apply HP.
Qed.

Lemma shed_equiv L m m' : shed L m -> m' ≡ m -> shed L m'.
Proof. intros D He. eapply (shed_write L m (fun _ => False)); [done| |done]. intros a _. apply He. Qed.

Lemma shed_size L m v : shed L m -> shed L (st32 m (oi_size oi) v).
Proof.
  intros D. pose proof (sd_tree _ _ D) as T. destruct (tr_inode _ _ _ T) as [H1 H2].
  apply (shed_write L m (word_at (oi_size oi))); [done|by apply changes_st32|].
  intros a Ha. split; [|split; [|split; [|by right; left]]]; unfold word_at, oi_size, within in Ha.
  - unfold super_area, within. lia.
  - unfold bitmap_area, within. lia.
  - intros [Hin|(q & Hq & _ & Hin)]; [unfold inode_slots, within in Hin; lia|].
    pose proof (used_above m oi L T q Hq). unfold in_block, within in Hin. lia.
Qed.

(** One step of the teardown: a leaf's block is freed, then its slot cleared. *)
Lemma wp_release L m r b fu (Q : unit -> mem -> Prop) :
  shed L m -> L r -> (forall r', L r' -> parent r' <> Some r) -> b = blk m oi r -> (0 < fu)%nat ->
  (forall m1, shed (fun r' => L r' /\ r' <> r) (st32 m1 (slot m oi r) 0) -> changes bitmap_area m m1 ->
     Q tt m1) ->
  wp (free_block b) fu m Q.
Proof.
  intros D Hr Hleaf -> Hfu HQ. pose proof (sd_tree _ _ D) as T.
  destruct (tr_used _ _ _ T r Hr) as [Hrange Hnf].
  apply free_law; [apply D|done|done|]. intros m1 Hin Hch. apply HQ; [|done].
  pose proof (attachable_member m oi L T r Hr) as Ha.
  destruct (tree_detach m oi L T r Hr Hleaf) as [Tx Hkeepx].
  destruct (slot_write_alloc m oi L T r 0 Ha) as (Hchx & Hdsx & Hflx).
  set (mx := st32 m (slot m oi r) 0) in *. set (m2 := st32 m1 (slot m oi r) 0).
  assert (Hslot : forall a, word_at (slot m oi r) a -> ~ bitmap_area a /\ ~ super_area a).
  { intros a Hw. pose proof (slot_above m oi L T r Ha).
    unfold word_at, bitmap_area, super_area, within in *. lia. }
  assert (Hch2 : changes bitmap_area mx m2) by by apply changes_st32_both.
  assert (Hch12 : changes (word_at (slot m oi r)) m1 m2) by by apply changes_st32.
  assert (Hfl2 : free_list m2 = free_list m1).
  { apply (free_list_frame _ _ _ Hch12). intros a Hb Hw. by destruct (Hslot a Hw). }
  destruct (tree_frame mx oi _ Tx bitmap_area m2 Hch2 super_not_bitmap) as [T2 Hkeep2].
  { intros a Ha'. assert (Hta : tree_area m oi L a).
    { eapply tree_area_sub; [|eapply tree_area_keep; [|done]]; naive_solver. }
    destruct Hta as [Hi|(q & Hq & _ & Hb)].
    - destruct (tr_inode _ _ _ T). unfold inode_slots, bitmap_area, within in *. lia.
    - pose proof (used_above m oi L T q Hq). destruct (tr_inode _ _ _ T).
      unfold in_block, bitmap_area, within in *. lia. }
  { intros r' [Hr' Hne]. rewrite Hfl2, Hin, Hkeepx by done. intros [He|Hf].
    - by apply Hne, (tr_inj _ _ _ T).
    - by apply (tr_used _ _ _ T r'). }
  assert (Hkeep : forall r', L r' /\ r' <> r -> blk m2 oi r' = blk m0 oi r').
  { intros r' [Hr' Hne]. rewrite <- (sd_keep _ _ D), <- Hkeepx by done.
    apply (fun H => proj2 (Hkeep2 r' H)), (attachable_member mx oi _ Tx). done. }
  assert (Hds : data_start m2 = data_start m).
  { rewrite <- Hdsx. apply (data_start_frame bitmap_area mx m2); [done|apply super_not_bitmap]. }
  split.
  - eapply (fs_ok_frame bitmap_area mx m2); [|done|apply super_not_bitmap|].
    + eapply fs_ok_frame; [apply D|exact Hchx| |rewrite Hflx; apply D].
      intros a Hs Hw. by destruct (Hslot a Hw).
    + intros x. rewrite Hfl2, Hin, Hdsx. intros [->|Hx]; [lia|by apply D].
  - done.
  - intros r' [Hr' _]. by apply D.
  - done.
  - intros j. rewrite Hfl2, Hin, (sd_free _ _ D). rewrite (sd_keep _ _ D) by done. split.
    + intros [->|[?|(r' & ? & ? & ?)]]; [|by left|right; exists r'; naive_solver].
      right. exists r. split; [by apply D|]. split; [tauto|done].
    + intros [?|(r' & H0 & Hn & <-)]; [by right; left|]. destruct (decide (r' = r)) as [->|]; [by left|].
      right; right. exists r'. naive_solver.
  - eapply changes_trans; [apply D|]. eapply changes_trans.
    + eapply changes_weaken; [exact Hch|]. by left.
    + eapply changes_weaken; [exact Hch12|]. intros a Hw. eapply shed_area; [done|].
      by apply (slot_in_area m oi L T r).
Qed.
End Shed.

(** ** The roles of a file with one block less *)

Lemma live_pred n r : 0 < n -> n <> 11 -> (267 <= n -> (n - 267) mod 256 <> 0) ->
  live n r /\ r <> RData (n - 1) <-> live (n - 1) r.
Proof.
  intros H0 H1 H2.
  assert (H3 : forall j, 0 <= j -> 267 + 256 * j <> n).
  { intros j Hj He. apply H2; [lia|]. replace (n - 267) with (j * 256) by lia. apply Z.mod_mul. lia. }
  destruct r as [i| | |j]; cbn; rewrite role_eq; [lia..| |].
  - specialize (H3 0). lia.
  - specialize (H3 j). lia.
Qed.

Lemma live_pred_11 r : (live 11 r /\ r <> RData 10) /\ r <> RInd <-> live 10 r.
Proof. live_cases r. Qed.

Lemma live_pred_l1 n q r : 0 <= q -> n = 267 + 256 * q ->
  (live n r /\ r <> RData (n - 1)) /\ r <> RL1 q <-> live (n - 1) r \/ (n = 267 /\ r = RInd2).
Proof. intros Hq Hn. live_cases r. Qed.

Lemma leaf_data (L : role -> Prop) i r' : L r' -> parent r' <> Some (RData i).
Proof. intros _ H. by apply parent_index in H. Qed.

Lemma leaf_ind r' : live 11 r' /\ r' <> RData 10 -> parent r' <> Some RInd.
Proof.
  intros [Hl Hne]. destruct r' as [i| | |j]; cbn; try done. cbn in Hl. zcases; try done.
  destruct Hne. f_equal. lia.
Qed.

Lemma leaf_l1 n q r' : 0 <= q -> n = 267 + 256 * q ->
  live n r' /\ r' <> RData (n - 1) -> parent r' <> Some (RL1 q).
Proof.
  intros Hq Hn [Hl Hne]. destruct r' as [i| | |j]; cbn; try done. cbn in Hl. zcases; try done.
  intros [= He]. destruct Hne. f_equal. divlia.
Qed.

Lemma leaf_ind2 r' : live 266 r' \/ (267 = 267 /\ r' = RInd2) -> parent r' <> Some RInd2.
Proof.
  intros [Hl|[_ ->]]; [|done]. destruct r' as [i| | |j]; cbn; try done; cbn in Hl; zcases; first [done|lia].
Qed.

Section RemoveBlock.
Context (m0 : mem) (oi n : Z) (F0 : fs_ok m0) (T0 : file_ok m0 oi n) (Hn0 : 0 < n).

Abbreviation shed := (shed m0 oi (live n)).

Lemma wp_remove_block_done m fu (Q : Z -> mem -> Prop) :
  shed (live (n - 1)) m -> (forall m', shrunk m0 oi n m' -> Q 0 m') ->
  wp (remove_block_done oi n) fu m Q.
Proof.
  intros D HQ. unfold remove_block_done. do 3 wp_step. apply HQ.
  pose proof (file_bound m0 oi n T0).
  pose proof (shed_size m0 oi (live n) (live (n - 1)) m (u32 ((n - 1) * OSPFS_BLKSIZE)) D) as D'.
  set (m' := st32 m (oi_size oi) (u32 ((n - 1) * OSPFS_BLKSIZE))) in *.
  split; try apply D'.
  - split; [lia|apply D'].
  - unfold m'. rewrite ld32_st32_eq, u32_u32. unfold OSPFS_BLKSIZE. apply u32_small. lia.
Qed.

Lemma start_shed : shed (live n) m0.
Proof. apply shed_init; [done|apply T0]. Qed.

Lemma last_live : live n (RData (n - 1)).
Proof. cbn. lia. Qed.
Lemma wp_remove_direct fu (Q : Z -> mem -> Prop) :
  n <= 10 -> (0 < fu)%nat -> (forall m', shrunk m0 oi n m' -> Q 0 m') ->
  wp (b ← load32 (oi_direct oi (n - 1));
      when (negb (b =? 0)) (b' ← load32 (oi_direct oi (n - 1)); free_block b');;
      store32 (oi_direct oi (n - 1)) 0;;
      remove_block_done oi n) fu m0 Q.
Proof.
  intros Hn Hfu HQ. rewrite <- (slot_direct m0) by lia. do 2 wp_step.
  change (ld32 m0 (slot m0 oi (RData (n - 1)))) with (blk m0 oi (RData (n - 1))).
  pose proof (live_nonzero m0 oi _ _ (proj2 T0) last_live) as Hnz'.
  apply Z.eqb_neq in Hnz'. rewrite Hnz'. cbn [negb when]. apply wp_bind. do 2 wp_step.
  eapply (wp_release m0 oi (live n)); [exact start_shed|exact last_live|apply leaf_data|done|done|].
  intros m1 D _. do 2 wp_step. apply wp_remove_block_done; [|done].
  eapply shed_iff; [|exact D]. intros r. apply live_pred; lia.
Qed.

Lemma wp_remove_indirect fu (Q : Z -> mem -> Prop) :
  10 < n <= 266 -> (0 < fu)%nat -> (forall m', shrunk m0 oi n m' -> Q 0 m') ->
  wp (remove_block_indirect oi n) fu m0 Q.
Proof.
  intros Hn Hfu HQ. unfold remove_block_indirect. do 2 wp_step.
  change (ld32 m0 (oi_indirect oi)) with (blk m0 oi RInd).
  assert (Hl : live n RInd) by (cbn; lia).
  pose proof (live_nonzero m0 oi _ _ (proj2 T0) Hl) as Hnz.
  apply Z.eqb_neq in Hnz. rewrite Hnz. ospfs_consts.
  assert (Hslot : slot m0 oi (RData (n - 1)) = ospfs_block (blk m0 oi RInd) + 4 * (n - 10 - 1))
    by (rewrite slot_indirect by lia; lia).
  destruct (Z.eqb_spec n (10 + 1)) as [H11|H11].
  - replace (ospfs_block (blk m0 oi RInd)) with (slot m0 oi (RData (n - 1))) by (rewrite Hslot; lia).
    do 2 wp_step. apply wp_bind.
    eapply (wp_release m0 oi (live n)); [exact start_shed|exact last_live|apply leaf_data|done|done|].
    intros m1 D _. do 4 wp_step. set (m2 := st32 m1 (slot m0 oi (RData (n - 1))) 0) in *.
    apply wp_bind. change (ld32 m2 (oi_indirect oi)) with (blk m2 oi RInd).
    eapply (wp_release m0 oi _ _ m2 RInd _ fu _ D); [by split| |done|done|].
    { intros r'. replace n with 11 by lia. apply leaf_ind. }
    intros m3 D' _. change (slot m2 oi RInd) with (oi_indirect oi) in D'.
    do 2 wp_step. apply wp_remove_block_done; [|done].
    eapply shed_iff; [|exact D']. intros r. replace n with 11 by lia. apply live_pred_11.
  - rewrite <- Hslot. do 2 wp_step. apply wp_bind.
    eapply (wp_release m0 oi (live n)); [exact start_shed|exact last_live|apply leaf_data|done|done|].
    intros m1 D _. do 2 wp_step. apply wp_remove_block_done; [|done].
    eapply shed_iff; [|exact D]. intros r. apply live_pred; lia.
Qed.

Lemma wp_count_l1 fu (Q : Z -> mem -> Prop) :
  266 < n -> Q (last_l1 n + 1) m0 -> wp (first_zero (ospfs_block (blk m0 oi RInd2))) fu m0 Q.
Proof.
  intros Hn HQ. destruct T0 as [_ T]. pose proof (last_l1_range m0 oi n T0 Hn) as Hr.
  apply (wp_first_zero _ (last_l1 n + 1)); [lia| | |done].
  - intros i Hi. apply (live_nonzero m0 oi (live n) (RL1 i) T). cbn. lia.
  - intros _. apply (tr_zero _ _ _ T (RL1 (last_l1 n + 1)) RInd2); [cbn; lia|cbn; lia|done|cbn; lia].
Qed.

(** The last data block was the only one in its indirect block. *)
Lemma wp_remove_l1 m fu (Q : Z -> mem -> Prop) :
  266 < n -> (n - 267) mod 256 = 0 -> (0 < fu)%nat ->
  shed (fun r => live n r /\ r <> RData (n - 1)) m ->
  (forall m', shrunk m0 oi n m' -> Q 0 m') ->
  wp ((ind2' ← load32 (oi_indirect2 oi);
        let block_contents := ospfs_block ind2' in
        l' ← load32 (block_contents + 4 * (last_l1 n + 1 - 1));
        free_block l';;
        store32 (block_contents + 4 * (last_l1 n + 1 - 1)) 0;;
        when (last_l1 n + 1 =? 1) (
          b0 ← load32 block_contents;
          free_block b0;;
          store32 block_contents 0;;
          ind2'' ← load32 (oi_indirect2 oi);
          free_block ind2'';;
          store32 (oi_indirect2 oi) 0));;
      remove_block_done oi n) fu m Q.
Proof.
  intros Hn Hmod Hfu D HQ. pose proof (last_l1_range m0 oi n T0 Hn) as Hr.
  assert (Hnq : n = 267 + 256 * last_l1 n) by (unfold last_l1 in *; divlia).
  apply wp_bind. do 2 wp_step. cbv zeta. do 2 wp_step. replace (last_l1 n + 1 - 1) with (last_l1 n) by lia.
  change (ld32 m (oi_indirect2 oi)) with (blk m oi RInd2).
  change (ospfs_block (blk m oi RInd2) + 4 * last_l1 n) with (slot m oi (RL1 (last_l1 n))).
  apply wp_bind.
  eapply (wp_release m0 oi _ _ m (RL1 (last_l1 n)) _ fu _ D); [by split; [cbn; lia|]| |done|done|].
  { intros r'. apply leaf_l1; lia. }
  intros m1 D' _. do 2 wp_step.
  apply (shed_iff _ _ _ _ (fun r => live (n - 1) r \/ (n = 267 /\ r = RInd2))) in D';
    [|intros r; apply live_pred_l1; lia].
  set (m2 := st32 m1 (slot m oi (RL1 (last_l1 n))) 0) in *.
  destruct (Z.eqb_spec (last_l1 n + 1) 1) as [H1|H1]; cbn [when].
  - assert (H267 : n = 267) by lia.
    assert (Hsl : slot m oi (RL1 (last_l1 n)) = ospfs_block (blk m oi RInd2)).
    { rewrite slot_unfold. cbn [parent offset]. lia. }
    assert (Hzero : ld32 m2 (ospfs_block (blk m oi RInd2)) = 0).
    { unfold m2. rewrite Hsl, ld32_st32_eq. done. }
    do 2 wp_step. rewrite Hzero. apply wp_bind, free_law_0; [apply D'|]. do 4 wp_step.
    set (m3 := st32 m2 (ospfs_block (blk m oi RInd2)) 0).
    apply (shed_equiv _ _ _ _ _ m3) in D'; [|by apply st32_ld32].
    clearbody m3. apply wp_bind.
    eapply (wp_release m0 oi _ _ m3 RInd2 _ fu _ D'); [by right| |done|done|].
    { intros r'. rewrite H267. apply leaf_ind2. }
    intros m4 D4 _. change (slot m3 oi RInd2) with (oi_indirect2 oi) in D4.
    wp_step. apply wp_remove_block_done; [|done].
    eapply shed_iff; [|exact D4]. intros r. rewrite H267. live_cases r.
  - wp_step. apply wp_remove_block_done; [|done].
    eapply shed_iff; [|exact D']. intros r. cbn beta. split; [|by left]. intros [?|[? _]]; [done|lia].
Qed.

Lemma wp_remove_indirect2 fu (Q : Z -> mem -> Prop) :
  266 < n -> (0 < fu)%nat -> (forall m', shrunk m0 oi n m' -> Q 0 m') ->
  wp (remove_block_indirect2 oi n) fu m0 Q.
Proof.
  intros Hn Hfu HQ. pose proof (last_l1_range m0 oi n T0 Hn) as Hr. unfold remove_block_indirect2.
  do 2 wp_step. change (ld32 m0 (oi_indirect2 oi)) with (blk m0 oi RInd2).
  assert (Hl : live n RInd2) by (cbn; lia).
  pose proof (live_nonzero m0 oi _ _ (proj2 T0) Hl) as Hnz. apply Z.eqb_neq in Hnz. rewrite Hnz. clear Hnz.
  apply wp_bind, wp_count_l1; [done|].
  replace (last_l1 n + 1 =? 0) with false by (symmetry; apply Z.eqb_neq; lia).
  do 4 wp_step.
  assert (Hslot : ospfs_block (ld32 m0 (ospfs_block (blk m0 oi RInd2) + 4 * (last_l1 n + 1 - 1)))
                  + 4 * ((n - OSPFS_NDIRECT - OSPFS_NINDIRECT - 1) mod OSPFS_NINDIRECT)
                  = slot m0 oi (RData (n - 1))).
  { rewrite slot_indirect2 by lia. replace (last_l1 n + 1 - 1) with (last_l1 n) by lia.
    replace ((n - 1 - 266) / 256) with (last_l1 n) by (unfold last_l1; f_equal; lia).
    ospfs_consts. by replace (n - 10 - 256 - 1) with (n - 1 - 266) by lia. }
  rewrite Hslot. apply wp_bind.
  eapply (wp_release m0 oi (live n)); [exact start_shed|exact last_live|apply leaf_data|done|done|].
  intros m1 D _. do 2 wp_step. ospfs_consts. replace (n - 10 - 256 - 1) with (n - 267) by lia.
  destruct (Z.eqb_spec ((n - 267) mod 256) 0) as [Hj|Hj]; cbn [when].
  - by apply wp_remove_l1.
  - do 2 wp_step. apply wp_remove_block_done; [|done].
    eapply shed_iff; [|exact D]. intros r. apply live_pred; [lia|lia|done].
Qed.
End RemoveBlock.

(** [remove_block] on a file of [n] whole blocks. *)
Lemma wp_remove_block oi n fu m (Q : Z -> mem -> Prop) :
  fs_ok m -> file_ok m oi n -> ospfs_size2nblocks (ld32 m (oi_size oi)) = n -> (0 < fu)%nat ->
  (n = 0 -> Q 0 m) -> (0 < n -> forall m', shrunk m oi n m' -> Q 0 m') ->
  wp (remove_block oi) fu m Q.
Proof.
  intros F0 T0 Hsz Hfu HQ0 HQ. pose proof (n_range m oi n T0) as Hrange.
  unfold remove_block. do 2 wp_step. rewrite Hsz.
  destruct (Z.eqb_spec n 0) as [H0|H0]; [wp_step; auto|]. ospfs_consts.
  assert (Hpos : 0 < n) by lia. specialize (HQ Hpos). zcases.
  - by apply (wp_remove_direct m oi n F0 T0 Hpos fu Q).
  - apply (wp_remove_indirect m oi n F0 T0 Hpos fu Q); [lia|done|done].
  - apply (wp_remove_indirect2 m oi n F0 T0 Hpos fu Q); [lia|done|done].
Qed.
