(* ===== verification/OspfsSize.v ===== *)
(** * OSPFS: change_size

    Iterating [add_block] and [remove_block]: what a whole call of
    [change_size] does to a file, when the disk has room, when it shrinks the
    file, and when it runs out of space. *)

From S2P Require Import Prelude CMemory OspfsLayout OspfsAlloc OspfsFile OspfsTree OspfsWork OspfsGrow OspfsShrink.

(** Blocks that a file of [n] data blocks takes, index blocks included. *)
Definition blocks_of (n : Z) : Z :=
  n + (if 10 <? n then 1 else 0) + (if 266 <? n then 1 + (n - 266 + 255) / 256 else 0).

(** Blocks needed to grow a file from [n] to [k] data blocks. *)
Definition needs (n k : Z) : nat := Z.to_nat (blocks_of k - blocks_of n).

Lemma need_blocks_of n : 0 <= n -> Z.of_nat (need n) = blocks_of (n + 1) - blocks_of n.
Proof.
  intros Hn. unfold need, blocks_of.
  destruct (Z.eqb_spec n 10) as [->|]; [done|]. destruct (Z.eqb_spec n 266) as [->|]; [done|].
  destruct (Z.ltb_spec 266 n) as [H|H]; cbn [andb].
  - rewrite !(proj2 (Z.ltb_lt _ _)) by lia. destruct (Z.eqb_spec ((n - 266) mod 256) 0); divlia.
  - zcases.
Qed.

Lemma need_pos n : (0 < need n)%nat.
Proof. unfold need. zcases. Qed.

Lemma blocks_of_mono n k : 0 <= n <= k -> blocks_of n <= blocks_of k.
Proof.
  intros [Hn Hk]. pose proof (Z.le_exists_sub n k Hk) as (d & -> & Hd).
  revert Hk. pattern d. apply natlike_ind; [by rewrite Z.add_0_l| |done]. intros x Hx IH _.
  pose proof (need_blocks_of (x + n) ltac:(lia)). replace (Z.succ x + n) with (x + n + 1) by lia. lia.
Qed.

Lemma needs_refl n : needs n n = 0%nat.
Proof. unfold needs. lia. Qed.

Lemma needs_succ n k : 0 <= n <= k -> needs n (k + 1) = (needs n k + need k)%nat.
Proof.
  intros H. unfold needs. pose proof (need_blocks_of k ltac:(lia)).
  pose proof (blocks_of_mono n k H). lia.
Qed.

Lemma needs_mono n k k' : 0 <= n <= k -> k <= k' -> (needs n k <= needs n k')%nat.
Proof. intros H Hk. unfold needs. pose proof (blocks_of_mono k k' ltac:(lia)). lia. Qed.

(** ** Growing by several blocks *)

Record grown_to (m : mem) (oi n k : Z) (m' : mem) : Prop := GrownTo {
  gt_fs : fs_ok m';
  gt_file : file_ok m' oi k;
  gt_size : ospfs_size2nblocks (ld32 m' (oi_size oi)) = k;
  gt_free : free_list m' = drop (needs n k) (free_list m);
  gt_keep : forall r, live n r -> blk m' oi r = blk m oi r;
  gt_fresh : forall r, live k r -> ~ live n r -> blk m' oi r ∈ free_list m;
  gt_taken : forall b, b ∈ free_list m ->
    b ∈ free_list m' \/ exists r, live k r /\ ~ live n r /\ blk m' oi r = b;
  gt_zero : forall i, n <= i < k -> zeroed m' (blk m' oi (RData i));
  gt_changes : changes (grow_area m oi (live n)) m m'
}.

Lemma live_mono n k r : n <= k -> live n r -> live k r.
Proof. intros H. destruct r; cbn; lia. Qed.

(** A data block's bytes are outside what growing may write. *)
Lemma data_outside_grow m oi n i a : fs_ok m -> file_ok m oi n -> 0 <= i < n ->
  in_block (blk m oi (RData i)) a -> ~ grow_area m oi (live n) a.
Proof.
  intros F [Hn T] Hi Ha. pose proof (used_above m oi _ T (RData i) Hi) as Hup.
  destruct (tr_used _ _ _ T (RData i) Hi) as [Hr Hnf]. destruct (tr_inode _ _ _ T).
  pose proof (data_start_ge m). unfold in_block, within in Ha.
  intros [Hb|[Hs|[[Hin|(q & Hq & Hix & Hb)]|(b & Hb & Hin)]]].
  - unfold bitmap_area, within in Hb. lia.
  - unfold word_at, oi_size, within in Hs. lia.
  - unfold inode_slots, within in Hin. lia.
  - assert (Hne : blk m oi q <> blk m oi (RData i)).
    { intros He. apply (tr_inj _ _ _ T) in He; [|done|done]. by subst q. }
    unfold in_block, within in Hb. lia.
  - assert (b <> blk m oi (RData i)) by congruence. unfold in_block, within in Hin. lia.
Qed.

Lemma grown_refl m oi n : fs_ok m -> file_ok m oi n ->
  ospfs_size2nblocks (ld32 m (oi_size oi)) = n -> grown_to m oi n n m.
Proof.
  intros F T Hs. split; try done.
  - by rewrite needs_refl, drop_0.
  - intros b Hb. by left.
  - lia.
Qed.

Lemma grown_step m oi n k m1 m2 : n <= k -> file_ok m oi n ->
  grown_to m oi n k m1 -> grown m1 oi k m2 -> grown_to m oi n (k + 1) m2.
Proof.
  intros Hk [Hn _] G1 G2. pose proof (n_range m1 oi k (gt_file _ _ _ _ _ G1)) as Hr.
  assert (Hkeep : forall r, live n r -> blk m2 oi r = blk m oi r).
  { intros r Hl. rewrite (gr_keep _ _ _ _ G2) by by eapply live_mono. by apply G1. }
  assert (Hfree : forall b, b ∈ free_list m1 -> b ∈ free_list m).
  { intros b. rewrite (gt_free _ _ _ _ _ G1). apply subseteq_drop. }
  assert (Harea : forall a, grow_area m1 oi (live k) a -> grow_area m oi (live n) a).
  { intros a [Ha|[Ha|[[Ha|(q & Hq & Hix & Ha)]|(b & Hb & Ha)]]].
    - by left.
    - by right; left.
    - by right; right; left; left.
    - right; right. destruct (decide (live n q)) as [Hl|Hl].
      + left; right. exists q. by rewrite <- (gt_keep _ _ _ _ _ G1).
      + right. exists (blk m1 oi q). split; [by apply G1|done].
    - right; right; right. exists b. split; [by apply Hfree|done]. }
  split.
  - apply G2.
  - apply G2.
  - rewrite (gr_size _ _ _ _ G2). apply size2nblocks_blocks. lia.
  - rewrite (gr_free _ _ _ _ G2), (gt_free _ _ _ _ _ G1), drop_drop. f_equal. by rewrite needs_succ.
  - done.
  - intros r Hl Hnl. destruct (decide (live k r)) as [Hlk|Hlk].
    + rewrite (gr_keep _ _ _ _ G2) by done. by apply G1.
    + by apply Hfree, G2.
  - intros b Hb. destruct (gt_taken _ _ _ _ _ G1 b Hb) as [Hb1|(r & Hl & Hnr & Hbr)].
    + destruct (gr_taken _ _ _ _ G2 b Hb1) as [?|(r & Hl & Hnr & Hbr)]; [by left|].
      right. exists r. split; [done|]. split; [|done]. intros ?. apply Hnr. by eapply live_mono.
    + right. exists r. split; [eapply live_mono; [|done]; lia|]. split; [done|].
      by rewrite (gr_keep _ _ _ _ G2).
  - intros i Hi. destruct (decide (i = k)) as [->|]; [by apply G2|].
    rewrite (gr_keep _ _ _ _ G2) by (cbn; lia). intros a Ha.
    rewrite (gr_changes _ _ _ _ G2); [apply (gt_zero _ _ _ _ _ G1 i); [lia|done]|].
    apply (data_outside_grow m1 oi k i); [apply G1|apply G1|lia|done].
  - eapply changes_trans; [apply G1|]. eapply changes_weaken; [apply G2|done].
Qed.

(** ** Shrinking by several blocks *)

Record shrunk_to (m : mem) (oi n k : Z) (m' : mem) : Prop := ShrunkTo {
  st_fs : fs_ok m';
  st_file : file_ok m' oi k;
  st_size : ospfs_size2nblocks (ld32 m' (oi_size oi)) = k;
  st_free : forall j, j ∈ free_list m' <->
    j ∈ free_list m \/ exists r, live n r /\ ~ live k r /\ blk m oi r = j;
  st_keep : forall r, live k r -> blk m' oi r = blk m oi r;
  st_changes : changes (shrink_area m oi (live n)) m m'
}.

Lemma shrunk_refl m oi n : fs_ok m -> file_ok m oi n ->
  ospfs_size2nblocks (ld32 m (oi_size oi)) = n -> shrunk_to m oi n n m.
Proof. intros F T Hs. split; try done. naive_solver. Qed.

Lemma shrunk_step m oi n k m1 m2 : k <= n -> 0 < k ->
  shrunk_to m oi n k m1 -> shrunk m1 oi k m2 -> shrunk_to m oi n (k - 1) m2.
Proof.
  intros Hk Hpos S1 S2. pose proof (n_range m1 oi k (st_file _ _ _ _ _ S1)) as Hr.
  split.
  - apply S2.
  - apply S2.
  - rewrite (sh_size _ _ _ _ S2). apply size2nblocks_blocks. lia.
  - intros j. rewrite (sh_free _ _ _ _ S2), (st_free _ _ _ _ _ S1). split.
    + intros [[?|(r & ? & ? & ?)]|(r & ? & ? & Hb)]; [by left| |].
      * right. exists r. split; [done|]. split; [|done]. intros ?.
        assert (live k r) by (eapply live_mono; [|done]; lia). done.
      * right. exists r. rewrite <- (st_keep _ _ _ _ _ S1) by done. split; [by eapply live_mono|done].
    + intros [?|(r & Hl & Hnl & Hb)]; [by left; left|]. destruct (decide (live k r)) as [Hlk|Hlk].
      * right. exists r. by rewrite (st_keep _ _ _ _ _ S1).
      * left; right. by exists r.
  - intros r Hl. rewrite (sh_keep _ _ _ _ S2) by done. apply S1. eapply live_mono; [|done]. lia.
  - eapply changes_trans; [apply S1|]. eapply changes_weaken; [apply S2|].
    intros a [Ha|[Ha|[Ha|(q & Hq & Hix & Ha)]]]; [by left|by right; left|by right; right; left|].
    right; right; right. exists q. rewrite <- (st_keep _ _ _ _ _ S1) by done.
    split; [by eapply live_mono|done].
Qed.

(** ** A failed attempt leaves the file's tree alone, unless [dangling] *)

Lemma tree_outside_fail m oi L a : fs_ok m -> tree_ok m oi L -> tree_area m oi L a -> ~ fail_area m a.
Proof.
  intros F T Ha. destruct (tr_inode _ _ _ T). intros [Hb|(b & Hb & Hin)].
  - destruct Ha as [Ha|(q & Hq & _ & Ha)].
    + unfold inode_slots, bitmap_area, within in *. lia.
    + pose proof (used_above m oi L T q Hq). unfold in_block, bitmap_area, within in *. lia.
  - pose proof (fs_reserved m F b Hb). destruct Ha as [Ha|(q & Hq & _ & Ha)].
    + unfold inode_slots, in_block, within in *. lia.
    + destruct (tr_used _ _ _ T q Hq) as [_ Hnf].
      assert (b <> blk m oi q) by congruence. unfold in_block, within in *. lia.
Qed.

Lemma super_outside_fail m a : fs_ok m -> super_area a -> ~ fail_area m a.
Proof.
  intros F Ha [Hb|(b & Hb & Hin)]; [by apply (super_not_bitmap a)|].
  pose proof (fs_reserved m F b Hb). pose proof (data_start_ge m).
  unfold super_area, in_block, within in *. lia.
Qed.

Lemma failed_file m oi n m' : fs_ok m -> file_ok m oi n -> grow_failed m oi n m' -> ~ dangling m n ->
  file_ok m' oi n /\ (forall r, live n r -> blk m' oi r = blk m oi r) /\
  ld32 m' (oi_size oi) = ld32 m (oi_size oi).
Proof.
  intros F [Hn T] G Hnd.
  assert (Hch : changes (fail_area m) m m').
  { eapply changes_weaken; [apply G|]. intros a [?|[? _]]; done. }
  destruct (tree_frame m oi _ T (fail_area m) m' Hch) as [T' Hkeep].
  - intros a. by apply super_outside_fail.
  - intros a. by eapply tree_outside_fail.
  - intros r Hr. rewrite (gf_free _ _ _ _ G). by apply (tr_used _ _ _ T).
  - split; [done|]. split; [intros r Hr; by apply Hkeep, (attachable_member m oi _ T)|].
    apply (changes_ld32 _ _ _ _ Hch). intros a Ha. destruct (tr_inode _ _ _ T).
    unfold within, oi_size in Ha. intros [Hb|(b & Hb & Hin)].
    + unfold bitmap_area, within in Hb. lia.
    + pose proof (fs_reserved m F b Hb). unfold in_block, within in Hin. lia.
Qed.

(** ** The loops of change_size *)

Section Loops.
Context (m : mem) (oi n : Z) (fu : nat).
Context (F : fs_ok m) (T : file_ok m oi n) (Hs : ospfs_size2nblocks (ld32 m (oi_size oi)) = n).
(** A file has at most 1021 blocks, so that no loop of [change_size] goes round
    more often than this. *)
Context (Hfu : (1024 <= fu)%nat).

Lemma wp_grow_loop k (Q : Z * Z -> mem -> Prop) :
  n <= k < 2 ^ 32 ->
  ((needs n k <= length (free_list m))%nat -> forall m', grown_to m oi n k m' -> Q (k - n, 0) m') ->
  (forall f m1 m2, n <= f < k -> (needs n f <= length (free_list m) < needs n (f + 1))%nat ->
     grown_to m oi n f m1 -> grow_failed m1 oi f m2 -> Q (f - n + 1, - ENOSPC) m2) ->
  wp (grow_loop oi n k) fu m Q.
Proof.
  intros Hk HQ HQf. unfold grow_loop.
  apply (wp_loop (fun '(bc, r) t => r = 0 /\ 0 <= bc /\ n + bc <= k /\ grown_to m oi n (n + bc) t /\
                    (needs n (n + bc) <= length (free_list m))%nat)
                 (fun '(bc, _) => Z.to_nat (1022 - (n + bc)))).
  - rewrite Z.add_0_r, needs_refl. split; [done|]. split; [lia|]. split; [lia|].
    split; [by apply grown_refl|lia].
  - pose proof (n_range m oi n T). lia.
  - intros [bc r] t (-> & Hbc & Hle & G & Hnd).
    pose proof (n_range t oi _ (gt_file _ _ _ _ _ G)) as Hr. pose proof (n_range m oi n T) as Hrn.
    rewrite u32_small by lia. destruct (Z.ltb_spec (n + bc) k) as [Hlt|Hge].
    + apply wp_bind. apply (wp_add_block oi (n + bc)); [apply G|apply G|apply G|lia| |].
      * intros Hneed m' G'. cbn [Z.ltb Z.compare]. wp_step. rewrite (gt_free _ _ _ _ _ G), length_drop in Hneed.
        pose proof (n_range m' oi _ (gr_file _ _ _ _ G')). split; [|lia].
        split; [done|]. split; [lia|]. split; [lia|]. rewrite Z.add_assoc.
        split; [eapply grown_step; [lia|done..]|]. rewrite needs_succ by lia. lia.
      * intros Hneed m' G'. change (- ENOSPC <? 0) with true. cbv iota. wp_step.
        replace (bc + 1) with (n + bc - n + 1) by lia. apply (HQf (n + bc) t m'); [lia| |done|done].
        rewrite (gt_free _ _ _ _ _ G), length_drop in Hneed. rewrite needs_succ by lia. lia.
    + wp_step. replace k with (n + bc) in * by lia. replace bc with (n + bc - n) by lia. by apply HQ.
Qed.

Lemma wp_shrink_loop k (Q : Z * Z -> mem -> Prop) :
  0 <= k <= n -> (forall m', shrunk_to m oi n k m' -> Q (n - k, 0) m') ->
  wp (shrink_loop oi n k) fu m Q.
Proof.
  intros Hk HQ. unfold shrink_loop. pose proof (n_range m oi n T) as Hrn.
  apply (wp_loop (fun '(bc, r) t => r = 0 /\ 0 <= bc /\ bc <= n - k /\ shrunk_to m oi n (n - bc) t)
                 (fun '(bc, _) => Z.to_nat (n - bc))).
  - rewrite Z.sub_0_r. split; [done|]. split; [lia|]. split; [lia|]. by apply shrunk_refl.
  - lia.
  - intros [bc r] t (-> & Hbc & Hle & S). rewrite u32_small by lia.
    destruct (Z.ltb_spec (k + bc) n) as [Hlt|Hge].
    + apply wp_bind. apply (wp_remove_block oi (n - bc)); [apply S|apply S|apply S|lia|lia|].
      intros Hpos m' S'. cbn [Z.ltb Z.compare]. wp_step. split; [|lia].
      split; [done|]. split; [lia|]. split; [lia|]. replace (n - (bc + 1)) with (n - bc - 1) by lia.
      eapply shrunk_step; [| |done|done]; lia.
    + wp_step. replace k with (n - bc) in * by lia. replace bc with (n - (n - bc)) at 1 by lia.
      by apply HQ.
Qed.

(** The loop at the [abort] label removes one block per round, and an empty
    file stays empty. *)
Lemma wp_abort_loop c (Q : Z -> mem -> Prop) :
  0 <= c <= n + 1 ->
  (forall m', shrunk_to m oi n (Z.max 0 (n - c)) m' ->
     (0 < c -> 0 < n -> ld32 m' (oi_size oi) = Z.max 0 (n - c) * 1024) -> Q (- ENOSPC) m') ->
  wp (change_size_abort oi c (- ENOSPC)) fu m Q.
Proof.
  intros Hc HQ. unfold change_size_abort. rewrite Z.eqb_refl. pose proof (n_range m oi n T) as Hrn.
  apply (wp_loop (fun bc t => 0 <= bc <= c /\ shrunk_to m oi n (Z.max 0 (n - (c - bc))) t /\
                    (0 < c - bc -> 0 < n -> ld32 t (oi_size oi) = Z.max 0 (n - (c - bc)) * 1024))
                 (fun bc => Z.to_nat bc)).
  - rewrite Z.sub_diag, Z.sub_0_r, Z.max_r by lia. split; [lia|]. split; [by apply shrunk_refl|lia].
  - lia.
  - intros bc t (Hbc & S & Hex). destruct (Z.ltb_spec 0 bc) as [Hlt|Hge].
    + apply wp_bind. eapply (wp_remove_block oi); [apply S|apply S|apply S|lia| |].
      * intros H0. cbn [Z.ltb Z.compare]. wp_step. split; [|lia]. split; [lia|].
        rewrite H0 in S, Hex. replace (Z.max 0 (n - (c - (bc - 1)))) with 0 by lia.
        split; [done|]. intros _ Hn. apply Hex; lia.
      * intros Hpos m' S'. cbn [Z.ltb Z.compare]. wp_step. split; [|lia]. split; [lia|].
        replace (Z.max 0 (n - (c - (bc - 1)))) with (Z.max 0 (n - (c - bc)) - 1) by lia.
        split; [eapply shrunk_step; [| |done|done]; lia|]. intros _ _. apply S'.
    + wp_step. replace (c - bc) with c in * by lia. by apply HQ.
Qed.
End Loops.

(** ** The last statement: [oi->oi_size = new_size] *)

Lemma set_size m oi n v : fs_ok m -> file_ok m oi n ->
  let m' := st32 m (oi_size oi) v in
  fs_ok m' /\ file_ok m' oi n /\ free_list m' = free_list m /\
  (forall r, live n r -> blk m' oi r = blk m oi r) /\
  (forall i, 0 <= i < n -> zeroed m (blk m oi (RData i)) -> zeroed m' (blk m oi (RData i))) /\
  changes (word_at (oi_size oi)) m m'.
Proof.
  intros F [Hn T] m'.
  destruct (work_size m oi (live n) (fun _ => True) _ _ _ m v (work_init m oi (live n) F T _)) as [W Hk]; [done|].
  pose proof (wk_free _ _ _ _ _ _ _ _ W) as Hfl. rewrite drop_0 in Hfl.
  split; [apply W|]. split; [split; [done|apply W]|]. split; [done|].
  split; [intros r Hr; by apply Hk, (attachable_member m oi _ T)|].
  assert (Hch : changes (word_at (oi_size oi)) m m') by by apply changes_st32.
  split; [|done]. intros i Hi Hz a Ha. rewrite Hch; [by apply Hz|]. intros Hw.
  eapply (data_outside_grow m oi n i a); [done|done|done|done|]. by right; left.
Qed.

Lemma grown_to_size m oi n k m1 s : 0 <= n <= k -> grown_to m oi n k m1 ->
  ospfs_size2nblocks s = k -> 0 <= s < 2 ^ 32 ->
  grown_to m oi n k (st32 m1 (oi_size oi) s) /\ ld32 (st32 m1 (oi_size oi) s) (oi_size oi) = s.
Proof.
  intros Hn G Hk Hs. destruct (set_size m1 oi k s) as (F' & T' & Hfl & Hkeep & Hz & Hch); [apply G|apply G|].
  set (m' := st32 m1 (oi_size oi) s) in *.
  assert (Hsz : ld32 m' (oi_size oi) = s) by (unfold m'; by rewrite ld32_st32_eq, u32_small).
  split; [|done]. split; try done.
  - by rewrite Hsz.
  - rewrite Hfl. apply G.
  - intros r Hr. rewrite Hkeep by (eapply live_mono; [|done]; lia). by apply G.
  - intros r Hr Hnl. rewrite Hkeep by done. by apply G.
  - intros b Hb. rewrite Hfl. destruct (gt_taken _ _ _ _ _ G b Hb) as [?|(r & Hr & ? & ?)]; [by left|].
    right. exists r. by rewrite Hkeep.
  - intros i Hi. rewrite Hkeep by (cbn; lia). apply Hz; [lia|]. by apply G.
  - eapply changes_trans; [apply G|]. eapply changes_weaken; [done|]. by right; left.
Qed.

Lemma shrunk_to_size m oi n k m1 s : 0 <= k <= n -> shrunk_to m oi n k m1 ->
  ospfs_size2nblocks s = k -> 0 <= s < 2 ^ 32 ->
  shrunk_to m oi n k (st32 m1 (oi_size oi) s) /\ ld32 (st32 m1 (oi_size oi) s) (oi_size oi) = s.
Proof.
  intros Hn S Hk Hs. destruct (set_size m1 oi k s) as (F' & T' & Hfl & Hkeep & Hz & Hch); [apply S|apply S|].
  set (m' := st32 m1 (oi_size oi) s) in *.
  assert (Hsz : ld32 m' (oi_size oi) = s) by (unfold m'; by rewrite ld32_st32_eq, u32_small).
  split; [|done]. split; try done.
  - by rewrite Hsz.
  - rewrite Hfl. apply S.
  - intros r Hr. rewrite Hkeep by done. by apply S.
  - eapply changes_trans; [apply S|]. eapply changes_weaken; [done|]. by right; left.
Qed.

(** ** change_size *)

(** What an unsuccessful [change_size] leaves of a file of [n] blocks. *)
Record cut_back (m : mem) (oi n : Z) (m' : mem) : Prop := CutBack {
  cb_fs : fs_ok m';
  cb_file : file_ok m' oi (Z.max 0 (n - 1));
  cb_size : 0 < n -> ld32 m' (oi_size oi) = (n - 1) * 1024;
  cb_nblocks : ospfs_size2nblocks (ld32 m' (oi_size oi)) = Z.max 0 (n - 1);
  cb_free : forall j, j ∈ free_list m' <->
    j ∈ free_list m \/ exists r, live n r /\ ~ live (n - 1) r /\ blk m oi r = j;
  cb_keep : forall r, live (n - 1) r -> blk m' oi r = blk m oi r
}.

(** The blocks in use, whatever the length of the file, are those of the start. *)
Lemma cut_back_of m oi n f m1 m2 m3 : fs_ok m -> file_ok m oi n -> n <= f ->
  grown_to m oi n f m1 -> free_list m2 = free_list m1 ->
  (forall r, live f r -> blk m2 oi r = blk m1 oi r) ->
  shrunk_to m2 oi f (Z.max 0 (n - 1)) m3 ->
  (0 < n -> ld32 m3 (oi_size oi) = (n - 1) * 1024) -> cut_back m oi n m3.
Proof.
  intros F [Hn T] Hf G Hfl Hkeep S Hsz.
  assert (Hpred : forall r, live (Z.max 0 (n - 1)) r <-> live (n - 1) r).
  { intros r. destruct (decide (n = 0)) as [->|]; [|by rewrite Z.max_r by lia].
    destruct r; cbn; lia. }
  split; try apply S; try done.
  - intros j. rewrite (st_free _ _ _ _ _ S), Hfl. setoid_rewrite Hpred. split.
    + intros [Hj|(r & Hl & Hnl & Hb)].
      * left. revert Hj. rewrite (gt_free _ _ _ _ _ G). apply subseteq_drop.
      * rewrite Hkeep in Hb by done. destruct (decide (live n r)) as [Hln|Hln].
        -- right. exists r. by rewrite <- (gt_keep _ _ _ _ _ G).
        -- left. rewrite <- Hb. by apply G.
    + intros [Hj|(r & Hl & Hnl & Hb)].
      * destruct (gt_taken _ _ _ _ _ G j Hj) as [?|(r & Hl & Hnl & Hb)]; [by left|]. right. exists r.
        rewrite Hkeep by done. split; [done|]. split; [|done]. intros ?. destruct Hnl.
        eapply live_mono; [|done]. lia.
      * right. exists r. assert (live f r) by by eapply live_mono.
        rewrite Hkeep by done. by rewrite (gt_keep _ _ _ _ _ G).
  - intros r Hr. rewrite (st_keep _ _ _ _ _ S) by by apply Hpred.
    rewrite Hkeep by (eapply live_mono; [|done]; lia). apply G. eapply live_mono; [|done]. lia.
Qed.

Section ChangeSize.
Context (m : mem) (oi n new_size : Z) (fu : nat).
Context (F : fs_ok m) (T : file_ok m oi n) (Hs : ospfs_size2nblocks (ld32 m (oi_size oi)) = n).
Context (Hfu : (1024 <= fu)%nat) (Hnew : 0 <= new_size < 2 ^ 32).

Abbreviation k := (ospfs_size2nblocks new_size).

Lemma size2nblocks_range s : 0 <= ospfs_size2nblocks s < 2 ^ 22.
Proof.
  unfold ospfs_size2nblocks, OSPFS_BLKSIZE.
  pose proof (u32_range (s + 1024 - 1)). divlia.
Qed.

Lemma wp_change_size_grow (Q : Z -> mem -> Prop) :
  n < k -> (needs n k <= length (free_list m))%nat ->
  (forall m', grown_to m oi n k m' -> ld32 m' (oi_size oi) = new_size -> Q 0 m') ->
  wp (change_size oi new_size) fu m Q.
Proof.
  intros Hk Hneed HQ. pose proof (size2nblocks_range new_size). pose proof (n_range m oi n T).
  unfold change_size. do 2 wp_step. rewrite Hs. apply wp_bind.
  apply (wp_grow_loop m oi n fu F T Hs Hfu); [lia| |].
  - intros _ m1 G. cbn [Z.ltb Z.compare]. apply wp_bind.
    replace (k - n =? 0) with false by (symmetry; apply Z.eqb_neq; lia). wp_step.
    cbn [Z.ltb Z.compare]. do 3 wp_step.
    destruct (grown_to_size m oi n k m1 new_size) as [G' Hsz]; [lia|done..|]. by apply HQ.
  - intros f m1 m2 Hf Hnf. pose proof (needs_mono n (f + 1) k). lia.
Qed.

Lemma wp_change_size_shrink (Q : Z -> mem -> Prop) :
  k <= n -> (forall m', shrunk_to m oi n k m' -> ld32 m' (oi_size oi) = new_size -> Q 0 m') ->
  wp (change_size oi new_size) fu m Q.
Proof.
  intros Hk HQ. pose proof (size2nblocks_range new_size). pose proof (n_range m oi n T).
  unfold change_size. do 2 wp_step. rewrite Hs. apply wp_bind.
  apply (wp_loop (fun s t => s = (0, 0) /\ t = m) (fun _ => 0%nat)); [done|lia|].
  intros s t [-> ->]. rewrite u32_small by lia.
  replace (n + 0 <? k) with false by (symmetry; apply Z.ltb_ge; lia). wp_step.
  cbn [Z.ltb Z.compare Z.eqb]. apply wp_bind.
  apply (wp_shrink_loop m oi n fu F T Hs Hfu); [lia|]. intros m1 S.
  cbn [Z.ltb Z.compare]. do 3 wp_step.
  destruct (shrunk_to_size m oi n k m1 new_size) as [S' Hsz]; [lia|done..|]. by apply HQ.
Qed.

(** The disk is full: the [abort] label removes one block more than was added. *)
Lemma wp_change_size_full (Q : Z -> mem -> Prop) :
  n < k -> (length (free_list m) < needs n k)%nat ->
  (n <= 266 -> length (free_list m) <> (needs n 266 + 2)%nat) ->
  (forall m', cut_back m oi n m' -> Q (- ENOSPC) m') ->
  wp (change_size oi new_size) fu m Q.
Proof.
  intros Hk Hneed Hnd HQ. pose proof (size2nblocks_range new_size). pose proof (n_range m oi n T).
  unfold change_size. do 2 wp_step. rewrite Hs. apply wp_bind.
  apply (wp_grow_loop m oi n fu F T Hs Hfu); [lia|lia|].
  intros f m1 m2 Hf Hnf G1 G2. change (- ENOSPC <? 0) with true. cbv iota.
  assert (Hok : ~ dangling m1 f).
  { intros [-> Hlen]. rewrite (gt_free _ _ _ _ _ G1), length_drop in Hlen. apply Hnd; lia. }
  destruct (failed_file m1 oi f m2) as (T2 & Hkeep & Hsz2); [apply G1|apply G1|done|done|].
  apply (wp_abort_loop m2 oi f fu); [apply G2|done|rewrite Hsz2; apply G1|done|lia|].
  intros m3 S Hex. apply HQ. replace (f - (f - n + 1)) with (n - 1) in * by lia.
  eapply (cut_back_of m oi n f m1 m2 m3); [done|done|lia|done|apply G2|done|done|].
  intros Hn. rewrite Hex by lia. lia.
Qed.
End ChangeSize.

(** ** The bytes of a file *)

(** Byte [i] of the file, through the block tree. *)
Definition file_byte (m : mem) (oi i : Z) : Z :=
  ld8 m (1024 * blk m oi (RData (i / 1024)) + i mod 1024).

Lemma in_block_byte b i : in_block b (1024 * b + i mod 1024).
Proof. unfold in_block, within. pose proof (Z.mod_pos_bound i 1024). lia. Qed.

Lemma grown_to_bytes m oi n k m' i : fs_ok m -> file_ok m oi n -> grown_to m oi n k m' -> 0 <= i < k * 1024 ->
  file_byte m' oi i = if i <? n * 1024 then file_byte m oi i else 0.
Proof.
  intros F T G Hi. unfold file_byte. destruct (Z.ltb_spec i (n * 1024)) as [Hlt|Hge].
  - assert (Hl : 0 <= i / 1024 < n) by divlia.
    rewrite (gt_keep _ _ _ _ _ G (RData (i / 1024)) Hl). apply (gt_changes _ _ _ _ _ G).
    by eapply data_outside_grow; [..|apply in_block_byte].
  - apply (gt_zero _ _ _ _ _ G (i / 1024)); [divlia|apply in_block_byte].
Qed.

Lemma data_outside_shrink m oi n i a : fs_ok m -> file_ok m oi n -> 0 <= i < n ->
  in_block (blk m oi (RData i)) a -> ~ shrink_area m oi (live n) a.
Proof.
  intros F T Hi Ha Hs. eapply (data_outside_grow m oi n i a); [done..|].
  destruct Hs as [?|[?|?]]; [by left|by right; left|by right; right; left].
Qed.

Lemma shrunk_to_bytes m oi n k m' i : fs_ok m -> file_ok m oi n -> k <= n -> shrunk_to m oi n k m' ->
  0 <= i < k * 1024 -> file_byte m' oi i = file_byte m oi i.
Proof.
  intros F T Hk S Hi. unfold file_byte. assert (Hl : 0 <= i / 1024 < k) by divlia.
  rewrite (st_keep _ _ _ _ _ S (RData (i / 1024)) Hl). apply (st_changes _ _ _ _ _ S).
  apply (data_outside_shrink m oi n (i / 1024)); [done|done|lia|apply in_block_byte].
Qed.
