(* ===== verification/OspfsIo.v ===== *)
(** * OSPFS: reading and writing files (ospfsmod.c, ospfs_read and ospfs_write)

    The state of the two callbacks is the disk image, the user's memory and the
    file position.  The kernel's [copy_to_user] and [copy_from_user] are
    parameters: what the callbacks rely on is [UserAccess]. *)

From S2P Require Import Prelude CMemory OspfsLayout OspfsAlloc OspfsFile OspfsTree OspfsWork OspfsGrow OspfsShrink OspfsSize.

Record io := Io { disk : mem; user : mem; f_pos : Z }.

(** A function of the module that works on the disk image alone. *)
Definition on_disk {A} (c : prog mem A) : prog io A := fun fu s =>
  match c fu (disk s) with
  | Ret a m => Ret a (Io m (user s) (f_pos s))
  | Oops => Oops
  | Hang => Hang
  end.

Definition get_pos : prog io Z := fun _ s => Ret (f_pos s) s.
Definition set_pos (p : Z) : prog io unit := fun _ s => Ret tt (Io (disk s) (user s) p).

(** The kernel's functions for user memory: the number of bytes that could not
    be copied comes with the memory, or with the bytes, after the copy. *)
Class UserAccess (accessible : Z -> Prop) (copy_to_user : mem -> Z -> list Z -> mem * Z)
    (copy_from_user : mem -> Z -> nat -> list Z * Z) : Prop := {
  to_user_law : forall u a l, (forall b, within a (a + Z.of_nat (length l)) b -> accessible b) ->
    copy_to_user u a l = (st_bytes u a l, 0);
  from_user_law : forall u a n, (forall b, within a (a + Z.of_nat n) b -> accessible b) ->
    copy_from_user u a n = (ld_bytes u a n, 0)
}.

Section Callbacks.
Context (copy_to_user : mem -> Z -> list Z -> mem * Z) (copy_from_user : mem -> Z -> nat -> list Z * Z).

(** [copy_to_user(buffer, data, n)] *)
Definition put_user (buffer data n : Z) : prog io Z := fun _ s =>
  let '(u, r) := copy_to_user (user s) buffer (ld_bytes (disk s) data (Z.to_nat n)) in
  Ret r (Io (disk s) u (f_pos s)).

(** [copy_from_user(data, buffer, n)] *)
Definition get_user (data buffer n : Z) : prog io Z := fun _ s =>
  let '(l, r) := copy_from_user (user s) buffer (Z.to_nat n) in
  Ret r (Io (st_bytes (disk s) data l) (user s) (f_pos s)).

(** How many bytes a round of the copy loop moves. *)
Definition chunk (offset count amount : Z) : Z :=
  if negb (offset =? 0)
  then (if count <? OSPFS_BLKSIZE - offset then count else OSPFS_BLKSIZE - offset)
  else (if u32 (count - amount) <? OSPFS_BLKSIZE then u32 (count - amount) else OSPFS_BLKSIZE).

(** The copy loop that [ospfs_read] and [ospfs_write] share; [copy buffer data n]
    moves [n] bytes between them.  The state is [(buffer, amount)]. *)
Definition copy_loop (copy : Z -> Z -> Z -> prog io Z) (oi buffer count : Z) : prog io Z :=
  loop (fun '(buffer, amount) =>
    if amount <? count then
      pos ← get_pos;
      blockno ← on_disk (ospfs_inode_blockno oi (u32 pos));
      if blockno =? 0 then mret (inr (- EIO))
      else
        let data := ospfs_block blockno in
        let offset := Z.rem pos OSPFS_BLKSIZE in
        let n := chunk offset count amount in
        r ← copy buffer (data + offset) n;
        if negb (r =? 0) then mret (inr (- EFAULT))
        else
          set_pos (pos + n);;
          mret (inl (u32 (buffer + n), u32 (amount + n)))
    else mret (inr amount)) (buffer, 0).

Definition ospfs_read (ino buffer count : Z) : prog io Z :=
  p ← on_disk (ospfs_inode ino);
  deref p (fun oi =>
    pos ← get_pos;
    size ← on_disk (load32 (oi_size oi));
    let count := if size <? pos + count then u32 (size - pos) else count in
    copy_loop put_user oi buffer count).

Definition O_APPEND : Z := 1024.   (* 02000 *)

Definition ospfs_write (ino f_flags buffer count : Z) : prog io Z :=
  p ← on_disk (ospfs_inode ino);
  deref p (fun oi =>
    when (negb (Z.land f_flags O_APPEND =? 0)) (size ← on_disk (load32 (oi_size oi)); set_pos size);;
    pos ← get_pos;
    size ← on_disk (load32 (oi_size oi));
    r ← (if size <? pos + count then on_disk (change_size oi (u32 (pos + count))) else mret 0);
    if r <? 0 then mret (-1)
    else copy_loop (fun buffer data n => get_user data buffer n) oi buffer count).
End Callbacks.

(** ** A file as the callbacks see it *)

(** A regular file or directory of [n] blocks, whose size fits its blocks. *)
Record sized (m : mem) (oi n : Z) : Prop := Sized {
  sz_file : file_ok m oi n;
  sz_size : 1024 * n - 1024 < ld32 m (oi_size oi) <= 1024 * n;
  sz_type : ld32 m (oi_ftype oi) <> OSPFS_FTYPE_SYMLINK
}.

Lemma sized_nblocks m oi n : sized m oi n -> ospfs_size2nblocks (ld32 m (oi_size oi)) = n.
Proof.
  intros S. pose proof (n_range m oi n (sz_file _ _ _ S)). pose proof (sz_size _ _ _ S).
  pose proof (ld32_range m (oi_size oi)). rewrite size2nblocks_ceil by lia. divlia.
Qed.

Lemma wp_on_disk {A} (c : prog mem A) fu s (Q : A -> io -> Prop) :
  wp c fu (disk s) (fun a m => Q a (Io m (user s) (f_pos s))) -> wp (on_disk c) fu s Q.
Proof. unfold wp, on_disk. by destruct (c fu (disk s)). Qed.

(** [ospfs_inode] finds the inode of every number below [os_ninodes]. *)
Lemma wp_ospfs_inode ino fu m (Q : option Z -> mem -> Prop) :
  fs_ok m -> 0 <= ino < ld32 m (os_ninodes ospfs_super) -> Q (Some (3072 + 64 * ino)) m ->
  wp (ospfs_inode ino) fu m Q.
Proof.
  intros F Hi HQ. unfold ospfs_inode. do 2 wp_step.
  replace (_ <=? ino) with false by (symmetry; apply Z.leb_gt; lia).
  do 3 wp_step. by rewrite (fs_firstinob m F).
Qed.

(** [ospfs_inode_blockno] follows the block tree. *)
Lemma wp_ospfs_inode_blockno oi n off fu m (Q : Z -> mem -> Prop) :
  sized m oi n -> 0 <= off < ld32 m (oi_size oi) -> Q (blk m oi (RData (off / 1024))) m ->
  wp (ospfs_inode_blockno oi off) fu m Q.
Proof.
  intros S Hoff HQ. pose proof (sz_type _ _ _ S) as Hty. pose proof (sz_size _ _ _ S).
  unfold ospfs_inode_blockno. cbv zeta. do 4 wp_step.
  replace (_ <=? off) with false by (symmetry; apply Z.leb_gt; lia).
  apply Z.eqb_neq in Hty. rewrite Hty. cbn [orb]. ospfs_consts.
  unfold blk in HQ. destruct (Z.leb_spec (10 + 256) (off / 1024)) as [Hc|Hc].
  - rewrite slot_indirect2 in HQ by lia. by do 5 wp_step.
  - destruct (Z.leb_spec 10 (off / 1024)) as [Hd|Hd].
    + rewrite slot_indirect in HQ by lia. by do 3 wp_step.
    + rewrite slot_direct in HQ by divlia. by wp_step.
Qed.

Lemma wp_ospfs_inode_blockno_past oi off fu m (Q : Z -> mem -> Prop) :
  ld32 m (oi_size oi) <= off -> Q 0 m -> wp (ospfs_inode_blockno oi off) fu m Q.
Proof.
  intros Hoff HQ. unfold ospfs_inode_blockno. cbv zeta. do 4 wp_step.
  replace (_ <=? off) with true by (symmetry; apply Z.leb_le; lia). cbn [orb]. by wp_step.
Qed.

Lemma ninodes_kept P m m' : changes P m m' -> (forall a, super_area a -> ~ P a) ->
  ld32 m' (os_ninodes ospfs_super) = ld32 m (os_ninodes ospfs_super).
Proof.
  intros Hch HP. apply (changes_ld32 _ _ _ _ Hch). intros a Ha. apply HP. revert Ha.
  unfold within, super_area, os_ninodes, ospfs_super, OSPFS_BLKSIZE, within. lia.
Qed.

(** ** Writing the bytes of data blocks *)

(** The bytes of the file's data blocks. *)
Definition data_area (m : mem) (oi n a : Z) : Prop :=
  exists i, 0 <= i < n /\ in_block (blk m oi (RData i)) a.

Lemma data_write m oi n m' : fs_ok m -> sized m oi n -> changes (data_area m oi n) m m' ->
  fs_ok m' /\ sized m' oi n /\ free_list m' = free_list m /\
  (forall r, live n r -> blk m' oi r = blk m oi r) /\ ld32 m' (oi_size oi) = ld32 m (oi_size oi) /\
  ld32 m' (os_ninodes ospfs_super) = ld32 m (os_ninodes ospfs_super).
Proof.
  intros F S Hch. destruct (sz_file _ _ _ S) as [Hn T]. destruct (tr_inode _ _ _ T) as [Hlo Hhi].
  assert (Hout : forall i a, 0 <= i < n -> in_block (blk m oi (RData i)) a -> ~ grow_area m oi (live n) a).
  { intros i a. by apply data_outside_grow. }
  assert (Hin : forall a, data_area m oi n a -> oi + 64 <= a).
  { intros a (i & Hi & Ha). pose proof (used_above m oi _ T (RData i) Hi). unfold in_block, within in Ha. lia. }
  assert (Hsup : forall a, super_area a -> ~ data_area m oi n a).
  { intros a Ha Hd%Hin. unfold super_area, within in Ha. lia. }
  assert (Hfl : free_list m' = free_list m).
  { apply (free_list_frame _ _ _ Hch). intros a Ha Hd%Hin. unfold bitmap_area, within in Ha. lia. }
  destruct (tree_frame m oi _ T _ m' Hch Hsup) as [T' Hkeep].
  { intros a Ha (i & Hi & Hb). apply (Hout i a Hi Hb). by right; right; left. }
  { intros r Hr. rewrite Hfl. by apply (tr_used _ _ _ T). }
  assert (Hw : forall x, oi <= x -> x + 4 <= oi + 64 -> ld32 m' x = ld32 m x).
  { intros x H1 H2. apply (changes_ld32 _ _ _ _ Hch). intros a Ha Hd%Hin. unfold within in Ha. lia. }
  assert (Hsz : ld32 m' (oi_size oi) = ld32 m (oi_size oi)) by (apply Hw; unfold oi_size; lia).
  split; [|split; [|split; [done|split; [|split; [done|by eapply ninodes_kept]]]]].
  - eapply fs_ok_frame; [done|done|done|]. rewrite Hfl. apply F.
  - split; [by split| |].
    + rewrite Hsz. apply S.
    + rewrite Hw by (unfold oi_ftype; lia). apply S.
  - intros r Hr. by apply Hkeep, (attachable_member m oi _ T).
Qed.

(** Byte [i] and byte [j] of a file share an address only if [i = j]. *)
Lemma file_byte_other m oi n i j : sized m oi n -> 0 <= i < 1024 * n -> 0 <= j < 1024 * n -> i <> j ->
  1024 * blk m oi (RData (i / 1024)) + i mod 1024 <> 1024 * blk m oi (RData (j / 1024)) + j mod 1024.
Proof.
  intros S Hi Hj Hne He. destruct (sz_file _ _ _ S) as [Hn T].
  assert (Hb : blk m oi (RData (i / 1024)) = blk m oi (RData (j / 1024)) /\ i mod 1024 = j mod 1024).
  { revert He. generalize (blk m oi (RData (i / 1024))), (blk m oi (RData (j / 1024))). intros. divlia. }
  destruct Hb as [Hb Hm]. apply (tr_inj _ _ _ T) in Hb; [|cbn; divlia|cbn; divlia].
  injection Hb as Hq. apply Hne. divlia.
Qed.

(** The type, link count and mode of the inode are outside what growing may write. *)
Lemma head_outside_grow m oi n a : fs_ok m -> file_ok m oi n ->
  within (oi + 4) (oi + 16) a -> ~ grow_area m oi (live n) a.
Proof.
  intros F [Hn T] Ha. destruct (tr_inode _ _ _ T). unfold within in Ha.
  intros [Hb|[Hs|[[Hin|(q & Hq & _ & Hb)]|(b & Hb & Hin)]]].
  - unfold bitmap_area, within in Hb. lia.
  - unfold word_at, oi_size, within in Hs. lia.
  - unfold inode_slots, within in Hin. lia.
  - pose proof (used_above m oi _ T q Hq). unfold in_block, within in Hb. lia.
  - pose proof (fs_reserved m F b Hb). unfold in_block, within in Hin. lia.
Qed.

Lemma head_kept m oi n m' x : fs_ok m -> file_ok m oi n -> changes (grow_area m oi (live n)) m m' ->
  oi + 4 <= x -> x + 4 <= oi + 16 -> ld32 m' x = ld32 m x.
Proof.
  intros F T Hch H1 H2. apply (changes_ld32 _ _ _ _ Hch). intros a Ha.
  apply (head_outside_grow m oi n); [done|done|]. unfold within in *. lia.
Qed.

Lemma super_outside_grow m oi n a : fs_ok m -> file_ok m oi n -> super_area a -> ~ grow_area m oi (live n) a.
Proof.
  intros F [Hn T] Ha. destruct (tr_inode _ _ _ T). unfold super_area, within in Ha.
  intros [Hb|[Hs|[[Hin|(q & Hq & _ & Hb)]|(b & Hb & Hin)]]].
  - unfold bitmap_area, within in Hb. lia.
  - unfold word_at, oi_size, within in Hs. lia.
  - unfold inode_slots, within in Hin. lia.
  - pose proof (used_above m oi _ T q Hq). unfold in_block, within in Hb. lia.
  - pose proof (fs_reserved m F b Hb). pose proof (data_start_ge m). unfold in_block, within in Hin. lia.
Qed.

Lemma shrink_grow m oi L a : shrink_area m oi L a -> grow_area m oi L a.
Proof. intros [?|[?|?]]; [by left|by right; left|by right; right; left]. Qed.

(** ** The copy loop *)

Section CopyLoop.
Context (copy : Z -> Z -> Z -> prog io Z) (oi n buffer count p : Z) (fu : nat).
Context (Hcount : 0 <= count < 2 ^ 32) (Hbuf : 0 <= buffer /\ buffer + count < 2 ^ 32) (Hp : 0 <= p).

(** [J a s]: the state in which [a] bytes have been copied. *)
Context (J : Z -> io -> Prop).
Context (J_ok : forall a s, J a s -> sized (disk s) oi n /\ f_pos s = p + a /\ p + count <= ld32 (disk s) (oi_size oi)).
Context (J_step : forall a k s, J a s -> 0 <= a -> 0 < k -> a + k <= count ->
  (p + a) mod 1024 + k <= 1024 ->
  wp (copy (buffer + a) (1024 * blk (disk s) oi (RData ((p + a) / 1024)) + (p + a) mod 1024) k) fu s
     (fun r s' => r = 0 /\ J (a + k) (Io (disk s') (user s') (p + a + k)))).

(** Every round but the first starts on a block boundary. *)
Lemma chunk_eq a : 0 <= a < count -> a = 0 \/ (p + a) mod 1024 = 0 ->
  chunk (Z.rem (p + a) OSPFS_BLKSIZE) count a = Z.min (count - a) (1024 - (p + a) mod 1024).
Proof.
  intros Ha Hal. unfold chunk, OSPFS_BLKSIZE. rewrite Z.rem_mod_nonneg by lia.
  pose proof (Z.mod_pos_bound (p + a) 1024 ltac:(lia)).
  destruct (Z.eqb_spec ((p + a) mod 1024) 0) as [H0|H0]; cbn [negb].
  - rewrite H0, u32_small by lia. zcases.
  - destruct Hal as [->|]; [|done]. zcases.
Qed.

Lemma wp_copy_loop s (Q : Z -> io -> Prop) :
  (1024 <= fu)%nat -> J 0 s -> (forall s', J count s' -> Q count s') ->
  wp (copy_loop copy oi buffer count) fu s Q.
Proof.
  intros Hfu H0 HQ. unfold copy_loop.
  apply (wp_loop (fun '(b, a) t => 0 <= a <= count /\ J a t /\ b = buffer + a /\
                    (a = 0 \/ (p + a) mod 1024 = 0 \/ a = count))
                 (fun '(_, a) => if decide (a = count) then 0%nat
                    else Z.to_nat ((p + count - 1) / 1024 - (p + a) / 1024 + 1))).
  - rewrite Z.add_0_r. split; [lia|]. split; [done|]. split; [done|by left].
  - destruct (J_ok 0 s H0) as (S & _ & Hle). pose proof (n_range _ _ _ (sz_file _ _ _ S)).
    pose proof (sz_size _ _ _ S). case_decide; [lia|]. divlia.
  - intros [b a] t (Ha & HJ & -> & Hal). destruct (J_ok a t HJ) as (S & Hpos & Hle).
    destruct (Z.ltb_spec a count) as [Hlt|Hge].
    + pose proof (ld32_range (disk t) (oi_size oi)). pose proof (sz_size _ _ _ S).
      apply wp_bind. unfold get_pos at 1. unfold wp at 1. rewrite Hpos.
      apply wp_bind, wp_on_disk. rewrite u32_small by lia.
      apply (wp_ospfs_inode_blockno oi n); [done|lia|].
      assert (Hl : live n (RData ((p + a) / 1024))) by (cbn; divlia).
      destruct (sz_file _ _ _ S) as [_ T].
      pose proof (live_nonzero _ _ _ _ T Hl) as Hnz. apply Z.eqb_neq in Hnz. rewrite Hnz.
      rewrite (block_of _ _ _ T _ Hl), chunk_eq by (lia || tauto). cbv zeta.
      change (Z.rem (p + a) OSPFS_BLKSIZE) with (Z.rem (p + a) 1024).
      rewrite Z.rem_mod_nonneg by lia. pose proof (Z.mod_pos_bound (p + a) 1024 ltac:(lia)) as Hmod.
      set (k := Z.min (count - a) (1024 - (p + a) mod 1024)).
      replace (Io (disk t) (user t) (f_pos t)) with t by by destruct t.
      apply wp_bind. eapply wp_mono; [apply (J_step a k); [done|lia|lia|lia|lia]|].
      intros r t' [-> HJ']. cbn [Z.eqb negb]. apply wp_bind. unfold set_pos. unfold wp at 1. wp_step.
      rewrite !u32_small by lia. split.
      * split; [lia|]. split; [done|]. split; [lia|]. right.
        destruct (decide (a + k = count)) as [|Hne]; [by right|left].
        replace k with (1024 - (p + a) mod 1024) by lia. clear - Hmod. divlia.
      * pose proof (Z.div_le_mono (p + a) (p + count - 1) 1024 ltac:(lia) ltac:(lia)).
        rewrite (decide_False (P := a = count)) by lia. case_decide as Hend; [lia|].
        pose proof (Z.div_le_mono (p + (a + k)) (p + count - 1) 1024 ltac:(lia) ltac:(lia)).
        assert ((p + (a + k)) / 1024 = (p + a) / 1024 + 1).
        { replace k with (1024 - (p + a) mod 1024) by lia. clear - Hmod. divlia. }
        lia.
    + wp_step. replace a with count in * by lia. by apply HQ.
Qed.
End CopyLoop.

(** ** ospfs_read *)

Lemma byte_addr_add a d : 0 <= d -> a mod 1024 + d < 1024 -> (a + d) / 1024 = a / 1024 /\ (a + d) mod 1024 = a mod 1024 + d.
Proof. intros. divlia. Qed.

Section Read.
Context {accessible : Z -> Prop} {copy_to_user : mem -> Z -> list Z -> mem * Z}.
Context {copy_from_user : mem -> Z -> nat -> list Z * Z} {UA : UserAccess accessible copy_to_user copy_from_user}.

(** [a] bytes from position [p] have been delivered at [buffer]. *)
Record delivered (s : io) (oi buffer p a : Z) (t : io) : Prop := Delivered {
  dl_disk : disk t = disk s;
  dl_pos : f_pos t = p + a;
  dl_changes : changes (within buffer (buffer + a)) (user s) (user t);
  dl_bytes : forall i, 0 <= i < a -> ld8 (user t) (buffer + i) = file_byte (disk s) oi (p + i)
}.

Lemma wp_put_user s oi buffer p a k fu t : delivered s oi buffer p a t -> 0 <= a -> 0 < k ->
  (p + a) mod 1024 + k <= 1024 -> (forall b, within buffer (buffer + (a + k)) b -> accessible b) ->
  wp (put_user copy_to_user (buffer + a)
        (1024 * blk (disk t) oi (RData ((p + a) / 1024)) + (p + a) mod 1024) k) fu t
     (fun r t' => r = 0 /\ delivered s oi buffer p (a + k) (Io (disk t') (user t') (p + a + k))).
Proof.
  intros [Hd Hp Hch Hb] Ha Hk Hmod Hacc. unfold wp, put_user. rewrite Hd.
  set (l := ld_bytes _ _ _). assert (Hl : length l = Z.to_nat k) by apply length_ld_bytes.
  rewrite (to_user_law (accessible := accessible) (copy_from_user := copy_from_user)).
  2: { rewrite Hl. intros b Hin. apply Hacc. unfold within in *. lia. }
  split; [done|]. split; cbn [disk user f_pos]; [done|lia| |].
  - eapply changes_trans; [eapply changes_weaken; [done|]; unfold within; lia|].
    apply changes_st_bytes. rewrite Hl. unfold within. lia.
  - intros i Hi. destruct (decide (i < a)) as [Hlt|Hge].
    + rewrite ld8_st_bytes_out by lia. apply Hb. lia.
    + unfold l. rewrite ld8_copy by lia. unfold file_byte.
      destruct (byte_addr_add (p + a) (i - a)) as [Hq Hr]; [lia|lia|].
      replace (p + a + (i - a)) with (p + i) in Hq, Hr by lia. rewrite Hq, Hr. f_equal. lia.
Qed.

Lemma wp_ospfs_read ino n buffer count s fu (Q : Z -> io -> Prop) :
  let oi := 3072 + 64 * ino in
  let k := Z.min count (ld32 (disk s) (oi_size oi) - f_pos s) in
  fs_ok (disk s) -> 0 <= ino < ld32 (disk s) (os_ninodes ospfs_super) -> sized (disk s) oi n ->
  0 <= f_pos s <= ld32 (disk s) (oi_size oi) -> 0 <= count < 2 ^ 32 ->
  0 <= buffer /\ buffer + k < 2 ^ 32 -> (forall b, within buffer (buffer + k) b -> accessible b) ->
  (1024 <= fu)%nat ->
  (forall t, delivered s oi buffer (f_pos s) k t -> Q k t) ->
  wp (ospfs_read copy_to_user ino buffer count) fu s Q.
Proof.
  intros oi k F Hino S Hpos Hcount Hbuf Hacc Hfu HQ. pose proof (ld32_range (disk s) (oi_size oi)).
  unfold ospfs_read. apply wp_bind, wp_on_disk, wp_ospfs_inode; [done|done|]. fold oi. wp_step.
  apply wp_bind. unfold get_pos at 1. unfold wp at 1. apply wp_bind, wp_on_disk, wp_load32.
  cbn [disk user f_pos]. replace (Io (disk s) (user s) (f_pos s)) with s by by destruct s.
  replace (if _ <? _ then _ else _) with k.
  2: { unfold k. zcases. rewrite u32_small; lia. }
  apply (wp_copy_loop _ oi n buffer k (f_pos s) fu ltac:(lia) ltac:(lia) ltac:(lia)
           (delivered s oi buffer (f_pos s))); [| |done| |done].
  - intros a t [Hd Hp _ _]. rewrite Hd. split; [done|]. split; [done|lia].
  - intros a c t D Ha Hc Hle Hmod. apply wp_put_user; [done..|].
    intros b Hb. apply Hacc. unfold within in *. lia.
  - split; [done|lia|apply changes_refl|lia].
Qed.
End Read.

(** ** ospfs_write *)

Section Write.
Context {accessible : Z -> Prop} {copy_to_user : mem -> Z -> list Z -> mem * Z}.
Context {copy_from_user : mem -> Z -> nat -> list Z * Z} {UA : UserAccess accessible copy_to_user copy_from_user}.

(** [a] bytes of the user's buffer have been stored from position [p] on, in a
    file that was [m] when the copy started. *)
Record stored (m : mem) (u : mem) (oi n buffer p a : Z) (t : io) : Prop := Stored {
  sr_fs : fs_ok (disk t);
  sr_sized : sized (disk t) oi n;
  sr_size : ld32 (disk t) (oi_size oi) = ld32 m (oi_size oi);
  sr_ninodes : ld32 (disk t) (os_ninodes ospfs_super) = ld32 m (os_ninodes ospfs_super);
  sr_free : free_list (disk t) = free_list m;
  sr_blk : forall r, live n r -> blk (disk t) oi r = blk m oi r;
  sr_user : user t = u;
  sr_pos : f_pos t = p + a;
  sr_bytes : forall i, 0 <= i < 1024 * n -> file_byte (disk t) oi i =
    if bool_decide (p <= i < p + a) then ld8 u (buffer + (i - p)) else file_byte m oi i
}.

Lemma wp_get_user m u oi n buffer p a k fu t : stored m u oi n buffer p a t -> 0 <= p -> 0 <= a -> 0 < k ->
  p + a + k <= ld32 m (oi_size oi) -> (p + a) mod 1024 + k <= 1024 ->
  (forall b, within buffer (buffer + (a + k)) b -> accessible b) ->
  wp (get_user copy_from_user (1024 * blk (disk t) oi (RData ((p + a) / 1024)) + (p + a) mod 1024)
        (buffer + a) k) fu t
     (fun r t' => r = 0 /\ stored m u oi n buffer p (a + k) (Io (disk t') (user t') (p + a + k))).
Proof.
  intros [F S Hsz Hni Hfl Hbl Hu Hp Hb] Hp0 Ha Hk Hle Hmod Hacc. unfold wp, get_user.
  rewrite (from_user_law (accessible := accessible) (copy_to_user := copy_to_user)).
  2: { intros b Hin. apply Hacc. unfold within in *. lia. }
  rewrite Hu. set (l := ld_bytes _ _ _). assert (Hl : length l = Z.to_nat k) by apply length_ld_bytes.
  set (q := (p + a) / 1024) in *. set (d := 1024 * blk (disk t) oi (RData q) + (p + a) mod 1024).
  pose proof (sz_size _ _ _ S) as Hn. pose proof (Z.mod_pos_bound (p + a) 1024 ltac:(lia)) as Hm.
  assert (Hq : 0 <= q < n) by (unfold q; clear -Hp0 Ha Hk Hle Hn Hsz; divlia).
  assert (Hch : changes (within d (d + k)) (disk t) (st_bytes (disk t) d l)).
  { apply changes_st_bytes. rewrite Hl. unfold within. lia. }
  destruct (data_write (disk t) oi n (st_bytes (disk t) d l) F S) as (F' & S' & Hfl' & Hbl' & Hsz' & Hni').
  { eapply changes_weaken; [done|]. intros x Hx. exists q. split; [done|]. unfold in_block, within, d in *. lia. }
  set (m' := st_bytes (disk t) d l) in *.
  split; [done|]. split; cbn [disk user f_pos]; [done|done|congruence|congruence|congruence| |done|lia|].
  { intros r Hr. rewrite Hbl' by done. by apply Hbl. }
  intros i Hi. assert (Hib : blk m' oi (RData (i / 1024)) = blk (disk t) oi (RData (i / 1024))).
  { apply Hbl'. cbn. divlia. }
  assert (Haddr : forall j, p + a <= j < p + a + k ->
    1024 * blk (disk t) oi (RData (j / 1024)) + j mod 1024 = d + (j - (p + a))).
  { intros j Hj. destruct (byte_addr_add (p + a) (j - (p + a))) as [H1 H2]; [lia|lia|].
    replace (p + a + (j - (p + a))) with j in H1, H2 by lia. unfold d, q. rewrite H1, H2. lia. }
  unfold file_byte at 1. rewrite Hib. destruct (decide (p + a <= i < p + a + k)) as [Hin|Hout].
  - rewrite Haddr by done. rewrite bool_decide_true by lia. unfold m', l. rewrite ld8_copy by lia. f_equal. lia.
  - rewrite Hch.
    + fold (file_byte (disk t) oi i). rewrite Hb by done.
      repeat case_bool_decide; try done; lia.
    + intros Hw. pose proof (Haddr (p + a + (1024 * blk (disk t) oi (RData (i / 1024)) + i mod 1024 - d))) as He.
      unfold within in Hw. specialize (He ltac:(lia)).
      apply (file_byte_other (disk t) oi n i (p + a + (1024 * blk (disk t) oi (RData (i / 1024)) + i mod 1024 - d)) S);
        [done|lia|lia|]. rewrite He. lia.
Qed.

Lemma wp_write_loop m u oi n buffer count p s fu (Q : Z -> io -> Prop) :
  fs_ok m -> sized m oi n -> 0 <= p -> p + count <= ld32 m (oi_size oi) -> 0 <= count < 2 ^ 32 ->
  0 <= buffer /\ buffer + count < 2 ^ 32 -> (forall b, within buffer (buffer + count) b -> accessible b) ->
  (1024 <= fu)%nat -> s = Io m u p ->
  (forall t, stored m u oi n buffer p count t -> Q count t) ->
  wp (copy_loop (fun buffer data n => get_user copy_from_user data buffer n) oi buffer count) fu s Q.
Proof.
  intros F S Hp Hle Hcount Hbuf Hacc Hfu -> HQ.
  apply (wp_copy_loop _ oi n buffer count p fu ltac:(lia) ltac:(lia) ltac:(lia)
           (stored m u oi n buffer p)); [| |done| |done].
  - intros a t St. split; [apply St|]. split; [apply St|]. by rewrite (sr_size _ _ _ _ _ _ _ _ St).
  - intros a c t St Ha Hc Hle' Hmod. apply wp_get_user; [done|done|done|done|lia|done|].
    intros b Hb. apply Hacc. unfold within in *. lia.
  - split; cbn [disk user f_pos]; try done; [lia|].
    intros i Hi. rewrite bool_decide_false by lia. done.
Qed.

(** The part of the call before the copy: the size of the file is set to at
    least [p + count], if the disk has room. *)
Lemma wp_extend m oi n e fu (Q : Z -> mem -> Prop) :
  let size := ld32 m (oi_size oi) in
  let k := Z.max n (ospfs_size2nblocks e) in
  fs_ok m -> sized m oi n -> 0 <= e <= 2 ^ 32 - 1024 -> (needs n k <= length (free_list m))%nat ->
  (1024 <= fu)%nat ->
  (forall m', fs_ok m' -> sized m' oi k -> ld32 m' (oi_size oi) = Z.max size e ->
     ld32 m' (os_ninodes ospfs_super) = ld32 m (os_ninodes ospfs_super) ->
     free_list m' = drop (needs n k) (free_list m) ->
     (forall r, live n r -> blk m' oi r = blk m oi r) ->
     (forall i, 0 <= i < 1024 * k -> file_byte m' oi i = if i <? 1024 * n then file_byte m oi i else 0) ->
     Q 0 m') ->
  wp (if size <? e then change_size oi (u32 e) else mret 0) fu m Q.
Proof.
  intros size k F S He Hneed Hfu HQ. pose proof (sized_nblocks m oi n S) as Hnb.
  pose proof (sz_size _ _ _ S) as Hsz. fold size in Hsz.
  assert (Hk : ospfs_size2nblocks e = (e + 1023) / 1024) by (apply size2nblocks_ceil; lia).
  destruct (Z.ltb_spec size e) as [Hlt|Hge].
  - rewrite u32_small by lia. assert (Hke : k = ospfs_size2nblocks e) by (unfold k; rewrite Hk; divlia).
    assert (Hesz : 1024 * k - 1024 < e <= 1024 * k) by (rewrite Hke, Hk; divlia).
    destruct (decide (n < k)) as [Hnk|Hnk].
    + apply (wp_change_size_grow m oi n e fu F (sz_file _ _ _ S) Hnb Hfu); [lia|lia|by rewrite <- Hke|].
      rewrite <- Hke. intros m' G Hs'. apply HQ; [apply G| |lia| |apply G|apply G|].
      * split; [apply G|by rewrite Hs'|]. unfold oi_ftype.
        rewrite (head_kept m oi n m'); [apply S|done|apply S|apply G|lia|lia].
      * eapply ninodes_kept; [apply G|]. intros a. apply super_outside_grow; [done|apply S].
      * intros i Hi. rewrite (Z.mul_comm 1024 n). apply (grown_to_bytes m oi n k); [done|apply S|done|lia].
    + assert (Hkn : k = n) by lia. rewrite Hkn in *.
      apply (wp_change_size_shrink m oi n e fu F (sz_file _ _ _ S) Hnb Hfu); [lia|by rewrite <- Hke|].
      rewrite <- Hke. intros m' St Hs'. apply HQ; [apply St| |lia| | |apply St|].
      * split; [apply St|by rewrite Hs'|]. unfold oi_ftype.
        rewrite (head_kept m oi n m'); [apply S|done|apply S| |lia|lia].
        eapply changes_weaken; [apply St|]. apply shrink_grow.
      * eapply ninodes_kept; [apply St|]. intros a Ha Hs%shrink_grow.
        by apply (super_outside_grow m oi n a F (sz_file _ _ _ S)).
      * rewrite needs_refl, drop_0. apply free_list_ext. intros j. rewrite (st_free _ _ _ _ _ St).
        split; [|by left]. intros [?|(r & ? & ? & _)]; done.
      * intros i Hi. rewrite (proj2 (Z.ltb_lt i (1024 * n))) by lia.
        apply (shrunk_to_bytes m oi n n); [done|apply S|lia|done|lia].
  - wp_step. assert (Hkn : k = n).
    { unfold k. rewrite Hk. clear - Hge Hsz. divlia. }
    rewrite Hkn in *. apply HQ; try done.
    + fold size. lia.
    + by rewrite needs_refl, drop_0.
    + intros i Hi. by rewrite (proj2 (Z.ltb_lt i (1024 * n))) by lia.
Qed.

(** What a successful [ospfs_write] does: the user's bytes are in the file, the
    other bytes below the old end are unchanged, new blocks start cleared. *)
Record wrote (s : io) (oi n buffer p count : Z) (t : io) : Prop := Wrote {
  wr_fs : fs_ok (disk t);
  wr_sized : sized (disk t) oi (Z.max n (ospfs_size2nblocks (p + count)));
  wr_size : ld32 (disk t) (oi_size oi) = Z.max (ld32 (disk s) (oi_size oi)) (p + count);
  wr_ninodes : ld32 (disk t) (os_ninodes ospfs_super) = ld32 (disk s) (os_ninodes ospfs_super);
  wr_free : free_list (disk t) =
    drop (needs n (Z.max n (ospfs_size2nblocks (p + count)))) (free_list (disk s));
  wr_user : user t = user s;
  wr_pos : f_pos t = p + count;
  wr_data : forall i, 0 <= i < count -> file_byte (disk t) oi (p + i) = ld8 (user s) (buffer + i);
  wr_old : forall i, 0 <= i < 1024 * n -> ~ p <= i < p + count ->
    file_byte (disk t) oi i = file_byte (disk s) oi i;
  wr_zero : forall i, 1024 * n <= i < ld32 (disk t) (oi_size oi) -> ~ p <= i < p + count ->
    file_byte (disk t) oi i = 0
}.

(** The position a write starts at: the end of the file with [O_APPEND]. *)
Definition write_pos (s : io) (oi f_flags : Z) : Z :=
  if Z.land f_flags O_APPEND =? 0 then f_pos s else ld32 (disk s) (oi_size oi).

Lemma wp_ospfs_write ino n f_flags buffer count s fu (Q : Z -> io -> Prop) :
  let oi := 3072 + 64 * ino in
  let p := write_pos s oi f_flags in
  fs_ok (disk s) -> 0 <= ino < ld32 (disk s) (os_ninodes ospfs_super) -> sized (disk s) oi n ->
  0 <= p -> 0 <= count -> p + count <= 2 ^ 32 - 1024 ->
  (needs n (Z.max n (ospfs_size2nblocks (p + count))) <= length (free_list (disk s)))%nat ->
  0 <= buffer /\ buffer + count < 2 ^ 32 -> (forall b, within buffer (buffer + count) b -> accessible b) ->
  (1024 <= fu)%nat ->
  (forall t, wrote s oi n buffer p count t -> Q count t) ->
  wp (ospfs_write copy_from_user ino f_flags buffer count) fu s Q.
Proof.
  intros oi p F Hino S Hp Hcount Hend Hneed Hbuf Hacc Hfu HQ. pose proof (proj1 (sz_file _ _ _ S)) as Hn0.
  unfold ospfs_write. apply wp_bind, wp_on_disk, wp_ospfs_inode; [done|done|]. fold oi. wp_step.
  replace (Io (disk s) (user s) (f_pos s)) with s by by destruct s.
  apply wp_bind.
  assert (Hrest : wp (pos ← get_pos; size ← on_disk (load32 (oi_size oi));
      r ← (if size <? pos + count then on_disk (change_size oi (u32 (pos + count))) else mret 0);
      if r <? 0 then mret (-1)
      else copy_loop (fun buffer data n => get_user copy_from_user data buffer n) oi buffer count)
      fu (Io (disk s) (user s) p) Q).
  { apply wp_bind. unfold get_pos at 1. unfold wp at 1. apply wp_bind, wp_on_disk, wp_load32.
    cbn [disk user f_pos]. apply wp_bind.
    assert (Hx : wp (if ld32 (disk s) (oi_size oi) <? p + count then change_size oi (u32 (p + count)) else mret 0)
      fu (disk s) (fun r m => wp (if r <? 0 then mret (-1)
        else copy_loop (fun buffer data n => get_user copy_from_user data buffer n) oi buffer count)
        fu (Io m (user s) p) Q)).
    { apply (wp_extend (disk s) oi n (p + count)); [done|done|lia|done|done|].
      intros m' F' S' Hsz Hni Hfl Hbl Hb. cbn [Z.ltb Z.compare].
      apply (wp_write_loop m' (user s) oi _ buffer count p _ fu Q F' S'); [done|lia|lia|done|done|done|done|].
      intros t St. pose proof (sr_size _ _ _ _ _ _ _ _ St) as Hst. pose proof (sz_size _ _ _ S').
      pose proof (sr_bytes _ _ _ _ _ _ _ _ St) as Hbs.
      apply HQ. split; try apply St.
      - congruence.
      - rewrite (sr_ninodes _ _ _ _ _ _ _ _ St). done.
      - rewrite (sr_free _ _ _ _ _ _ _ _ St). done.
      - intros i Hi. rewrite Hbs by lia. rewrite bool_decide_true by lia. f_equal. lia.
      - intros i Hi Hn. rewrite Hbs by lia. rewrite bool_decide_false, Hb by (done || lia).
        by rewrite (proj2 (Z.ltb_lt i (1024 * n))) by lia.
      - intros i Hi Hn. rewrite Hbs by lia. rewrite bool_decide_false, Hb by (done || lia).
        by rewrite (proj2 (Z.ltb_ge i (1024 * n))) by lia. }
    destruct (_ <? p + count); [by apply wp_on_disk|by wp_step]. }
  unfold p, write_pos in Hrest. destruct (Z.land f_flags O_APPEND =? 0); cbn [negb when].
  - wp_step. by replace s with (Io (disk s) (user s) (f_pos s)) at 1 by by destruct s.
  - unfold when. apply wp_bind, wp_on_disk, wp_load32. done.
Qed.
End Write.
