(* ===== verification/OspfsSpec.v ===== *)
(** * OSPFS: what the file operations promise

    A file is abstractly the list of its bytes, [contents].  The theorems here
    are the correctness properties of the allocator, of the block tree and of
    the read and write callbacks; most state that the detailed code refines the
    obvious operation on [contents] and on the list of free blocks. *)

From S2P Require Import Prelude CMemory OspfsLayout OspfsAlloc OspfsFile OspfsTree OspfsWork OspfsGrow OspfsShrink OspfsSize OspfsIo.

(** The bytes of a file, up to its size. *)
Definition contents (m : mem) (oi : Z) : list Z := map (file_byte m oi) (seqZ 0 (ld32 m (oi_size oi))).

Lemma length_contents m oi : length (contents m oi) = Z.to_nat (ld32 m (oi_size oi)).
Proof. unfold contents. by rewrite length_map, length_seqZ. Qed.

Lemma contents_lookup m oi i : 0 <= i < ld32 m (oi_size oi) ->
  contents m oi !! Z.to_nat i = Some (file_byte m oi i).
Proof.
  intros Hi. unfold contents. rewrite list_lookup_fmap, lookup_seqZ_lt by lia.
  cbn. do 2 f_equal. lia.
Qed.

(** Two lists of bytes of the same length that agree byte by byte. *)
Lemma list_eq_bytes (l l' : list Z) (n : Z) : length l = Z.to_nat n -> length l' = Z.to_nat n ->
  (forall i, 0 <= i < n -> l !! Z.to_nat i = l' !! Z.to_nat i) -> l = l'.
Proof.
  intros Hl Hl' H. apply list_eq. intros i. destruct (decide (i < Z.to_nat n)%nat) as [Hi|Hi].
  - specialize (H (Z.of_nat i) ltac:(lia)). by rewrite Nat2Z.id in H.
  - by rewrite !lookup_ge_None_2 by lia.
Qed.

(** Replacing the bytes of [l] from position [p] on by [data]; [l] is at least
    [p] bytes long. *)
Definition overwrite (l : list Z) (p : nat) (data : list Z) : list Z :=
  take p l ++ data ++ drop (p + length data) l.

Lemma lookup_overwrite l p data i : (p <= length l)%nat ->
  overwrite l p data !! i =
    if decide (i < p)%nat then l !! i
    else if decide (i < p + length data)%nat then data !! (i - p)%nat else l !! i.
Proof.
  intros Hp. unfold overwrite. repeat case_decide.
  - by rewrite lookup_app_l, lookup_take_lt by (rewrite ?length_take; lia).
  - rewrite lookup_app_r by (rewrite length_take; lia). rewrite length_take, Nat.min_l by lia.
    by rewrite lookup_app_l by lia.
  - rewrite lookup_app_r by (rewrite length_take; lia). rewrite length_take, Nat.min_l by lia.
    rewrite lookup_app_r by lia. rewrite lookup_drop. f_equal. lia.
Qed.

Lemma length_overwrite l p data : (p <= length l)%nat ->
  length (overwrite l p data) = Nat.max (length l) (p + length data).
Proof. intros Hp. unfold overwrite. rewrite !length_app, length_take, length_drop. lia. Qed.

(** ** Concrete disks, on which the theorems are instantiated *)

(** Files that use direct blocks only, checked block by block. *)
Lemma direct_file_ok m oi n : 0 <= n <= 10 -> 3072 <= oi /\ oi + 64 <= 1024 * data_start m ->
  Forall (fun i => data_start m <= ld32 m (oi_direct oi i) < 1024 /\ ld32 m (oi_direct oi i) ∉ free_list m)
    (seqZ 0 n) ->
  NoDup (map (fun i => ld32 m (oi_direct oi i)) (seqZ 0 n)) ->
  ld32 m (oi_indirect oi) = 0 -> ld32 m (oi_indirect2 oi) = 0 -> file_ok m oi n.
Proof.
  intros Hn Hoi Hused Hnd Hi Hi2. rewrite Forall_forall in Hused.
  assert (Hlive : forall r, live n r -> exists i, r = RData i /\ 0 <= i < n).
  { intros [i| | |j]; cbn; [by exists i|lia..]. }
  assert (Hblk : forall i, 0 <= i < n -> blk m oi (RData i) = ld32 m (oi_direct oi i)).
  { intros i Hr. unfold blk. by rewrite slot_direct by lia. }
  assert (Huse : forall r, live n r -> data_start m <= blk m oi r < 1024 /\ blk m oi r ∉ free_list m).
  { intros r (i & -> & Hr)%Hlive. rewrite Hblk by done. apply Hused, elem_of_seqZ. lia. }
  split; [lia|]. split; [split; try done|done].
  - intros r (i & -> & Hr)%Hlive. cbn. ospfs_consts. lia.
  - intros r q (i & -> & Hr)%Hlive. cbn. zcases. done.
  - intros r Hr. destruct (Huse r Hr). lia.
  - intros r r' (i & -> & Hr)%Hlive (j & -> & Hr')%Hlive. rewrite !Hblk by done. intros He. f_equal.
    assert (Hk : forall x, 0 <= x < n ->
      map (fun i => ld32 m (oi_direct oi i)) (seqZ 0 n) !! Z.to_nat x = Some (ld32 m (oi_direct oi x))).
    { intros x Hx. rewrite list_lookup_fmap, lookup_seqZ_lt by lia. cbn. do 3 f_equal. lia. }
    pose proof (NoDup_lookup _ (Z.to_nat i) (Z.to_nat j) _ Hnd (Hk i Hr)) as Hij.
    rewrite He in Hij. specialize (Hij (Hk j Hr')). lia.
  - intros r q Hr Hv Hp (i & -> & _)%Hlive. by apply parent_index in Hp.
Qed.

(** A formatted image of 16 inodes whose bitmap starts with the words [ws];
    inode 1 is empty. *)
Definition image (ws : list Z) : mem :=
  fold_left (fun m '(a, v) => st32 m a v)
    ([(1032, 16); (1036, 3)] ++ imap (fun i w => (2048 + 4 * Z.of_nat i, w)) ws) ∅.

(** The same with the 5 bytes "hello" in inode 1, whose block is 4. *)
Definition hello (ws : list Z) : mem :=
  st_bytes (st32 (st32 (image ws) 3136 5) 3152 4) 4096 [104; 101; 108; 108; 111].

(** Kernel copy functions for a machine whose user memory is all accessible. *)
Definition all_accessible (a : Z) : Prop := True.
Definition flat_copy_to_user (u : mem) (a : Z) (l : list Z) : mem * Z := (st_bytes u a l, 0).
Definition flat_copy_from_user (u : mem) (a : Z) (n : nat) : list Z * Z := (ld_bytes u a n, 0).

#[export] Instance flat_access : UserAccess all_accessible flat_copy_to_user flat_copy_from_user.
Proof. by split. Qed.

Lemma fs_ok_check m : ld32 m (os_firstinob ospfs_super) = 3 -> data_start m <= 1024 ->
  forallb (fun b => data_start m <=? b) (free_list m) = true -> fs_ok m.
Proof.
  intros H1 H2 H3. split; [done|done|]. intros b Hb. rewrite forallb_forall in H3.
  apply Z.leb_le, H3. by apply list_elem_of_In.
Qed.

Lemma image_ok ws : fs_ok (image ws) -> ld32 (image ws) (os_ninodes ospfs_super) = 16 ->
  load_inode (image ws) 3136 = OspfsInode 0 0 0 0 (replicate 10 0) 0 0 -> file_ok (image ws) 3136 0.
Proof.
  intros F Hn Hi. injection Hi as _ _ _ _ _ H1 H2. apply direct_file_ok; [lia| |done|by constructor|done|done].
  unfold data_start. rewrite Hn. change ((16 + 15) / 16) with 1. lia.
Qed.

(** ** The callbacks on [contents] *)

Section Spec.
Context {accessible : Z -> Prop} {copy_to_user : mem -> Z -> list Z -> mem * Z}.
Context {copy_from_user : mem -> Z -> nat -> list Z * Z} {UA : UserAccess accessible copy_to_user copy_from_user}.

(** Bytes [p] to [p + k] of the file, as they lie in the user's buffer. *)
Lemma delivered_bytes s oi buffer p k t : 0 <= p -> 0 <= k -> p + k <= ld32 (disk s) (oi_size oi) ->
  delivered s oi buffer p k t ->
  ld_bytes (user t) buffer (Z.to_nat k) = take (Z.to_nat k) (drop (Z.to_nat p) (contents (disk s) oi)).
Proof.
  intros Hp Hk Hle D. apply (list_eq_bytes _ _ k).
  - apply length_ld_bytes.
  - rewrite length_take, length_drop, length_contents. lia.
  - intros i Hi. rewrite ld_bytes_lookup, lookup_take_lt, lookup_drop by lia.
    rewrite <- Z2Nat.inj_add by lia. rewrite contents_lookup by lia. f_equal.
    rewrite Z2Nat.id by lia. by apply D.
Qed.

Lemma wrote_contents s oi n buffer p count t : sized (disk s) oi n ->
  0 <= p <= ld32 (disk s) (oi_size oi) -> 0 <= count -> wrote s oi n buffer p count t ->
  contents (disk t) oi =
    overwrite (contents (disk s) oi) (Z.to_nat p) (ld_bytes (user s) buffer (Z.to_nat count)).
Proof.
  intros S Hp Hc W. pose proof (wr_size _ _ _ _ _ _ _ W) as Hsz. pose proof (sz_size _ _ _ S) as Hn.
  assert (Hlen : (Z.to_nat p <= length (contents (disk s) oi))%nat) by (rewrite length_contents; lia).
  apply (list_eq_bytes _ _ (ld32 (disk t) (oi_size oi))).
  - apply length_contents.
  - rewrite length_overwrite, length_contents, length_ld_bytes by done. lia.
  - intros i Hi. rewrite contents_lookup, lookup_overwrite, length_ld_bytes by done.
    repeat case_decide.
    + rewrite contents_lookup by lia. f_equal. apply (wr_old _ _ _ _ _ _ _ W); lia.
    + rewrite ld_bytes_lookup by lia. f_equal.
      pose proof (wr_data _ _ _ _ _ _ _ W (i - p) ltac:(lia)) as Hd.
      replace (p + (i - p)) with i in Hd by lia. rewrite Hd. f_equal. lia.
    + rewrite contents_lookup by lia. f_equal. apply (wr_old _ _ _ _ _ _ _ W); lia.
Qed.

(** C1. A write that starts inside the file, or at its end, or with [O_APPEND],
    and for which the disk has room, replaces exactly the bytes written: the
    other bytes of the file are unchanged, the file is extended when the data
    goes past its end, the file position is advanced by what was written, and
    the file system stays well formed. *)
Theorem ospfs_write_overwrites ino n f_flags buffer count s fu :
  let oi := 3072 + 64 * ino in
  let p := write_pos s oi f_flags in
  let k := Z.max n (ospfs_size2nblocks (p + count)) in
  fs_ok (disk s) -> 0 <= ino < ld32 (disk s) (os_ninodes ospfs_super) -> sized (disk s) oi n ->
  0 <= p <= ld32 (disk s) (oi_size oi) -> 0 <= count -> p + count <= 2 ^ 32 - 1024 ->
  (needs n k <= length (free_list (disk s)))%nat ->
  0 <= buffer /\ buffer + count < 2 ^ 32 -> (forall b, within buffer (buffer + count) b -> accessible b) ->
  (1024 <= fu)%nat ->
  exists t, ospfs_write copy_from_user ino f_flags buffer count fu s = Ret count t /\
    contents (disk t) oi = overwrite (contents (disk s) oi) (Z.to_nat p)
                             (ld_bytes (user s) buffer (Z.to_nat count)) /\
    f_pos t = p + count /\ user t = user s /\ fs_ok (disk t) /\ sized (disk t) oi k /\
    free_list (disk t) = drop (needs n k) (free_list (disk s)).
Proof.
  intros oi p k F Hino S Hp Hc He Hneed Hbuf Hacc Hfu.
  destruct (wp_run _ fu s _ (wp_ospfs_write ino n f_flags buffer count s fu
    (fun r t => r = count /\ wrote s oi n buffer p count t) F Hino S (proj1 Hp) Hc He Hneed Hbuf Hacc Hfu
    (fun t W => conj eq_refl W))) as (r & t & Hrun & -> & W).
  exists t. split; [done|]. split; [by apply (wrote_contents s oi n)|].
  split; [apply W|]. split; [apply W|]. split; [apply W|]. split; apply W.
Qed.

(** C2. A read from a position inside the file delivers the bytes of the file
    from that position, as many as were asked for or as there are, advances the
    file position by as much, and changes nothing else. *)
Theorem ospfs_read_contents ino n buffer count s fu :
  let oi := 3072 + 64 * ino in
  let k := Z.min count (ld32 (disk s) (oi_size oi) - f_pos s) in
  fs_ok (disk s) -> 0 <= ino < ld32 (disk s) (os_ninodes ospfs_super) -> sized (disk s) oi n ->
  0 <= f_pos s <= ld32 (disk s) (oi_size oi) -> 0 <= count < 2 ^ 32 ->
  0 <= buffer /\ buffer + k < 2 ^ 32 -> (forall b, within buffer (buffer + k) b -> accessible b) ->
  (1024 <= fu)%nat ->
  exists t, ospfs_read copy_to_user ino buffer count fu s = Ret k t /\
    ld_bytes (user t) buffer (Z.to_nat k) =
      take (Z.to_nat k) (drop (Z.to_nat (f_pos s)) (contents (disk s) oi)) /\
    changes (within buffer (buffer + k)) (user s) (user t) /\
    disk t = disk s /\ f_pos t = f_pos s + k.
Proof.
  intros oi k F Hino S Hp Hc Hbuf Hacc Hfu.
  destruct (wp_run _ fu s _ (wp_ospfs_read ino n buffer count s fu
    (fun r t => r = k /\ delivered s oi buffer (f_pos s) k t) F Hino S Hp Hc Hbuf Hacc Hfu
    (fun t D => conj eq_refl D))) as (r & t & Hrun & -> & D).
  exists t. split; [done|]. split; [apply (delivered_bytes s oi); [lia|lia|lia|done]|].
  split; [apply D|]. split; apply D.
Qed.

(** C3. What was written is what is read back: a write followed by a read of as
    many bytes from the position where the write started delivers the bytes of
    the user's first buffer. *)
Theorem write_read_roundtrip ino n f_flags buffer buffer' count s fu :
  let oi := 3072 + 64 * ino in
  let p := write_pos s oi f_flags in
  fs_ok (disk s) -> 0 <= ino < ld32 (disk s) (os_ninodes ospfs_super) -> sized (disk s) oi n ->
  0 <= p -> 0 <= count -> p + count <= 2 ^ 32 - 1024 ->
  (needs n (Z.max n (ospfs_size2nblocks (p + count))) <= length (free_list (disk s)))%nat ->
  0 <= buffer /\ buffer + count < 2 ^ 32 -> (forall b, within buffer (buffer + count) b -> accessible b) ->
  0 <= buffer' /\ buffer' + count < 2 ^ 32 -> (forall b, within buffer' (buffer' + count) b -> accessible b) ->
  (1024 <= fu)%nat ->
  exists t t', ospfs_write copy_from_user ino f_flags buffer count fu s = Ret count t /\
    ospfs_read copy_to_user ino buffer' count fu (Io (disk t) (user t) p) = Ret count t' /\
    ld_bytes (user t') buffer' (Z.to_nat count) = ld_bytes (user s) buffer (Z.to_nat count).
Proof.
  intros oi p F Hino S Hp Hc He Hneed Hbuf Hacc Hbuf' Hacc' Hfu.
  destruct (wp_run _ fu s _ (wp_ospfs_write ino n f_flags buffer count s fu
    (fun r t => r = count /\ wrote s oi n buffer p count t) F Hino S Hp Hc He Hneed Hbuf Hacc Hfu
    (fun t W => conj eq_refl W))) as (r & t & Hrun & -> & W).
  exists t. pose proof (wr_size _ _ _ _ _ _ _ W) as Hsz.
  set (s1 := Io (disk t) (user t) p).
  assert (Hk : Z.min count (ld32 (disk s1) (oi_size oi) - f_pos s1) = count) by (cbn [disk s1 f_pos]; lia).
  destruct (wp_run _ fu s1 _ (wp_ospfs_read ino _ buffer' count s1 fu
    (fun r t' => r = count /\ delivered s1 oi buffer' p count t') (wr_fs _ _ _ _ _ _ _ W)
    ltac:(cbn [disk s1]; rewrite (wr_ninodes _ _ _ _ _ _ _ W); done) (wr_sized _ _ _ _ _ _ _ W)
    ltac:(cbn [disk s1 f_pos]; fold oi; lia) ltac:(lia) ltac:(fold oi; rewrite Hk; done)
    ltac:(fold oi; rewrite Hk; done) Hfu
    ltac:(fold oi; rewrite Hk; intros t' D; exact (conj eq_refl D)))) as (r & t' & Hrun' & -> & D).
  exists t'. split; [done|]. split; [done|].
  apply (list_eq_bytes _ _ count); [apply length_ld_bytes..|]. intros i Hi.
  rewrite !ld_bytes_lookup by lia. rewrite !Z2Nat.id by lia. f_equal.
  rewrite (dl_bytes _ _ _ _ _ _ D i Hi). by apply W.
Qed.
End Spec.

(** ** Growing and shrinking *)

(** C4. [change_size] to a larger size, when the disk has the blocks, index
    blocks included, that the new size needs: it returns 0, the size is the one
    asked for, the bytes of the old blocks are kept and those of the new blocks
    are 0, and exactly the blocks needed are taken from the free list. *)
Theorem change_size_grows m oi n new_size fu :
  let k := ospfs_size2nblocks new_size in
  fs_ok m -> sized m oi n -> 0 <= new_size < 2 ^ 32 -> n < k ->
  (needs n k <= length (free_list m))%nat -> (1024 <= fu)%nat ->
  exists m', change_size oi new_size fu m = Ret 0 m' /\ fs_ok m' /\ file_ok m' oi k /\
    ld32 m' (oi_size oi) = new_size /\ free_list m' = drop (needs n k) (free_list m) /\
    (forall r, live n r -> blk m' oi r = blk m oi r) /\
    (forall i, 0 <= i < 1024 * k -> file_byte m' oi i = if i <? 1024 * n then file_byte m oi i else 0).
Proof.
  intros k F S Hnew Hk Hneed Hfu.
  destruct (wp_run _ fu m _ (wp_change_size_grow m oi n new_size fu F (sz_file _ _ _ S) (sized_nblocks m oi n S)
    Hfu Hnew (fun r m' => r = 0 /\ grown_to m oi n k m' /\ ld32 m' (oi_size oi) = new_size) Hk Hneed
    (fun m' G Hs => conj eq_refl (conj G Hs)))) as (r & m' & Hrun & -> & G & Hs).
  exists m'. split; [done|]. split; [apply G|]. split; [apply G|]. split; [done|]. split; [apply G|].
  split; [apply G|]. intros i Hi. rewrite (Z.mul_comm 1024 n).
  apply (grown_to_bytes m oi n k); [done|apply S|done|lia].
Qed.

(** C5. On a consistent disk, [change_size] to a size that is not larger succeeds
    for a file whose blocks, index blocks included, all have numbers below 1024
    ([tree_ok] says so; [free_block] never ends for another): the file's first
    bytes are kept, and the blocks that are no longer part of the file, index
    blocks included, are exactly those that join the free list. *)
Theorem change_size_shrinks m oi n new_size fu :
  let k := ospfs_size2nblocks new_size in
  fs_ok m -> sized m oi n -> 0 <= new_size <= ld32 m (oi_size oi) -> (1024 <= fu)%nat ->
  exists m', change_size oi new_size fu m = Ret 0 m' /\ fs_ok m' /\ file_ok m' oi k /\
    contents m' oi = take (Z.to_nat new_size) (contents m oi) /\
    forall j, j ∈ free_list m' <->
      j ∈ free_list m \/ exists r, live n r /\ ~ live k r /\ blk m oi r = j.
Proof.
  intros k F S Hnew Hfu. pose proof (ld32_range m (oi_size oi)). pose proof (sz_size _ _ _ S).
  pose proof (n_range _ _ _ (sz_file _ _ _ S)) as Hr.
  assert (Hk : k = (new_size + 1023) / 1024) by (apply size2nblocks_ceil; lia).
  assert (Hkn : k <= n) by (rewrite Hk; divlia).
  assert (Hnew' : 0 <= new_size < 2 ^ 32) by lia.
  destruct (wp_run _ fu m _ (wp_change_size_shrink m oi n new_size fu F (sz_file _ _ _ S) (sized_nblocks m oi n S)
    Hfu Hnew' (fun r m' => r = 0 /\ shrunk_to m oi n k m' /\ ld32 m' (oi_size oi) = new_size) Hkn
    (fun m' G Hs => conj eq_refl (conj G Hs)))) as (r & m' & Hrun & -> & G & Hs).
  exists m'. split; [done|]. split; [apply G|]. split; [apply G|]. split; [|apply G].
  apply (list_eq_bytes _ _ new_size).
  - by rewrite length_contents, Hs.
  - rewrite length_take, length_contents. lia.
  - intros i Hi. rewrite contents_lookup, lookup_take_lt, contents_lookup by lia. f_equal.
    apply (shrunk_to_bytes m oi n k); [done|apply S|done|done|]. rewrite Hk. divlia.
Qed.

(** C6. When the disk does not have the blocks, [change_size] returns [-ENOSPC]
    and gives back every block it took, but it does not leave the file as it
    was: the counter of added blocks is incremented before the failure is
    noticed, so that the last block of the original file is removed too and the
    size is rounded down to the remaining whole blocks.  (The case where the
    267th block fails with exactly two free blocks left is [add_block_dangling].) *)
Theorem change_size_full_loses_block m oi n new_size fu :
  let k := ospfs_size2nblocks new_size in
  fs_ok m -> sized m oi n -> 0 <= new_size < 2 ^ 32 -> n < k ->
  (length (free_list m) < needs n k)%nat ->
  (n <= 266 -> length (free_list m) <> (needs n 266 + 2)%nat) -> (1024 <= fu)%nat ->
  exists m', change_size oi new_size fu m = Ret (- ENOSPC) m' /\ cut_back m oi n m'.
Proof.
  intros k F S Hnew Hk Hneed Hnd Hfu.
  destruct (wp_run _ fu m _ (wp_change_size_full m oi n new_size fu F (sz_file _ _ _ S) (sized_nblocks m oi n S)
    Hfu Hnew (fun r m' => r = - ENOSPC /\ cut_back m oi n m') Hk Hneed Hnd
    (fun m' C => conj eq_refl C))) as (r & m' & Hrun & -> & C).
  by exists m'.
Qed.

(** C7. [add_block] succeeds exactly when the disk has the one, two or three
    blocks that the next data block takes, in which case the new state is
    [grown]; otherwise it returns [-ENOSPC] in the state [grow_failed]. *)
Theorem add_block_spec m oi n fu :
  fs_ok m -> file_ok m oi n -> ospfs_size2nblocks (ld32 m (oi_size oi)) = n -> (0 < fu)%nat ->
  exists m', if bool_decide (need n <= length (free_list m))%nat
    then add_block oi fu m = Ret 0 m' /\ grown m oi n m'
    else add_block oi fu m = Ret (- ENOSPC) m' /\ grow_failed m oi n m'.
Proof.
  intros F T Hs Hfu. case_bool_decide as Hneed.
  - destruct (wp_run _ fu m (fun r m' => r = 0 /\ grown m oi n m')
      (wp_add_block oi n fu m _ F T Hs Hfu (fun _ m' G => conj eq_refl G) ltac:(lia)))
      as (r & m' & Hrun & -> & G). by exists m'.
  - destruct (wp_run _ fu m (fun r m' => r = - ENOSPC /\ grow_failed m oi n m')
      (wp_add_block oi n fu m _ F T Hs Hfu ltac:(lia) (fun _ m' G => conj eq_refl G)))
      as (r & m' & Hrun & -> & G). by exists m'.
Qed.

(** The failure that is not undone: with exactly two free blocks left, the
    267th block of a file fails with [-ENOSPC] and [oi_indirect2] keeps
    pointing at a block that is on the free list again. *)
Theorem add_block_dangling m oi fu b b2 :
  fs_ok m -> file_ok m oi 266 -> ospfs_size2nblocks (ld32 m (oi_size oi)) = 266 -> (0 < fu)%nat ->
  free_list m = [b; b2] ->
  exists m', add_block oi fu m = Ret (- ENOSPC) m' /\
    ld32 m' (oi_indirect2 oi) = b2 /\ b2 ∈ free_list m'.
Proof.
  intros F T Hs Hfu Hfl. assert (Hlen : (length (free_list m) < need 266)%nat) by (rewrite Hfl; cbn; lia).
  destruct (wp_run _ fu m (fun r m' => r = - ENOSPC /\ grow_failed m oi 266 m')
    (wp_add_block oi 266 fu m _ F T Hs Hfu ltac:(lia) (fun _ m' G => conj eq_refl G)))
    as (r & m' & Hrun & -> & G).
  exists m'. split; [done|]. split; [by apply (gf_dangling _ _ _ _ G b)|].
  rewrite (gf_free _ _ _ _ G), Hfl. right. by left.
Qed.

(** C9. [remove_block] undoes [add_block]: afterwards the free list is what it
    was, the file has its old blocks, and its size is the size of the blocks. *)
Theorem remove_block_undoes_add_block m oi n fu :
  fs_ok m -> file_ok m oi n -> ospfs_size2nblocks (ld32 m (oi_size oi)) = n -> (0 < fu)%nat ->
  (need n <= length (free_list m))%nat ->
  exists m1 m2, add_block oi fu m = Ret 0 m1 /\ remove_block oi fu m1 = Ret 0 m2 /\
    fs_ok m2 /\ file_ok m2 oi n /\ free_list m2 = free_list m /\
    (forall r, live n r -> blk m2 oi r = blk m oi r) /\ ld32 m2 (oi_size oi) = n * 1024.
Proof.
  intros F T Hs Hfu Hneed. pose proof (n_range _ _ _ T) as Hr.
  destruct (wp_run _ fu m (fun r m' => r = 0 /\ grown m oi n m')
    (wp_add_block oi n fu m _ F T Hs Hfu (fun _ m' G => conj eq_refl G) ltac:(lia)))
    as (r & m1 & Hrun & -> & G).
  pose proof (n_range _ _ _ (gr_file _ _ _ _ G)).
  assert (Hs1 : ospfs_size2nblocks (ld32 m1 (oi_size oi)) = n + 1).
  { rewrite (gr_size _ _ _ _ G). apply size2nblocks_blocks. lia. }
  destruct (wp_run _ fu m1 (fun r m' => r = 0 /\ shrunk m1 oi (n + 1) m')
    (wp_remove_block oi (n + 1) fu m1 _ (gr_fs _ _ _ _ G) (gr_file _ _ _ _ G) Hs1 Hfu ltac:(lia)
       (fun _ m' D => conj eq_refl D))) as (r & m2 & Hrun2 & -> & D).
  exists m1, m2. replace (n + 1 - 1) with n in D by lia.
  pose proof (sh_file _ _ _ _ D) as T2. pose proof (sh_keep _ _ _ _ D) as Hk2.
  pose proof (sh_size _ _ _ _ D) as Hs2. pose proof (sh_free _ _ _ _ D) as Hf2.
  replace (n + 1 - 1) with n in * by lia.
  split; [done|]. split; [done|]. split; [apply D|]. split; [done|]. split; [|split; [|done]].
  - apply free_list_ext. intros j. rewrite Hf2. split.
    + intros [Hj|(r & Hl & Hn & Hb)].
      * revert Hj. rewrite (gr_free _ _ _ _ G). apply subseteq_drop.
      * rewrite <- Hb. by apply G.
    + intros Hj. apply (gr_taken _ _ _ _ G j Hj).
  - intros r Hl. rewrite Hk2 by done. by apply G.
Qed.

(** ** The allocator *)

(** [allocate_block] returns 0 exactly when no block is free, and else the
    lowest-numbered free block, which is then the only block that is not free
    any more; [free_block] on that block restores the set of free blocks. *)
Theorem allocate_free_roundtrip m fu :
  fs_ok m -> (0 < fu)%nat ->
  exists b m1, allocate_block fu m = Ret b m1 /\
    if bool_decide (free_list m = []) then b = 0 /\ m1 = m
    else b ∈ free_list m /\ data_start m <= b < 1024 /\ (forall j, j ∈ free_list m -> b <= j) /\
      (forall j, j ∈ free_list m1 <-> j ∈ free_list m /\ j <> b) /\
      exists m2, free_block b fu m1 = Ret tt m2 /\ free_list m2 = free_list m.
Proof.
  intros F Hfu.
  destruct (wp_run _ fu m (fun b m1 => (free_list m = [] /\ b = 0 /\ m1 = m) \/
      exists l, free_list m = b :: l /\ free_list m1 = l /\ changes bitmap_area m m1)
    (wp_allocate_block fu m _ F (fun H => or_introl (conj H (conj eq_refl eq_refl)))
      (fun b l m' H1 H2 H3 => or_intror (ex_intro _ l (conj H1 (conj H2 H3))))))
    as (b & m1 & Hrun & [(Hnil & -> & ->)|(l & Hl & Hl1 & Hch)]); exists b, m1 || exists 0, m.
  { by rewrite bool_decide_true. }
  split; [done|]. rewrite bool_decide_false by by rewrite Hl.
  assert (Hb : b ∈ free_list m) by (rewrite Hl; by left).
  pose proof (free_block_range m F b Hb) as Hrange.
  pose proof (free_list_NoDup m) as Hnd. rewrite Hl in Hnd. apply NoDup_cons in Hnd as [Hnin Hnd].
  assert (Hset : forall j, j ∈ free_list m1 <-> j ∈ free_list m /\ j <> b).
  { intros j. rewrite Hl1, Hl, elem_of_cons. split; [intros Hj; split; [by right|by intros ->]|]. intros [[?|?] ?]; done. }
  split; [done|]. split; [done|]. split; [|split; [done|]].
  { intros j [Hf Hj]%elem_of_free_list. by apply (filter_seqZ_least _ 1024 0 b l Hl). }
  pose proof (data_start_frame _ _ _ Hch super_not_bitmap) as Hds.
  assert (F1 : fs_ok m1).
  { eapply fs_ok_frame; [done|done|apply super_not_bitmap|]. intros x [Hx _]%Hset. by apply F. }
  destruct (wp_run _ fu m1 (fun _ m2 => free_list m2 = free_list m)
    (wp_free_block b fu m1 (fun _ m2 => free_list m2 = free_list m) F1 Hfu ltac:(rewrite Hds; done)
       ltac:(intros m2 Hin _; apply free_list_ext; intros j; rewrite Hin, Hset;
             destruct (decide (j = b)) as [->|]; tauto))) as ([] & m2 & Hrun2 & Hm2).
  by exists m2.
Qed.

(** C11. [free_block] on a data block whose number is above 1023 never returns:
    the loop that is to find the bitmap block tests [blockno], which its body
    does not change. *)
Theorem free_block_hangs m blockno fu :
  fs_ok m -> 1023 < blockno -> free_block blockno fu m = Hang.
Proof.
  intros F Hb.
  assert (Hlt : (blockno <? u32 (ld32 m (os_firstinob ospfs_super) + ld32 m (os_ninodes ospfs_super) / OSPFS_BLKINODES)) = false).
  { rewrite (free_start_small m F). apply Z.ltb_ge. pose proof (fs_start m F) as Hs. unfold data_start in Hs. divlia. }
  assert (Hmore : (1023 <? blockno) = true) by (apply Z.ltb_lt; lia).
  unfold free_block, mbind, prog_bind, load32. cbv beta iota zeta. rewrite Hlt, Hmore. unfold loop.
  assert (Hloop : forall n x s, loop_n n (fun '(bitmap_pos, bitmap_blk) =>
      mret (M := prog mem) (inl (B := Z * Z) (u32 (bitmap_pos - 1024), u32 (bitmap_blk + 1)))) x fu s = Hang).
  { induction n as [|n IH]; intros [pos bk] s; [done|]. apply IH. }
  by rewrite Hloop.
Qed.

(** A read from a position beyond the end of the file fails with [-EIO]
    instead of delivering 0 bytes: the clipped count wraps around. *)
Theorem ospfs_read_past_end copy_to_user ino buffer count s fu :
  let oi := 3072 + 64 * ino in
  fs_ok (disk s) -> 0 <= ino < ld32 (disk s) (os_ninodes ospfs_super) ->
  ld32 (disk s) (oi_size oi) < f_pos s < 2 ^ 32 -> 0 <= count -> (0 < fu)%nat ->
  ospfs_read copy_to_user ino buffer count fu s = Ret (- EIO) s.
Proof.
  intros oi F Hino Hpos Hc Hfu. pose proof (ld32_range (disk s) (oi_size oi)) as Hr.
  destruct (wp_run (ospfs_read copy_to_user ino buffer count) fu s (fun r t => r = - EIO /\ t = s))
    as (r & t & -> & -> & ->); [|done].
  unfold ospfs_read. apply wp_bind, wp_on_disk, wp_ospfs_inode; [done|done|]. fold oi. wp_step.
  apply wp_bind. unfold get_pos at 1. unfold wp at 1. apply wp_bind, wp_on_disk, wp_load32.
  cbn [disk user f_pos]. rewrite (proj2 (Z.ltb_lt _ (f_pos s + count))) by lia.
  apply (wp_loop (fun x t => x = (buffer, 0) /\ t = s) (fun _ => 0%nat)); [by destruct s|lia|].
  intros x t [-> ->].
  assert (Hclip : 0 < u32 (ld32 (disk s) (oi_size oi) - f_pos s)).
  { unfold u32. rewrite <- (Z.mod_add _ 1) by lia. rewrite Z.mod_small; lia. }
  rewrite (proj2 (Z.ltb_lt 0 _)) by done.
  apply wp_bind. unfold get_pos at 1. unfold wp at 1. apply wp_bind, wp_on_disk.
  apply wp_ospfs_inode_blockno_past; [rewrite u32_small; lia|]. cbn [Z.eqb]. wp_step.
  split; [done|]. by destruct s.
Qed.

(** ** The theorems on concrete disks *)

(** "hello" with the blocks 5 to 31 free, and with no free block. *)
Definition roomy : mem := hello [0xFFFFFFE0].
Definition full : mem := hello [0].

Lemma roomy_fs : fs_ok roomy.
Proof. apply fs_ok_check; [reflexivity|vm_compute; discriminate|reflexivity]. Qed.

Lemma full_fs : fs_ok full.
Proof. apply fs_ok_check; [reflexivity|vm_compute; discriminate|reflexivity]. Qed.

Lemma hello_sized ws : data_start (hello ws) = 4 -> ld32 (hello ws) 3136 = 5 ->
  load_inode (hello ws) 3136 = OspfsInode 5 0 0 0 (4 :: replicate 9 0) 0 0 ->
  is_free (hello ws) 4 = false -> sized (hello ws) 3136 1.
Proof.
  intros Hd Hs Hi Hf. injection Hi as _ Ht _ _ H0 _ _ _ _ _ _ _ _ _ H1 H2.
  assert (Hb : ld32 (hello ws) (oi_direct 3136 0) = 4) by exact H0.
  split; [|unfold oi_size; lia|by rewrite Ht].
  apply direct_file_ok; [lia|lia| | |done|done].
  - apply Forall_forall. intros i Hi%elem_of_seqZ. replace i with 0 by lia. rewrite Hb, Hd. split; [lia|].
    rewrite elem_of_free_list, Hf. by intros [? _].
  - apply NoDup_singleton.
Qed.

Lemma roomy_sized : sized roomy 3136 1.
Proof. by apply hello_sized. Qed.

Lemma full_sized : sized full 3136 1.
Proof. by apply hello_sized. Qed.

Lemma roomy_free : length (free_list roomy) = 27%nat.
Proof. reflexivity. Qed.

(** User memory with "world!" at address 100. *)
Definition world : mem := st_bytes ∅ 100 [119; 111; 114; 108; 100; 33].

Lemma ospfs_write_overwrites_witness :
  let s := Io roomy world 3 in
  exists t, ospfs_write flat_copy_from_user 1 0 100 6 1024%nat s = Ret 6 t /\
    contents (disk t) 3136 = [104; 101; 108; 119; 111; 114; 108; 100; 33].
Proof.
  assert (H := ospfs_write_overwrites 1 1 0 100 6 (Io roomy world 3) 1024%nat roomy_fs ltac:(vm_compute; split; congruence)
    roomy_sized ltac:(vm_compute; split; congruence) ltac:(lia) ltac:(vm_compute; congruence)
    ltac:(cbn [disk]; rewrite roomy_free; vm_compute; lia) ltac:(lia) (fun _ _ => I) ltac:(lia)).
  destruct H as (t & Hrun & Hc & _). exists t. split; [exact Hrun|]. etransitivity; [exact Hc|reflexivity].
Defined.

Lemma ospfs_read_contents_witness :
  let s := Io roomy ∅ 1 in
  exists t, ospfs_read flat_copy_to_user 1 200 10 1024%nat s = Ret 4 t /\
    ld_bytes (user t) 200 4 = [101; 108; 108; 111].
Proof.
  assert (H := ospfs_read_contents 1 1 200 10 (Io roomy ∅ 1) 1024%nat roomy_fs ltac:(vm_compute; split; congruence)
    roomy_sized ltac:(vm_compute; split; congruence) ltac:(lia) ltac:(vm_compute; split; congruence)
    (fun _ _ => I) ltac:(lia)).
  destruct H as (t & Hrun & Hc & _). exists t. split; [exact Hrun|]. exact Hc.
Defined.

Lemma write_read_roundtrip_witness :
  let s := Io roomy world 3000 in
  exists t t', ospfs_write flat_copy_from_user 1 0 100 6 1024%nat s = Ret 6 t /\
    ospfs_read flat_copy_to_user 1 200 6 1024%nat (Io (disk t) (user t) 3000) = Ret 6 t' /\
    ld_bytes (user t') 200 6 = [119; 111; 114; 108; 100; 33].
Proof.
  assert (H := write_read_roundtrip 1 1 0 100 200 6 (Io roomy world 3000) 1024%nat roomy_fs ltac:(vm_compute; split; congruence)
    roomy_sized ltac:(vm_compute; congruence) ltac:(lia) ltac:(vm_compute; congruence)
    ltac:(cbn [disk]; rewrite roomy_free; vm_compute; lia) ltac:(lia) (fun _ _ => I) ltac:(lia) (fun _ _ => I) ltac:(lia)).
  destruct H as (t & t' & Hrun & Hrun' & Hc). exists t, t'. split; [exact Hrun|]. split; [exact Hrun'|exact Hc].
Defined.

Lemma change_size_grows_witness :
  exists m', change_size 3136 5000 1024%nat roomy = Ret 0 m' /\ ld32 m' 3136 = 5000 /\
    free_list m' = drop 4 (free_list roomy).
Proof.
  destruct (change_size_grows roomy 3136 1 5000 1024%nat roomy_fs roomy_sized ltac:(lia) ltac:(vm_compute; congruence)
    ltac:(rewrite roomy_free; vm_compute; lia) ltac:(lia)) as (m' & Hrun & _ & _ & Hs & Hf & _).
  exists m'. split; [exact Hrun|]. split; [exact Hs|exact Hf].
Defined.

Lemma change_size_shrinks_witness :
  exists m', change_size 3136 2 1024%nat roomy = Ret 0 m' /\ contents m' 3136 = [104; 101].
Proof.
  destruct (change_size_shrinks roomy 3136 1 2 1024%nat roomy_fs roomy_sized ltac:(vm_compute; split; congruence) ltac:(lia))
    as (m' & Hrun & _ & _ & Hc & _).
  exists m'. split; [exact Hrun|]. rewrite Hc. reflexivity.
Defined.

(** Extending the 5-byte file on a full disk truncates it to nothing. *)
Lemma change_size_full_loses_block_witness :
  exists m', change_size 3136 2000 1024%nat full = Ret (- ENOSPC) m' /\ ld32 m' 3136 = 0.
Proof.
  assert (Hf : length (free_list full) = 0%nat) by reflexivity.
  destruct (change_size_full_loses_block full 3136 1 2000 1024%nat full_fs full_sized ltac:(lia) ltac:(vm_compute; congruence)
    ltac:(rewrite Hf; vm_compute; lia) ltac:(rewrite Hf; intros _ H; vm_compute in H; discriminate H) ltac:(lia))
    as (m' & Hrun & C).
  exists m'. split; [exact Hrun|]. exact (cb_size _ _ _ _ C ltac:(lia)).
Defined.

Lemma add_block_spec_witness :
  exists m', add_block 3136 1%nat full = Ret (- ENOSPC) m' /\ grow_failed full 3136 1 m'.
Proof.
  exact (add_block_spec full 3136 1 1%nat full_fs (sz_file _ _ _ full_sized) eq_refl ltac:(lia)).
Defined.

(** A disk with 269 free blocks and an empty file. *)
Definition fresh : mem := image (0xFFFFFFF0 :: replicate 7 0xFFFFFFFF ++ [0x1FFFF]).

Lemma fresh_fs : fs_ok fresh.
Proof. apply fs_ok_check; [reflexivity|vm_compute; discriminate|reflexivity]. Qed.

Lemma fresh_free : free_list fresh = seqZ 4 269.
Proof. reflexivity. Qed.

Lemma fresh_sized : sized fresh 3136 0.
Proof.
  split; [apply image_ok; [apply fresh_fs|reflexivity..]|vm_compute; split; congruence|vm_compute; congruence].
Qed.

(** Grow the empty file to 266 blocks, which leaves two blocks, then try one more. *)
Lemma add_block_dangling_witness :
  exists m m', change_size 3136 (266 * 1024) 1024%nat fresh = Ret 0 m /\ add_block 3136 1024%nat m = Ret (- ENOSPC) m' /\
    ld32 m' (oi_indirect2 3136) = 272 /\ 272 ∈ free_list m'.
Proof.
  assert (H : wp (change_size 3136 (266 * 1024)) 1024%nat fresh (fun r m => r = 0 /\
    grown_to fresh 3136 0 266 m /\ ld32 m (oi_size 3136) = 266 * 1024)).
  { apply (wp_change_size_grow fresh 3136 0 (266 * 1024) 1024%nat fresh_fs (sz_file _ _ _ fresh_sized) eq_refl);
      [lia|lia|vm_compute; congruence| |done]. rewrite fresh_free. vm_compute. lia. }
  destruct (wp_run _ _ _ _ H) as (r & m & Hrun & -> & G & Hs).
  destruct (add_block_dangling m 3136 1024%nat 271 272 (gt_fs _ _ _ _ _ G) (gt_file _ _ _ _ _ G)
    ltac:(rewrite Hs; reflexivity) ltac:(lia) ltac:(rewrite (gt_free _ _ _ _ _ G), fresh_free; reflexivity))
    as (m' & Hrun' & H1 & H2).
  exists m, m'. split; [exact Hrun|]. split; [exact Hrun'|]. split; [exact H1|exact H2].
Defined.

Lemma remove_block_undoes_add_block_witness :
  exists m1 m2, add_block 3136 1%nat roomy = Ret 0 m1 /\ remove_block 3136 1%nat m1 = Ret 0 m2 /\
    free_list m2 = free_list roomy.
Proof.
  destruct (remove_block_undoes_add_block roomy 3136 1 1%nat roomy_fs (sz_file _ _ _ roomy_sized) eq_refl ltac:(lia)
    ltac:(rewrite roomy_free; vm_compute; lia)) as (m1 & m2 & H1 & H2 & _ & _ & H3 & _).
  exists m1, m2. split; [exact H1|]. split; [exact H2|exact H3].
Defined.

Lemma allocate_free_roundtrip_witness :
  exists m1, allocate_block 1%nat roomy = Ret 5 m1.
Proof.
  destruct (allocate_free_roundtrip roomy 1%nat roomy_fs ltac:(lia)) as (b & m1 & Hrun & _).
  assert (Hb : b = 5) by (vm_compute in Hrun; congruence). subst b. exists m1. exact Hrun.
Defined.

Lemma free_block_hangs_witness : free_block 1024 100%nat roomy = Hang.
Proof. exact (free_block_hangs roomy 1024 100%nat roomy_fs ltac:(lia)). Defined.

Lemma ospfs_read_past_end_witness :
  ospfs_read flat_copy_to_user 1 200 10 1%nat (Io roomy ∅ 6) = Ret (- EIO) (Io roomy ∅ 6).
Proof.
  exact (ospfs_read_past_end flat_copy_to_user 1 200 10 (Io roomy ∅ 6) 1%nat roomy_fs ltac:(vm_compute; split; congruence)
    ltac:(vm_compute; split; congruence) ltac:(lia) ltac:(lia)).
Defined.
