(* ===== verification/OspfsDir.v ===== *)
(** * OSPFS: directories and links (ospfsmod.c, the directory operations)

    The Linux objects that the callbacks receive appear as what the code reads
    of them: a [struct dentry] as the bytes of its name and its inode number, a
    [struct inode] as the record [linux_inode].  Whether Linux's [new_inode] can
    allocate is a parameter. *)

From S2P Require Import Prelude CMemory OspfsLayout OspfsAlloc OspfsFile.

(** ** Linux inodes *)

Inductive inode_ops := RegOps | DirOps | SymlinkOps.

Record linux_inode := LinuxInode {
  li_ino : Z;
  li_size : Z;
  li_mode : Z;
  li_op : inode_ops;
  li_nlink : Z
}.

Definition S_IFREG : Z := 32768.    (* 0100000 *)
Definition S_IFDIR : Z := 16384.    (* 0040000 *)
Definition S_IFLNK : Z := 40960.    (* 0120000 *)
Definition S_IRWXUGO : Z := 511.    (* 0777: the nine S_I* bits that are or-ed *)

(** [new_inode_ok] says whether [new_inode] returns an inode; an unknown type
    is a kernel panic. *)
Definition ospfs_mk_linux_inode (new_inode_ok : bool) (ino : Z) : prog mem (option linux_inode) :=
  p ← ospfs_inode ino;
  match p with
  | None => mret None
  | Some oi =>
      if negb new_inode_ok then mret None
      else
        size ← load32 (oi_size oi);
        ftype ← load32 (oi_ftype oi);
        mode ← load32 (oi_mode oi);
        nlink ← load32 (oi_nlink oi);
        if ftype =? OSPFS_FTYPE_REG then
          mret (Some (LinuxInode ino size (Z.lor mode S_IFREG) RegOps nlink))
        else if ftype =? OSPFS_FTYPE_DIR then
          mret (Some (LinuxInode ino size (Z.lor mode S_IFDIR) DirOps (u32 (nlink + 1))))
        else if ftype =? OSPFS_FTYPE_SYMLINK then
          mret (Some (LinuxInode ino size (Z.lor S_IRWXUGO S_IFLNK) SymlinkOps nlink))
        else oops
  end.

(** ** Searching a directory *)

(** The test that [ospfs_dir_lookup], [ospfs_unlink] and [find_direntry] make of
    an entry, with its short circuits. *)
Definition entry_matches (od : Z) (name : list Z) : prog mem bool :=
  ino ← load32 (od_ino od);
  if ino =? 0 then mret false
  else
    len ← strlen (od_name od);
    if negb (len =? Z.of_nat (length name)) then mret false
    else memcmp_eq (od_name od) name.

(** C's [strlen] on bytes the kernel holds. *)
Fixpoint kstrlen (name : list Z) : Z :=
  match name with
  | [] => 0
  | c :: name' => if c =? 0 then 0 else 1 + kstrlen name'
  end.

(** The loop over the entries at [off], [off + 128], ...: the offset and the
    address of the first match, or the offset where it stopped. *)
Definition search_direntry (dir_oi : Z) (name : list Z) : prog mem (Z * option Z) :=
  loop (fun off =>
    size ← load32 (oi_size dir_oi);
    if off <? size then
      od ← ospfs_inode_data dir_oi off;
      b ← entry_matches od name;
      if (b : bool) then mret (inr (off, Some od)) else mret (inl (off + OSPFS_DIRENTRY_SIZE))
    else mret (inr (off, None))) 0.

Definition find_direntry (dir_oi : Z) (name : list Z) (namelen : Z) : prog mem (option Z) :=
  let namelen := if namelen <? 0 then kstrlen name else namelen in
  '(_, od) ← search_direntry dir_oi (take (Z.to_nat namelen) name);
  mret od.

(** [inl e] is [ERR_PTR(-e)]; [inr i] is the dentry, with the inode [i] attached
    or negative. *)
Definition ospfs_dir_lookup (new_inode_ok : bool) (dir_ino : Z) (name : list Z)
    : prog mem (Z + option linux_inode) :=
  p ← ospfs_inode dir_ino;
  if OSPFS_MAXNAMELEN <? Z.of_nat (length name) then mret (inl (- ENAMETOOLONG))
  else
    deref p (fun dir_oi =>
      '(_, od) ← search_direntry dir_oi name;
      match od with
      | None => mret (inr None)
      | Some od =>
          ino ← load32 (od_ino od);
          entry_inode ← ospfs_mk_linux_inode new_inode_ok ino;
          match entry_inode with
          | None => mret (inl (- EINVAL))
          | Some i => mret (inr (Some i))
          end
      end).

(** ** Blank entries *)

(** [for(j = 0; j < OSPFS_BLKSIZE / OSPFS_DIRENTRY_SIZE; j++)
       if(ret[j].od_ino == 0) return &ret[j];] *)
Definition scan_entries (ret : Z) : prog mem (option Z) :=
  for_ret (Z.to_nat (OSPFS_BLKSIZE / OSPFS_DIRENTRY_SIZE)) 0 (fun j =>
    ino ← load32 (od_ino (ret + OSPFS_DIRENTRY_SIZE * j));
    mret (if ino =? 0 then Some (ret + OSPFS_DIRENTRY_SIZE * j) else None)).

(** The third loop nest: [cur_block] is threaded through; the code reads
    [oi_indirect], and indexes the indirect block by [i]. *)
Definition scan_indirect2 (dir_oi num_blocks cur_block : Z) : prog mem (Z * option Z) :=
  loop (fun '(i, cur_block) =>
    if (i <? OSPFS_NINDIRECT) && (cur_block <? num_blocks) then
      ind ← load32 (oi_indirect dir_oi);
      r ← loop (fun '(j, cur_block) =>
        if (j <? OSPFS_NINDIRECT) && (cur_block <? num_blocks) then
          b ← load32 (ospfs_block ind + 4 * i);
          e ← scan_entries (ospfs_block b);
          match e with
          | Some od => mret (inr (cur_block, Some od))
          | None => mret (inl (j + 1, cur_block + 1))
          end
        else mret (inr (cur_block, None))) (0, cur_block);
      match r with
      | (cur_block, Some od) => mret (inr (cur_block, Some od))
      | (cur_block, None) => mret (inl (i + 1, cur_block))
      end
    else mret (inr (cur_block, None))) (0, cur_block).

(** [inl e] is an error pointer, [inr od] an entry. *)
Definition create_blank_direntry (dir_oi : Z) : prog mem (Z + Z) :=
  size ← load32 (oi_size dir_oi);
  let num_blocks := ospfs_size2nblocks size in
  r1 ← for_ret (Z.to_nat (Z.min OSPFS_NDIRECT num_blocks)) 0 (fun cur_block =>
         b ← load32 (oi_direct dir_oi cur_block);
         scan_entries (ospfs_block b));
  match r1 with
  | Some od => mret (inr od)
  | None =>
      let cur_block := Z.min OSPFS_NDIRECT num_blocks in
      ind ← load32 (oi_indirect dir_oi);
      let n2 := Z.min OSPFS_NINDIRECT (num_blocks - cur_block) in
      r2 ← for_ret (Z.to_nat n2) 0 (fun i =>
             b ← load32 (ospfs_block ind + 4 * i);
             scan_entries (ospfs_block b));
      match r2 with
      | Some od => mret (inr od)
      | None =>
          '(_, r3) ← scan_indirect2 dir_oi num_blocks (cur_block + n2);
          match r3 with
          | Some od => mret (inr od)
          | None =>
              err_num ← add_block dir_oi;
              if err_num <? 0 then mret (inl err_num)
              else
                size ← load32 (oi_size dir_oi);
                od ← ospfs_inode_data dir_oi (u32 (size - OSPFS_BLKSIZE));
                mret (inr od)
          end
      end
  end.

(** [od_name[...] = name; od_name[len] = '\0'] *)
Definition set_name (od : Z) (name : list Z) : prog mem unit :=
  store_bytes (od_name od) name;;
  store8 (od_name od + Z.of_nat (length name)) 0.

(** ** Links, creation and removal *)

Definition ospfs_link (src_i_ino dir_ino : Z) (name : list Z) : prog mem Z :=
  p ← ospfs_inode dir_ino;
  if OSPFS_MAXNAMELEN <? Z.of_nat (length name) then mret (- ENAMETOOLONG)
  else
    deref p (fun directory =>
      e ← find_direntry directory name (Z.of_nat (length name));
      match e with
      | Some _ => mret (- EEXIST)
      | None =>
          d ← create_blank_direntry directory;
          match d with
          | inl err => mret err
          | inr dest =>
              store32 (od_ino dest) src_i_ino;;
              set_name dest name;;
              q ← ospfs_inode src_i_ino;
              deref q (fun oi =>
                nlink ← load32 (oi_nlink oi);
                store32 (oi_nlink oi) (u32 (nlink + 1));;
                mret 0)
          end
      end).

(** The search for an inode whose link count is 0, from inode 2 on; [init] fills
    it in.  0 when there is none. *)
Definition find_inode (init : Z -> prog mem unit) : prog mem Z :=
  loop (fun j =>
    ninodes ← load32 (os_ninodes ospfs_super);
    if j <? ninodes then
      p ← ospfs_inode j;
      deref p (fun emp_inode =>
        nlink ← load32 (oi_nlink emp_inode);
        if nlink =? 0 then init emp_inode;; mret (inr j)
        else mret (inl (j + 1)))
    else mret (inr 0)) 2.

(** [memset(emp_inode->oi_direct, 0, 10)] clears ten bytes, not ten words. *)
Definition init_regular (mode emp_inode : Z) : prog mem unit :=
  store32 (oi_size emp_inode) 0;;
  store32 (oi_nlink emp_inode) 1;;
  store32 (oi_ftype emp_inode) OSPFS_FTYPE_REG;;
  store32 (oi_mode emp_inode) mode;;
  memsetp (oi_direct emp_inode 0) 0 10;;
  store32 (oi_indirect emp_inode) 0;;
  store32 (oi_indirect2 emp_inode) 0.

(** The dentry's new inode is returned with the code. *)
Definition ospfs_create (new_inode_ok : bool) (dir_ino : Z) (name : list Z) (mode : Z)
    : prog mem (Z * option linux_inode) :=
  p ← ospfs_inode dir_ino;
  if OSPFS_DIRENTRY_SIZE - 5 <? Z.of_nat (length name) then mret (- ENAMETOOLONG, None)
  else
    deref p (fun dir_oi =>
      e ← find_direntry dir_oi name (Z.of_nat (length name));
      match e with
      | Some _ => mret (- EEXIST, None)
      | None =>
          d ← create_blank_direntry dir_oi;
          match d with
          | inl err => mret (err, None)
          | inr od =>
              entry_ino ← find_inode (init_regular mode);
              set_name od name;;
              store32 (od_ino od) entry_ino;;
              i ← ospfs_mk_linux_inode new_inode_ok entry_ino;
              match i with
              | None => mret (- ENOMEM, None)
              | Some i => mret (0, Some i)
              end
          end
      end).

Definition init_symlink (symname : list Z) (emp_inode : Z) : prog mem unit :=
  store32 (oi_size emp_inode) (kstrlen symname);;
  store32 (oi_nlink emp_inode) 1;;
  store32 (oi_ftype emp_inode) OSPFS_FTYPE_SYMLINK;;
  store_bytes (oi_symlink emp_inode) (take (Z.to_nat (kstrlen symname)) symname ++ [0]).

Definition ospfs_symlink (new_inode_ok : bool) (dir_ino : Z) (name symname : list Z)
    : prog mem (Z * option linux_inode) :=
  p ← ospfs_inode dir_ino;
  if (OSPFS_MAXNAMELEN <? Z.of_nat (length name)) || (OSPFS_MAXSYMLINKLEN <? kstrlen symname)
  then mret (- ENAMETOOLONG, None)
  else
    deref p (fun dir_oi =>
      e ← find_direntry dir_oi name (Z.of_nat (length name));
      match e with
      | Some _ => mret (- EEXIST, None)
      | None =>
          d ← create_blank_direntry dir_oi;
          match d with
          | inl err => mret (err, None)
          | inr od =>
              entry_ino ← find_inode (init_symlink symname);
              set_name od name;;
              store32 (od_ino od) entry_ino;;
              i ← ospfs_mk_linux_inode new_inode_ok entry_ino;
              match i with
              | None => mret (- ENOMEM, None)
              | Some i => mret (0, Some i)
              end
          end
      end).

(** [ospfs_unlink]: [ino] is the dentry's inode, [dir_ino] that of its parent.
    When no entry matches and the directory's size is not a multiple of 128 the
    code goes on with the last entry it looked at; an empty one has none. *)
Definition ospfs_unlink (ino dir_ino : Z) (name : list Z) : prog mem Z :=
  q ← ospfs_inode ino;
  p ← ospfs_inode dir_ino;
  deref p (fun dir_oi =>
    '(entry_off, found) ← search_direntry dir_oi name;
    size ← load32 (oi_size dir_oi);
    if entry_off =? size then mret (- ENOENT)
    else
      od ← match found with
           | Some od => mret od
           | None => ospfs_inode_data dir_oi (entry_off - OSPFS_DIRENTRY_SIZE)
           end;
      store32 (od_ino od) 0;;
      deref q (fun oi =>
        nlink ← load32 (oi_nlink oi);
        store32 (oi_nlink oi) (u32 (nlink - 1));;
        nlink' ← load32 (oi_nlink oi);
        ftype ← load32 (oi_ftype oi);
        when ((nlink' <=? 0) && negb (ftype =? OSPFS_FTYPE_SYMLINK)) (_ ← change_size oi 0; mret tt);;
        mret 0)).

(** ** ospfs_notify_change *)

(** What the code reads of a [struct iattr]; [inode_change_ok] and
    [inode_setattr] are Linux's, and their results parameters. *)
Record iattr := Iattr { ia_size : option Z; ia_mode : option Z }.

Definition ospfs_notify_change (change_ok setattr_ok : Z) (ino : Z) (attr : iattr) : prog mem Z :=
  p ← ospfs_inode ino;
  let tail (oi : Z) :=
    match ia_mode attr with
    | Some mode => store32 (oi_mode oi) mode
    | None => mret tt
    end;;
    mret (if change_ok <? 0 then change_ok else setattr_ok) in
  deref p (fun oi =>
    match ia_size attr with
    | Some size =>
        ftype ← load32 (oi_ftype oi);
        if ftype =? OSPFS_FTYPE_DIR then mret (- EPERM)
        else
          retval ← change_size oi (u32 size);
          if retval <? 0 then mret retval else tail oi
    | None => tail oi
    end).

(** ** Reading a directory *)

Definition DT_REG : Z := 8.
Definition DT_DIR : Z := 4.
Definition DT_LNK : Z := 10.

(** One call of the [filldir] callback: name, position, inode number, type. *)
Record dirent := Dirent { de_name : list Z; de_pos : Z; de_ino : Z; de_type : Z }.

(** The state of the loop: [f_pos], [ent], what [filldir] has been given so far;
    [accept e] is the value [filldir] returns for the entry. *)
Section Readdir.
Context (accept : list dirent -> dirent -> Z).

Definition dirent_type (ftype : Z) : option Z :=
  if ftype =? OSPFS_FTYPE_REG then Some DT_REG
  else if ftype =? OSPFS_FTYPE_DIR then Some DT_DIR
  else if ftype =? OSPFS_FTYPE_SYMLINK then Some DT_LNK
  else None.

Definition readdir_loop (dir_oi f_pos ent : Z) (out : list dirent) : prog mem (Z * Z * list dirent) :=
  loop (fun '(f_pos, ent, out) =>
    if f_pos <? 2 then mret (inr (0, f_pos, out)) else
    size ← load32 (oi_size dir_oi);
    if size <=? u32 (ent * OSPFS_DIRENTRY_SIZE) then mret (inr (1, f_pos, out))
    else
      od ← ospfs_inode_data dir_oi (u32 (ent * OSPFS_DIRENTRY_SIZE));
      ino ← load32 (od_ino od);
      p ← ospfs_inode ino;
      if ino =? 0 then mret (inl (u32 (f_pos + 1), ent + 1, out))
      else
        deref p (fun entry_oi =>
          ftype ← load32 (oi_ftype entry_oi);
          match dirent_type ftype with
          | None => mret (inr (-1, f_pos, out))
          | Some t =>
              len ← strlen (od_name od);
              name ← load_bytes (od_name od) len;
              let e := Dirent name f_pos ino t in
              if 0 <=? accept out e then mret (inl (u32 (f_pos + 1), ent + 1, out ++ [e]))
              else mret (inr (0, f_pos, out ++ [e]))
          end)) (f_pos, ent, out).

(** The result is the return value, the new file position and the calls made. *)
Definition ospfs_dir_readdir (dir_ino parent_ino f_pos0 : Z) : prog mem (Z * Z * list dirent) :=
  p ← ospfs_inode dir_ino;
  let f_pos := u32 f_pos0 in
  let ent := f_pos in
  let dot := Dirent [46] f_pos dir_ino DT_DIR in
  let '(ok, f_pos, out) :=
    if f_pos =? 0 then
      let ok := accept [] dot in (ok, if 0 <=? ok then f_pos + 1 else f_pos, [dot])
    else (0, f_pos, []) in
  let dotdot := Dirent [46; 46] f_pos parent_ino DT_DIR in
  let '(ok, f_pos, out) :=
    if (0 <=? ok) && (f_pos =? 1) then
      let ok := accept out dotdot in (ok, if 0 <=? ok then f_pos + 1 else f_pos, out ++ [dotdot])
    else (ok, f_pos, out) in
  if (0 <=? ok) && (2 <=? f_pos) then deref p (fun dir_oi => readdir_loop dir_oi f_pos ent out)
  else mret (0, f_pos, out).
End Readdir.

(** ** ospfs_follow_link *)

(** [strchr] and the prefix test on the link text. *)
Fixpoint strchr (s : list Z) (c : Z) : option nat :=
  match s with
  | [] => None
  | x :: s' => if x =? c then Some 0%nat else option_map S (strchr s' c)
  end.

Definition root_text : list Z := [114; 111; 111; 116].

(** [question] and [colon] of a conditional link *)
Definition link_marks (text : list Z) : option (nat * nat) :=
  match strchr text 63, strchr text 58 with
  | Some question, Some colon =>
      if (question <? colon)%nat && bool_decide (take 4 text = root_text) then Some (question, colon) else None
  | _, _ => None
  end.

(** The link text is the C string in the inode; the result is what is passed
    to [nd_set_link].  [kmalloc_ok] says whether the buffer for the half of a
    conditional link is granted; a null pointer is not tested for. *)
Definition ospfs_follow_link (kmalloc_ok : bool) (uid ino : Z) : prog mem (list Z) :=
  p ← ospfs_inode ino;
  deref p (fun oi =>
    len ← strlen (oi_symlink oi);
    text ← load_bytes (oi_symlink oi) len;
    match link_marks text with
    | Some (question, colon) =>
        deref (if kmalloc_ok then Some tt else None) (fun _ =>
        if uid =? 0 then mret (take (colon - question - 1) (drop (question + 1) text))
        else mret (drop (colon + 1) text))
    | None => mret text
    end).
