(* ===== verification/OspfsDirSpec.v ===== *)
(** * OSPFS: directories are correct

    A directory is abstractly the sequence of its entries, each an inode number
    and a name, the number 0 marking a blank entry.  The searches find the first
    match, creation fills the first blank entry, or the first entry of a new
    block, and removal blanks the entry that matched. *)

From S2P Require Import Prelude CMemory OspfsLayout OspfsAlloc OspfsFile OspfsTree OspfsWork OspfsGrow OspfsShrink OspfsSize OspfsIo OspfsDir.

(** ** Names *)

(** The C string at the start of a run of bytes. *)
Fixpoint cname (l : list Z) : list Z :=
  match l with
  | [] => []
  | c :: l' => if c =? 0 then [] else c :: cname l'
  end.

Lemma cname_cstring m a n : 0 ∈ ld_bytes m a n ->
  cstring m a (cname (ld_bytes m a n)) /\ (length (cname (ld_bytes m a n)) < n)%nat.
Proof.
  revert a. induction n as [|n IH]; intros a; [by intros ?%not_elem_of_nil|].
  rewrite ld_bytes_S. cbn [cname]. destruct (Z.eqb_spec (ld8 m a) 0) as [H0|H0].
  - intros _. split; [|cbn; lia]. split; [done|]. cbn. rewrite Z.add_0_r. done.
  - intros [Hc|Hin]%elem_of_cons; [by destruct H0|].
    destruct (IH (a + 1) Hin) as [(H1 & H2 & H3) Hlen]. split; [|cbn; lia].
    split; [|split; [|by constructor]].
    + cbn [length]. by rewrite ld_bytes_S, H1.
    + cbn [length]. by replace (a + Z.of_nat (S (length (cname (ld_bytes m (a + 1) n))))) with
        (a + 1 + Z.of_nat (length (cname (ld_bytes m (a + 1) n)))) by lia.
Qed.

(** A name that fits an entry: no zero byte, at most 123 bytes. *)
Definition name_ok (name : list Z) : Prop :=
  Forall (fun c => 0 < c < 256) name /\ (length name <= 123)%nat.

Lemma cname_stored name l : name_ok name -> cname (name ++ 0 :: l) = name.
Proof.
  intros [Hn _]. induction Hn as [|c name Hc Hn IH]; cbn; [done|].
  destruct (Z.eqb_spec c 0); [lia|]. by rewrite IH.
Qed.

(** ** Entries *)

(** The address of entry [e] of a directory. *)
Definition dirent_at (m : mem) (oi e : Z) : Z := 1024 * blk m oi (RData (e / 8)) + 128 * (e mod 8).

Definition entry_ino (m : mem) (oi e : Z) : Z := ld32 m (od_ino (dirent_at m oi e)).
Definition entry_name (m : mem) (oi e : Z) : list Z := cname (ld_bytes m (od_name (dirent_at m oi e)) 124).
Definition entry (m : mem) (oi e : Z) : Z * list Z := (entry_ino m oi e, entry_name m oi e).

(** A directory of [n] blocks: its size is whole blocks, and the name of every
    entry in use ends within the entry. *)
Record dir_ok (m : mem) (oi n : Z) : Prop := DirOk {
  dr_sized : sized m oi n;
  dr_size : ld32 m (oi_size oi) = 1024 * n;
  dr_name : forall e, 0 <= e < 8 * n -> entry_ino m oi e <> 0 ->
    0 ∈ ld_bytes m (od_name (dirent_at m oi e)) 124
}.

Definition matches (name : list Z) (e : Z * list Z) : Prop := e.1 <> 0 /\ e.2 = name.

#[export] Instance matches_dec name e : Decision (matches name e).
Proof. unfold matches. apply _. Defined.

(** The bytes of an entry. *)
Definition entry_area (m : mem) (oi e : Z) : Z -> Prop :=
  within (dirent_at m oi e) (dirent_at m oi e + 128).

Lemma entry_in_block m oi e a : entry_area m oi e a -> in_block (blk m oi (RData (e / 8))) a.
Proof. unfold entry_area, dirent_at, in_block, within. pose proof (Z.mod_pos_bound e 8). lia. Qed.

Lemma entry_data_area m oi n e a : 0 <= e < 8 * n -> entry_area m oi e a -> data_area m oi n a.
Proof. intros He Ha. exists (e / 8). split; [divlia|by apply entry_in_block]. Qed.

Lemma entry_areas_apart lo m oi n e e' a : tree_in lo m oi (live n) ->
  0 <= e < 8 * n -> 0 <= e' < 8 * n -> e <> e' -> entry_area m oi e a -> ~ entry_area m oi e' a.
Proof.
  intros T He He' Hne Ha Ha'.
  pose proof (entry_in_block _ _ _ _ Ha) as Hb. pose proof (entry_in_block _ _ _ _ Ha') as Hb'.
  assert (Hq : blk m oi (RData (e / 8)) = blk m oi (RData (e' / 8))) by (unfold in_block, within in *; lia).
  unfold entry_area, dirent_at, within in *. rewrite Hq in *.
  apply (tr_inj _ _ _ T) in Hq; [|cbn; divlia|cbn; divlia]. injection Hq as Hq.
  assert (He8 : e mod 8 = e' mod 8) by lia. apply Hne. divlia.
Qed.

Lemma entries_disjoint m oi n e e' a : sized m oi n -> 0 <= e < 8 * n -> 0 <= e' < 8 * n -> e <> e' ->
  entry_area m oi e a -> ~ entry_area m oi e' a.
Proof.
  intros S He He' Hne. destruct (sz_file _ _ _ S) as [_ T]. by apply (entry_areas_apart (data_start m) m oi n e e' a T).
Qed.

(** An entry is read from its own bytes. *)
Lemma entry_frame P m m' oi e : changes P m m' -> blk m' oi (RData (e / 8)) = blk m oi (RData (e / 8)) ->
  (forall a, entry_area m oi e a -> ~ P a) ->
  dirent_at m' oi e = dirent_at m oi e /\ entry m' oi e = entry m oi e /\
  ld_bytes m' (od_name (dirent_at m' oi e)) 124 = ld_bytes m (od_name (dirent_at m oi e)) 124.
Proof.
  intros Hch Hb HP. assert (Hd : dirent_at m' oi e = dirent_at m oi e) by (unfold dirent_at; by rewrite Hb).
  assert (Hn : ld_bytes m' (od_name (dirent_at m oi e)) 124 = ld_bytes m (od_name (dirent_at m oi e)) 124).
  { apply ld_bytes_ext. intros a Ha. apply Hch. intros Hp. apply (HP a); [|done].
    unfold entry_area, od_name, within in *. lia. }
  split; [done|]. rewrite Hd. split; [|done]. unfold entry, entry_ino, entry_name. rewrite Hd, Hn. f_equal.
  apply (changes_ld32 _ _ _ _ Hch). intros a Ha Hp. apply (HP a); [|done].
  unfold entry_area, od_ino, within in *. lia.
Qed.

(** ** The searches *)

Lemma dir_data m oi n off fu (Q : Z -> mem -> Prop) : dir_ok m oi n -> 0 <= off < 128 * (8 * n) -> off mod 128 = 0 ->
  Q (dirent_at m oi (off / 128)) m -> wp (ospfs_inode_data oi off) fu m Q.
Proof.
  intros D Hoff Hal HQ. unfold ospfs_inode_data. apply wp_bind.
  apply (wp_ospfs_inode_blockno oi n); [apply D|rewrite (dr_size _ _ _ D); lia|]. wp_step.
  destruct (sz_file _ _ _ (dr_sized _ _ _ D)) as [Hn T].
  rewrite (block_of m oi _ T) by (cbn; divlia). unfold dirent_at in HQ. unfold OSPFS_BLKSIZE.
  replace (off / 1024) with (off / 128 / 8) by (rewrite Z.div_div by lia; done).
  replace (off mod 1024) with (128 * ((off / 128) mod 8)) by (clear - Hal; divlia). done.
Qed.

Lemma wp_entry_matches m oi n e name fu (Q : bool -> mem -> Prop) :
  dir_ok m oi n -> 0 <= e < 8 * n -> (124 < fu)%nat ->
  Q (bool_decide (matches name (entry m oi e))) m ->
  wp (entry_matches (dirent_at m oi e) name) fu m Q.
Proof.
  intros D He Hfu HQ. unfold entry_matches. do 2 wp_step. unfold matches, entry in HQ. cbn [fst snd] in HQ.
  change (ld32 m (od_ino (dirent_at m oi e))) with (entry_ino m oi e).
  destruct (Z.eqb_spec (entry_ino m oi e) 0) as [H0|H0].
  - wp_step. by rewrite bool_decide_false in HQ by (intros [? _]; done).
  - destruct (cname_cstring m _ _ (dr_name _ _ _ D e He H0)) as [Hc Hlen]. fold (entry_name m oi e) in Hc, Hlen.
    apply wp_bind, (wp_strlen _ (entry_name m oi e)); [done|lia|].
    destruct (Z.eqb_spec (Z.of_nat (length (entry_name m oi e))) (Z.of_nat (length name))) as [Hl|Hl]; cbn [negb].
    + wp_step. replace (length name) with (length (entry_name m oi e)) by lia. rewrite (proj1 Hc).
      erewrite bool_decide_ext; [exact HQ|]. split; [done|by intros [_ ?]].
    + wp_step. rewrite bool_decide_false in HQ; [done|]. intros [_ He']. by rewrite He' in Hl.
Qed.

(** [search_direntry] stops at the first entry that matches. *)
Lemma wp_search m oi n name fu (Q : Z * option Z -> mem -> Prop) :
  dir_ok m oi n -> 8200 <= Z.of_nat fu ->
  (forall e, 0 <= e < 8 * n -> matches name (entry m oi e) ->
     (forall e', 0 <= e' < e -> ~ matches name (entry m oi e')) -> Q (128 * e, Some (dirent_at m oi e)) m) ->
  ((forall e, 0 <= e < 8 * n -> ~ matches name (entry m oi e)) -> Q (1024 * n, None) m) ->
  wp (search_direntry oi name) fu m Q.
Proof.
  intros D Hfu Hfound Hnone. unfold search_direntry.
  pose proof (n_range _ _ _ (sz_file _ _ _ (dr_sized _ _ _ D))) as Hn.
  apply (wp_loop (fun off t => t = m /\ exists e, off = 128 * e /\ 0 <= e <= 8 * n /\
                    forall e', 0 <= e' < e -> ~ matches name (entry m oi e'))
                 (fun off => Z.to_nat (8 * n - off / 128))).
  - split; [done|]. exists 0. split; [done|]. split; [lia|]. lia.
  - change (0 / 128) with 0. lia.
  - intros off t (-> & e & -> & He & Hlow). do 2 wp_step. rewrite (dr_size _ _ _ D).
    destruct (Z.ltb_spec (128 * e) (1024 * n)) as [Hlt|Hge].
    + apply wp_bind, (dir_data m oi n); [done|lia|by rewrite Z.mul_comm, Z.mod_mul|].
      replace (128 * e / 128) with e by (rewrite Z.mul_comm, Z.div_mul; lia).
      apply wp_bind, (wp_entry_matches m oi n); [done|lia|lia|].
      case_bool_decide as Hm; wp_step; [apply Hfound; [lia|done|done]|].
      split.
      * split; [done|]. exists (e + 1). unfold OSPFS_DIRENTRY_SIZE. split; [lia|]. split; [lia|].
        intros e' He'. destruct (decide (e' = e)) as [->|]; [done|]. apply Hlow. lia.
      * unfold OSPFS_DIRENTRY_SIZE. replace ((128 * e + 128) / 128) with (e + 1) by divlia.
        replace (128 * e / 128) with e by divlia. lia.
    + wp_step. replace (128 * e) with (1024 * n) by lia. apply Hnone. intros e' He'. apply Hlow. lia.
Qed.

Lemma wp_find_direntry m oi n name fu (Q : option Z -> mem -> Prop) :
  dir_ok m oi n -> 8200 <= Z.of_nat fu ->
  (forall e, 0 <= e < 8 * n -> matches name (entry m oi e) ->
     (forall e', 0 <= e' < e -> ~ matches name (entry m oi e')) -> Q (Some (dirent_at m oi e)) m) ->
  ((forall e, 0 <= e < 8 * n -> ~ matches name (entry m oi e)) -> Q None m) ->
  wp (find_direntry oi name (Z.of_nat (length name))) fu m Q.
Proof.
  intros D Hfu Hfound Hnone. unfold find_direntry.
  rewrite (proj2 (Z.ltb_ge _ 0)) by lia. rewrite Nat2Z.id, firstn_all.
  apply wp_bind, (wp_search m oi n); [done|done| |].
  - intros e He Hm Hlow. wp_step. by apply Hfound.
  - intros Hno. wp_step. by apply Hnone.
Qed.

(** ** Blank entries *)

Lemma wp_scan_entries m a fu (Q : option Z -> mem -> Prop) :
  (forall j, 0 <= j < 8 -> ld32 m (a + 128 * j) = 0 -> (forall j', 0 <= j' < j -> ld32 m (a + 128 * j') <> 0) ->
     Q (Some (a + 128 * j)) m) ->
  ((forall j, 0 <= j < 8 -> ld32 m (a + 128 * j) <> 0) -> Q None m) ->
  wp (scan_entries a) fu m Q.
Proof.
  intros Hfound Hnone. unfold scan_entries. change (Z.to_nat (OSPFS_BLKSIZE / OSPFS_DIRENTRY_SIZE)) with 8%nat.
  apply (wp_for_ret (fun j t => t = m /\ forall j', 0 <= j' < j -> ld32 m (a + 128 * j') <> 0)).
  - split; [done|lia].
  - intros j t Hj [-> Hlow]. do 3 wp_step. unfold od_ino, OSPFS_DIRENTRY_SIZE.
    destruct (Z.eqb_spec (ld32 m (a + 128 * j)) 0) as [H0|H0].
    + apply Hfound; [lia|done|done].
    + split; [done|]. intros j' Hj'. destruct (decide (j' = j)) as [->|]; [done|]. apply Hlow. lia.
  - intros t [-> Hall]. apply Hnone. intros j Hj. apply Hall. lia.
Qed.

(** The same scan, in the [i]th block of a directory. *)
Lemma wp_scan_dir_block m oi n i fu (Q : option Z -> mem -> Prop) :
  dir_ok m oi n -> 0 <= i < n ->
  (forall e, 8 * i <= e < 8 * i + 8 -> entry_ino m oi e = 0 ->
     (forall e', 8 * i <= e' < e -> entry_ino m oi e' <> 0) -> Q (Some (dirent_at m oi e)) m) ->
  ((forall e, 8 * i <= e < 8 * i + 8 -> entry_ino m oi e <> 0) -> Q None m) ->
  wp (scan_entries (ospfs_block (blk m oi (RData i)))) fu m Q.
Proof.
  intros D Hi Hfound Hnone. destruct (sz_file _ _ _ (dr_sized _ _ _ D)) as [Hn T].
  rewrite (block_of m oi _ T) by (cbn; lia).
  assert (Hat : forall j, 0 <= j < 8 -> dirent_at m oi (8 * i + j) = 1024 * blk m oi (RData i) + 128 * j).
  { intros j Hj. unfold dirent_at. replace ((8 * i + j) / 8) with i by divlia.
    by replace ((8 * i + j) mod 8) with j by divlia. }
  apply wp_scan_entries.
  - intros j Hj H0 Hlow. rewrite <- Hat in * by done. apply Hfound; [lia|done|].
    intros e' He'. replace e' with (8 * i + (e' - 8 * i)) by lia. unfold entry_ino, od_ino.
    rewrite Hat by lia. apply Hlow. lia.
  - intros Hall. apply Hnone. intros e He. replace e with (8 * i + (e - 8 * i)) by lia.
    unfold entry_ino, od_ino. rewrite Hat by lia. apply Hall. lia.
Qed.

(** [create_blank_direntry] for directories that need no doubly-indirect block:
    the first blank entry, or the first entry of a new block. *)
Lemma wp_create_blank m oi n fu (Q : Z + Z -> mem -> Prop) :
  fs_ok m -> dir_ok m oi n -> n <= 266 -> (0 < fu)%nat ->
  (forall e, 0 <= e < 8 * n -> entry_ino m oi e = 0 -> (forall e', 0 <= e' < e -> entry_ino m oi e' <> 0) ->
     Q (inr (dirent_at m oi e)) m) ->
  ((forall e, 0 <= e < 8 * n -> entry_ino m oi e <> 0) ->
     ((need n <= length (free_list m))%nat -> forall m', grown m oi n m' ->
        Q (inr (1024 * blk m' oi (RData n))) m') /\
     ((length (free_list m) < need n)%nat -> forall m', grow_failed m oi n m' -> Q (inl (- ENOSPC)) m')) ->
  wp (create_blank_direntry oi) fu m Q.
Proof.
  intros F D Hn Hfu Hfound Hfull. pose proof (dr_sized _ _ _ D) as S. pose proof (proj1 (sz_file _ _ _ S)) as Hn0.
  unfold create_blank_direntry. do 2 wp_step. rewrite (sized_nblocks _ _ _ S). ospfs_consts.
  apply wp_bind. apply (wp_for_ret (fun i t => t = m /\ forall e, 0 <= e < 8 * i -> entry_ino m oi e <> 0)).
  { split; [done|lia]. }
  { intros i t Hi [-> Hlow]. do 2 wp_step. rewrite Z2Nat.id in Hi by lia.
    replace (ld32 m (oi_direct oi i)) with (blk m oi (RData i)) by (unfold blk; by rewrite slot_direct by lia).
    apply (wp_scan_dir_block m oi n); [done|lia| |].
    - intros e He H0 Hlow'. wp_step. apply Hfound; [lia|done|]. intros e' He'.
      destruct (decide (e' < 8 * i)); [apply Hlow; lia|apply Hlow'; lia].
    - intros Hall. split; [done|]. intros e He.
      destruct (decide (e < 8 * i)); [apply Hlow; lia|apply Hall; lia]. }
  intros t [-> Hlow1]. rewrite Z2Nat.id in Hlow1 by lia. do 2 wp_step. apply wp_bind.
  apply (wp_for_ret (fun i t => t = m /\ forall e, 0 <= e < 8 * (Z.min 10 n + i) -> entry_ino m oi e <> 0)).
  { split; [done|]. intros e He. apply Hlow1. lia. }
  { intros i t Hi [-> Hlow]. do 2 wp_step. rewrite Z2Nat.id in Hi by lia.
    assert (Hi10 : Z.min 10 n = 10) by lia. rewrite Hi10 in *.
    replace (ld32 m (ospfs_block (ld32 m (oi_indirect oi)) + 4 * i)) with (blk m oi (RData (10 + i))).
    2: { unfold blk at 1. rewrite slot_indirect by lia. by replace (10 + i - 10) with i by lia. }
    apply (wp_scan_dir_block m oi n); [done|lia| |].
    - intros e He H0 Hlow'. wp_step. apply Hfound; [lia|done|]. intros e' He'.
      destruct (decide (e' < 8 * (10 + i))); [apply Hlow; lia|apply Hlow'; lia].
    - intros Hall. split; [done|]. intros e He.
      destruct (decide (e < 8 * (10 + i))); [apply Hlow; lia|apply Hall; lia]. }
  intros t [-> Hlow2]. rewrite Z2Nat.id in Hlow2 by lia.
  assert (Hall : forall e, 0 <= e < 8 * n -> entry_ino m oi e <> 0).
  { intros e He. apply Hlow2. lia. }
  replace (Z.min 10 n + Z.min 256 (n - Z.min 10 n)) with n by lia. apply wp_bind.
  apply (wp_loop (fun s t => s = (0, n) /\ t = m) (fun _ => 0%nat)); [done|lia|].
  intros s t [-> ->]. rewrite (proj2 (Z.ltb_ge n n)), andb_false_r by lia. wp_step.
  apply wp_bind. destruct (Hfull Hall) as [Hok Hko].
  apply (wp_add_block oi n); [done|apply S|by apply sized_nblocks|done| |].
  - intros Hneed m' G. cbn [Z.ltb Z.compare]. do 2 wp_step. rewrite (gr_size _ _ _ _ G).
    pose proof (n_range _ _ _ (gr_file _ _ _ _ G)) as Hr. pose proof (sz_size _ _ _ S).
    rewrite u32_small by lia. replace ((n + 1) * 1024 - 1024) with (1024 * n) by lia.
    assert (S' : sized m' oi (n + 1)).
    { split; [apply G|rewrite (gr_size _ _ _ _ G); lia|]. unfold oi_ftype.
      rewrite (head_kept m oi n m'); [apply S|done|apply S|apply G|lia|lia]. }
    apply wp_bind. unfold ospfs_inode_data. apply wp_bind.
    apply (wp_ospfs_inode_blockno oi (n + 1)); [done|rewrite (gr_size _ _ _ _ G); lia|].
    do 2 wp_step. replace (1024 * n / 1024) with n by divlia.
    rewrite (block_of m' oi _ (proj2 (gr_file _ _ _ _ G))) by (cbn; lia). unfold OSPFS_BLKSIZE.
    replace (1024 * n mod 1024) with 0 by divlia. rewrite Z.add_0_r. by apply Hok.
  - intros Hneed m' G. change (- ENOSPC <? 0) with true. cbv iota. wp_step. by apply Hko.
Qed.

(** ** Changing a directory *)

(** Writing an entry: the others are unchanged. *)
Lemma entry_write m oi n e m' : fs_ok m -> dir_ok m oi n -> 0 <= e < 8 * n ->
  changes (entry_area m oi e) m m' ->
  (entry_ino m' oi e <> 0 -> 0 ∈ ld_bytes m' (od_name (dirent_at m' oi e)) 124) ->
  fs_ok m' /\ dir_ok m' oi n /\ free_list m' = free_list m /\
  (forall r, live n r -> blk m' oi r = blk m oi r) /\ dirent_at m' oi e = dirent_at m oi e /\
  ld32 m' (os_ninodes ospfs_super) = ld32 m (os_ninodes ospfs_super) /\
  (forall e', 0 <= e' < 8 * n -> e' <> e -> entry m' oi e' = entry m oi e').
Proof.
  intros F D He Hch Hnul. pose proof (dr_sized _ _ _ D) as S.
  destruct (data_write m oi n m' F S) as (F' & S' & Hfl & Hbl & Hsz & Hni).
  { eapply changes_weaken; [done|]. intros a Ha. by eapply entry_data_area. }
  assert (Hfr : forall e', 0 <= e' < 8 * n -> e' <> e ->
    dirent_at m' oi e' = dirent_at m oi e' /\ entry m' oi e' = entry m oi e' /\
    ld_bytes m' (od_name (dirent_at m' oi e')) 124 = ld_bytes m (od_name (dirent_at m oi e')) 124).
  { intros e' He' Hne. apply (entry_frame _ _ _ _ _ Hch); [apply Hbl; cbn; divlia|].
    intros a Ha. by apply (entries_disjoint m oi n e' e). }
  split; [done|]. split; [|split; [done|split; [done|split; [|split; [done|]]]]].
  - split; [done|rewrite Hsz; apply D|]. intros e' He' H0. destruct (decide (e' = e)) as [->|Hne]; [by apply Hnul|].
    destruct (Hfr e' He' Hne) as (_ & Hent & Hb). rewrite Hb. apply (dr_name _ _ _ D); [done|].
    unfold entry in Hent. congruence.
  - unfold dirent_at. rewrite Hbl; [done|cbn; divlia].
  - intros e' He' Hne. by apply Hfr.
Qed.

(** Writing an inode other than the directory's own. *)
Lemma inode_write m oi n oj m' : fs_ok m -> dir_ok m oi n -> 3072 <= oj -> oj + 64 <= 1024 * data_start m ->
  oj + 64 <= oi \/ oi + 64 <= oj -> changes (within oj (oj + 64)) m m' ->
  fs_ok m' /\ dir_ok m' oi n /\ free_list m' = free_list m /\
  (forall r, live n r -> blk m' oi r = blk m oi r) /\
  ld32 m' (os_ninodes ospfs_super) = ld32 m (os_ninodes ospfs_super) /\
  (forall e, 0 <= e < 8 * n -> dirent_at m' oi e = dirent_at m oi e /\ entry m' oi e = entry m oi e).
Proof.
  intros F D Hlo Hhi Hne Hch. pose proof (dr_sized _ _ _ D) as S. destruct (sz_file _ _ _ S) as [Hn T].
  destruct (tr_inode _ _ _ T) as [Hoi1 Hoi2].
  assert (Hsup : forall a, super_area a -> ~ within oj (oj + 64) a) by (unfold super_area, within; lia).
  assert (Hfl : free_list m' = free_list m).
  { apply (free_list_frame _ _ _ Hch). unfold bitmap_area, within. lia. }
  destruct (tree_frame m oi _ T _ m' Hch Hsup) as [T' Hkeep].
  { intros a [Ha|(q & Hq & _ & Ha)] Hw.
    - unfold inode_slots, within in *. lia.
    - destruct (tr_used _ _ _ T q Hq) as [? _]. unfold in_block, within in *. lia. }
  { intros r Hr. rewrite Hfl. by apply (tr_used _ _ _ T). }
  assert (Hw : forall x, oi <= x -> x + 4 <= oi + 64 -> ld32 m' x = ld32 m x).
  { intros x H1 H2. apply (changes_ld32 _ _ _ _ Hch). unfold within. lia. }
  assert (Hbl : forall r, live n r -> blk m' oi r = blk m oi r).
  { intros r Hr. by apply Hkeep, (attachable_member m oi _ T). }
  assert (Hent : forall e, 0 <= e < 8 * n -> dirent_at m' oi e = dirent_at m oi e /\ entry m' oi e = entry m oi e /\
    ld_bytes m' (od_name (dirent_at m' oi e)) 124 = ld_bytes m (od_name (dirent_at m oi e)) 124).
  { intros e He. apply (entry_frame _ _ _ _ _ Hch); [apply Hbl; cbn; divlia|]. intros a Ha Hwa.
    apply entry_in_block in Ha. assert (Hl : live n (RData (e / 8))) by (cbn; divlia).
    destruct (tr_used _ _ _ T _ Hl) as [? _]. unfold in_block, within in *. lia. }
  split; [|split; [|split; [done|split; [done|split; [by eapply ninodes_kept|]]]]].
  - eapply fs_ok_frame; [done|done|done|]. rewrite Hfl. apply F.
  - split; [split; [by split| |]| |].
    + rewrite Hw by (unfold oi_size; lia). apply S.
    + rewrite Hw by (unfold oi_ftype; lia). apply S.
    + rewrite Hw by (unfold oi_size; lia). apply D.
    + intros e He H0. destruct (Hent e He) as (_ & He2 & Hb). rewrite Hb. apply (dr_name _ _ _ D); [done|].
      unfold entry in He2. congruence.
  - intros e He. destruct (Hent e He) as (? & ? & _). done.
Qed.

(** ** Blank entries and new entries *)

(** A directory in which entry [e0] is blank; [n'] is [n], or one more when a
    block was added. *)
Record blanked (m : mem) (oi n : Z) (m1 : mem) (n' e0 : Z) : Prop := Blanked {
  bl_fs : fs_ok m1;
  bl_dir : dir_ok m1 oi n';
  bl_blocks : n' = n \/ (n' = n + 1 /\ forall e, 0 <= e < 8 * n -> entry_ino m oi e <> 0);
  bl_range : 0 <= e0 < 8 * n';
  bl_blank : entry_ino m1 oi e0 = 0;
  bl_old : forall e, 0 <= e < 8 * n -> entry m1 oi e = entry m oi e;
  bl_new : forall e, 8 * n <= e < 8 * n' -> entry m1 oi e = (0, []);
  bl_changes : changes (grow_area m oi (live n)) m m1
}.

Lemma zeroed_entry m oi e : zeroed m (blk m oi (RData (e / 8))) -> entry m oi e = (0, []).
Proof.
  intros Hz. assert (Hb : forall a, entry_area m oi e a -> ld8 m a = 0).
  { intros a Ha. by apply Hz, entry_in_block. }
  unfold entry, entry_ino, entry_name. f_equal.
  - unfold ld32. rewrite !Hb; [done|..]; unfold entry_area, od_ino, within; lia.
  - change 124%nat with (S 123). rewrite ld_bytes_S. rewrite Hb; [done|].
    unfold entry_area, od_name, within. lia.
Qed.

Lemma grown_dir m oi n m' : fs_ok m -> dir_ok m oi n -> grown m oi n m' ->
  dir_ok m' oi (n + 1) /\ (forall e, 0 <= e < 8 * n -> entry m' oi e = entry m oi e) /\
  (forall e, 8 * n <= e < 8 * (n + 1) -> entry m' oi e = (0, [])).
Proof.
  intros F D G. pose proof (dr_sized _ _ _ D) as S. pose proof (proj1 (sz_file _ _ _ S)) as Hn.
  assert (Hold : forall e, 0 <= e < 8 * n ->
    dirent_at m' oi e = dirent_at m oi e /\ entry m' oi e = entry m oi e /\
    ld_bytes m' (od_name (dirent_at m' oi e)) 124 = ld_bytes m (od_name (dirent_at m oi e)) 124).
  { intros e He. apply (entry_frame _ _ _ _ _ (gr_changes _ _ _ _ G)).
    - apply G. cbn. divlia.
    - intros a Ha%entry_in_block. apply (data_outside_grow m oi n (e / 8)); [done|apply S|divlia|done]. }
  assert (Hnew : forall e, 8 * n <= e < 8 * (n + 1) -> entry m' oi e = (0, [])).
  { intros e He. apply zeroed_entry. replace (e / 8) with n by divlia. apply G. }
  split; [|split; [intros e He; by apply Hold|done]]. split.
  - split; [apply G|rewrite (gr_size _ _ _ _ G); lia|]. unfold oi_ftype.
    rewrite (head_kept m oi n m'); [apply S|done|apply S|apply G|lia|lia].
  - rewrite (gr_size _ _ _ _ G). lia.
  - intros e He H0. destruct (decide (e < 8 * n)) as [Hlt|Hge].
    + destruct (Hold e ltac:(lia)) as (_ & He2 & Hb). rewrite Hb. apply (dr_name _ _ _ D); [lia|].
      unfold entry in He2. congruence.
    + specialize (Hnew e ltac:(lia)). unfold entry in Hnew. congruence.
Qed.

(** [create_blank_direntry] in these terms. *)
Lemma wp_blank m oi n fu (Q : Z + Z -> mem -> Prop) :
  fs_ok m -> dir_ok m oi n -> n <= 266 -> (0 < fu)%nat ->
  (forall m1 n' e0, blanked m oi n m1 n' e0 -> Q (inr (dirent_at m1 oi e0)) m1) ->
  ((forall e, 0 <= e < 8 * n -> entry_ino m oi e <> 0) -> (length (free_list m) < need n)%nat ->
     forall m', grow_failed m oi n m' -> Q (inl (- ENOSPC)) m') ->
  wp (create_blank_direntry oi) fu m Q.
Proof.
  intros F D Hn Hfu HQ Hko. pose proof (proj1 (sz_file _ _ _ (dr_sized _ _ _ D))) as Hn0.
  apply (wp_create_blank m oi n); [done|done|done|done| |].
  - intros e He H0 _. apply (HQ m n e). split; try done; [by left|lia].
  - intros Hall. split; [|by apply Hko]. intros _ m' G. destruct (grown_dir m oi n m' F D G) as (D' & Hold & Hnew).
    replace (1024 * blk m' oi (RData n)) with (dirent_at m' oi (8 * n)).
    2: { unfold dirent_at. replace (8 * n / 8) with n by divlia. replace (8 * n mod 8) with 0 by divlia. lia. }
    apply (HQ m' (n + 1) (8 * n)). split; try done; [apply G|by right|lia| |apply G].
    specialize (Hnew (8 * n) ltac:(lia)). unfold entry in Hnew. congruence.
Qed.

(** The directory after a new entry was made: the entry is in a place that was
    blank, or in a new block, and the others are as before. *)
Record entered (m : mem) (oi n ino : Z) (name : list Z) (m' : mem) (n' e0 : Z) : Prop := Entered {
  en_fs : fs_ok m';
  en_dir : dir_ok m' oi n';
  en_blocks : n' = n \/ (n' = n + 1 /\ forall e, 0 <= e < 8 * n -> entry_ino m oi e <> 0);
  en_range : 0 <= e0 < 8 * n';
  en_free : e0 < 8 * n -> entry_ino m oi e0 = 0;
  en_entry : entry m' oi e0 = (ino, name);
  en_other : forall e, 0 <= e < 8 * n' -> e <> e0 ->
    entry m' oi e = if e <? 8 * n then entry m oi e else (0, [])
}.

(** What an entry at [a] holds once its name and inode number were stored; the
    callbacks store the two in either order. *)
Record entry_stored (m : mem) (a ino : Z) (name : list Z) (m' : mem) : Prop := EntryStored {
  es_changes : changes (within a (a + 128)) m m';
  es_ino : ld32 m' (od_ino a) = ino;
  es_name : cname (ld_bytes m' (od_name a) 124) = name;
  es_nul : 0 ∈ ld_bytes m' (od_name a) 124
}.

Lemma stored_name m a name : name_ok name ->
  let m' := st8 (st_bytes m (od_name a) name) (od_name a + Z.of_nat (length name)) 0 in
  changes (within (a + 4) (a + 128)) m m' /\
  exists l, ld_bytes m' (od_name a) 124 = name ++ 0 :: l.
Proof.
  intros [Hn Hlen] m'. split.
  - unfold m'. eapply changes_trans.
    + apply (changes_st_bytes (within (a + 4) (a + 128)) m (od_name a) name).
      intros b Hb. unfold within, od_name in *. lia.
    + intros b Hb. apply ld8_st8_ne. unfold within, od_name in *. lia.
  - exists (ld_bytes m' (od_name a + Z.of_nat (length name) + 1) (123 - length name)).
    replace 124%nat with (length name + S (123 - length name))%nat by lia.
    rewrite ld_bytes_add, ld_bytes_S. f_equal; [|f_equal; unfold m'; by rewrite ld8_st8_eq].
    transitivity (ld_bytes (st_bytes m (od_name a) name) (od_name a) (length name)).
    + apply ld_bytes_ext. intros b Hb. unfold m'. by rewrite ld8_st8_ne by lia.
    + apply ld_bytes_st_bytes. eapply Forall_impl; [exact Hn|]. cbn. lia.
Qed.

Lemma stored_name_ino m a ino name : name_ok name -> 0 <= ino < 2 ^ 32 ->
  entry_stored m a ino name
    (st32 (st8 (st_bytes m (od_name a) name) (od_name a + Z.of_nat (length name)) 0) (od_ino a) ino).
Proof.
  intros Hok Hino. destruct (stored_name m a name Hok) as (Hch & l & Hl).
  set (m1 := st8 _ _ _) in *.
  assert (Hb : ld_bytes (st32 m1 (od_ino a) ino) (od_name a) 124 = name ++ 0 :: l).
  { rewrite <- Hl. apply ld_bytes_ext. intros b Hb. apply ld8_st32_ne. unfold od_name, od_ino in *. lia. }
  split.
  - eapply changes_trans; [eapply changes_weaken; [exact Hch|]; unfold within; lia|].
    apply changes_st32. intros b Hb'. unfold within, od_ino in *. lia.
  - rewrite ld32_st32_eq. by apply u32_small.
  - rewrite Hb. by apply cname_stored.
  - rewrite Hb. apply elem_of_app. right. by left.
Qed.

Lemma stored_ino_name m a ino name : name_ok name -> 0 <= ino < 2 ^ 32 ->
  entry_stored m a ino name
    (st8 (st_bytes (st32 m (od_ino a) ino) (od_name a) name) (od_name a + Z.of_nat (length name)) 0).
Proof.
  intros Hok Hino. destruct (stored_name (st32 m (od_ino a) ino) a name Hok) as (Hch & l & Hl).
  split.
  - eapply changes_trans; [apply (changes_st32 (within a (a + 128)) m (od_ino a) ino)|].
    { intros b Hb'. unfold within, od_ino in *. lia. }
    eapply changes_weaken; [exact Hch|]. unfold within. lia.
  - rewrite (changes_ld32 _ _ _ _ Hch) by (unfold within, od_ino; lia). rewrite ld32_st32_eq. by apply u32_small.
  - rewrite Hl. by apply cname_stored.
  - rewrite Hl. apply elem_of_app. right. by left.
Qed.

Lemma entered_of m oi n m1 n' e0 ino name m2 m3 : blanked m oi n m1 n' e0 -> fs_ok m2 -> dir_ok m2 oi n' ->
  (forall e, 0 <= e < 8 * n' -> dirent_at m2 oi e = dirent_at m1 oi e /\ entry m2 oi e = entry m1 oi e) ->
  entry_stored m2 (dirent_at m1 oi e0) ino name m3 ->
  entered m oi n ino name m3 n' e0 /\ changes (data_area m2 oi n') m2 m3 /\
  ld32 m3 (os_ninodes ospfs_super) = ld32 m2 (os_ninodes ospfs_super).
Proof.
  intros B F2 D2 Hsame [Hch Hi Hc H0]. destruct (Hsame e0 (bl_range _ _ _ _ _ _ B)) as [Ha2 _].
  set (a := dirent_at m1 oi e0) in *.
  assert (Hch' : changes (entry_area m2 oi e0) m2 m3) by (unfold entry_area; by rewrite Ha2).
  assert (Ha3 : dirent_at m3 oi e0 = a).
  { destruct (data_write m2 oi n' m3 F2 (dr_sized _ _ _ D2)) as (_ & _ & _ & Hbl & _).
    { eapply changes_weaken; [done|]. intros b Hb. eapply entry_data_area; [apply B|done]. }
    unfold dirent_at. rewrite Hbl; [exact Ha2|]. pose proof (bl_range _ _ _ _ _ _ B). cbn. divlia. }
  destruct (entry_write m2 oi n' e0 m3 F2 D2 (bl_range _ _ _ _ _ _ B) Hch') as (F3 & D3 & _ & _ & _ & Hni & Hoth).
  { intros _. by rewrite Ha3. }
  split; [|split; [|done]].
  - split; [done|done|apply B|apply B| | |].
    + intros Hlt. pose proof (bl_old _ _ _ _ _ _ B e0 ltac:(pose proof (bl_range _ _ _ _ _ _ B); lia)) as Ho.
      pose proof (bl_blank _ _ _ _ _ _ B). unfold entry in Ho. congruence.
    + unfold entry, entry_ino, entry_name. by rewrite Ha3, Hi, Hc.
    + intros e He Hne. rewrite Hoth by done. rewrite (proj2 (Hsame e He)).
      destruct (Z.ltb_spec e (8 * n)); [apply B; lia|apply B; lia].
  - eapply changes_weaken; [exact Hch'|]. intros b Hb. eapply entry_data_area; [apply B|done].
Qed.

(** ** Inodes *)

Definition inode_at (j : Z) : Z := 3072 + 64 * j.
Definition inode_nlink (m : mem) (j : Z) : Z := ld32 m (oi_nlink (inode_at j)).
Definition ninodes (m : mem) : Z := ld32 m (os_ninodes ospfs_super).

(** The first inode from number 2 on whose link count is 0. *)
Definition free_inode (m : mem) (j : Z) : Prop :=
  2 <= j < ninodes m /\ inode_nlink m j = 0 /\ forall j', 2 <= j' < j -> inode_nlink m j' <> 0.

Lemma inode_in_table m j : 0 <= j < ninodes m -> 3072 <= inode_at j /\ inode_at j + 64 <= 1024 * data_start m.
Proof. unfold inode_at, data_start, ninodes. intros H. divlia. Qed.

Lemma wp_find_inode init m fu (Q : Z -> mem -> Prop) :
  fs_ok m -> ninodes m < Z.of_nat fu ->
  (forall j, free_inode m j -> wp (init (inode_at j)) fu m (fun _ m' => Q j m')) ->
  ((forall j, 2 <= j < ninodes m -> inode_nlink m j <> 0) -> Q 0 m) ->
  wp (find_inode init) fu m Q.
Proof.
  intros F Hfu Hfound Hnone. unfold find_inode. pose proof (ld32_range m (os_ninodes ospfs_super)).
  unfold ninodes in *.
  apply (wp_loop (fun j t => t = m /\ 2 <= j /\ forall j', 2 <= j' < j -> inode_nlink m j' <> 0)
                 (fun j => Z.to_nat (ninodes m - j))).
  - split; [done|]. split; [lia|]. intros j' Hj'. lia.
  - unfold ninodes. lia.
  - intros j t (-> & Hj & Hlow). do 2 wp_step.
    destruct (Z.ltb_spec j (ld32 m (os_ninodes ospfs_super))) as [Hlt|Hge].
    + apply wp_bind, wp_ospfs_inode; [done|lia|]. do 3 wp_step. fold (inode_at j).
      change (ld32 m (oi_nlink (inode_at j))) with (inode_nlink m j).
      destruct (Z.eqb_spec (inode_nlink m j) 0) as [H0|H0].
      * apply wp_bind. eapply wp_mono; [apply Hfound; split; [unfold ninodes; lia|done]|].
        intros [] m' HQ. by wp_step.
      * wp_step. split; [split; [done|]; split; [lia|]|unfold ninodes; lia].
        intros j' Hj'. destruct (decide (j' = j)) as [->|]; [done|]. apply Hlow. lia.
    + wp_step. apply Hnone. intros j' Hj'. apply Hlow. lia.
Qed.

(** The words of a regular inode after it was initialised. *)
Lemma wp_init_regular mode a m fu (Q : unit -> mem -> Prop) : 0 <= mode < 2 ^ 32 ->
  (forall m', changes (within a (a + 64)) m m' -> ld32 m' (oi_size a) = 0 -> ld32 m' (oi_ftype a) = OSPFS_FTYPE_REG ->
     ld32 m' (oi_nlink a) = 1 -> ld32 m' (oi_mode a) = mode -> ld32 m' (oi_indirect a) = 0 ->
     ld32 m' (oi_indirect2 a) = 0 -> Q tt m') ->
  wp (init_regular mode a) fu m Q.
Proof.
  intros Hmode HQ. unfold init_regular. do 13 wp_step.
  assert (Hm : forall t x, x + 4 <= a + 16 \/ a + 26 <= x ->
    ld32 (memset t (oi_direct a 0) 0 10) x = ld32 t x).
  { intros t x Hx. apply (changes_ld32 (within (a + 16) (a + 26))); [|unfold within; lia].
    apply changes_memset. unfold within, oi_direct. lia. }
  assert (Hs : forall t x v, a <= x -> x + 4 <= a + 64 -> changes (within a (a + 64)) t (st32 t x v)).
  { intros t x v H1 H2. apply changes_st32. unfold within. lia. }
  assert (Hc : forall t, changes (within a (a + 64)) t (memset t (oi_direct a 0) 0 10)).
  { intros t. apply changes_memset. unfold within, oi_direct. lia. }
  unfold oi_size, oi_ftype, oi_nlink, oi_mode, oi_indirect, oi_indirect2, OSPFS_FTYPE_REG in *. apply HQ.
  - repeat (eapply changes_trans; [|first [apply Hs; lia|apply Hc]]). apply changes_refl.
  - rewrite !ld32_st32_ne by lia. rewrite Hm by lia. rewrite !ld32_st32_ne by lia. by rewrite ld32_st32_eq.
  - rewrite !ld32_st32_ne by lia. rewrite Hm by lia. rewrite !ld32_st32_ne by lia. by rewrite ld32_st32_eq.
  - rewrite !ld32_st32_ne by lia. rewrite Hm by lia. rewrite !ld32_st32_ne by lia. by rewrite ld32_st32_eq.
  - rewrite !ld32_st32_ne by lia. rewrite Hm by lia. rewrite ld32_st32_eq. by apply u32_small.
  - rewrite !ld32_st32_ne by lia. by rewrite ld32_st32_eq.
  - by rewrite ld32_st32_eq.
Qed.

(** An initialised regular inode is an empty file. *)
Lemma empty_file m j : 0 <= j < ninodes m -> ld32 m (oi_size (inode_at j)) = 0 ->
  ld32 m (oi_ftype (inode_at j)) = OSPFS_FTYPE_REG -> ld32 m (oi_indirect (inode_at j)) = 0 ->
  ld32 m (oi_indirect2 (inode_at j)) = 0 -> sized m (inode_at j) 0.
Proof.
  intros Hj Hs Ht H1 H2. assert (Hno : forall r, ~ live 0 r) by (intros []; cbn; lia).
  split; [|rewrite Hs; lia|by rewrite Ht]. split; [lia|].
  split; [split; try done|intros r Hr; by destruct (Hno r)].
  - by apply inode_in_table.
  - intros r Hr. by destruct (Hno r).
  - intros r q Hr. by destruct (Hno r).
  - intros r Hr. by destruct (Hno r).
  - intros r r' Hr. by destruct (Hno r).
  - intros r q _ _ _ Hq. by destruct (Hno q).
Qed.

(** Growing a directory does not touch the other inodes. *)
Lemma blanked_inode m oi n m1 n' e0 j a : fs_ok m -> dir_ok m oi n -> blanked m oi n m1 n' e0 ->
  0 <= j < ninodes m -> inode_at j + 64 <= oi \/ oi + 64 <= inode_at j ->
  within (inode_at j) (inode_at j + 64) a -> ld8 m1 a = ld8 m a.
Proof.
  intros F D B Hj Hne Ha. destruct (sz_file _ _ _ (dr_sized _ _ _ D)) as [Hn T]. apply (bl_changes _ _ _ _ _ _ B).
  destruct (inode_in_table m j Hj) as [Hlo Hhi]. unfold within in Ha.
  intros [Hb|[Hs|[[Hin|(q & Hq & _ & Hb)]|(b & Hb & Hin)]]].
  - unfold bitmap_area, within in Hb. lia.
  - unfold word_at, oi_size, within in Hs. lia.
  - unfold inode_slots, within in Hin. lia.
  - destruct (tr_used _ _ _ T q Hq) as [? _]. unfold in_block, within in Hb. lia.
  - pose proof (fs_reserved m F b Hb). unfold in_block, within in Hin. lia.
Qed.

Lemma blanked_ninodes m oi n m1 n' e0 : fs_ok m -> dir_ok m oi n -> blanked m oi n m1 n' e0 -> ninodes m1 = ninodes m.
Proof.
  intros F D B. eapply ninodes_kept; [apply B|]. intros a. apply super_outside_grow; [done|apply D].
Qed.

Lemma blanked_nlink m oi n m1 n' e0 j : fs_ok m -> dir_ok m oi n -> blanked m oi n m1 n' e0 ->
  0 <= j < ninodes m -> (exists d, oi = inode_at d) -> inode_nlink m1 j = inode_nlink m j.
Proof.
  intros F D B Hj [d ->]. unfold inode_nlink. destruct (decide (j = d)) as [->|Hne].
  - unfold oi_nlink. apply (head_kept m (inode_at d) n); [done|apply D|apply B|lia|lia].
  - unfold ld32. assert (Hb : forall a, within (inode_at j) (inode_at j + 64) a -> ld8 m1 a = ld8 m a).
    { intros a. apply (blanked_inode m (inode_at d) n m1 n' e0); [done..|unfold inode_at; lia]. }
    rewrite !Hb; [done|..]; unfold within, oi_nlink; lia.
Qed.

(** The rest of [ospfs_create] and of [ospfs_symlink]: the inode is initialised
    and the entry is filled in; [P] is what the initialisation establishes. *)
Lemma wp_enter_inode {B} m dir n m1 n' e0 name j init (P : mem -> Prop) (K : Z -> prog mem B) fu (Q : B -> mem -> Prop) :
  let oi := inode_at dir in
  fs_ok m -> dir_ok m oi n -> blanked m oi n m1 n' e0 -> 0 <= dir < ninodes m -> inode_nlink m dir <> 0 ->
  name_ok name -> free_inode m j -> ninodes m < Z.of_nat fu ->
  (forall Q' : unit -> mem -> Prop,
     (forall m2, changes (within (inode_at j) (inode_at j + 64)) m1 m2 -> P m2 -> Q' tt m2) ->
     wp (init (inode_at j)) fu m1 Q') ->
  (forall m2 m3, P m2 -> entered m oi n j name m3 n' e0 ->
     (forall a, within (inode_at j) (inode_at j + 64) a -> ld8 m3 a = ld8 m2 a) ->
     ninodes m3 = ninodes m -> wp (K j) fu m3 Q) ->
  wp (entry_ino ← find_inode init; set_name (dirent_at m1 oi e0) name;;
      store32 (od_ino (dirent_at m1 oi e0)) entry_ino;; K entry_ino) fu m1 Q.
Proof.
  intros oi F D B0 Hdir Hnl Hname Hj Hfu Hinit HK.
  assert (Hni : ninodes m1 = ninodes m) by by eapply blanked_ninodes.
  assert (Hlinks : forall i, 0 <= i < ninodes m -> inode_nlink m1 i = inode_nlink m i).
  { intros i Hi. eapply blanked_nlink; [done..|by exists dir]. }
  assert (Hj1 : free_inode m1 j).
  { destruct Hj as (Hr & H0 & Hlow). split; [by rewrite Hni|]. split; [by rewrite Hlinks by lia|].
    intros j' Hj'. rewrite Hlinks by lia. by apply Hlow. }
  apply wp_bind, wp_find_inode; [apply B0|by rewrite Hni| |].
  2: { intros Hall. destruct Hj1 as (Hr & H0 & _). by destruct (Hall j Hr). }
  intros j2 Hj2. assert (j2 = j) as ->.
  { destruct Hj1 as (Hr & H0 & Hlow), Hj2 as (Hr2 & H02 & Hlow2).
    destruct (Z.lt_trichotomy j2 j) as [Hl|[|Hl]]; [by destruct (Hlow j2 ltac:(lia))|done|by destruct (Hlow2 j ltac:(lia))]. }
  assert (Hne : j <> dir) by (intros ->; apply Hnl, Hj).
  destruct Hj1 as (Hr & _ & _). destruct (inode_in_table m1 j ltac:(lia)) as [Hlo Hhi].
  apply Hinit. intros m2 Hch2 HP.
  destruct (inode_write m1 oi n' (inode_at j) m2) as (F2 & D2 & _ & _ & Hni2 & Hsame);
    [apply B0|apply B0|done|done|unfold oi, inode_at; lia|done|].
  assert (Hjr : 0 <= j < 2 ^ 32) by (pose proof (ld32_range m1 (os_ninodes ospfs_super)); unfold ninodes in Hr; lia).
  destruct (entered_of m oi n m1 n' e0 j name m2 _ B0 F2 D2 Hsame (stored_name_ino _ _ _ _ Hname Hjr)) as (E & Hch3 & Hni3).
  unfold set_name. do 6 wp_step. apply (HK m2); [done|exact E| |unfold ninodes in *; congruence].
  intros a Ha. apply Hch3. intros (i & Hi & Hb).
  destruct (tr_used _ _ _ (proj2 (sz_file _ _ _ (dr_sized _ _ _ D2))) (RData i) Hi) as [Hu _].
  assert (Hds : data_start m2 = data_start m1) by (unfold data_start; by rewrite Hni2).
  unfold in_block, within in *. lia.
Qed.
