(* ===== verification/OspfsNames.v ===== *)
(** * OSPFS: creating, linking, looking up and removing names

    The correctness properties of the directory callbacks, on the entries and
    inodes of OspfsDirSpec. *)

From S2P Require Import Prelude CMemory OspfsLayout OspfsAlloc OspfsFile OspfsTree OspfsWork OspfsGrow OspfsShrink OspfsSize OspfsIo OspfsDir OspfsDirSpec.

(** A directory without an entry of this name. *)
Definition no_entry (m : mem) (oi n : Z) (name : list Z) : Prop :=
  forall e, 0 <= e < 8 * n -> ~ matches name (entry m oi e).

(** The disk has room for one more entry: a blank one, or the blocks for a new
    block of the directory. *)
Definition entry_room (m : mem) (oi n : Z) : Prop :=
  (forall e, 0 <= e < 8 * n -> entry_ino m oi e <> 0) -> (need n <= length (free_list m))%nat.

(** After a new entry was made, a search for its name finds it and nothing else. *)
Lemma entered_matches m oi n ino name m' n' e0 e : no_entry m oi n name -> ino <> 0 ->
  entered m oi n ino name m' n' e0 -> 0 <= e < 8 * n' -> matches name (entry m' oi e) <-> e = e0.
Proof.
  intros Hno Hino E He. destruct (decide (e = e0)) as [->|Hne].
  - rewrite (en_entry _ _ _ _ _ _ _ _ E). split; [done|]. intros _. by split.
  - rewrite (en_other _ _ _ _ _ _ _ _ E) by done. split; [|done]. intros Hm. exfalso.
    destruct (Z.ltb_spec e (8 * n)); [by apply (Hno e); [lia|]|]. by destruct Hm as [? _].
Qed.

(** ** Looking a name up *)

Lemma wp_mk_linux_inode ino m fu (Q : option linux_inode -> mem -> Prop) :
  fs_ok m -> 0 <= ino < ninodes m ->
  let oi := inode_at ino in
  (forall t op, (t = OSPFS_FTYPE_REG /\ op = RegOps) \/ (t = OSPFS_FTYPE_DIR /\ op = DirOps) \/
       (t = OSPFS_FTYPE_SYMLINK /\ op = SymlinkOps) -> ld32 m (oi_ftype oi) = t ->
     Q (Some (LinuxInode ino (ld32 m (oi_size oi))
                (match op with RegOps => Z.lor (ld32 m (oi_mode oi)) S_IFREG | DirOps => Z.lor (ld32 m (oi_mode oi)) S_IFDIR
                             | SymlinkOps => Z.lor S_IRWXUGO S_IFLNK end) op
                (match op with DirOps => u32 (inode_nlink m ino + 1) | _ => inode_nlink m ino end))) m) ->
  ld32 m (oi_ftype oi) <= 2 -> wp (ospfs_mk_linux_inode true ino) fu m Q.
Proof.
  intros F Hino oi HQ Ht. pose proof (ld32_range m (oi_ftype oi)) as Hr.
  unfold ospfs_mk_linux_inode. apply wp_bind, wp_ospfs_inode; [done|exact Hino|]. fold (inode_at ino). fold oi.
  cbn [negb]. do 8 wp_step. unfold inode_nlink in HQ. fold oi in HQ.
  unfold OSPFS_FTYPE_REG, OSPFS_FTYPE_DIR, OSPFS_FTYPE_SYMLINK in *.
  destruct (Z.eqb_spec (ld32 m (oi_ftype oi)) 0) as [H0|H0]; [wp_step; apply (HQ 0 RegOps); [by left|done]|].
  destruct (Z.eqb_spec (ld32 m (oi_ftype oi)) 1) as [H1|H1]; [wp_step; apply (HQ 1 DirOps); [by right; left|done]|].
  destruct (Z.eqb_spec (ld32 m (oi_ftype oi)) 2) as [H2|H2]; [wp_step; apply (HQ 2 SymlinkOps); [by right; right|done]|lia].
Qed.

(** The two outcomes of a lookup of a name that is not too long. *)
Lemma wp_dir_lookup m dir n name fu (Q : Z + option linux_inode -> mem -> Prop) :
  fs_ok m -> 0 <= dir < ninodes m -> dir_ok m (inode_at dir) n -> (length name <= 123)%nat -> 8200 <= Z.of_nat fu ->
  (forall e, 0 <= e < 8 * n -> matches name (entry m (inode_at dir) e) ->
     (forall e', 0 <= e' < e -> ~ matches name (entry m (inode_at dir) e')) ->
     wp (ospfs_mk_linux_inode true (entry_ino m (inode_at dir) e)) fu m (fun i m' =>
       match i with Some i => Q (inr (Some i)) m' | None => Q (inl (- EINVAL)) m' end)) ->
  (no_entry m (inode_at dir) n name -> Q (inr None) m) ->
  wp (ospfs_dir_lookup true dir name) fu m Q.
Proof.
  intros F Hdir D Hlen Hfu Hfound Hnone. unfold ospfs_dir_lookup.
  apply wp_bind, wp_ospfs_inode; [done|done|]. fold (inode_at dir).
  rewrite (proj2 (Z.ltb_ge OSPFS_MAXNAMELEN _)) by (unfold OSPFS_MAXNAMELEN, OSPFS_DIRENTRY_SIZE; lia).
  wp_step. apply wp_bind, (wp_search m (inode_at dir) n); [done|done| |].
  - intros e He Hm Hlow. do 2 wp_step. apply wp_bind.
    eapply wp_mono; [by apply (Hfound e)|]. intros [i|] m' HQ; by wp_step.
  - intros Hno. wp_step. by apply Hnone.
Qed.

(** ** Creating a file *)

(** What a successful creation establishes. *)
Record created (m : mem) (dir n j mode : Z) (name : list Z) (m' : mem) : Prop := Created {
  cr_entered : exists n' e0, entered m (inode_at dir) n j name m' n' e0;
  cr_file : sized m' (inode_at j) 0;
  cr_type : ld32 m' (oi_ftype (inode_at j)) = OSPFS_FTYPE_REG;
  cr_size : ld32 m' (oi_size (inode_at j)) = 0;
  cr_nlink : inode_nlink m' j = 1;
  cr_mode : ld32 m' (oi_mode (inode_at j)) = mode;
  cr_ninodes : ninodes m' = ninodes m
}.

Lemma wp_ospfs_create m dir n name mode j fu (Q : Z * option linux_inode -> mem -> Prop) :
  fs_ok m -> 0 <= dir < ninodes m -> dir_ok m (inode_at dir) n -> n <= 266 -> inode_nlink m dir <> 0 ->
  name_ok name -> 0 <= mode < 2 ^ 32 -> no_entry m (inode_at dir) n name -> entry_room m (inode_at dir) n ->
  free_inode m j -> 8200 <= Z.of_nat fu -> ninodes m < Z.of_nat fu ->
  (forall m', created m dir n j mode name m' ->
     Q (0, Some (LinuxInode j 0 (Z.lor mode S_IFREG) RegOps 1)) m') ->
  wp (ospfs_create true dir name mode) fu m Q.
Proof.
  intros F Hdir D Hn Hnl Hname Hmode Hno Hroom Hj Hfu Hfu2 HQ. unfold ospfs_create.
  apply wp_bind, wp_ospfs_inode; [done|done|]. fold (inode_at dir).
  rewrite (proj2 (Z.ltb_ge (OSPFS_DIRENTRY_SIZE - 5) _)) by (destruct Hname; unfold OSPFS_DIRENTRY_SIZE; lia).
  wp_step. apply wp_bind, (wp_find_direntry m (inode_at dir) n); [done|done| |].
  { intros e He Hm _. by destruct (Hno e He). }
  intros _. apply wp_bind, (wp_blank m (inode_at dir) n); [done|done|done|lia| |].
  2: { intros Hall Hlt. specialize (Hroom Hall). lia. }
  intros m1 n' e0 B. pose proof Hj as (Hjr & _ & _).
  apply (wp_enter_inode m dir n m1 n' e0 name j (init_regular mode)
    (fun t => ld32 t (oi_size (inode_at j)) = 0 /\ ld32 t (oi_ftype (inode_at j)) = OSPFS_FTYPE_REG /\
       inode_nlink t j = 1 /\ ld32 t (oi_mode (inode_at j)) = mode /\
       ld32 t (oi_indirect (inode_at j)) = 0 /\ ld32 t (oi_indirect2 (inode_at j)) = 0)); try done.
  - intros Q' HQ'. apply wp_init_regular; [done|]. intros m2 Hch H1 H2 H3 H4 H5 H6. by apply HQ'.
  - intros m2 m3 (H1 & H2 & H3 & H4 & H5 & H6) E Hsame Hni.
    assert (Hw : forall x, inode_at j <= x -> x + 4 <= inode_at j + 64 -> ld32 m3 x = ld32 m2 x).
    { intros x Hx1 Hx2. unfold ld32. rewrite !Hsame; [done|..]; unfold within; lia. }
    unfold inode_nlink in H3. unfold oi_size, oi_ftype, oi_nlink, oi_mode, oi_indirect, oi_indirect2 in *.
    rewrite <- Hw in H1, H2, H3, H4, H5, H6 by lia.
    apply wp_bind, wp_mk_linux_inode; [apply E|lia| |unfold oi_ftype; rewrite H2; unfold OSPFS_FTYPE_REG; lia].
    intros t op Hop Ht. unfold oi_ftype, oi_size, oi_mode, inode_nlink, oi_nlink in *.
    assert (op = RegOps) as ->.
    { rewrite H2 in Ht. unfold OSPFS_FTYPE_REG, OSPFS_FTYPE_DIR, OSPFS_FTYPE_SYMLINK in *. naive_solver. }
    wp_step. rewrite H1, H3, H4. apply HQ. split; [by exists n', e0| |done..].
    apply empty_file; [lia|done..].
Qed.

(** C13. Creating a file under a name that the directory does not hold, with an
    inode free and room for the entry: the call returns 0 with the first free
    inode, which is an empty regular file with one link and the given mode; the
    directory has exactly one entry more; and looking the name up afterwards
    finds that inode. *)
Theorem ospfs_create_then_lookup m dir n name mode j fu :
  fs_ok m -> 0 <= dir < ninodes m -> dir_ok m (inode_at dir) n -> n <= 266 -> inode_nlink m dir <> 0 ->
  name_ok name -> 0 <= mode < 2 ^ 32 -> no_entry m (inode_at dir) n name -> entry_room m (inode_at dir) n ->
  free_inode m j -> 8200 <= Z.of_nat fu -> ninodes m < Z.of_nat fu ->
  let i := LinuxInode j 0 (Z.lor mode S_IFREG) RegOps 1 in
  exists m', ospfs_create true dir name mode fu m = Ret (0, Some i) m' /\ created m dir n j mode name m' /\
    ospfs_dir_lookup true dir name fu m' = Ret (inr (Some i)) m'.
Proof.
  intros F Hdir D Hn Hnl Hname Hmode Hno Hroom Hj Hfu Hfu2 i.
  destruct (wp_run _ fu m _ (wp_ospfs_create m dir n name mode j fu
    (fun r m' => r = (0, Some i) /\ created m dir n j mode name m') F Hdir D Hn Hnl Hname Hmode Hno Hroom Hj Hfu Hfu2
    (fun m' C => conj eq_refl C))) as (r & m' & Hrun & -> & C).
  exists m'. split; [done|]. split; [done|]. destruct (cr_entered _ _ _ _ _ _ _ C) as (n' & e0 & E).
  pose proof Hj as (Hjr & _ & _). pose proof (cr_ninodes _ _ _ _ _ _ _ C) as Hni.
  destruct (wp_run (ospfs_dir_lookup true dir name) fu m' (fun r t => r = inr (Some i) /\ t = m'))
    as (r & t & Hrun' & -> & ->); [|done].
  apply (wp_dir_lookup m' dir n'); [apply E|by rewrite Hni|apply E|apply Hname|done| |].
  - intros e He Hm _. apply (entered_matches m (inode_at dir) n j name m' n' e0) in Hm; [|done|lia|done|done].
    subst e. pose proof (en_entry _ _ _ _ _ _ _ _ E) as He0. unfold entry in He0. injection He0 as He0 _. rewrite He0.
    pose proof (cr_type _ _ _ _ _ _ _ C) as Ht.
    apply wp_mk_linux_inode; [apply E|lia| |rewrite Ht; unfold OSPFS_FTYPE_REG; lia].
    intros t op Hop Hty. assert (op = RegOps) as ->.
    { rewrite Ht in Hty. unfold OSPFS_FTYPE_REG, OSPFS_FTYPE_DIR, OSPFS_FTYPE_SYMLINK in *. naive_solver. }
    rewrite (cr_size _ _ _ _ _ _ _ C), (cr_nlink _ _ _ _ _ _ _ C), (cr_mode _ _ _ _ _ _ _ C). done.
  - intros Hnone. destruct (Hnone e0 (en_range _ _ _ _ _ _ _ _ E)).
    apply (entered_matches m (inode_at dir) n j name m' n' e0); [done|lia|done|apply E|done].
Qed.

(** C14. The errors of [ospfs_create] in the order in which the code checks: a
    name that is too long, a name that exists, and no room for the entry.  The
    first two leave the disk as it is, the last as [add_block] leaves it. *)
Theorem ospfs_create_errors m dir n name mode fu :
  fs_ok m -> 0 <= dir < ninodes m -> dir_ok m (inode_at dir) n -> n <= 266 -> 8200 <= Z.of_nat fu ->
  if bool_decide (123 < length name)%nat then ospfs_create true dir name mode fu m = Ret (- ENAMETOOLONG, None) m
  else if bool_decide (Exists (fun e => matches name (entry m (inode_at dir) e)) (seqZ 0 (8 * n))) then
    ospfs_create true dir name mode fu m = Ret (- EEXIST, None) m
  else ~ entry_room m (inode_at dir) n ->
    exists m', ospfs_create true dir name mode fu m = Ret (- ENOSPC, None) m' /\ grow_failed m (inode_at dir) n m'.
Proof.
  intros F Hdir D Hn Hfu. set (oi := inode_at dir) in *.
  assert (Hmax : OSPFS_DIRENTRY_SIZE - 5 = 123) by done.
  assert (Hstart : forall Q : Z * option linux_inode -> mem -> Prop,
    ((123 < length name)%nat -> Q (- ENAMETOOLONG, None) m) ->
    ((length name <= 123)%nat -> wp (e ← find_direntry oi name (Z.of_nat (length name));
      match e with
      | Some _ => mret (- EEXIST, None)
      | None =>
          d ← create_blank_direntry oi;
          match d with
          | inl err => mret (err, None)
          | inr od =>
              entry_ino ← find_inode (init_regular mode);
              set_name od name;;
              store32 (od_ino od) entry_ino;;
              i ← ospfs_mk_linux_inode true entry_ino;
              match i with
              | None => mret (- ENOMEM, None)
              | Some i => mret (0, Some i)
              end
          end
      end) fu m Q) -> wp (ospfs_create true dir name mode) fu m Q).
  { intros Q H1 H2. unfold ospfs_create. apply wp_bind, wp_ospfs_inode; [done|done|]. fold (inode_at dir).
    rewrite Hmax. destruct (Z.ltb_spec 123 (Z.of_nat (length name))); [wp_step; apply H1; lia|].
    wp_step. apply H2. lia. }
  repeat case_bool_decide.
  - destruct (wp_run _ fu m (fun r t => r = (- ENAMETOOLONG, None) /\ t = m) (Hstart _ (fun _ => conj eq_refl eq_refl) ltac:(lia)))
      as (r & t & -> & -> & ->). done.
  - destruct (wp_run (ospfs_create true dir name mode) fu m (fun r t => r = (- EEXIST, None) /\ t = m))
      as (r & t & -> & -> & ->); [|done].
    apply Hstart; [lia|]. intros _. apply wp_bind, (wp_find_direntry m oi n); [done|done| |].
    + intros e He Hm _. by wp_step.
    + intros Hno. exfalso. match goal with H : Exists _ _ |- _ => apply Exists_exists in H as (e & He & Hm) end.
      apply elem_of_seqZ in He. by apply (Hno e ltac:(lia)).
  - intros Hroom.
    destruct (wp_run (ospfs_create true dir name mode) fu m (fun r t => r = (- ENOSPC, None) /\ grow_failed m oi n t))
      as (r & t & Hrun & -> & G); [|by exists t].
    apply Hstart; [lia|]. intros _. apply wp_bind, (wp_find_direntry m oi n); [done|done| |].
    + intros e He Hm _. exfalso. match goal with H : ~ Exists _ _ |- _ => apply H end.
      apply Exists_exists. exists e. split; [apply elem_of_seqZ; lia|done].
    + intros _. apply wp_bind, (wp_create_blank m oi n); [done|done|done|lia| |].
      * intros e He Hz _. exfalso. apply Hroom. intros Hall. by destruct (Hall e He).
      * intros Hall. split; [|intros _ m' G; by wp_step]. intros Hneed. exfalso. apply Hroom. intros _. done.
Qed.

(** When every inode is in use, [ospfs_create] does not report [-ENOSPC]:
    it stores the inode number 0 in the directory entry, which leaves the entry
    blank, attaches inode 0 to the dentry and returns 0; the name is not found
    afterwards. *)
Theorem ospfs_create_no_inode m dir n name mode fu :
  fs_ok m -> 1 <= dir < ninodes m -> dir_ok m (inode_at dir) n -> n <= 266 ->
  name_ok name -> no_entry m (inode_at dir) n name -> entry_room m (inode_at dir) n ->
  (forall j, 2 <= j < ninodes m -> inode_nlink m j <> 0) -> ld32 m (oi_ftype (inode_at 0)) = OSPFS_FTYPE_REG ->
  8200 <= Z.of_nat fu -> ninodes m < Z.of_nat fu ->
  exists i m', ospfs_create true dir name mode fu m = Ret (0, Some i) m' /\ li_ino i = 0 /\
    ospfs_dir_lookup true dir name fu m' = Ret (inr None) m'.
Proof.
  intros F Hdir D Hn Hname Hno Hroom Hall Ht0 Hfu Hfu2. set (oi := inode_at dir) in *.
  assert (Hdir0 : 0 <= dir < ninodes m) by lia.
  destruct (wp_run (ospfs_create true dir name mode) fu m (fun r m' => exists i n' e0, r = (0, Some i) /\ li_ino i = 0 /\
      entered m oi n 0 name m' n' e0 /\ ninodes m' = ninodes m)) as (r & m' & Hrun & i & n' & e0 & -> & Hi & E & Hni).
  - unfold ospfs_create. apply wp_bind, wp_ospfs_inode; [done|done|]. fold (inode_at dir). fold oi.
    rewrite (proj2 (Z.ltb_ge (OSPFS_DIRENTRY_SIZE - 5) _)) by (destruct Hname; unfold OSPFS_DIRENTRY_SIZE; lia).
    wp_step. apply wp_bind, (wp_find_direntry m oi n); [done|done| |].
    { intros e He Hm _. by destruct (Hno e He). }
    intros _. apply wp_bind, (wp_blank m oi n); [done|done|done|lia| |].
    2: { intros Hfull Hlt. specialize (Hroom Hfull). lia. }
    intros m1 n' e0 B. assert (Hni : ninodes m1 = ninodes m) by by eapply blanked_ninodes.
    apply wp_bind, wp_find_inode; [apply B|by rewrite Hni| |].
    + intros j (Hj & H0 & _). exfalso. apply (Hall j); [by rewrite <- Hni|]. rewrite <- H0. symmetry.
      eapply blanked_nlink; [done|done|done|lia|by exists dir].
    + intros _. unfold set_name. do 6 wp_step.
      destruct (entered_of m oi n m1 n' e0 0 name m1 _ B (bl_fs _ _ _ _ _ _ B) (bl_dir _ _ _ _ _ _ B)
        (fun e _ => conj eq_refl eq_refl) (stored_name_ino m1 _ 0 name Hname ltac:(lia))) as (E & Hch & Hni3).
      assert (Ht : ld32 (st32 (st8 (st_bytes m1 (od_name (dirent_at m1 oi e0)) name)
          (od_name (dirent_at m1 oi e0) + Z.of_nat (length name)) 0) (od_ino (dirent_at m1 oi e0)) 0)
          (oi_ftype (inode_at 0)) = OSPFS_FTYPE_REG).
      { rewrite <- Ht0. assert (Hsame : forall a, within (inode_at 0) (inode_at 0 + 64) a ->
          ld8 (st32 (st8 (st_bytes m1 (od_name (dirent_at m1 oi e0)) name)
            (od_name (dirent_at m1 oi e0) + Z.of_nat (length name)) 0) (od_ino (dirent_at m1 oi e0)) 0) a = ld8 m a).
        { intros a Ha. rewrite Hch.
          - apply (blanked_inode m oi n m1 n' e0 0); try done; [lia|]. unfold oi, inode_at. lia.
          - intros (k & Hk & Hb). destruct (sz_file _ _ _ (dr_sized _ _ _ (bl_dir _ _ _ _ _ _ B))) as [_ T].
            destruct (tr_used _ _ _ T (RData k) Hk) as [Hu _]. destruct (tr_inode _ _ _ T) as [Hlo Hhi].
            unfold oi, inode_at, in_block, within in *. lia. }
        unfold ld32. rewrite !Hsame; [done|..]; unfold within, oi_ftype; lia. }
      apply wp_bind, wp_mk_linux_inode; [apply E|unfold ninodes in *; lia| |rewrite Ht; unfold OSPFS_FTYPE_REG; lia].
      intros t op _ _. wp_step. eexists _, n', e0. split; [done|]. split; [done|].
      split; [exact E|unfold ninodes in *; congruence].
  - exists i, m'. split; [done|]. split; [done|].
    destruct (wp_run (ospfs_dir_lookup true dir name) fu m' (fun r t => r = inr None /\ t = m'))
      as (r & t & Hrun' & -> & ->); [|done].
    apply (wp_dir_lookup m' dir n'); [apply E|by rewrite Hni|apply E|apply Hname|done| |done].
    intros e He Hm _. exfalso. destruct (decide (e = e0)) as [->|Hne].
    + fold oi in Hm. rewrite (en_entry _ _ _ _ _ _ _ _ E) in Hm. by destruct Hm as [? _].
    + fold oi in Hm. rewrite (en_other _ _ _ _ _ _ _ _ E) in Hm by done.
      destruct (Z.ltb_spec e (8 * n)); [by apply (Hno e); [lia|]|by destruct Hm as [? _]].
Qed.

(** ** Hard links *)

Lemma wp_ospfs_link m src dir n name fu (Q : Z -> mem -> Prop) :
  fs_ok m -> 0 <= dir < ninodes m -> dir_ok m (inode_at dir) n -> n <= 266 ->
  0 <= src < ninodes m -> src <> dir -> name_ok name -> no_entry m (inode_at dir) n name ->
  entry_room m (inode_at dir) n -> 8200 <= Z.of_nat fu ->
  (forall m' n' e0, entered m (inode_at dir) n src name m' n' e0 -> ninodes m' = ninodes m ->
     inode_nlink m' src = u32 (inode_nlink m src + 1) ->
     (forall a, within (inode_at src) (inode_at src + 64) a -> ~ word_at (oi_nlink (inode_at src)) a ->
        ld8 m' a = ld8 m a) -> Q 0 m') ->
  wp (ospfs_link src dir name) fu m Q.
Proof.
  intros F Hdir D Hn Hsrc Hne Hname Hno Hroom Hfu HQ. set (oi := inode_at dir) in *.
  unfold ospfs_link. apply wp_bind, wp_ospfs_inode; [done|done|]. fold (inode_at dir). fold oi.
  rewrite (proj2 (Z.ltb_ge OSPFS_MAXNAMELEN _)) by (destruct Hname; unfold OSPFS_MAXNAMELEN, OSPFS_DIRENTRY_SIZE; lia).
  wp_step. apply wp_bind, (wp_find_direntry m oi n); [done|done| |].
  { intros e He Hm _. by destruct (Hno e He). }
  intros _. apply wp_bind, (wp_blank m oi n); [done|done|done|lia| |].
  2: { intros Hfull Hlt. specialize (Hroom Hfull). lia. }
  intros m1 n' e0 B. unfold set_name. do 6 wp_step.
  assert (Hs32 : 0 <= src < 2 ^ 32) by (pose proof (ld32_range m (os_ninodes ospfs_super)); unfold ninodes in *; lia).
  destruct (entered_of m oi n m1 n' e0 src name m1 _ B (bl_fs _ _ _ _ _ _ B) (bl_dir _ _ _ _ _ _ B)
    (fun e _ => conj eq_refl eq_refl) (stored_ino_name m1 _ src name Hname Hs32)) as (E & Hch & Hni3).
  set (m2 := st8 _ _ _) in *. assert (Hni1 : ninodes m1 = ninodes m) by by eapply blanked_ninodes.
  assert (Hni2 : ninodes m2 = ninodes m) by (unfold ninodes in *; congruence).
  apply wp_bind, wp_ospfs_inode; [apply E|fold (ninodes m2); lia|]. do 6 wp_step. fold (inode_at src).
  set (os := inode_at src) in *.
  destruct (inode_in_table m2 src ltac:(lia)) as [Hlo Hhi]. fold os in Hlo, Hhi.
  set (m3 := st32 m2 (oi_nlink os) _).
  assert (Hch3 : changes (word_at (oi_nlink os)) m2 m3) by by apply changes_st32.
  assert (Hsame : forall a, within os (os + 64) a -> ld8 m2 a = ld8 m a).
  { intros a Ha. rewrite Hch.
    - apply (blanked_inode m oi n m1 n' e0 src); try done. unfold os, oi, inode_at in *. lia.
    - intros (k & Hk & Hb). destruct (sz_file _ _ _ (dr_sized _ _ _ (bl_dir _ _ _ _ _ _ B))) as [_ T].
      destruct (tr_used _ _ _ T (RData k) Hk) as [Hu _].
      destruct (inode_in_table m1 src ltac:(lia)) as [_ Hhi1]. fold os in Hhi1.
      unfold in_block, within in *. lia. }
  destruct (inode_write m2 oi n' os m3) as (F3 & D3 & _ & _ & Hni4 & Hent); try done.
  { apply E. } { apply E. } { unfold os, oi, inode_at. lia. }
  { eapply changes_weaken; [exact Hch3|]. unfold word_at, oi_nlink, within. lia. }
  apply (HQ m3 n' e0).
  - destruct E as [_ _ ? ? ? He Ho]. split; try done.
    + rewrite (proj2 (Hent e0 ltac:(lia))). done.
    + intros e He' Hne'. rewrite (proj2 (Hent e He')). by apply Ho.
  - unfold ninodes in *. congruence.
  - unfold inode_nlink. fold os. unfold m3. rewrite ld32_st32_eq, u32_u32. do 2 f_equal.
    unfold ld32. rewrite !Hsame; [done|..]; unfold within, oi_nlink; lia.
  - intros a Ha Hw. rewrite Hch3 by done. by apply Hsame.
Qed.

(** C16. A hard link: the directory has exactly one entry more, which names the
    source's inode, the source's link count is one higher and the rest of its
    inode is unchanged, and looking the new name up finds the source. *)
Theorem ospfs_link_then_lookup m src dir n name fu :
  fs_ok m -> 0 <= dir < ninodes m -> dir_ok m (inode_at dir) n -> n <= 266 ->
  1 <= src < ninodes m -> src <> dir -> ld32 m (oi_ftype (inode_at src)) <= 2 -> name_ok name ->
  no_entry m (inode_at dir) n name -> entry_room m (inode_at dir) n -> 8200 <= Z.of_nat fu ->
  exists m' n' e0 i, ospfs_link src dir name fu m = Ret 0 m' /\ entered m (inode_at dir) n src name m' n' e0 /\
    inode_nlink m' src = u32 (inode_nlink m src + 1) /\
    (forall a, within (inode_at src) (inode_at src + 64) a -> ~ word_at (oi_nlink (inode_at src)) a ->
       ld8 m' a = ld8 m a) /\
    ospfs_dir_lookup true dir name fu m' = Ret (inr (Some i)) m' /\ li_ino i = src.
Proof.
  intros F Hdir D Hn Hsrc Hne Hty Hname Hno Hroom Hfu.
  destruct (wp_run (ospfs_link src dir name) fu m (fun r m' => r = 0 /\ exists n' e0,
      entered m (inode_at dir) n src name m' n' e0 /\ ninodes m' = ninodes m /\
      inode_nlink m' src = u32 (inode_nlink m src + 1) /\
      (forall a, within (inode_at src) (inode_at src + 64) a -> ~ word_at (oi_nlink (inode_at src)) a ->
         ld8 m' a = ld8 m a))) as (r & m' & Hrun & -> & n' & e0 & E & Hni & Hnl & Hsame).
  { apply (wp_ospfs_link m src dir n); try done; [lia|]. intros m' n' e0 E H1 H2 H3. split; [done|]. by exists n', e0. }
  destruct (wp_run (ospfs_dir_lookup true dir name) fu m' (fun r t => t = m' /\ exists i, r = inr (Some i) /\ li_ino i = src))
    as (r & t & Hrun' & -> & i & -> & Hi).
  - apply (wp_dir_lookup m' dir n'); [apply E|by rewrite Hni|apply E|apply Hname|done| |].
    + intros e He Hm _. apply (entered_matches m (inode_at dir) n src name m' n' e0) in Hm; [|done|lia|done|done].
      subst e. pose proof (en_entry _ _ _ _ _ _ _ _ E) as He0. unfold entry in He0. injection He0 as He0 _. rewrite He0.
      apply wp_mk_linux_inode; [apply E|lia|intros t op _ _; split; [done|by eexists]|].
      replace (ld32 m' (oi_ftype (inode_at src))) with (ld32 m (oi_ftype (inode_at src))); [done|].
      unfold ld32. rewrite !Hsame; [done|..]; unfold within, word_at, within, oi_nlink, oi_ftype; lia.
    + intros Hnone. destruct (Hnone e0 (en_range _ _ _ _ _ _ _ _ E)).
      apply (entered_matches m (inode_at dir) n src name m' n' e0); [done|lia|done|apply E|done].
  - exists m', n', e0, i. done.
Qed.

(** ** Symbolic links *)

Lemma kstrlen_ok l : Forall (fun c => 0 < c < 256) l -> kstrlen l = Z.of_nat (length l).
Proof.
  induction 1 as [|c l Hc Hl IH]; [done|]. cbn [kstrlen length].
  destruct (Z.eqb_spec c 0); [lia|]. rewrite IH. lia.
Qed.

(** A link text: no zero byte, at most [OSPFS_MAXSYMLINKLEN] bytes. *)
Definition link_ok (text : list Z) : Prop := Forall (fun c => 0 < c < 256) text /\ (length text <= 51)%nat.

Lemma wp_init_symlink text a m fu (Q : unit -> mem -> Prop) : link_ok text ->
  (forall m', changes (within a (a + 64)) m m' -> ld32 m' (oi_size a) = Z.of_nat (length text) ->
     ld32 m' (oi_ftype a) = OSPFS_FTYPE_SYMLINK -> ld32 m' (oi_nlink a) = 1 ->
     cstring m' (oi_symlink a) text -> Q tt m') ->
  wp (init_symlink text a) fu m Q.
Proof.
  intros [Htext Hlen] HQ. unfold init_symlink. rewrite kstrlen_ok by done. rewrite Nat2Z.id, firstn_all.
  do 7 wp_step. set (l := text ++ [0]). assert (Hl : length l = S (length text)) by (unfold l; rewrite length_app; cbn; lia).
  set (m1 := st32 _ (oi_ftype a) OSPFS_FTYPE_SYMLINK).
  assert (Hb : ld_bytes (st_bytes m1 (oi_symlink a) l) (oi_symlink a) (length l) = l).
  { apply ld_bytes_st_bytes. unfold l. apply Forall_app. split; [|by repeat constructor].
    eapply Forall_impl; [exact Htext|]. cbn. lia. }
  assert (Hw : forall x, x + 4 <= a + 12 -> ld32 (st_bytes m1 (oi_symlink a) l) x = ld32 m1 x).
  { intros x Hx. apply (changes_ld32 (within (a + 12) (a + 64))); [|unfold within; lia].
    apply changes_st_bytes. intros b Hb'. unfold within, oi_symlink in *. lia. }
  unfold oi_size, oi_ftype, oi_nlink in *.
  apply HQ.
  - eapply changes_trans; [|apply changes_st_bytes; intros b Hb'; unfold within, oi_symlink in *; lia].
    repeat (eapply changes_trans; [|apply changes_st32; intros b Hb'; unfold within in *; lia]). apply changes_refl.
  - rewrite Hw by lia. unfold m1. rewrite !ld32_st32_ne by lia. rewrite ld32_st32_eq. apply u32_small. lia.
  - rewrite Hw by lia. unfold m1. by rewrite ld32_st32_eq.
  - rewrite Hw by lia. unfold m1. rewrite !ld32_st32_ne by lia. by rewrite ld32_st32_eq.
  - rewrite Hl, <- Nat.add_1_r, ld_bytes_add in Hb. unfold l in Hb.
    apply app_inj_1 in Hb as [Hb1 Hb2]; [|apply length_ld_bytes].
    split; [exact Hb1|]. split; [rewrite ld_bytes_S in Hb2; by injection Hb2|]. eapply Forall_impl; [exact Htext|]. cbn. lia.
Qed.

Lemma cstring_ext m m' a text : (forall b, a <= b < a + Z.of_nat (length text) + 1 -> ld8 m' b = ld8 m b) ->
  cstring m a text -> cstring m' a text.
Proof.
  intros H (H1 & H2 & H3). split; [|split; [|done]].
  - rewrite <- H1 at 2. apply ld_bytes_ext. intros b Hb. apply H. lia.
  - rewrite H by lia. done.
Qed.

Lemma strchr_app a c l : c ∉ a -> strchr (a ++ c :: l) c = Some (length a).
Proof.
  induction a as [|x a IH]; intros Hc; cbn; [by rewrite Z.eqb_refl|].
  rewrite not_elem_of_cons in Hc. destruct Hc as [Hx Hc]. rewrite (proj2 (Z.eqb_neq x c)) by done. by rewrite IH.
Qed.

Lemma strchr_some l c i : strchr l c = Some i -> exists p t, l = p ++ c :: t /\ length p = i.
Proof.
  revert i. induction l as [|x l IH]; intros i; cbn; [done|]. destruct (Z.eqb_spec x c) as [->|Hne].
  - intros [= <-]. by exists [], l.
  - destruct (strchr l c) as [j|]; [|done]. intros [= <-]. destruct (IH j eq_refl) as (p & t & -> & <-). by exists (x :: p), t.
Qed.

Lemma strchr_first l c i : strchr l c = Some i -> c ∉ take i l.
Proof.
  revert i. induction l as [|x l IH]; intros i; cbn; [done|]. destruct (Z.eqb_spec x c) as [->|Hne].
  - intros [= <-]. apply not_elem_of_nil.
  - destruct (strchr l c) as [j|]; [|done]. intros [= <-]. cbn. rewrite not_elem_of_cons. split; [congruence|by apply IH].
Qed.

(** The text of a conditional link: it begins with "root", and its first "?" comes
    before its first ":"; [a] is what is between them, [b] the rest. *)
Definition conditional (text a b : list Z) : Prop :=
  exists p, text = (root_text ++ p) ++ 63 :: a ++ 58 :: b /\ (63 ∉ p) /\ (58 ∉ p) /\ (58 ∉ a).

(** Where a link leads: the first half for the superuser and the second for
    everybody else; any other text is followed as it is. *)
Definition leads_to (uid : Z) (text target : list Z) : Prop :=
  (forall a b, conditional text a b -> target = if uid =? 0 then a else b) /\
  ((forall a b, ~ conditional text a b) -> target = text).

Lemma conditional_marks text a b : conditional text a b ->
  exists q c, link_marks text = Some (q, c) /\ take (c - q - 1) (drop (q + 1) text) = a /\ drop (c + 1) text = b.
Proof.
  intros (p & -> & H1 & H2 & H3). set (h := root_text ++ p).
  assert (Hh : (63 ∉ h) /\ (58 ∉ h)) by (unfold h, root_text; set_solver). destruct Hh as [Hh1 Hh2].
  exists (length h), (length h + S (length a))%nat. unfold link_marks. rewrite strchr_app by done.
  assert (E : h ++ 63 :: a ++ 58 :: b = (h ++ 63 :: a) ++ 58 :: b) by by rewrite <- app_assoc.
  assert (Hc : strchr (h ++ 63 :: a ++ 58 :: b) 58 = Some (length h + S (length a))%nat).
  { rewrite E, strchr_app by set_solver. f_equal. by rewrite length_app. }
  rewrite Hc, (proj2 (Nat.ltb_lt _ _)) by lia. rewrite bool_decide_true by reflexivity. split; [done|]. split.
  - replace (length h + S (length a) - length h - 1)%nat with (length a) by lia.
    rewrite Nat.add_1_r. change (drop (S ?n) (h ++ 63 :: a ++ 58 :: b)) with (drop (S n) (h ++ [63] ++ (a ++ 58 :: b))).
    rewrite app_assoc, drop_app_length' by (rewrite length_app; cbn; lia). apply take_app_length.
  - rewrite E. change (58 :: b) with ([58] ++ b). rewrite app_assoc. apply drop_app_length'. rewrite !length_app. cbn. lia.
Qed.

Lemma marks_conditional text q c : link_marks text = Some (q, c) -> exists a b, conditional text a b.
Proof.
  unfold link_marks. destruct (strchr text 63) as [q'|] eqn:Eq; [|done]. destruct (strchr text 58) as [c'|] eqn:Ec; [|done].
  destruct ((q' <? c')%nat && bool_decide (take 4 text = root_text)) eqn:E; [|done]. intros [= -> ->].
  apply andb_prop in E as [Hlt%Nat.ltb_lt Hr%bool_decide_eq_true].
  destruct (strchr_some _ _ _ Ec) as (p2 & b & -> & Hp2). pose proof (strchr_first _ _ _ Ec) as H58. pose proof (strchr_first _ _ _ Eq) as H63.
  rewrite <- Hp2, take_app_length in H58. destruct (strchr_some _ _ _ Eq) as (p1 & t & E1 & Hp1).
  assert (E2 : p2 = p1 ++ 63 :: drop (S q) p2).
  { assert (Hx : take (S q) (p2 ++ 58 :: b) = take (S q) (p1 ++ 63 :: t)) by by rewrite E1.
    rewrite take_app_le in Hx by lia. change (63 :: t) with ([63] ++ t) in Hx. rewrite app_assoc, take_app_length' in Hx by (rewrite length_app; cbn; lia).
    rewrite <- (take_drop (S q) p2) at 1. by rewrite Hx, <- app_assoc. }
  remember (drop (S q) p2) as a eqn:Ea. clear Ea. subst p2. rewrite <- app_assoc in *. cbn [app] in *.
  rewrite take_app_length' in H63 by done.
  assert (H4 : (4 <= length p1)%nat).
  { destruct (decide (4 <= length p1)%nat) as [|Hlt4]; [done|]. exfalso.
    assert (Hl : (take 4 (p1 ++ 63 :: a ++ 58 :: b)) !! length p1 = Some 63) by (rewrite lookup_take_lt by lia; by apply list_lookup_middle).
    rewrite Hr in Hl. apply list_elem_of_lookup_2 in Hl. unfold root_text in Hl. set_solver. }
  rewrite take_app_le in Hr by lia. exists a, b, (drop 4 p1). rewrite <- Hr, take_drop. split; [done|].
  assert (Hd : forall x, x ∉ p1 -> x ∉ drop 4 p1) by (intros x Hx Hin; apply Hx; rewrite <- (take_drop 4 p1), elem_of_app; by right).
  split; [by apply Hd|]. split; [apply Hd|]; set_solver.
Qed.

Lemma follow_leads uid text fu (m : mem) :
  wp (match link_marks text with
      | Some (question, colon) =>
          deref (Some tt) (fun _ =>
          if uid =? 0 then mret (take (colon - question - 1) (drop (question + 1) text)) else mret (drop (colon + 1) text))
      | None => mret text
      end) fu m (fun r t => t = m /\ leads_to uid text r).
Proof.
  destruct (link_marks text) as [[q c]|] eqn:E; cbn [deref].
  - assert (H : forall a b, conditional text a b -> take (c - q - 1) (drop (q + 1) text) = a /\ drop (c + 1) text = b).
    { intros a b (q' & c' & E' & Ha & Hb)%conditional_marks. rewrite E' in E. by injection E as -> ->. }
    destruct (marks_conditional _ _ _ E) as (a & b & Hab).
    destruct (uid =? 0) eqn:Eu; apply wp_ret; (split; [done|]); (split; [intros a' b' Hc; destruct (H a' b' Hc); by rewrite Eu|intros Hno; by destruct (Hno a b)]).
  - apply wp_ret. split; [done|]. split; [|done]. intros a b (q' & c' & E' & _)%conditional_marks. congruence.
Qed.

(** C17. Creating a symbolic link, with an inode free and room for the entry:
    the call returns 0, the directory has exactly one entry more, and following
    the link leads to its text, or for a conditional text "root?A:B" to A when the
    user is the superuser and to B otherwise, if the kernel grants the buffer that
    this takes. *)
Theorem ospfs_symlink_then_follow m dir n name text j fu uid :
  fs_ok m -> 0 <= dir < ninodes m -> dir_ok m (inode_at dir) n -> n <= 266 -> inode_nlink m dir <> 0 ->
  name_ok name -> link_ok text -> no_entry m (inode_at dir) n name -> entry_room m (inode_at dir) n ->
  free_inode m j -> 8200 <= Z.of_nat fu -> ninodes m < Z.of_nat fu ->
  exists i m' n' e0, ospfs_symlink true dir name text fu m = Ret (0, Some i) m' /\
    li_ino i = j /\ li_op i = SymlinkOps /\ li_size i = Z.of_nat (length text) /\
    entered m (inode_at dir) n j name m' n' e0 /\
    exists target, ospfs_follow_link true uid j fu m' = Ret target m' /\ leads_to uid text target.
Proof.
  intros F Hdir D Hn Hnl Hname Hlink Hno Hroom Hj Hfu Hfu2. pose proof Hj as (Hjr & _ & _).
  destruct (wp_run (ospfs_symlink true dir name text) fu m (fun r m' => exists i n' e0, r = (0, Some i) /\
      (li_ino i = j /\ li_op i = SymlinkOps /\ li_size i = Z.of_nat (length text)) /\
      entered m (inode_at dir) n j name m' n' e0 /\ ninodes m' = ninodes m /\
      cstring m' (oi_symlink (inode_at j)) text))
    as (r & m' & Hrun & i & n' & e0 & -> & (Hi1 & Hi2 & Hi3) & E & Hni & Hc).
  - unfold ospfs_symlink. apply wp_bind, wp_ospfs_inode; [done|done|]. fold (inode_at dir).
    rewrite kstrlen_ok by apply Hlink.
    rewrite (proj2 (Z.ltb_ge OSPFS_MAXNAMELEN _)) by (destruct Hname; unfold OSPFS_MAXNAMELEN, OSPFS_DIRENTRY_SIZE; lia).
    rewrite (proj2 (Z.ltb_ge OSPFS_MAXSYMLINKLEN _)) by (destruct Hlink; unfold OSPFS_MAXSYMLINKLEN, OSPFS_INODESIZE; lia).
    cbn [orb]. wp_step. apply wp_bind, (wp_find_direntry m (inode_at dir) n); [done|done| |].
    { intros e He Hm _. by destruct (Hno e He). }
    intros _. apply wp_bind, (wp_blank m (inode_at dir) n); [done|done|done|lia| |].
    2: { intros Hall Hlt. specialize (Hroom Hall). lia. }
    intros m1 n' e0 B.
    apply (wp_enter_inode m dir n m1 n' e0 name j (init_symlink text)
      (fun t => ld32 t (oi_size (inode_at j)) = Z.of_nat (length text) /\
         ld32 t (oi_ftype (inode_at j)) = OSPFS_FTYPE_SYMLINK /\ cstring t (oi_symlink (inode_at j)) text)); try done.
    + intros Q' HQ'. apply wp_init_symlink; [done|]. intros m2 Hch H1 H2 H3 H4. by apply HQ'.
    + intros m2 m3 (H1 & H2 & H3) E Hsame Hni.
      assert (Hw : forall x, inode_at j <= x -> x + 4 <= inode_at j + 64 -> ld32 m3 x = ld32 m2 x).
      { intros x Hx1 Hx2. unfold ld32. rewrite !Hsame; [done|..]; unfold within; lia. }
      rewrite <- Hw in H1, H2 by (unfold oi_size, oi_ftype; lia).
      apply wp_bind, wp_mk_linux_inode; [apply E|lia| |rewrite H2; unfold OSPFS_FTYPE_SYMLINK; lia].
      intros t op Hop Ht. assert (op = SymlinkOps) as ->.
      { rewrite H2 in Ht. unfold OSPFS_FTYPE_REG, OSPFS_FTYPE_DIR, OSPFS_FTYPE_SYMLINK in *. naive_solver. }
      wp_step. eexists _, n', e0. split; [done|]. split; [done|]. split; [done|]. split; [done|].
      eapply cstring_ext; [|exact H3]. destruct Hlink as [_ Hlen]. intros b Hb. apply Hsame.
      unfold within, oi_symlink in *. lia.
  - exists i, m', n', e0. split; [done|]. do 3 (split; [done|]). split; [done|].
    destruct (wp_run (ospfs_follow_link true uid j) fu m' (fun r t => t = m' /\ leads_to uid text r))
      as (r & t & Hrun' & -> & Hr); [|by exists r].
    unfold ospfs_follow_link. apply wp_bind, wp_ospfs_inode; [apply E|fold (ninodes m'); lia|]. wp_step.
    apply wp_bind, (wp_strlen _ text); [exact Hc|destruct Hlink; lia|]. do 2 wp_step.
    fold (inode_at j). rewrite Nat2Z.id, (proj1 Hc). apply follow_leads.
Qed.
