(* ===== verification/OspfsUnlink.v ===== *)
(** * OSPFS: removing names and listing directories *)

From S2P Require Import Prelude CMemory OspfsLayout OspfsAlloc OspfsFile OspfsTree OspfsWork OspfsGrow OspfsShrink OspfsSize OspfsIo OspfsDir OspfsDirSpec OspfsNames.

(** ** Frames: what an operation on one file does to another *)

(** Two inodes whose files share no block. *)
Definition separate (m : mem) (oi n oi' n' : Z) : Prop :=
  (oi + 64 <= oi' \/ oi' + 64 <= oi) /\
  forall r r', live n r -> live n' r' -> blk m oi r <> blk m oi' r'.

Lemma sized_frame P m m' oi n : sized m oi n -> changes P m m' ->
  (forall a, super_area a -> ~ P a) -> (forall a, within oi (oi + 8) a -> ~ P a) ->
  (forall a, tree_area m oi (live n) a -> ~ P a) -> (forall r, live n r -> blk m oi r ∉ free_list m') ->
  sized m' oi n /\ (forall r, live n r -> blk m' oi r = blk m oi r) /\ ld32 m' (oi_size oi) = ld32 m (oi_size oi).
Proof.
  intros S Hch Hsup Hhead Htree Hfree. destruct (sz_file _ _ _ S) as [Hn T].
  destruct (tree_frame m oi _ T P m' Hch Hsup Htree Hfree) as [T' Hkeep].
  assert (Hw : forall x, oi <= x -> x + 4 <= oi + 8 -> ld32 m' x = ld32 m x).
  { intros x H1 H2. apply (changes_ld32 _ _ _ _ Hch). intros a Ha. apply Hhead. unfold within in *. lia. }
  split; [|split; [intros r Hr; by apply Hkeep, (attachable_member m oi _ T)|apply Hw; unfold oi_size; lia]].
  split; [by split| |].
  - rewrite Hw by (unfold oi_size; lia). apply S.
  - rewrite Hw by (unfold oi_ftype; lia). apply S.
Qed.

Lemma dir_frame P m m' oi n : dir_ok m oi n -> changes P m m' ->
  (forall a, super_area a -> ~ P a) -> (forall a, within oi (oi + 8) a -> ~ P a) ->
  (forall a, tree_area m oi (live n) a -> ~ P a) -> (forall a, data_area m oi n a -> ~ P a) ->
  (forall r, live n r -> blk m oi r ∉ free_list m') ->
  dir_ok m' oi n /\ (forall r, live n r -> blk m' oi r = blk m oi r) /\
  (forall e, 0 <= e < 8 * n -> entry m' oi e = entry m oi e).
Proof.
  intros D Hch Hsup Hhead Htree Hdata Hfree.
  destruct (sized_frame P m m' oi n (dr_sized _ _ _ D) Hch Hsup Hhead Htree Hfree) as (S' & Hbl & Hsz).
  assert (Hent : forall e, 0 <= e < 8 * n -> dirent_at m' oi e = dirent_at m oi e /\ entry m' oi e = entry m oi e /\
    ld_bytes m' (od_name (dirent_at m' oi e)) 124 = ld_bytes m (od_name (dirent_at m oi e)) 124).
  { intros e He. apply (entry_frame _ _ _ _ _ Hch); [apply Hbl; cbn; divlia|]. intros a Ha.
    apply Hdata. by eapply entry_data_area. }
  split; [|split; [done|intros e He; by apply Hent]]. split; [done|rewrite Hsz; apply D|].
  intros e He H0. destruct (Hent e He) as (_ & He2 & Hb). rewrite Hb. apply (dr_name _ _ _ D); [done|].
  unfold entry in He2. congruence.
Qed.

(** Where the blocks and the inode of a file lie. *)
Lemma block_range m oi n r a : sized m oi n -> live n r -> in_block (blk m oi r) a ->
  1024 * data_start m <= a /\ a < 1024 * 1024.
Proof.
  intros S Hr Ha. destruct (tr_used _ _ _ (proj2 (sz_file _ _ _ S)) r Hr) as [? _].
  unfold in_block, within in Ha. lia.
Qed.

(** Freeing all blocks of one file leaves a separate directory alone. *)
Lemma dir_after_shrink m oi n fi k m' : fs_ok m -> dir_ok m oi n -> sized m fi k -> separate m oi n fi k ->
  shrunk_to m fi k 0 m' ->
  dir_ok m' oi n /\ (forall r, live n r -> blk m' oi r = blk m oi r) /\
  (forall e, 0 <= e < 8 * n -> entry m' oi e = entry m oi e).
Proof.
  intros F D S [Hsep Hblk] G. pose proof (dr_sized _ _ _ D) as SD. destruct (sz_file _ _ _ SD) as [Hn TD].
  destruct (sz_file _ _ _ S) as [Hk T]. destruct (tr_inode _ _ _ TD) as [Hd1 Hd2]. destruct (tr_inode _ _ _ T) as [Hf1 Hf2].
  assert (Hblocks : forall r, live n r -> forall a, in_block (blk m oi r) a -> ~ shrink_area m fi (live k) a).
  { intros r Hr a Ha. destruct (block_range m oi n r a SD Hr Ha) as [Hlo Hhi].
    intros [Hb|[Hs|[Hi|(q & Hq & _ & Hb)]]].
    - unfold bitmap_area, within in Hb. lia.
    - unfold word_at, oi_size, within in Hs. lia.
    - unfold inode_slots, within in Hi. lia.
    - pose proof (Hblk r q Hr Hq). unfold in_block, within in *. lia. }
  assert (Hinode : forall a, within oi (oi + 64) a -> ~ shrink_area m fi (live k) a).
  { intros a Ha. unfold within in Ha. intros [Hb|[Hs|[Hi|(q & Hq & _ & Hb)]]].
    - unfold bitmap_area, within in Hb. lia.
    - unfold word_at, oi_size, within in Hs. lia.
    - unfold inode_slots, within in Hi. lia.
    - pose proof (block_range m fi k q a S Hq Hb). lia. }
  apply (dir_frame (shrink_area m fi (live k)) m m' oi n D (st_changes _ _ _ _ _ G)).
  - intros a Ha Hs%shrink_grow. by apply (super_outside_grow m fi k a F (sz_file _ _ _ S)).
  - intros a Ha. apply Hinode. unfold within in *. lia.
  - intros a [Hi|(q & Hq & _ & Hb)]; [apply Hinode; unfold inode_slots, within in *; lia|by apply (Hblocks q Hq)].
  - intros a (i & Hi & Hb). by apply (Hblocks (RData i) Hi).
  - intros r Hr. rewrite (st_free _ _ _ _ _ G). intros [Hf|(q & Hq & _ & Hb)].
    + by apply (tr_used _ _ _ TD r Hr).
    + by apply (Hblk r q Hr Hq).
Qed.

(** Shrinking a file leaves the superblock alone. *)
Lemma shrunk_ninodes m fi k m' : sized m fi k -> shrunk_to m fi k 0 m' -> ninodes m' = ninodes m.
Proof.
  intros S G. apply (ninodes_kept _ _ _ (st_changes _ _ _ _ _ G)). unfold super_area.
  destruct (sz_file _ _ _ S) as [_ T]. destruct (tr_inode _ _ _ T) as [Hlo _]. pose proof (data_start_ge m) as Hds.
  intros a Ha [Hb|[Hs|[Hi|(q & Hq & _ & Hb)]]].
  - unfold bitmap_area, within in *. lia.
  - unfold word_at, oi_size, within in *. lia.
  - unfold inode_slots, within in *. lia.
  - pose proof (block_range m fi k q a S Hq Hb). unfold within in *. lia.
Qed.

(** Nor does it touch the number of links. *)
Lemma shrunk_nlink m fi k m' : sized m fi k -> shrunk_to m fi k 0 m' -> ld32 m' (oi_nlink fi) = ld32 m (oi_nlink fi).
Proof.
  intros S G. apply (changes_ld32 _ _ _ _ (st_changes _ _ _ _ _ G)). unfold oi_nlink.
  destruct (sz_file _ _ _ S) as [_ T]. destruct (tr_inode _ _ _ T) as [Hlo Hhi]. pose proof (data_start_ge m) as Hds.
  intros a Ha [Hb|[Hs|[Hi|(q & Hq & _ & Hb)]]].
  - unfold bitmap_area, within in *. lia.
  - unfold word_at, oi_size, within in *. lia.
  - unfold inode_slots, within in *. lia.
  - pose proof (block_range m fi k q a S Hq Hb). unfold within in *. lia.
Qed.

(** ** ospfs_unlink *)

(** Whether the last link to a file that has blocks goes away. *)
Definition last_link (m : mem) (ino : Z) : bool :=
  (inode_nlink m ino =? 1) && negb (ld32 m (oi_ftype (inode_at ino)) =? OSPFS_FTYPE_SYMLINK).

(** The state after the entry [e0] was removed. *)
Record unlinked (m : mem) (ino k dir n e0 : Z) (m' : mem) : Prop := Unlinked {
  un_fs : fs_ok m';
  un_dir : dir_ok m' (inode_at dir) n;
  un_entry : entry_ino m' (inode_at dir) e0 = 0;
  un_other : forall e, 0 <= e < 8 * n -> e <> e0 -> entry m' (inode_at dir) e = entry m (inode_at dir) e;
  un_nlink : inode_nlink m' ino = inode_nlink m ino - 1;
  un_kept : last_link m ino = false -> free_list m' = free_list m /\ sized m' (inode_at ino) k /\
    ld32 m' (oi_size (inode_at ino)) = ld32 m (oi_size (inode_at ino));
  un_freed : last_link m ino = true -> file_ok m' (inode_at ino) 0 /\ ld32 m' (oi_size (inode_at ino)) = 0 /\
    (forall j, j ∈ free_list m' <-> j ∈ free_list m \/ exists r, live k r /\ blk m (inode_at ino) r = j);
  un_ninodes : ninodes m' = ninodes m
}.

Section Unlink.
Context (m : mem) (ino k dir n e0 : Z) (fu : nat).
Context (F : fs_ok m) (Hdir : 0 <= dir < ninodes m) (D : dir_ok m (inode_at dir) n).
Context (Hino : 0 <= ino < ninodes m) (S : sized m (inode_at ino) k).
Context (Hsep : separate m (inode_at dir) n (inode_at ino) k) (He0 : 0 <= e0 < 8 * n).

Abbreviation oi := (inode_at dir).
Abbreviation fi := (inode_at ino).

(** [od->od_ino = 0] *)
Lemma unlink_entry : let m1 := st32 m (od_ino (dirent_at m oi e0)) 0 in
  fs_ok m1 /\ dir_ok m1 oi n /\ entry_ino m1 oi e0 = 0 /\ free_list m1 = free_list m /\ ninodes m1 = ninodes m /\
  (forall e, 0 <= e < 8 * n -> e <> e0 -> entry m1 oi e = entry m oi e) /\
  sized m1 fi k /\ separate m1 oi n fi k /\
  (forall r, live k r -> blk m1 fi r = blk m fi r) /\ (forall a, within fi (fi + 64) a -> ld8 m1 a = ld8 m a).
Proof.
  intros m1. set (a0 := dirent_at m oi e0) in *.
  assert (Hch : changes (within a0 (a0 + 4)) m m1) by (apply changes_st32; unfold od_ino; done).
  assert (Hch' : changes (entry_area m oi e0) m m1).
  { eapply changes_weaken; [exact Hch|]. unfold entry_area, within. fold a0. lia. }
  pose proof (dr_sized _ _ _ D) as SD.
  destruct (data_write m oi n m1 F SD) as (_ & _ & _ & Hbl & _).
  { eapply changes_weaken; [done|]. intros b Hb. by eapply entry_data_area. }
  assert (Ha1 : dirent_at m1 oi e0 = a0) by (unfold dirent_at; rewrite Hbl; [done|cbn; divlia]).
  assert (Hi0 : entry_ino m1 oi e0 = 0) by (unfold entry_ino; rewrite Ha1; unfold m1; by rewrite ld32_st32_eq).
  destruct (entry_write m oi n e0 m1 F D He0 Hch') as (F1 & D1 & Hfl & _ & _ & Hni & Hoth); [done|].
  destruct (sz_file _ _ _ S) as [Hk T]. destruct (tr_inode _ _ _ T) as [Hf1 Hf2].
  assert (Hb0 : forall a, entry_area m oi e0 a -> in_block (blk m oi (RData (e0 / 8))) a).
  { intros a. apply entry_in_block. }
  assert (Hlive : live n (RData (e0 / 8))) by (cbn; divlia).
  assert (Hout : forall a, within fi (fi + 64) a -> ~ entry_area m oi e0 a).
  { intros a Ha Hb%Hb0. destruct (block_range m oi n _ a SD Hlive Hb). unfold within in Ha. lia. }
  destruct (sized_frame (entry_area m oi e0) m m1 fi k S Hch') as (S1 & Hbf & _).
  - intros a Ha Hb%Hb0. destruct (block_range m oi n _ a SD Hlive Hb). pose proof (data_start_ge m).
    unfold super_area, within in Ha. lia.
  - intros a Ha. apply Hout. unfold within in *. lia.
  - intros a [Ha|(q & Hq & _ & Ha)]; [apply Hout; unfold inode_slots, within in *; lia|]. intros Hb%Hb0.
    pose proof (proj2 Hsep _ _ Hlive Hq). unfold in_block, within in *. lia.
  - intros r Hr. rewrite Hfl. by apply (tr_used _ _ _ T).
  - split; [done|]. split; [done|]. split; [done|]. split; [done|]. split; [exact Hni|]. split; [done|]. split; [done|].
    split; [|split; [done|intros a Ha; apply Hch'; by apply Hout]].
    split; [exact (proj1 Hsep)|]. intros r r' Hr Hr'. rewrite Hbl, Hbf by done. by apply (proj2 Hsep).
Qed.

(** [oi->oi_nlink--] *)
Lemma unlink_nlink m1 v : fs_ok m1 -> dir_ok m1 oi n -> sized m1 fi k -> separate m1 oi n fi k ->
  ninodes m1 = ninodes m ->
  let m2 := st32 m1 (oi_nlink fi) v in
  fs_ok m2 /\ dir_ok m2 oi n /\ sized m2 fi k /\ separate m2 oi n fi k /\ free_list m2 = free_list m1 /\
  (forall e, 0 <= e < 8 * n -> entry m2 oi e = entry m1 oi e) /\
  (forall r, live k r -> blk m2 fi r = blk m1 fi r) /\
  ld32 m2 (oi_size fi) = ld32 m1 (oi_size fi) /\ ld32 m2 (oi_ftype fi) = ld32 m1 (oi_ftype fi) /\
  ninodes m2 = ninodes m1.
Proof.
  intros F1 D1 S1 Hsep1 Hni m2. destruct (inode_in_table m1 ino ltac:(rewrite Hni; lia)) as [Hlo Hhi].
  assert (Hch : changes (within (fi + 8) (fi + 12)) m1 m2).
  { apply changes_st32. unfold oi_nlink, within. lia. }
  assert (Hch' : changes (within fi (fi + 64)) m1 m2).
  { eapply changes_weaken; [exact Hch|]. unfold within. lia. }
  destruct (inode_write m1 oi n fi m2 F1 D1 Hlo Hhi) as (F2 & D2 & Hfl & Hbl & Hni2 & Hent);
    [destruct Hsep1; lia|done|].
  destruct (sized_frame _ m1 m2 fi k S1 Hch) as (S2 & Hbf & Hsz).
  - unfold super_area, within. lia.
  - unfold within. lia.
  - intros a [Ha|(q & Hq & _ & Ha)]; [unfold inode_slots, within in *; lia|].
    pose proof (block_range m1 fi k q a S1 Hq Ha). unfold within. lia.
  - intros r Hr. rewrite Hfl. by apply (tr_used _ _ _ (proj2 (sz_file _ _ _ S1))).
  - split; [done|]. split; [done|]. split; [done|].
    split; [split; [exact (proj1 Hsep1)|intros r r' Hr Hr'; rewrite Hbl, Hbf by done; by apply (proj2 Hsep1)]|].
    split; [done|]. split; [intros e He; by apply Hent|]. split; [done|]. split; [done|].
    split; [|exact Hni2]. apply (changes_ld32 _ _ _ _ Hch). unfold within, oi_ftype. lia.
Qed.

Lemma wp_ospfs_unlink name (Q : Z -> mem -> Prop) :
  matches name (entry m oi e0) -> (forall e', 0 <= e' < e0 -> ~ matches name (entry m oi e')) ->
  1 <= inode_nlink m ino -> 8200 <= Z.of_nat fu ->
  (forall m', unlinked m ino k dir n e0 m' -> Q 0 m') ->
  wp (ospfs_unlink ino dir name) fu m Q.
Proof.
  intros Hm Hlow Hnl Hfu HQ. unfold ospfs_unlink.
  apply wp_bind, wp_ospfs_inode; [done|done|]. apply wp_bind, wp_ospfs_inode; [done|done|].
  fold (inode_at ino) (inode_at dir). wp_step. apply wp_bind, (wp_search m oi n); [done|done| |].
  2: { intros Hno. exfalso. exact (Hno e0 He0 Hm). }
  intros e He Hme Hlowe. assert (e = e0) as ->.
  { destruct (Z.lt_trichotomy e e0) as [Hl|[Hl|Hl]];
      [exfalso; exact (Hlow e ltac:(lia) Hme)|exact Hl|exfalso; exact (Hlowe e0 ltac:(lia) Hm)]. }
  do 2 wp_step. rewrite (dr_size _ _ _ D), (proj2 (Z.eqb_neq (128 * e0) (1024 * n))) by lia.
  do 4 wp_step. destruct unlink_entry as (F1 & D1 & Hi1 & Hfl1 & Hni1 & Hoth1 & S1 & Hsep1 & Hbf1 & Hin1).
  set (m1 := st32 m (od_ino (dirent_at m oi e0)) 0) in *.
  do 4 wp_step. assert (Hn1 : ld32 m1 (oi_nlink fi) = inode_nlink m ino).
  { unfold inode_nlink, ld32. rewrite !Hin1; [done|..]; unfold within, oi_nlink; lia. }
  rewrite Hn1. do 6 wp_step. set (v := u32 (inode_nlink m ino - 1)).
  destruct (unlink_nlink m1 v F1 D1 S1 Hsep1 Hni1) as (F2 & D2 & S2 & Hsep2 & Hfl2 & Hent2 & Hbf2 & Hsz2 & Hty2 & Hni2).
  set (m2 := st32 m1 (oi_nlink fi) v) in *.
  assert (Hnl2 : ld32 m2 (oi_nlink fi) = v) by (unfold m2; by rewrite ld32_st32_eq; apply u32_u32).
  assert (Hty : ld32 m2 (oi_ftype fi) = ld32 m (oi_ftype fi)).
  { rewrite Hty2. unfold ld32. rewrite !Hin1; [done|..]; unfold within, oi_ftype; lia. }
  assert (Hsz : ld32 m2 (oi_size fi) = ld32 m (oi_size fi)).
  { rewrite Hsz2. unfold ld32. rewrite !Hin1; [done|..]; unfold within, oi_size; lia. }
  assert (Hv : v = inode_nlink m ino - 1).
  { unfold v. apply u32_small. pose proof (ld32_range m (oi_nlink fi)). unfold inode_nlink in *. lia. }
  rewrite Hnl2, Hty.
  assert (Hlast : (v <=? 0) && negb (ld32 m (oi_ftype fi) =? OSPFS_FTYPE_SYMLINK) = last_link m ino).
  { unfold last_link. f_equal. rewrite Hv. destruct (Z.leb_spec (inode_nlink m ino - 1) 0);
      destruct (Z.eqb_spec (inode_nlink m ino) 1); lia || done. }
  rewrite Hlast. destruct (last_link m ino) eqn:El; cbn [when].
  - wp_step.
    apply (wp_change_size_shrink m2 fi k 0 fu F2 (sz_file _ _ _ S2) (sized_nblocks _ _ _ S2)); [lia|lia|apply S2|].
    change (ospfs_size2nblocks 0) with 0. intros m3 G Hs3. do 2 wp_step.
    destruct (dir_after_shrink m2 oi n fi k m3 F2 D2 S2 Hsep2 G) as (D3 & _ & Hent3).
    apply HQ. split; try done.
    + apply G.
    + pose proof (Hent3 e0 He0) as H3. rewrite Hent2 in H3 by done. unfold entry in H3. congruence.
    + intros e' He' Hne. rewrite Hent3, Hent2 by done. by apply Hoth1.
    + unfold inode_nlink at 1. by rewrite (shrunk_nlink m2 fi k m3 S2 G), Hnl2, Hv.
    + by rewrite El.
    + intros _. split; [apply G|]. split; [done|]. intros j. rewrite (st_free _ _ _ _ _ G), Hfl2, Hfl1.
      split; (intros [?|(r & Hr)]; [by left|right; exists r]).
      * destruct Hr as (Hr & _ & <-). by rewrite Hbf2, Hbf1.
      * destruct Hr as (Hr & <-). rewrite Hbf2, Hbf1 by done. split; [done|]. split; [|done].
        destruct r; cbn; lia.
    + rewrite (shrunk_ninodes m2 fi k m3), Hni2, Hni1 by done. done.
  - wp_step. wp_step. apply HQ. split; try done.
    + pose proof (Hent2 e0 He0) as H2. unfold entry in H2. congruence.
    + intros e' He' Hne. rewrite Hent2 by done. by apply Hoth1.
    + unfold inode_nlink at 1. by rewrite Hnl2, Hv.
    + intros _. split; [congruence|]. split; [done|]. done.
    + by rewrite El.
    + by rewrite Hni2, Hni1.
Qed.
End Unlink.


(** ** ospfs_dir_readdir *)

(** What [filldir] is told about the entries from number [a] on, entry [e] at
    position [e + shift]. *)
Definition listing (m : mem) (oi n shift a : Z) : list dirent :=
  omap (fun e => if entry_ino m oi e =? 0 then None
    else Some (Dirent (entry_name m oi e) (e + shift) (entry_ino m oi e)
                 (default 0 (dirent_type (ld32 m (oi_ftype (inode_at (entry_ino m oi e)))))))) (seqZ a (8 * n - a)).

(** The entries in use name inodes that exist, of a known type. *)
Definition entries_valid (m : mem) (oi n : Z) : Prop :=
  forall e, 0 <= e < 8 * n -> entry_ino m oi e <> 0 ->
    entry_ino m oi e < ninodes m /\ ld32 m (oi_ftype (inode_at (entry_ino m oi e))) <= 2.

(** A [filldir] that takes everything. *)
Definition accept_all (out : list dirent) (e : dirent) : Z := 0.

Lemma dirent_type_some m a : ld32 m a <= 2 -> dirent_type (ld32 m a) = Some (default 0 (dirent_type (ld32 m a))).
Proof.
  intros H. pose proof (ld32_range m a). unfold dirent_type, OSPFS_FTYPE_REG, OSPFS_FTYPE_DIR, OSPFS_FTYPE_SYMLINK.
  destruct (Z.eqb_spec (ld32 m a) 0); [done|]. destruct (Z.eqb_spec (ld32 m a) 1); [done|].
  destruct (Z.eqb_spec (ld32 m a) 2); [done|lia].
Qed.

Lemma listing_step m oi n shift a : 0 <= a < 8 * n ->
  listing m oi n shift a =
    (if entry_ino m oi a =? 0 then []
     else [Dirent (entry_name m oi a) (a + shift) (entry_ino m oi a)
             (default 0 (dirent_type (ld32 m (oi_ftype (inode_at (entry_ino m oi a))))))])
    ++ listing m oi n shift (a + 1).
Proof.
  intros Ha. unfold listing at 1. rewrite seqZ_cons by lia. cbn [omap list_omap].
  replace (Z.succ a) with (a + 1) by lia. replace (Z.pred (8 * n - a)) with (8 * n - (a + 1)) by lia.
  by destruct (entry_ino m oi a =? 0).
Qed.

Lemma wp_readdir_loop m oi n ent shift out fu (Q : Z * Z * list dirent -> mem -> Prop) :
  fs_ok m -> dir_ok m oi n -> entries_valid m oi n -> 0 < ninodes m -> 0 <= ent <= 8 * n -> 0 <= shift <= 2 ->
  2 <= ent + shift -> 8200 <= Z.of_nat fu ->
  Q (1, 8 * n + shift, out ++ listing m oi n shift ent) m ->
  wp (readdir_loop accept_all oi (ent + shift) ent out) fu m Q.
Proof.
  intros F D V Hni Hent Hshift Hpos Hfu HQ. unfold readdir_loop.
  pose proof (n_range _ _ _ (sz_file _ _ _ (dr_sized _ _ _ D))) as Hn.
  apply (wp_loop (fun '(p, e, o) t => t = m /\ p = e + shift /\ ent <= e <= 8 * n /\
                    o ++ listing m oi n shift e = out ++ listing m oi n shift ent)
                 (fun '(_, e, _) => Z.to_nat (8 * n - e))).
  - split; [done|]. split; [done|]. split; [lia|done].
  - lia.
  - intros [[p e] o] t (-> & -> & He & Hout). rewrite (proj2 (Z.ltb_ge (e + shift) 2)) by lia.
    do 2 wp_step. unfold OSPFS_DIRENTRY_SIZE. rewrite (dr_size _ _ _ D), u32_small by lia.
    destruct (Z.leb_spec (1024 * n) (e * 128)) as [Hend|Hlt].
    + wp_step. assert (e = 8 * n) as -> by lia.
      assert (Hnil : listing m oi n shift (8 * n) = []) by (unfold listing; by rewrite Z.sub_diag).
      rewrite Hnil, app_nil_r in Hout. by rewrite Hout.
    + apply wp_bind, (dir_data m oi n); [done|lia|by rewrite Z.mod_mul|].
      replace (e * 128 / 128) with e by (by rewrite Z.div_mul). do 2 wp_step.
      change (ld32 m (od_ino (dirent_at m oi e))) with (entry_ino m oi e).
      rewrite (listing_step m oi n shift e) in Hout by lia.
      destruct (Z.eqb_spec (entry_ino m oi e) 0) as [H0|H0].
      * rewrite H0. apply wp_bind, wp_ospfs_inode; [done|exact (conj (Z.le_refl 0) Hni)|]. wp_step.
        rewrite u32_small by lia. split; [|lia]. split; [done|]. split; [lia|]. split; [lia|done].
      * destruct (V e ltac:(lia) H0) as [Hlt' Hty]. pose proof (ld32_range m (od_ino (dirent_at m oi e))) as Hr.
        change (ld32 m (od_ino (dirent_at m oi e))) with (entry_ino m oi e) in Hr.
        apply wp_bind, wp_ospfs_inode; [done|fold (ninodes m); lia|]. fold (inode_at (entry_ino m oi e)).
        do 3 wp_step. rewrite dirent_type_some by done.
        destruct (cname_cstring m _ _ (dr_name _ _ _ D e ltac:(lia) H0)) as [Hc Hlen]. fold (entry_name m oi e) in Hc, Hlen.
        apply wp_bind, (wp_strlen _ (entry_name m oi e)); [done|lia|]. do 2 wp_step.
        rewrite Nat2Z.id, (proj1 Hc). cbn [accept_all Z.leb Z.compare]. wp_step.
        rewrite u32_small by lia. split; [|lia]. split; [done|]. split; [lia|]. split; [lia|].
        by rewrite <- app_assoc.
Qed.

(** C20. Listing a directory from position 0 with a caller that takes
    everything: ".", "..", then every entry in use, in order, once, with its
    inode number and type, entry [e] at position [e + 2]; the call returns 1 and
    leaves the position at the end. *)
Theorem readdir_from_start m dir parent n fu :
  fs_ok m -> 0 <= dir < ninodes m -> dir_ok m (inode_at dir) n -> entries_valid m (inode_at dir) n ->
  8200 <= Z.of_nat fu ->
  ospfs_dir_readdir accept_all dir parent 0 fu m =
    Ret (1, 8 * n + 2, [Dirent [46] 0 dir DT_DIR; Dirent [46; 46] 1 parent DT_DIR]
                         ++ listing m (inode_at dir) n 2 0) m.
Proof.
  intros F Hdir D V Hfu. pose proof (proj1 (sz_file _ _ _ (dr_sized _ _ _ D))) as Hn.
  set (res := (1, 8 * n + 2, _)).
  destruct (wp_run (ospfs_dir_readdir accept_all dir parent 0) fu m (fun r t => r = res /\ t = m))
    as (r & t & -> & -> & ->); [|done].
  unfold ospfs_dir_readdir. apply wp_bind, wp_ospfs_inode; [done|done|]. fold (inode_at dir).
  change (u32 0) with 0.
  lazy beta iota zeta delta [accept_all Z.eqb Z.leb Z.add Z.compare Pos.eqb Pos.compare Pos.compare_cont Pos.add Pos.succ andb].
  wp_step.
  apply (wp_readdir_loop m (inode_at dir) n 0 2); try done; lia.
Qed.

(** Resuming a listing at position [p >= 2] starts at entry [p], although
    position [p] stands for entry [p - 2]: two entries are left out, and the
    positions reported are two too low. *)
Theorem readdir_resumed_skips m dir parent n p fu :
  fs_ok m -> 0 <= dir < ninodes m -> dir_ok m (inode_at dir) n -> entries_valid m (inode_at dir) n ->
  2 <= p <= 8 * n -> 8200 <= Z.of_nat fu ->
  ospfs_dir_readdir accept_all dir parent p fu m = Ret (1, 8 * n, listing m (inode_at dir) n 0 p) m.
Proof.
  intros F Hdir D V Hp Hfu. pose proof (n_range _ _ _ (sz_file _ _ _ (dr_sized _ _ _ D))) as Hn.
  set (res := (1, 8 * n, _)).
  destruct (wp_run (ospfs_dir_readdir accept_all dir parent p) fu m (fun r t => r = res /\ t = m))
    as (r & t & -> & -> & ->); [|done].
  unfold ospfs_dir_readdir. apply wp_bind, wp_ospfs_inode; [done|done|]. fold (inode_at dir).
  rewrite u32_small by lia. rewrite (proj2 (Z.eqb_neq p 0)), (proj2 (Z.eqb_neq p 1)) by lia.
  change (0 <=? 0) with true. cbv beta iota zeta. rewrite ?andb_false_r, ?andb_true_r. cbv beta iota zeta.
  rewrite andb_true_l, (proj2 (Z.leb_le 2 p) (proj1 Hp)). wp_step.
  rewrite <- (Z.add_0_r p) at 1. apply (wp_readdir_loop m (inode_at dir) n p 0); try done; [lia|lia|lia|].
  by rewrite Z.add_0_r.
Qed.
