(* ===== verification/OspfsDisks.v ===== *)
(** * OSPFS: the directory theorems on concrete disks

    A disk with a root directory (inode 1, block 4) and a file "a" (inode 2,
    block 5); the well-formedness of such disks is decided by computation. *)

From S2P Require Import Prelude CMemory OspfsLayout OspfsAlloc OspfsFile OspfsTree OspfsWork OspfsGrow OspfsShrink OspfsSize OspfsIo OspfsSpec OspfsDir OspfsDirSpec OspfsNames OspfsUnlink.

(** ** Deciding well-formedness *)

(** A file of [n <= 10] direct blocks. *)
Definition direct_check (m : mem) (oi n : Z) : bool :=
  let bs := map (fun i => ld32 m (oi_direct oi i)) (seqZ 0 n) in
  (0 <=? n) && (n <=? 10) && (3072 <=? oi) && (oi + 64 <=? 1024 * data_start m) &&
  forallb (fun b => (data_start m <=? b) && (b <? 1024) && negb (is_free m b)) bs &&
  bool_decide (NoDup bs) && (ld32 m (oi_indirect oi) =? 0) && (ld32 m (oi_indirect2 oi) =? 0) &&
  (1024 * n - 1024 <? ld32 m (oi_size oi)) && (ld32 m (oi_size oi) <=? 1024 * n) &&
  negb (ld32 m (oi_ftype oi) =? OSPFS_FTYPE_SYMLINK).

Lemma direct_sized m oi n : direct_check m oi n = true -> sized m oi n.
Proof.
  unfold direct_check. rewrite !andb_true_iff, !negb_true_iff, !Z.leb_le, Z.ltb_lt, !Z.eqb_eq, Z.eqb_neq, bool_decide_eq_true.
  intros [[[[[[[[[[H1 H2] H3] H4] Hb] Hnd] Hi] Hi2] Hs1] Hs2] Ht].
  split; [|done|done]. apply direct_file_ok; try done.
  rewrite forallb_forall in Hb. apply Forall_forall. intros i Hi0.
  assert (Hin : In (ld32 m (oi_direct oi i)) (map (fun i => ld32 m (oi_direct oi i)) (seqZ 0 n))).
  { apply (in_map (fun i => ld32 m (oi_direct oi i))). by apply list_elem_of_In. }
  apply Hb in Hin. rewrite !andb_true_iff, negb_true_iff, Z.leb_le, Z.ltb_lt in Hin.
  destruct Hin as [Hr Hf]. split; [done|]. rewrite elem_of_free_list, Hf. by intros [? _].
Qed.

Definition dir_check (m : mem) (oi n : Z) : bool :=
  direct_check m oi n && (ld32 m (oi_size oi) =? 1024 * n) &&
  forallb (fun e => (entry_ino m oi e =? 0) || bool_decide (0 ∈ ld_bytes m (od_name (dirent_at m oi e)) 124))
    (seqZ 0 (8 * n)).

Lemma dir_checked m oi n : dir_check m oi n = true -> dir_ok m oi n.
Proof.
  unfold dir_check. rewrite !andb_true_iff, Z.eqb_eq. intros [[Hd Hs] Hall].
  split; [by apply direct_sized|done|]. intros e He Hne. rewrite forallb_forall in Hall.
  assert (Hin : In e (seqZ 0 (8 * n))) by (apply list_elem_of_In, elem_of_seqZ; lia).
  apply Hall in Hin. rewrite orb_true_iff, Z.eqb_eq, bool_decide_eq_true in Hin. by destruct Hin.
Qed.

(** A property of all entries. *)
Lemma all_entries (P : Z -> Prop) (f : Z -> bool) a k : (forall e, f e = true -> P e) ->
  forallb f (seqZ a k) = true -> forall e, a <= e < a + k -> P e.
Proof.
  intros Hf H e He. apply Hf. rewrite forallb_forall in H. apply H, list_elem_of_In, elem_of_seqZ. lia.
Qed.

Lemma no_entry_check m oi n name :
  forallb (fun e => bool_decide (~ matches name (entry m oi e))) (seqZ 0 (8 * n)) = true -> no_entry m oi n name.
Proof.
  intros H. refine (all_entries (fun e => ~ matches name (entry m oi e)) _ 0 (8 * n) _ H).
  intros e. apply bool_decide_eq_true.
Qed.

Definition entry_valid_check (m : mem) (oi e : Z) : bool :=
  (entry_ino m oi e =? 0) ||
  ((entry_ino m oi e <? ninodes m) && (ld32 m (oi_ftype (inode_at (entry_ino m oi e))) <=? 2)).

Lemma entries_valid_check m oi n :
  forallb (entry_valid_check m oi) (seqZ 0 (8 * n)) = true -> entries_valid m oi n.
Proof.
  intros H. refine (all_entries (fun e => entry_ino m oi e <> 0 -> entry_ino m oi e < ninodes m /\
    ld32 m (oi_ftype (inode_at (entry_ino m oi e))) <= 2) _ 0 (8 * n) _ H).
  intros e. unfold entry_valid_check. rewrite orb_true_iff, andb_true_iff, Z.eqb_eq, Z.ltb_lt, Z.leb_le.
  intros [?|?]; done.
Qed.

(** ** The disks *)

(** [image] with the root directory, whose entry 0 is "a", and the file "hello". *)
Definition rooted (ws : list Z) : mem :=
  st_bytes (fold_left (fun m '(a, v) => st32 m a v)
    [(3136, 1024); (3140, 1); (3144, 1); (3152, 4); (3200, 5); (3208, 1); (3216, 5); (4096, 2); (4100, 97)]
    (image ws)) 5120 [104; 101; 108; 108; 111].

Definition tree : mem := rooted [0xFFFFFFC0].

Lemma tree_fs : fs_ok tree.
Proof. apply fs_ok_check; [reflexivity|vm_compute; discriminate|vm_compute; reflexivity]. Qed.

Lemma tree_dir : dir_ok tree (inode_at 1) 1.
Proof. apply dir_checked. vm_compute. reflexivity. Qed.

Lemma tree_free_inode : free_inode tree 3.
Proof.
  split; [vm_compute; split; congruence|]. split; [reflexivity|]. intros j Hj. assert (j = 2) as -> by lia. vm_compute. congruence.
Qed.

Lemma tree_room : entry_room tree (inode_at 1) 1.
Proof. intros H. exfalso. apply (H 1); [lia|]. vm_compute. reflexivity. Qed.

Lemma tree_no_b : no_entry tree (inode_at 1) 1 [98].
Proof. apply no_entry_check. vm_compute. reflexivity. Qed.

(** ** Creating and linking *)

Lemma ospfs_create_then_lookup_witness :
  exists m', ospfs_create true 1 [98] 420 (Z.to_nat 9000) tree = Ret (0, Some (LinuxInode 3 0 33188 RegOps 1)) m' /\
    ospfs_dir_lookup true 1 [98] (Z.to_nat 9000) m' = Ret (inr (Some (LinuxInode 3 0 33188 RegOps 1))) m'.
Proof.
  destruct (ospfs_create_then_lookup tree 1 1 [98] 420 3 (Z.to_nat 9000) tree_fs ltac:(vm_compute; split; congruence) tree_dir
    ltac:(lia) ltac:(vm_compute; congruence) ltac:(split; [repeat constructor; lia|cbn; lia]) ltac:(lia) tree_no_b tree_room
    tree_free_inode ltac:(lia) ltac:(vm_compute; reflexivity)) as (m' & H1 & _ & H2).
  exists m'. split; [exact H1|exact H2].
Defined.

Lemma ospfs_create_errors_witness : ospfs_create true 1 [97] 420 (Z.to_nat 9000) tree = Ret (- EEXIST, None) tree.
Proof.
  exact (ospfs_create_errors tree 1 1 [97] 420 (Z.to_nat 9000) tree_fs ltac:(vm_compute; split; congruence) tree_dir
    ltac:(lia) ltac:(lia)).
Defined.

(** The same disk with the inodes 2 to 15 in use. *)
Definition crowded : mem := fold_left (fun m j => st32 m (oi_nlink (inode_at j)) 1) (seqZ 2 14) tree.

Lemma crowded_fs : fs_ok crowded.
Proof. apply fs_ok_check; [reflexivity|vm_compute; discriminate|vm_compute; reflexivity]. Qed.

Lemma crowded_nlink j : 2 <= j < ninodes crowded -> inode_nlink crowded j <> 0.
Proof.
  intros Hj. apply (all_entries (fun j => inode_nlink crowded j <> 0) (fun j => negb (inode_nlink crowded j =? 0)) 2 14);
    [|vm_compute; reflexivity|exact Hj].
  intros i. rewrite negb_true_iff. apply Z.eqb_neq.
Qed.

Lemma ospfs_create_no_inode_witness :
  exists i m', ospfs_create true 1 [98] 420 (Z.to_nat 9000) crowded = Ret (0, Some i) m' /\ li_ino i = 0 /\
    ospfs_dir_lookup true 1 [98] (Z.to_nat 9000) m' = Ret (inr None) m'.
Proof.
  exact (ospfs_create_no_inode crowded 1 1 [98] 420 (Z.to_nat 9000) crowded_fs ltac:(vm_compute; split; congruence)
    (dir_checked crowded (inode_at 1) 1 ltac:(vm_compute; reflexivity)) ltac:(lia)
    ltac:(split; [repeat constructor; lia|cbn; lia])
    (no_entry_check crowded (inode_at 1) 1 [98] ltac:(vm_compute; reflexivity))
    ltac:(intros H; exfalso; apply (H 1); [lia|vm_compute; reflexivity])
    crowded_nlink ltac:(vm_compute; reflexivity) ltac:(lia) ltac:(vm_compute; reflexivity)).
Defined.

Lemma ospfs_link_then_lookup_witness :
  exists m' i, ospfs_link 2 1 [98] (Z.to_nat 9000) tree = Ret 0 m' /\ inode_nlink m' 2 = 2 /\
    ospfs_dir_lookup true 1 [98] (Z.to_nat 9000) m' = Ret (inr (Some i)) m' /\ li_ino i = 2.
Proof.
  destruct (ospfs_link_then_lookup tree 2 1 1 [98] (Z.to_nat 9000) tree_fs ltac:(vm_compute; split; congruence) tree_dir
    ltac:(lia) ltac:(vm_compute; split; congruence) ltac:(lia) ltac:(vm_compute; congruence)
    ltac:(split; [repeat constructor; lia|cbn; lia]) tree_no_b tree_room ltac:(lia))
    as (m' & n' & e0 & i & H1 & _ & H2 & _ & H3 & H4).
  exists m', i. split; [exact H1|]. split; [exact H2|]. split; [exact H3|exact H4].
Defined.

(** "root?a:b", followed by the superuser. *)
Lemma ospfs_symlink_then_follow_witness :
  exists i m', ospfs_symlink true 1 [98] [114; 111; 111; 116; 63; 97; 58; 98] (Z.to_nat 9000) tree = Ret (0, Some i) m' /\
    ospfs_follow_link true 0 3 (Z.to_nat 9000) m' = Ret [97] m'.
Proof.
  destruct (ospfs_symlink_then_follow tree 1 1 [98] [114; 111; 111; 116; 63; 97; 58; 98] 3 (Z.to_nat 9000) 0 tree_fs
    ltac:(vm_compute; split; congruence) tree_dir ltac:(lia) ltac:(vm_compute; congruence)
    ltac:(split; [repeat constructor; lia|cbn; lia]) ltac:(split; [repeat constructor; lia|cbn; lia])
    tree_no_b tree_room tree_free_inode ltac:(lia) ltac:(vm_compute; reflexivity))
    as (i & m' & n' & e0 & H1 & _ & _ & _ & _ & target & H2 & Hl & _).
  exists i, m'. split; [exact H1|]. rewrite H2. f_equal. apply (Hl [97] [98]). exists []. split; [reflexivity|].
  split; [by apply (bool_decide_unpack _)|]. split; by apply (bool_decide_unpack _).
Defined.

(** ** Removing and listing *)

Lemma tree_separate : separate tree (inode_at 1) 1 (inode_at 2) 1.
Proof.
  split; [left; vm_compute; congruence|]. intros [i| | |j] [i'| | |j']; cbn [live]; try lia. intros H H'.
  assert (i = 0) as -> by lia. assert (i' = 0) as -> by lia. vm_compute. congruence.
Qed.


Lemma readdir_from_start_witness :
  ospfs_dir_readdir accept_all 1 1 0 (Z.to_nat 9000) tree =
    Ret (1, 10, [Dirent [46] 0 1 DT_DIR; Dirent [46; 46] 1 1 DT_DIR; Dirent [97] 2 2 DT_REG]) tree.
Proof.
  refine (eq_trans (readdir_from_start tree 1 1 1 (Z.to_nat 9000) tree_fs ltac:(vm_compute; split; congruence) tree_dir
    (entries_valid_check tree (inode_at 1) 1 ltac:(vm_compute; reflexivity)) ltac:(lia)) _).
  assert (H : listing tree (inode_at 1) 1 2 0 = [Dirent [97] 2 2 DT_REG]) by (vm_compute; reflexivity).
  rewrite H. reflexivity.
Defined.

(** Resuming at position 2, where "a" was reported, "a" is not listed. *)
Lemma readdir_resumed_skips_witness :
  ospfs_dir_readdir accept_all 1 1 2 (Z.to_nat 9000) tree = Ret (1, 8, []) tree.
Proof.
  refine (eq_trans (readdir_resumed_skips tree 1 1 1 2 (Z.to_nat 9000) tree_fs ltac:(vm_compute; split; congruence) tree_dir
    (entries_valid_check tree (inode_at 1) 1 ltac:(vm_compute; reflexivity)) ltac:(lia) ltac:(lia)) _).
  assert (H : listing tree (inode_at 1) 1 0 2 = []) by (vm_compute; reflexivity).
  rewrite H. reflexivity.
Defined.
