(* ===== verification/MposLib.v ===== *)
(** * MiniprocOS: the library (weensyos1/lib.c)

    The memory functions as their byte loops, and [console_vprintf] over the
    CGA memory at 0xB8000.  A format is its bytes without the final zero, so
    that a [char *] into it is the list of the bytes that are left; a [va_list]
    is the list of the arguments that are left.  [numbuf] and the strings that
    are printed appear as the bytes before their zero. *)

From S2P Require Import Prelude CMemory.

(** ** memcpy, memmove, memset, strlen, strnlen *)

(** [while (n-- > 0) *d++ = *s++;] *)
Fixpoint copy_up (n : nat) (d s : Z) : prog mem unit :=
  match n with
  | O => mret tt
  | S n' => b ← load8 s; store8 d b;; copy_up n' (d + 1) (s + 1)
  end.

(** [while (n-- > 0) *--d = *--s;] *)
Fixpoint copy_down (n : nat) (d s : Z) : prog mem unit :=
  match n with
  | O => mret tt
  | S n' => b ← load8 (s - 1); store8 (d - 1) b;; copy_down n' (d - 1) (s - 1)
  end.

Definition memcpy (dst src n : Z) : prog mem Z :=
  copy_up (Z.to_nat n) dst src;; mret dst.

Definition memmove (dst src n : Z) : prog mem Z :=
  (if (src <? dst) && (dst <? src + n) then copy_down (Z.to_nat n) (dst + n) (src + n)
   else copy_up (Z.to_nat n) dst src);;
  mret dst.

Fixpoint fill_up (n : nat) (p c : Z) : prog mem unit :=
  match n with
  | O => mret tt
  | S n' => store8 p c;; fill_up n' (p + 1) c
  end.

Definition memset_lib (v c n : Z) : prog mem Z := fill_up (Z.to_nat n) v c;; mret v.

Definition strlen_lib (s : Z) : prog mem Z :=
  loop (fun '(s, n) => b ← load8 s; mret (if b =? 0 then inr n else inl (s + 1, u32 (n + 1)))) (s, 0).

Definition strnlen (s maxlen : Z) : prog mem Z :=
  loop (fun '(s, n) =>
    if n =? maxlen then mret (inr n)
    else b ← load8 s; mret (if b =? 0 then inr n else inl (s + 1, u32 (n + 1)))) (s, 0).

(** ** The console *)

Definition CONSOLE_BEGIN : Z := 0xB8000.
Definition CONSOLE_END : Z := CONSOLE_BEGIN + 2 * (80 * 25).

(** A 16-bit store. *)
Definition store16 (a v : Z) : prog mem unit := store8 a v;; store8 (a + 1) (v / 2 ^ 8).

(** [for (; pos != 80; pos++) *cursor++ = ' ' | color;] *)
Fixpoint blanks (n : nat) (cursor color : Z) : prog mem Z :=
  match n with
  | O => mret cursor
  | S n' => store16 cursor (Z.lor 32 color);; blanks n' (cursor + 2) color
  end.

(** A cursor is the address of a cell, of two bytes. *)
Definition console_putc (cursor c color : Z) : prog mem Z :=
  let cursor := if CONSOLE_END <=? cursor then CONSOLE_BEGIN else cursor in
  let c := u8 c in
  if c =? 10 then
    let pos := ((cursor - CONSOLE_BEGIN) / 2) mod 80 in
    blanks (Z.to_nat (80 - pos)) cursor color
  else
    store16 cursor (Z.lor c color);; mret (cursor + 2).

(** [for (; n > 0; --n) cursor = console_putc(cursor, c, color);] *)
Fixpoint putc_n (n : nat) (cursor c color : Z) : prog mem Z :=
  match n with
  | O => mret cursor
  | S n' => cursor ← console_putc cursor c color; putc_n n' cursor c color
  end.

(** [for (; len > 0; ++data, --len) cursor = console_putc(cursor, *data, color);] *)
Fixpoint console_puts (cursor : Z) (data : list Z) (color : Z) : prog mem Z :=
  match data with
  | [] => mret cursor
  | c :: data' => cursor ← console_putc cursor c color; console_puts cursor data' color
  end.

(** ** Numbers *)

Definition upper_digits : list Z := [48; 49; 50; 51; 52; 53; 54; 55; 56; 57; 65; 66; 67; 68; 69; 70].
Definition lower_digits : list Z := [48; 49; 50; 51; 52; 53; 54; 55; 56; 57; 97; 98; 99; 100; 101; 102].

(** [do { *--numbuf_end = digits[val % base]; val /= base; } while (val != 0);]
    in front of [acc]; a 32-bit value has at most 32 digits. *)
Fixpoint digit_loop (n : nat) (val base : Z) (digits acc : list Z) : list Z :=
  match n with
  | O => acc
  | S n' =>
      let acc := nth (Z.to_nat (val mod base)) digits 0 :: acc in
      if val / base =? 0 then acc else digit_loop n' (val / base) base digits acc
  end.

Definition fill_numbuf (val base : Z) (digits : list Z) (precision : Z) : list Z :=
  if negb (precision =? 0) || negb (val =? 0) then digit_loop 32 val base digits [] else [].

Definition NUMBUFSIZ : Z := 20.

(** ** Formats *)

Inductive varg := VInt (x : Z) | VStr (s : list Z).

Definition FLAG_ALT : Z := 1.
Definition FLAG_ZERO : Z := 2.
Definition FLAG_LEFTJUSTIFY : Z := 4.
Definition FLAG_SPACEPOSITIVE : Z := 8.
Definition FLAG_PLUSPOSITIVE : Z := 16.
Definition flag_chars : list Z := [35; 48; 45; 32; 43].   (* "#0- +" *)

(** The index of a character in [flag_chars]. *)
Fixpoint flag_index (chars : list Z) (c : Z) : option Z :=
  match chars with
  | [] => None
  | f :: chars' => if f =? c then Some 0 else option_map Z.succ (flag_index chars' c)
  end.

Fixpoint parse_flags (format : list Z) (flags : Z) : Z * list Z :=
  match format with
  | [] => (flags, format)
  | c :: format' =>
      match flag_index flag_chars c with
      | None => (flags, format)
      | Some i => parse_flags format' (Z.lor flags (Z.shiftl 1 i))
      end
  end.

Definition is_digit (c : Z) : bool := (48 <=? c) && (c <=? 57).

(** [for (...; *format >= '0' && *format <= '9'; ) n = 10 * n + *format++ - '0';] *)
Fixpoint parse_number (format : list Z) (n : Z) : Z * list Z :=
  match format with
  | c :: format' => if is_digit c then parse_number format' (s32 (10 * n + c - 48)) else (n, format)
  | [] => (n, format)
  end.

Definition va_int (args : list varg) : option (Z * list varg) :=
  match args with VInt x :: args' => Some (s32 x, args') | _ => None end.
Definition va_str (args : list varg) : option (list Z * list varg) :=
  match args with VStr s :: args' => Some (s, args') | _ => None end.

Definition head0 (format : list Z) : Z := match format with c :: _ => c | [] => 0 end.

(** The width and what is left of the format and the arguments. *)
Definition parse_width (format : list Z) (args : list varg) : option (Z * list Z * list varg) :=
  let c := head0 format in
  if (49 <=? c) && (c <=? 57) then
    let '(width, format) := parse_number format 0 in Some (width, format, args)
  else if c =? 42 then
    '(width, args) ← va_int args; Some (width, tail format, args)
  else Some (-1, format, args).

Definition parse_precision (format : list Z) (args : list varg) : option (Z * list Z * list varg) :=
  if head0 format =? 46 then
    let format := tail format in
    let c := head0 format in
    '(precision, format, args) ←
      (if is_digit c then let '(precision, format) := parse_number format 0 in Some (precision, format, args)
       else if c =? 42 then '(precision, args) ← va_int args; Some (precision, tail format, args)
       else Some (-1, format, args));
    Some (if precision <? 0 then 0 else precision, format, args)
  else Some (-1, format, args).

(** What a conversion leaves: the new colour of %C, or the data to print and
    whether it is a number and a negative one. *)
Inductive conversion :=
| Color (color : Z)
| Data (data : list Z) (numeric negative : bool).

(** A C string that starts with these bytes. *)
Fixpoint until_zero (l : list Z) : list Z :=
  match l with [] => [] | c :: l' => if c =? 0 then [] else c :: until_zero l' end.

Definition convert (c : Z) (precision : Z) (args : list varg) : option (conversion * list varg) :=
  if c =? 100 then
    '(x, args) ← va_int args;
    Some (Data (fill_numbuf (u32 (if 0 <? x then x else - x)) 10 upper_digits precision) true (x <? 0), args)
  else if c =? 117 then
    '(x, args) ← va_int args; Some (Data (fill_numbuf (u32 x) 10 upper_digits precision) true false, args)
  else if c =? 120 then
    '(x, args) ← va_int args; Some (Data (fill_numbuf (u32 x) 16 lower_digits precision) true false, args)
  else if c =? 88 then
    '(x, args) ← va_int args; Some (Data (fill_numbuf (u32 x) 16 upper_digits precision) true false, args)
  else if c =? 115 then
    '(s, args) ← va_str args; Some (Data (until_zero s) false false, args)
  else if c =? 67 then
    '(color, args) ← va_int args; Some (Color color, args)
  else if c =? 99 then
    '(x, args) ← va_int args; Some (Data (until_zero [u8 x]) false false, args)
  else Some (Data [if c =? 0 then 37 else c] false false, args).

(** Padding, sign, zeros and data. *)
Definition print_data (cursor color flags width precision : Z) (data : list Z) (numeric negative : bool) : prog mem Z :=
  let len := if 0 <=? precision then Z.min precision (Z.of_nat (length data)) else Z.of_nat (length data) in
  let sign :=
    if numeric && negative then 45
    else if negb (Z.land flags FLAG_PLUSPOSITIVE =? 0) then 43
    else if negb (Z.land flags FLAG_SPACEPOSITIVE =? 0) then 32
    else 0 in
  let has_sign := if sign =? 0 then 0 else 1 in
  let zeros :=
    if numeric && (len <? precision) then precision - len
    else if (Z.land flags (Z.lor FLAG_ZERO FLAG_LEFTJUSTIFY) =? FLAG_ZERO) && numeric && (precision <? 0)
            && (len + has_sign <? width) then width - len - has_sign
    else 0 in
  let width := s32 (width - (len + zeros + has_sign)) in
  let left := negb (Z.land flags FLAG_LEFTJUSTIFY =? 0) in
  let before := if left then 0 else width in
  let after := if left then width else Z.min width 0 in
  cursor ← putc_n (Z.to_nat before) cursor 32 color;
  cursor ← (if sign =? 0 then mret cursor else console_putc cursor sign color);
  cursor ← putc_n (Z.to_nat zeros) cursor 48 color;
  cursor ← console_puts cursor (take (Z.to_nat len) data) color;
  putc_n (Z.to_nat after) cursor 32 color.

(** The conversion after a percent sign: what is left of the format (after the
    conversion character), the cursor, the colour and the arguments. *)
Definition format_one (cursor color : Z) (format : list Z) (args : list varg)
    : prog mem (list Z * Z * Z * list varg) :=
  let '(flags, format) := parse_flags format 0 in
  deref (parse_width format args) (fun '(width, format, args) =>
  deref (parse_precision format args) (fun '(precision, format, args) =>
  deref (convert (head0 format) precision args) (fun '(conv, args) =>
    match conv with
    | Color color => mret (tail format, cursor, color, args)
    | Data data numeric negative =>
        cursor ← print_data cursor color flags width precision data numeric negative;
        mret (tail format, cursor, color, args)
    end))).

Definition console_vprintf (cursor color : Z) (format : list Z) (args : list varg) : prog mem Z :=
  loop (fun '(format, cursor, color, args) =>
    match format with
    | [] => mret (inr cursor)
    | c :: format =>
        if negb (c =? 37) then
          cursor ← console_putc cursor c color; mret (inl (format, cursor, color, args))
        else
          r ← format_one cursor color format args; mret (inl r)
    end) (format, cursor, color, args).

Definition console_printf (cursor color : Z) (format : list Z) (args : list varg) : prog mem Z :=
  console_vprintf cursor color format args.
