(* ===== verification/MposLibSpec.v ===== *)
(** * MiniprocOS: the library is correct *)

From S2P Require Import Prelude CMemory MposLib.

(** ** memmove *)

(** The bytes of [m] at [src], moved to [dst]. *)
Definition moved (m m' : mem) (dst src n : Z) : Prop :=
  forall a, ld8 m' a = if decide (within dst (dst + n) a) then ld8 m (src + (a - dst)) else ld8 m a.

(** Copying upwards reads every byte before it is overwritten if the
    destination is below the source or the two do not overlap. *)
Lemma wp_copy_up n d s fu m (Q : unit -> mem -> Prop) :
  d <= s \/ s + Z.of_nat n <= d -> (forall m', moved m m' d s (Z.of_nat n) -> Q tt m') ->
  wp (copy_up n d s) fu m Q.
Proof.
  revert d s m. induction n as [|n IH]; intros d s m Hov HQ; cbn [copy_up].
  - wp_step. apply HQ. intros a. case_decide; [unfold within in *; lia|done].
  - wp_steps. apply IH; [lia|]. intros m' Hm. apply HQ. intros a. rewrite Hm. unfold within.
    repeat case_decide; try lia.
    + rewrite ld8_st8_ne by lia. f_equal. lia.
    + rewrite ld8_st8. case_decide; [|lia]. subst a. rewrite Z.sub_diag, Z.add_0_r. apply u8_small, ld8_range.
    + by rewrite ld8_st8_ne by lia.
Qed.

(** Copying downwards does if the destination is above the source. *)
Lemma wp_copy_down n d s fu m (Q : unit -> mem -> Prop) :
  s <= d -> (forall m', moved m m' (d - Z.of_nat n) (s - Z.of_nat n) (Z.of_nat n) -> Q tt m') ->
  wp (copy_down n d s) fu m Q.
Proof.
  revert d s m. induction n as [|n IH]; intros d s m Hov HQ; cbn [copy_down].
  - wp_step. apply HQ. intros a. case_decide; [unfold within in *; lia|done].
  - wp_steps. apply IH; [lia|]. intros m' Hm. apply HQ. intros a. rewrite Hm. unfold within.
    repeat case_decide; try lia.
    + rewrite ld8_st8_ne by lia. f_equal. lia.
    + rewrite ld8_st8. case_decide; [|lia]. subst a. replace (s - Z.of_nat (S n) + _) with (s - 1) by lia.
      apply u8_small, ld8_range.
    + by rewrite ld8_st8_ne by lia.
Qed.

(** What [copy_up] leaves, whether or not source and destination overlap. *)
Fixpoint copied (n : nat) (d s : Z) (m : mem) : mem :=
  match n with O => m | S n' => copied n' (d + 1) (s + 1) (st8 m d (ld8 m s)) end.

Lemma copy_up_copied n d s fu m : copy_up n d s fu m = Ret tt (copied n d s m).
Proof. revert d s m. induction n as [|n IH]; intros d s m; [done|]. apply IH. Qed.

Lemma memcpy_copied dst src n fu m : memcpy dst src n fu m = Ret dst (copied (Z.to_nat n) dst src m).
Proof. unfold memcpy, mbind, prog_bind. by rewrite copy_up_copied. Qed.

Lemma copied_moved n d s m : d <= s \/ s + Z.of_nat n <= d -> moved m (copied n d s m) d s (Z.of_nat n).
Proof.
  intros Hov. destruct (wp_run (copy_up n d s) 0 m (fun _ m' => moved m m' d s (Z.of_nat n))) as ([] & m' & Hrun & H).
  - by apply wp_copy_up.
  - rewrite copy_up_copied in Hrun. by injection Hrun as ->.
Qed.

Lemma copied_changes n : forall d s m, changes (within d (d + Z.of_nat n)) m (copied n d s m).
Proof.
  induction n as [|n IH]; intros d s m; cbn [copied]; [apply changes_refl|]. intros a Ha. unfold within in Ha.
  rewrite IH by (unfold within; lia). apply ld8_st8_ne. lia.
Qed.

(** C30. [memmove] copies as if through a buffer of its own, however source and
    destination overlap; [memcpy] does so when they do not. *)
Theorem memmove_moves dst src n fu m : 0 <= n ->
  (exists m', memmove dst src n fu m = Ret dst m' /\ moved m m' dst src n) /\
  (src + n <= dst \/ dst + n <= src ->
   exists m', memcpy dst src n fu m = Ret dst m' /\ moved m m' dst src n).
Proof.
  intros Hn. split; [|intros Hov].
  - destruct (wp_run (memmove dst src n) fu m (fun r m' => r = dst /\ moved m m' dst src n)) as (r & m' & -> & -> & H); [|by exists m'].
    unfold memmove. apply wp_bind. destruct ((src <? dst) && (dst <? src + n)) eqn:E.
    + rewrite andb_true_iff, !Z.ltb_lt in E. apply wp_copy_down; [lia|]. rewrite Z2Nat.id by done. intros m' Hm. wp_step.
      split; [done|]. by replace (dst + n - n) with dst in Hm by lia; replace (src + n - n) with src in Hm by lia.
    + rewrite andb_false_iff, !Z.ltb_ge in E. apply wp_copy_up; rewrite Z2Nat.id by done; [lia|]. intros m' Hm. by wp_step.
  - destruct (wp_run (memcpy dst src n) fu m (fun r m' => r = dst /\ moved m m' dst src n)) as (r & m' & -> & -> & H); [|by exists m'].
    unfold memcpy. apply wp_bind, wp_copy_up; rewrite Z2Nat.id by done; [lia|]. intros m' Hm. by wp_step.
Qed.

(** ** Numbers *)

(** The digit that a character stands for, and the number that digits stand for. *)
Definition digit_value (c : Z) : Z := if c <? 65 then c - 48 else c - 55.
Definition number (base : Z) (ds : list Z) : Z := fold_left (fun a c => base * a + digit_value c) ds 0.

Lemma digit_value_nth d : 0 <= d < 16 -> digit_value (nth (Z.to_nat d) upper_digits 0) = d.
Proof.
  intros Hd.
  assert (H : d = 0 \/ d = 1 \/ d = 2 \/ d = 3 \/ d = 4 \/ d = 5 \/ d = 6 \/ d = 7 \/ d = 8 \/ d = 9 \/ d = 10 \/
    d = 11 \/ d = 12 \/ d = 13 \/ d = 14 \/ d = 15) by lia.
  destruct_or! H; subst d; reflexivity.
Qed.

(** The loop puts the digits of [val] in front: enough rounds, the value, the
    length and the first digit. *)
Lemma digit_loop_spec base n val acc : 2 <= base <= 16 -> 0 <= val < base ^ Z.of_nat n ->
  exists ds, digit_loop n val base upper_digits acc = ds ++ acc /\
    (forall a, fold_left (fun a c => base * a + digit_value c) ds a = base ^ Z.of_nat (length ds) * a + val) /\
    (0 < val -> base ^ (Z.of_nat (length ds) - 1) <= val) /\ (length ds <= n)%nat /\
    (n <> 0%nat -> ds <> []) /\ (val = 0 -> n <> 0%nat -> ds = [48]) /\
    Forall (fun c => exists d, 0 <= d < base /\ c = nth (Z.to_nat d) upper_digits 0) ds.
Proof.
  intros Hb. revert val acc. induction n as [|n IH]; intros val acc Hv.
  - exists []. assert (val = 0) as -> by (cbn in Hv; lia). split; [done|]. split; [intros a; cbn; lia|]. cbn. split; [lia|]. by split.
  - cbn [digit_loop]. pose proof (Z.mod_pos_bound val base ltac:(lia)) as Hm. pose proof (Z.div_mod val base ltac:(lia)) as Hdm.
    set (c := nth (Z.to_nat (val mod base)) upper_digits 0).
    assert (Hc : digit_value c = val mod base) by (apply digit_value_nth; lia).
    destruct (Z.eqb_spec (val / base) 0) as [H0|H0].
    + exists [c]. split; [done|]. cbn [fold_left length]. split; [intros a; rewrite Hc; change (base ^ Z.of_nat 1) with (base ^ 1); rewrite Z.pow_1_r; lia|].
      change (Z.of_nat 1 - 1) with 0. rewrite Z.pow_0_r. split; [lia|]. split; [lia|]. split; [done|]. split.
      * intros -> _. unfold c. by rewrite Z.mod_0_l by lia.
      * constructor; [|done]. by exists (val mod base).
    + assert (Hq : 0 <= val / base < base ^ Z.of_nat n).
      { split; [apply Z.div_pos; lia|]. apply Z.div_lt_upper_bound; [lia|].
        rewrite <- Z.pow_succ_r, <- Nat2Z.inj_succ by lia. lia. }
      destruct (IH (val / base) (c :: acc) Hq) as (ds & Heq & Hval & Hlow & Hlen & Hne & _ & Hds).
      exists (ds ++ [c]). split; [by rewrite Heq, <- app_assoc|]. split.
      { intros a. rewrite fold_left_app, Hval. cbn [fold_left]. rewrite Hc, length_app. cbn [length].
        replace (Z.of_nat (length ds + 1)) with (Z.succ (Z.of_nat (length ds))) by lia. rewrite Z.pow_succ_r by lia. lia. }
      rewrite length_app. cbn [length]. split.
      { intros _. specialize (Hlow ltac:(lia)). assert (Hn : ds <> []).
        { apply Hne. intros ->. cbn in Hq. lia. }
        assert (0 < Z.of_nat (length ds)) by (destruct ds; [done|cbn; lia]).
        replace (Z.of_nat (length ds + 1) - 1) with (Z.succ (Z.of_nat (length ds) - 1)) by lia.
        rewrite Z.pow_succ_r by lia. nia. }
      split; [lia|]. split; [by intros _ [_ ?]%app_nil|]. split; [intros -> _; by rewrite Z.div_0_l in H0 by lia|].
      apply Forall_app. split; [done|]. constructor; [|done]. by exists (val mod base).
Qed.

(** The decimal or hexadecimal numeral of a 32-bit value. *)
Lemma fill_numbuf_spec val base : 0 <= val < 2 ^ 32 -> base = 10 \/ base = 16 ->
  let ds := fill_numbuf val base upper_digits (-1) in
  number base ds = val /\ (1 <= length ds <= 10)%nat /\ (0 < val -> base ^ (Z.of_nat (length ds) - 1) <= val) /\
  (val = 0 -> ds = [48]) /\ (base = 10 -> Forall (fun c => is_digit c = true) ds).
Proof.
  intros Hv Hb ds.
  assert (Hle : 2 ^ 32 <= base ^ Z.of_nat 32) by (destruct Hb as [-> | ->]; vm_compute; congruence).
  destruct (digit_loop_spec base 32 val [] ltac:(lia) ltac:(lia)) as (ds' & Heq & Hval & Hlow & Hlen & Hne & Hz & Hds').
  assert (Hds : ds = ds').
  { unfold ds, fill_numbuf. change (negb (-1 =? 0) || negb (val =? 0)) with true. rewrite app_nil_r in Heq. exact Heq. }
  clearbody ds. subst ds'.
  split; [unfold number; rewrite Hval; lia|]. split; [|split; [done|split; [intros H; by apply Hz|]]].
  2: { intros ->. eapply Forall_impl; [exact Hds'|]. intros c (d & Hd & ->).
       assert (H : d = 0 \/ d = 1 \/ d = 2 \/ d = 3 \/ d = 4 \/ d = 5 \/ d = 6 \/ d = 7 \/ d = 8 \/ d = 9) by lia.
       destruct_or! H; subst d; reflexivity. }
  split; [destruct ds; [by destruct Hne|cbn [length]; lia]|].
  destruct (decide (val = 0)) as [->|Hn]; [rewrite Hz by done; cbn; lia|].
  destruct (Nat.le_gt_cases (length ds) 10) as [|Hgt]; [done|exfalso].
  specialize (Hlow ltac:(lia)). clear Hle Hval Hne Hz.
  pose proof (Z.pow_le_mono_r base 10 (Z.of_nat (length ds) - 1) ltac:(lia) ltac:(lia)).
  assert (2 ^ 32 < base ^ 10) by (destruct Hb as [-> | ->]; vm_compute; congruence). lia.
Qed.

(** ** The console stays on the screen *)

(** A cursor on a cell of the screen, or just behind the last one. *)
Definition on_screen (cursor : Z) : Prop := exists i, 0 <= i <= 2000 /\ cursor = CONSOLE_BEGIN + 2 * i.

Definition screen : Z -> Prop := within CONSOLE_BEGIN CONSOLE_END.

Lemma wp_store16 a v fu m (Q : unit -> mem -> Prop) :
  (forall m', changes (within a (a + 2)) m m' -> ld8 m' a = u8 v -> ld8 m' (a + 1) = u8 (v / 2 ^ 8) -> Q tt m') ->
  wp (store16 a v) fu m Q.
Proof.
  intros HQ. unfold store16. wp_steps. apply HQ.
  - intros b Hb. unfold within in Hb. by rewrite !ld8_st8_ne by lia.
  - by rewrite ld8_st8_ne, ld8_st8_eq by lia.
  - by rewrite ld8_st8_eq.
Qed.

Lemma wp_blanks n i color fu m (Q : Z -> mem -> Prop) : 0 <= i -> i + Z.of_nat n <= 2000 ->
  (forall m', changes screen m m' -> Q (CONSOLE_BEGIN + 2 * (i + Z.of_nat n)) m') ->
  wp (blanks n (CONSOLE_BEGIN + 2 * i) color) fu m Q.
Proof.
  revert i m. induction n as [|n IH]; intros i m Hi Hn HQ; cbn [blanks].
  - wp_step. rewrite Z.add_0_r in HQ. apply HQ, changes_refl.
  - apply wp_bind, wp_store16. intros m1 Hch _ _.
    replace (CONSOLE_BEGIN + 2 * i + 2) with (CONSOLE_BEGIN + 2 * (i + 1)) by lia. apply IH; [lia|lia|].
    intros m2 Hch2. replace (i + 1 + Z.of_nat n) with (i + Z.of_nat (S n)) by lia. apply HQ.
    eapply changes_trans; [|exact Hch2]. eapply changes_weaken; [exact Hch|].
    unfold screen, within, CONSOLE_END. lia.
Qed.

Lemma wp_console_putc cursor c color fu m (Q : Z -> mem -> Prop) : on_screen cursor ->
  (forall cursor' m', on_screen cursor' -> changes screen m m' -> Q cursor' m') ->
  wp (console_putc cursor c color) fu m Q.
Proof.
  intros (i & Hi & ->) HQ. unfold console_putc.
  assert (Hj : exists j, 0 <= j < 2000 /\
    (if CONSOLE_END <=? CONSOLE_BEGIN + 2 * i then CONSOLE_BEGIN else CONSOLE_BEGIN + 2 * i) = CONSOLE_BEGIN + 2 * j).
  { unfold CONSOLE_END. destruct (Z.leb_spec (CONSOLE_BEGIN + 2 * (80 * 25)) (CONSOLE_BEGIN + 2 * i)); [exists 0|exists i]; lia. }
  destruct Hj as (j & Hj & ->). destruct (_ =? 10).
  - replace ((CONSOLE_BEGIN + 2 * j - CONSOLE_BEGIN) / 2) with j.
    2: { replace (CONSOLE_BEGIN + 2 * j - CONSOLE_BEGIN) with (j * 2) by lia. by rewrite Z.div_mul. }
    pose proof (Z.mod_pos_bound j 80 ltac:(lia)).
    assert (Hrow : j + (80 - j mod 80) <= 2000) by (clear -Hj; divlia).
    apply wp_blanks; [lia|lia|]. intros m' Hch. apply HQ; [|done]. exists (j + (80 - j mod 80)).
    split; [lia|]. by rewrite Z2Nat.id by lia.
  - apply wp_bind, wp_store16. intros m' Hch _ _. wp_step. apply HQ.
    + exists (j + 1). lia.
    + eapply changes_weaken; [exact Hch|]. unfold screen, within, CONSOLE_END. lia.
Qed.

(** Any program that keeps the cursor and the writes on the screen. *)
Definition prints (c : prog mem Z) : Prop := forall fu m (Q : Z -> mem -> Prop),
  (forall cursor' m', on_screen cursor' -> changes screen m m' -> Q cursor' m') -> wp c fu m Q.

Lemma prints_ret cursor : on_screen cursor -> prints (mret cursor).
Proof. intros H fu m Q HQ. wp_step. apply HQ; [done|apply changes_refl]. Qed.

Lemma prints_bind c (f : Z -> prog mem Z) : prints c -> (forall cursor, on_screen cursor -> prints (f cursor)) -> prints (c ≫= f).
Proof.
  intros Hc Hf fu m Q HQ. apply wp_bind, Hc. intros cursor m1 H1 Hch1. apply Hf; [done|].
  intros cursor2 m2 H2 Hch2. apply HQ; [done|]. by eapply changes_trans.
Qed.

Lemma prints_putc cursor c color : on_screen cursor -> prints (console_putc cursor c color).
Proof. intros H fu m Q HQ. by apply wp_console_putc. Qed.

Lemma prints_putc_n n cursor c color : on_screen cursor -> prints (putc_n n cursor c color).
Proof.
  revert cursor. induction n as [|n IH]; intros cursor H; [by apply prints_ret|].
  apply prints_bind; [by apply prints_putc|intros; by apply IH].
Qed.

Lemma prints_puts data cursor color : on_screen cursor -> prints (console_puts cursor data color).
Proof.
  revert cursor. induction data as [|c data IH]; intros cursor H; [by apply prints_ret|].
  apply prints_bind; [by apply prints_putc|intros; by apply IH].
Qed.

Lemma prints_data cursor color flags width precision data numeric negative : on_screen cursor ->
  prints (print_data cursor color flags width precision data numeric negative).
Proof.
  intros H. unfold print_data. cbv zeta.
  apply prints_bind; [by apply prints_putc_n|]. intros c1 H1.
  apply prints_bind; [destruct (_ =? 0); [by apply prints_ret|by apply prints_putc]|]. intros c2 H2.
  apply prints_bind; [by apply prints_putc_n|]. intros c3 H3.
  apply prints_bind; [by apply prints_puts|]. intros c4 H4. by apply prints_putc_n.
Qed.

(** ** The arguments that a format asks for

    A conversion is "%", flags, a width, a precision after a ".", and a character;
    the width and the precision are numbers, or "*" for an argument. *)

Inductive kind := AnInt | AString.
Definition kind_of (a : varg) : kind := match a with VInt _ => AnInt | VStr _ => AString end.

Fixpoint skip_while (p : Z -> bool) (l : list Z) : list Z :=
  match l with c :: l' => if p c then skip_while p l' else l | [] => [] end.

Definition star_or_number (format : list Z) : list kind * list Z :=
  if head0 format =? 42 then ([AnInt], tail format) else ([], skip_while is_digit format).

Definition precision_args (format : list Z) : list kind * list Z :=
  if head0 format =? 46 then star_or_number (tail format) else ([], format).

(** "d", "u", "x", "X", "C" and "c" take an integer, "s" a string. *)
Definition character_args (c : Z) : list kind :=
  if bool_decide (c ∈ [100; 117; 120; 88; 67; 99]) then [AnInt] else if c =? 115 then [AString] else [].

(** For a conversion without its "%": its arguments, and the format after it. *)
Definition conversion_args (format : list Z) : list kind * list Z :=
  let '(width, format) := star_or_number (skip_while (fun c => bool_decide (c ∈ flag_chars)) format) in
  let '(precision, format) := precision_args format in
  (width ++ precision ++ character_args (head0 format), tail format).

Fixpoint format_args (n : nat) (format : list Z) : list kind :=
  match n, format with
  | S n', c :: format => if c =? 37 then let '(ks, format) := conversion_args format in ks ++ format_args n' format else format_args n' format
  | _, _ => []
  end.

Definition asked_args (format : list Z) : list kind := format_args (length format) format.

Lemma length_tail {A} (l : list A) : (length (tail l) <= length l)%nat.
Proof. destruct l; cbn; lia. Qed.

Lemma skip_while_length p l : (length (skip_while p l) <= length l)%nat.
Proof. induction l as [|c l IH]; cbn; [done|]. destruct (p c); cbn; lia. Qed.

Lemma skip_while_head p l : skip_while p l = [] \/ p (head0 (skip_while p l)) = false.
Proof. induction l as [|c l IH]; cbn; [by left|]. destruct (p c) eqn:E; [done|by right]. Qed.

Lemma star_or_number_length format : (length (star_or_number format).2 <= length format)%nat.
Proof. unfold star_or_number. destruct (_ =? 42); [apply length_tail|apply skip_while_length]. Qed.

Lemma precision_args_length format : (length (precision_args format).2 <= length format)%nat.
Proof.
  unfold precision_args. destruct (_ =? 46); [|done]. etransitivity; [apply star_or_number_length|apply length_tail].
Qed.

Lemma conversion_args_length format : (length (conversion_args format).2 <= length format)%nat.
Proof.
  unfold conversion_args. set (f := skip_while _ format). pose proof (skip_while_length (fun c => bool_decide (c ∈ flag_chars)) format) as H0. fold f in H0.
  pose proof (star_or_number_length f) as H1. destruct (star_or_number f) as [k1 f1]. cbn [snd] in *.
  pose proof (precision_args_length f1) as H2. destruct (precision_args f1) as [k2 f2]. cbn [snd] in *. pose proof (length_tail f2). lia.
Qed.

Lemma flag_index_some chars c : bool_decide (c ∈ chars) = match flag_index chars c with Some _ => true | None => false end.
Proof.
  induction chars as [|f chars IH]; cbn [flag_index]; [apply bool_decide_eq_false_2, not_elem_of_nil|].
  destruct (Z.eqb_spec f c) as [->|Hne]; [apply bool_decide_eq_true_2; by left|].
  rewrite (bool_decide_ext (c ∈ f :: chars) (c ∈ chars)) by (rewrite elem_of_cons; naive_solver).
  rewrite IH. by destruct (flag_index chars c).
Qed.

Lemma parse_flags_skips format flags : (parse_flags format flags).2 = skip_while (fun c => bool_decide (c ∈ flag_chars)) format.
Proof.
  revert flags. induction format as [|c format IH]; intros flags; cbn [parse_flags skip_while]; [done|].
  rewrite flag_index_some. destruct (flag_index flag_chars c); [apply IH|done].
Qed.

Lemma parse_number_skips format n : (parse_number format n).2 = skip_while is_digit format.
Proof. revert n. induction format as [|c format IH]; intros n; cbn; [done|]. destruct (is_digit c); [apply IH|done]. Qed.

Lemma va_int_supplied args ks : map kind_of args = AnInt :: ks -> exists x args', va_int args = Some (x, args') /\ map kind_of args' = ks.
Proof. destruct args as [|[x|s] args]; cbn; intros [= <-]; by exists (s32 x), args. Qed.

(** The width of a format that does not begin with a flag *)
Lemma parse_width_supplied format args ks : head0 format <> 48 -> map kind_of args = (star_or_number format).1 ++ ks ->
  exists w args', parse_width format args = Some (w, (star_or_number format).2, args') /\ map kind_of args' = ks.
Proof.
  intros H0 Ha. unfold parse_width, star_or_number in *. destruct (Z.eqb_spec (head0 format) 42) as [E|E].
  - rewrite E in *. change ((49 <=? 42) && (42 <=? 57)) with false. cbv iota. cbn [fst snd app] in *.
    destruct (va_int_supplied _ _ Ha) as (x & args' & -> & <-). cbn. by exists x, args'.
  - cbn [fst snd app] in *. destruct ((49 <=? head0 format) && (head0 format <=? 57)) eqn:Ed.
    + rewrite <- (parse_number_skips format 0). destruct (parse_number format 0) as [w f]. by exists w, args.
    + assert (skip_while is_digit format = format) as ->; [|by exists (-1), args].
      destruct format as [|c format]; [done|]. cbn in *. unfold is_digit.
      destruct ((48 <=? c) && (c <=? 57)) eqn:Ed2; [|done]. rewrite andb_true_iff, !Z.leb_le in Ed2. rewrite andb_false_iff, !Z.leb_gt in Ed. lia.
Qed.

Lemma parse_precision_supplied format args ks : map kind_of args = (precision_args format).1 ++ ks ->
  exists p args', parse_precision format args = Some (p, (precision_args format).2, args') /\ map kind_of args' = ks.
Proof.
  intros Ha. unfold parse_precision, precision_args in *. destruct (_ =? 46); [|by exists (-1), args]. cbv zeta.
  set (f := tail format) in *. clearbody f. unfold star_or_number in *. destruct (Z.eqb_spec (head0 f) 42) as [E|E].
  - rewrite E in *. change (is_digit 42) with false. cbv iota. cbn [fst snd app] in *.
    destruct (va_int_supplied _ _ Ha) as (x & args' & -> & <-). by eexists _, args'.
  - cbn [fst snd app] in *. destruct (is_digit (head0 f)) eqn:Ed.
    + rewrite <- (parse_number_skips f 0). destruct (parse_number f 0) as [w f']. by eexists _, args.
    + assert (skip_while is_digit f = f) as ->; [|by eexists _, args]. destruct f as [|c f]; [done|]. cbn in *. by rewrite Ed.
Qed.

Lemma convert_supplied c precision args ks : map kind_of args = character_args c ++ ks ->
  exists v args', convert c precision args = Some (v, args') /\ map kind_of args' = ks.
Proof.
  unfold character_args, convert. intros Ha.
  assert (Hc : bool_decide (c ∈ [100; 117; 120; 88; 67; 99]) =
    ((c =? 100) || (c =? 117) || (c =? 120) || (c =? 88) || (c =? 67) || (c =? 99))).
  { apply eq_bool_prop_intro. rewrite bool_decide_spec, !orb_True, !Is_true_true, !Z.eqb_eq. set_solver. }
  rewrite Hc in Ha. clear Hc.
  assert (Hs : forall {B} (f : list Z -> B), map kind_of args = AString :: ks ->
    exists v args', ('(s, args) ← va_str args; Some (f s, args)) = Some (v, args') /\ map kind_of args' = ks).
  { intros B f. destruct args as [|[x|s] args]; cbn; intros [= <-]. by exists (f s), args. }
  assert (Hi : forall {B} (f : Z -> B), map kind_of args = AnInt :: ks ->
    exists v args', ('(x, args) ← va_int args; Some (f x, args)) = Some (v, args') /\ map kind_of args' = ks).
  { intros B f H. destruct (va_int_supplied _ _ H) as (x & args' & -> & <-). by exists (f x), args'. }
  repeat match goal with |- context [c =? ?k] => destruct (Z.eqb_spec c k) as [->|?]; cbn [orb app] in Ha; [first [by apply Hi|by apply Hs]|] end.
  by eexists _, args.
Qed.

(** One conversion whose arguments were passed *)
Lemma format_one_supplied cursor color format args ks fu m : on_screen cursor -> map kind_of args = (conversion_args format).1 ++ ks ->
  exists cursor' color' args' m', format_one cursor color format args fu m = Ret ((conversion_args format).2, cursor', color', args') m' /\
    map kind_of args' = ks /\ on_screen cursor' /\ changes screen m m'.
Proof.
  intros Hc. unfold conversion_args. set (f := skip_while _ format).
  assert (Hf : head0 f <> 48).
  { destruct (skip_while_head (fun c => bool_decide (c ∈ flag_chars)) format) as [E|E]; fold f in E; [by rewrite E|].
    intros E2. by rewrite E2 in E. }
  unfold format_one. pose proof (parse_flags_skips format 0) as Hfl. destruct (parse_flags format 0) as [flags f']. cbn [snd] in Hfl. fold f in Hfl. subst f'.
  pose proof (parse_width_supplied f args) as Hw. destruct (star_or_number f) as [k1 f1]. cbn [fst snd] in Hw.
  pose proof (parse_precision_supplied f1) as Hp. destruct (precision_args f1) as [k2 f2]. cbn [fst snd] in *.
  rewrite <- !app_assoc. intros Ha. destruct (Hw _ Hf Ha) as (w & a1 & -> & Ha1). cbn [deref].
  destruct (Hp _ _ Ha1) as (p & a2 & -> & Ha2). cbn [deref].
  destruct (convert_supplied (head0 f2) p a2 ks Ha2) as (v & a3 & -> & Ha3). cbn [deref]. destruct v as [color'|data numeric negative].
  - exists cursor, color', a3, m. split; [done|]. split; [done|]. split; [done|apply changes_refl].
  - destruct (wp_run (print_data cursor color flags w p data numeric negative) fu m (fun c m' => on_screen c /\ changes screen m m'))
      as (c & m' & Hrun & Hc' & Hch); [apply prints_data; by auto|].
    unfold mbind, prog_bind. rewrite Hrun. by exists c, color, a3, m'.
Qed.

(** C32. [console_vprintf] returns on every format whose arguments were passed, as
    many as the format asks for and of the right kinds (more do not matter); and
    however large the widths, the precisions and the strings are, it writes inside
    the screen memory only and leaves the cursor there. *)
Theorem vprintf_on_screen cursor color format args more fu m :
  on_screen cursor -> map kind_of args = asked_args format ++ more -> (length format < fu)%nat ->
  exists cursor' m', console_vprintf cursor color format args fu m = Ret cursor' m' /\ on_screen cursor' /\ changes screen m m'.
Proof.
  unfold console_vprintf, loop, asked_args. assert (Hw : (length format <= length format)%nat) by lia. revert Hw.
  generalize (length format) at 2 3 as w. generalize fu at 1 2. intros n. revert cursor color format args m.
  induction n as [|n IH]; intros cursor color format args m w Hw Hc Ha Hlen; [lia|]. cbn [loop_n].
  destruct format as [|c format].
  { exists cursor, m. split; [done|]. split; [done|apply changes_refl]. }
  cbn [length] in Hlen, Hw. destruct w as [|w]; [lia|]. cbn [format_args] in Ha. destruct (c =? 37); cbn [negb].
  - pose proof (conversion_args_length format) as Hl. pose proof (format_one_supplied cursor color format args) as H1.
    destruct (conversion_args format) as [ks f1]. cbn [fst snd] in *. rewrite <- app_assoc in Ha.
    destruct (H1 _ fu m Hc Ha) as (c1 & k1 & a1 & m1 & E & Ha1 & Hc1 & Hch). unfold mbind at 1, prog_bind at 1. rewrite E. cbn.
    destruct (IH c1 k1 f1 a1 m1 w ltac:(lia) Hc1 Ha1 ltac:(lia)) as (c2 & m2 & E2 & Hc2 & Hch2).
    exists c2, m2. split; [exact E2|]. split; [done|]. by eapply changes_trans.
  - destruct (wp_run (console_putc cursor c color) fu m (fun c m' => on_screen c /\ changes screen m m')) as (c1 & m1 & Hrun & Hc1 & Hch);
      [apply prints_putc; by auto|]. unfold mbind at 1, prog_bind at 1. rewrite Hrun. cbn.
    destruct (IH c1 color format args m1 w ltac:(lia) Hc1 Ha ltac:(lia)) as (c2 & m2 & E2 & Hc2 & Hch2).
    exists c2, m2. split; [exact E2|]. split; [done|]. by eapply changes_trans.
Qed.

(** ** Decimal numbers *)

Lemma loop_S {S X R : Type} (body : X -> prog S (X + R)) n x fu s :
  loop_n (Datatypes.S n) body x fu s =
    match body x fu s with
    | Ret (inl x') s' => loop_n n body x' fu s'
    | Ret (inr r) s' => Ret r s'
    | Oops => Oops
    | Hang => Hang
    end.
Proof. done. Qed.

Lemma bind_ret_eta {S A} (c : prog S A) fu s : match c fu s with Ret a s' => Ret a s' | Oops => Oops | Hang => Hang end = c fu s.
Proof. by destruct (c fu s). Qed.

(** What one conversion at the end of the format prints. *)
Lemma vprintf_single cursor color format args cursor' args' (c : prog mem Z) fu m : (2 <= fu)%nat ->
  format_one cursor color format args fu m =
    (cursor ← c; mret (M := prog mem) ([], cursor, cursor', args')) fu m ->
  console_vprintf cursor color (37 :: format) args fu m = c fu m.
Proof.
  intros Hfu H1. unfold console_vprintf, loop. destruct fu as [|[|n]]; [lia|lia|]. rewrite loop_S.
  change (negb (37 =? 37)) with false. cbv iota. unfold mbind at 1, prog_bind at 1. rewrite H1.
  unfold mbind at 1, prog_bind at 1. rewrite <- (bind_ret_eta c). destruct (c (S (S n)) m); done.
Qed.

Lemma s32_small_neg w : - 2 ^ 31 <= w < 0 -> Z.to_nat (s32 w) = 0%nat.
Proof. intros H. rewrite s32_small by lia. lia. Qed.

(** A number without flags, width and precision. *)
Lemma print_plain cursor color ds negative fu m : (length ds <= 10)%nat ->
  print_data cursor color 0 (-1) (-1) ds true negative fu m =
    console_puts cursor ((if negative then [45] else []) ++ ds) color fu m.
Proof.
  intros Hlen. unfold print_data. change (0 <=? -1) with false. cbv iota zeta.
  change (negb (Z.land 0 FLAG_PLUSPOSITIVE =? 0)) with false. change (negb (Z.land 0 FLAG_SPACEPOSITIVE =? 0)) with false.
  change (negb (Z.land 0 FLAG_LEFTJUSTIFY =? 0)) with false.
  change (Z.land 0 (Z.lor FLAG_ZERO FLAG_LEFTJUSTIFY) =? FLAG_ZERO) with false.
  rewrite (proj2 (Z.ltb_ge (Z.of_nat (length ds)) (-1))) by lia. cbv iota. cbn [andb].
  rewrite Nat2Z.id, take_ge by done.
  destruct negative; cbn [andb].
  - change (45 =? 0) with false. cbv iota. rewrite s32_small_neg by lia. rewrite Z.min_l by (rewrite s32_small by lia; lia).
    rewrite s32_small_neg by lia. cbn [putc_n Z.to_nat app console_puts]. unfold mbind, prog_bind, mret, prog_ret.
    destruct (console_putc cursor 45 color fu m) as [c1 m1| |]; try done.
    change (Z.to_nat 0) with 0%nat. cbn [putc_n]. unfold mret, prog_ret. by destruct (console_puts c1 ds color fu m1).
  - change (0 =? 0) with true. cbv iota. rewrite s32_small_neg by lia. rewrite Z.min_l by (rewrite s32_small by lia; lia).
    rewrite s32_small_neg by lia. change (Z.to_nat 0) with 0%nat. cbn [putc_n app]. unfold mbind, prog_bind, mret, prog_ret.
    by destruct (console_puts cursor ds color fu m).
Qed.

(** C31. "%d" prints the decimal numeral of its argument: a minus sign for a
    negative number, then the digits of its magnitude, at most ten, which is
    what the 20 bytes of [numbuf] have room for, and without a leading zero. *)
Theorem printf_decimal cursor color x : - 2 ^ 31 <= x < 2 ^ 31 ->
  exists ds, number 10 ds = Z.abs x /\ Forall (fun c => is_digit c = true) ds /\ (1 <= length ds <= 10)%nat /\
    (0 < Z.abs x -> 10 ^ (Z.of_nat (length ds) - 1) <= Z.abs x) /\ (x = 0 -> ds = [48]) /\
    forall fu m, (2 <= fu)%nat ->
      console_printf cursor color [37; 100] [VInt x] fu m =
        console_puts cursor ((if x <? 0 then [45] else []) ++ ds) color fu m.
Proof.
  intros Hx. assert (Habs : u32 (if 0 <? x then x else - x) = Z.abs x).
  { destruct (Z.ltb_spec 0 x); rewrite u32_small; lia. }
  exists (fill_numbuf (Z.abs x) 10 upper_digits (-1)).
  destruct (fill_numbuf_spec (Z.abs x) 10 ltac:(lia) ltac:(by left)) as (Hnum & Hlen & Hlow & Hz & Hdig).
  split; [done|]. split; [by apply Hdig|]. split; [done|]. split; [done|]. split; [intros ->; by apply Hz|].
  intros fu m Hfu. set (ds := fill_numbuf _ _ _ _) in *.
  apply (vprintf_single _ _ _ _ color []
    (console_puts cursor ((if x <? 0 then [45] else []) ++ ds) color)); [done|].
  unfold format_one. change (parse_flags [100] 0) with (0, [100]). cbv iota.
  change (parse_width [100] [VInt x]) with (Some (-1, [100], [VInt x])). cbn [deref].
  change (parse_precision [100] [VInt x]) with (Some (-1, [100], [VInt x])). cbn [deref].
  change (convert (head0 [100]) (-1) [VInt x]) with
    (Some (Data (fill_numbuf (u32 (if 0 <? s32 x then s32 x else - s32 x)) 10 upper_digits (-1)) true (s32 x <? 0), @nil varg)).
  cbn [deref tail]. rewrite (s32_small x Hx), Habs. fold ds.
  unfold mbind, prog_bind. rewrite print_plain by lia. done.
Qed.

Lemma printf_decimal_witness : exists ds, number 10 ds = 42 /\
  console_printf CONSOLE_BEGIN 0x700 [37; 100] [VInt (-42)] 2%nat ∅ = console_puts CONSOLE_BEGIN ([45] ++ ds) 0x700 2%nat ∅.
Proof.
  destruct (printf_decimal CONSOLE_BEGIN 0x700 (-42) ltac:(lia)) as (ds & H1 & _ & _ & _ & _ & H2).
  exists ds. split; [exact H1|exact (H2 2%nat ∅ ltac:(lia))].
Defined.

(** ** Precision *)

Lemma number_app ds ds' : Forall (fun c => is_digit c = true) ds' ->
  10 ^ Z.of_nat (length ds') * number 10 ds <= number 10 (ds ++ ds').
Proof.
  intros Hd. unfold number. rewrite fold_left_app. generalize (fold_left (fun a c => 10 * a + digit_value c) ds 0).
  induction Hd as [|c ds' Hc Hd IH]; intros a; cbn [fold_left length].
  - change (10 ^ Z.of_nat 0) with 1. lia.
  - etransitivity; [|apply IH]. rewrite Nat2Z.inj_succ, Z.pow_succ_r by lia.
    unfold is_digit in Hc. rewrite andb_true_iff, !Z.leb_le in Hc. unfold digit_value.
    rewrite (proj2 (Z.ltb_lt c 65)) by lia. assert (0 < 10 ^ Z.of_nat (length ds')) by (apply Z.pow_pos_nonneg; lia). nia.
Qed.

Lemma number_nonneg ds : Forall (fun c => is_digit c = true) ds -> 0 <= number 10 ds.
Proof. intros H. pose proof (number_app [] ds H) as Hn. change (number 10 []) with 0 in Hn. cbn [app] in Hn. lia. Qed.

(** A number without flags and width, with fewer digits of precision than it has. *)
Lemma print_cut cursor color ds p fu m : 0 <= p < Z.of_nat (length ds) -> (length ds <= 10)%nat ->
  print_data cursor color 0 (-1) p ds true false fu m = console_puts cursor (take (Z.to_nat p) ds) color fu m.
Proof.
  intros Hp Hlen. unfold print_data. rewrite (proj2 (Z.leb_le 0 p)), Z.min_l by lia. cbv iota zeta.
  change (negb (Z.land 0 FLAG_PLUSPOSITIVE =? 0)) with false. change (negb (Z.land 0 FLAG_SPACEPOSITIVE =? 0)) with false.
  change (negb (Z.land 0 FLAG_LEFTJUSTIFY =? 0)) with false.
  change (Z.land 0 (Z.lor FLAG_ZERO FLAG_LEFTJUSTIFY) =? FLAG_ZERO) with false.
  rewrite Z.ltb_irrefl. cbn [andb]. cbv iota. change (0 =? 0) with true. cbv iota.
  rewrite s32_small_neg by lia. rewrite Z.min_l by (rewrite s32_small by lia; lia). rewrite s32_small_neg by lia.
  change (Z.to_nat 0) with 0%nat. cbn [putc_n]. unfold mbind, prog_bind, mret, prog_ret.
  by destruct (console_puts cursor _ color fu m).
Qed.

(** A precision below the number of digits cuts the number: "%.1d" to
    "%.9d" print only its leading digits, which is a smaller number. *)
Theorem printf_precision_cuts cursor color x p ds fu m :
  0 < x < 2 ^ 31 -> 1 <= p <= 9 -> ds = fill_numbuf x 10 upper_digits (-1) -> p < Z.of_nat (length ds) -> (2 <= fu)%nat ->
  console_printf cursor color [37; 46; 48 + p; 100] [VInt x] fu m = console_puts cursor (take (Z.to_nat p) ds) color fu m /\
  number 10 (take (Z.to_nat p) ds) < x.
Proof.
  intros Hx Hp Hds Hlt Hfu.
  destruct (fill_numbuf_spec x 10 ltac:(lia) ltac:(by left)) as (Hnum & Hlen & _ & _ & Hdig). rewrite <- Hds in *.
  split.
  - apply (vprintf_single _ _ _ _ color [] (console_puts cursor (take (Z.to_nat p) ds) color)); [done|].
    unfold format_one. change (parse_flags [46; 48 + p; 100] 0) with (0, [46; 48 + p; 100]). cbv iota.
    change (parse_width [46; 48 + p; 100] [VInt x]) with (Some (-1, [46; 48 + p; 100], [VInt x])). cbn [deref].
    assert (Hprec : parse_precision [46; 48 + p; 100] [VInt x] = Some (p, [100], [VInt x])).
    { unfold parse_precision. change (head0 [46; 48 + p; 100] =? 46) with true. cbn [tail head0 parse_number].
      assert (Hd : is_digit (48 + p) = true) by (unfold is_digit; apply andb_true_iff; rewrite !Z.leb_le; lia). rewrite Hd.
      change (is_digit 100) with false. cbv iota zeta. replace (10 * 0 + (48 + p) - 48) with p by lia.
      rewrite s32_small by lia. unfold mbind, option_bind. rewrite (proj2 (Z.ltb_ge p 0)) by lia. done. }
    rewrite Hprec. cbn [deref].
    assert (Hconv : convert (head0 [100]) p [VInt x] = Some (Data ds true false, [])).
    { change (convert (head0 [100]) p [VInt x]) with
        (Some (Data (fill_numbuf (u32 (if 0 <? s32 x then s32 x else - s32 x)) 10 upper_digits p) true (s32 x <? 0), @nil varg)).
      rewrite (s32_small x) by lia. rewrite (proj2 (Z.ltb_lt 0 x)), (proj2 (Z.ltb_ge x 0)), u32_small by lia. rewrite Hds.
      do 3 f_equal. unfold fill_numbuf. rewrite (proj2 (Z.eqb_neq p 0)) by lia. done. }
    rewrite Hconv. cbn [deref tail]. unfold mbind, prog_bind. rewrite print_cut by lia. done.
  - assert (Hdrop : drop (Z.to_nat p) ds <> []).
    { intros H. apply (f_equal length) in H. rewrite length_drop in H. cbn in H. lia. }
    specialize (Hdig eq_refl). rewrite <- (take_drop (Z.to_nat p) ds) in Hnum, Hdig. apply Forall_app in Hdig as [Ht Hd].
    pose proof (number_app (take (Z.to_nat p) ds) _ Hd) as Hle. rewrite Hnum in Hle.
    assert (H10 : 10 <= 10 ^ Z.of_nat (length (drop (Z.to_nat p) ds))).
    { change 10 with (10 ^ 1) at 1. apply Z.pow_le_mono_r; [lia|]. destruct (drop _ _); [done|cbn [length]; lia]. }
    pose proof (number_nonneg _ Ht). nia.
Qed.

Lemma printf_precision_cuts_witness :
  console_printf CONSOLE_BEGIN 0x700 [37; 46; 50; 100] [VInt 12345] 2%nat ∅ = console_puts CONSOLE_BEGIN [49; 50] 0x700 2%nat ∅.
Proof.
  exact (proj1 (printf_precision_cuts CONSOLE_BEGIN 0x700 12345 2 [49; 50; 51; 52; 53] 2%nat ∅ ltac:(lia) ltac:(lia)
    ltac:(vm_compute; reflexivity) ltac:(cbn; lia) ltac:(lia))).
Defined.

(** "h%5d%-*s", with 7, 3 and "ab", in the last cell of the screen *)
Lemma vprintf_on_screen_witness :
  asked_args [104; 37; 53; 100; 37; 45; 42; 115] = [AnInt; AnInt; AString] /\
  exists cursor' m', console_vprintf (CONSOLE_END - 2) 0x700 [104; 37; 53; 100; 37; 45; 42; 115] [VInt 7; VInt 3; VStr [97; 98]] 9%nat ∅ = Ret cursor' m' /\
    on_screen cursor' /\ changes screen ∅ m'.
Proof.
  split; [reflexivity|].
  exact (vprintf_on_screen (CONSOLE_END - 2) 0x700 [104; 37; 53; 100; 37; 45; 42; 115] [VInt 7; VInt 3; VStr [97; 98]] [] 9%nat ∅
    ltac:(exists 1999; split; [lia|reflexivity]) eq_refl ltac:(cbn; lia)).
Defined.

Lemma memmove_moves_witness : exists m', memmove 101 100 2 1%nat (st_bytes ∅ 100 [7; 8]) = Ret 101 m' /\
  moved (st_bytes ∅ 100 [7; 8]) m' 101 100 2.
Proof. exact (proj1 (memmove_moves 101 100 2 1%nat (st_bytes ∅ 100 [7; 8]) ltac:(lia))). Defined.
