(* ===== verification/Mpos.v ===== *)
(** * MiniprocOS: the kernel's state and system calls (weensyos1)

    mpos.h, mpos-kern.h, x86.h and mpos-kern.c, with the hardware-independent
    parts of mpos-x86.c and the program loader mpos-loader.c.  The state is the
    process table, the index of the [current] descriptor and the memory in which
    the stacks lie.  [run] does not return in C: here it sets [current] and ends
    the handler, and the machine goes on with the registers of the new current
    process.  A [pid_t] is an index of the table. *)

From S2P Require Import Prelude CMemory MposLib.

(** ** mpos.h and the memory map *)

Definition INT_SYS_GETPID : Z := 48.
Definition INT_SYS_FORK : Z := 49.
Definition INT_SYS_YIELD : Z := 50.
Definition INT_SYS_EXIT : Z := 51.
Definition INT_SYS_WAIT : Z := 52.
Definition INT_SYS_NEWTHREAD : Z := 53.
Definition INT_SYS_KILL : Z := 54.
Definition NPROCS : Z := 16.
Definition PROC1_STACK_ADDR : Z := 0x280000.
Definition PROC_STACK_SIZE : Z := 0x40000.

(** ** x86.h and mpos-kern.h *)

Record registers := Registers {
  reg_edi : Z; reg_esi : Z; reg_ebp : Z; reg_original_esp : Z;
  reg_ebx : Z; reg_edx : Z; reg_ecx : Z; reg_eax : Z;
  reg_es : Z; reg_padding1 : Z; reg_ds : Z; reg_padding2 : Z;
  reg_intno : Z; reg_err : Z;
  reg_eip : Z; reg_cs : Z; reg_padding3 : Z; reg_eflags : Z;
  reg_esp : Z; reg_ss : Z; reg_padding4 : Z
}.

(** Assignments to one register. *)
Definition set_eax (v : Z) (r : registers) : registers :=
  let '(Registers a b c d e f g _ h i j k l m n o p q s t u) := r in
  Registers a b c d e f g (u32 v) h i j k l m n o p q s t u.
Definition set_eip (v : Z) (r : registers) : registers :=
  let '(Registers a b c d e f g x h i j k l m _ o p q s t u) := r in
  Registers a b c d e f g x h i j k l m (u32 v) o p q s t u.
Definition set_esp (v : Z) (r : registers) : registers :=
  let '(Registers a b c d e f g x h i j k l m n o p q _ t u) := r in
  Registers a b c d e f g x h i j k l m n o p q (u32 v) t u.

Inductive procstate := P_EMPTY | P_RUNNABLE | P_BLOCKED | P_ZOMBIE.

#[export] Instance procstate_dec : EqDecision procstate.
Proof. solve_decision. Defined.

Record process := Process {
  p_pid : Z;
  p_wait : Z;
  p_registers : registers;
  p_state : procstate;
  p_exit_status : Z
}.

(** Assignments to one field of a descriptor. *)
Definition set_p_wait (w : Z) (p : process) : process :=
  Process (p_pid p) w (p_registers p) (p_state p) (p_exit_status p).
Definition set_p_registers (r : registers) (p : process) : process :=
  Process (p_pid p) (p_wait p) r (p_state p) (p_exit_status p).
Definition set_p_state (s : procstate) (p : process) : process :=
  Process (p_pid p) (p_wait p) (p_registers p) s (p_exit_status p).
Definition set_p_exit_status (v : Z) (p : process) : process :=
  Process (p_pid p) (p_wait p) (p_registers p) (p_state p) (s32 v).

(** ** The kernel's state *)

Record kern := Kern {
  proc_array : list process;
  current : Z;
  memory : mem
}.

(** Reading and writing [proc_array[pid]]; C does not define what lies outside. *)
Definition proc (pid : Z) : prog kern process := fun _ k =>
  if 0 <=? pid then
    match proc_array k !! Z.to_nat pid with Some p => Ret p k | None => Oops end
  else Oops.

Definition set_proc (pid : Z) (f : process -> process) : prog kern unit := fun _ k =>
  if (0 <=? pid) && (Z.to_nat pid <? length (proc_array k))%nat then
    Ret tt (Kern (alter f (Z.to_nat pid) (proc_array k)) (current k) (memory k))
  else Oops.

Definition get_current : prog kern Z := fun _ k => Ret (current k) k.

(** Running a program on the memory. *)
Definition in_memory {A} (c : prog mem A) : prog kern A := fun fu k =>
  match c fu (memory k) with
  | Ret a m => Ret a (Kern (proc_array k) (current k) m)
  | Oops => Oops
  | Hang => Hang
  end.

(** [while (1);] *)
Definition spin {S A : Type} : prog S A := fun _ _ => Hang.

(** ** mpos-x86.c *)

Definition run (pid : Z) : prog kern unit := fun _ k => Ret tt (Kern (proc_array k) pid (memory k)).

Definition SEGSEL_APP_CODE : Z := 0x18.
Definition SEGSEL_APP_DATA : Z := 0x20.

Definition special_registers : registers :=
  let cs := Z.lor SEGSEL_APP_CODE 3 in
  let ds := Z.lor SEGSEL_APP_DATA 3 in
  Registers 0 0 0 0 0 0 0 0 ds 0 ds 0 0 0 0 cs 0 0 0 ds 0.

Definition special_registers_init (pid : Z) : prog kern unit :=
  set_proc pid (set_p_registers special_registers).

(** The digit that a key code of the keyboard controller stands for. *)
Definition console_read_digit (status data : Z) : Z :=
  if Z.land status 1 =? 0 then -1
  else if (2 <=? data) && (data <=? 0xA) then data - 2 + 1
  else if data =? 0xB then 0
  else if (0x47 <=? data) && (data <=? 0x49) then data - 0x47 + 7
  else if (0x4B <=? data) && (data <=? 0x4D) then data - 0x4B + 4
  else if (0x4F <=? data) && (data <=? 0x51) then data - 0x4F + 1
  else if data =? 0x53 then 0
  else -1.

(** ** mpos-loader.c *)

(** elf.h: the fields of an ELF header and of a program header that are read. *)
Definition ELF_MAGIC : Z := 0x464C457F.
Definition ELF_PROG_LOAD : Z := 1.
Definition PAGESIZE : Z := 4096.
Definition SIZEOF_PROGHDR : Z := 32.
Definition e_magic (eh : Z) : Z := eh.
Definition e_entry (eh : Z) : Z := eh + 24.
Definition e_phoff (eh : Z) : Z := eh + 28.
Definition e_phnum (eh : Z) : Z := eh + 44.
Definition p_type (ph : Z) : Z := ph.
Definition p_offset (ph : Z) : Z := ph + 4.
Definition p_va (ph : Z) : Z := ph + 8.
Definition p_filesz (ph : Z) : Z := ph + 16.
Definition p_memsz (ph : Z) : Z := ph + 20.

Definition copyseg (dst src filesz memsz : Z) : prog mem unit :=
  let va := dst in
  let end_va := u32 (va + filesz) in
  let memsz := u32 (memsz + va) in
  let va := Z.land va (Z.lnot (PAGESIZE - 1)) in
  memcpy va src (u32 (end_va - va));;
  loop (fun end_va =>
    if end_va <? memsz then store8 end_va 0;; mret (inl (u32 (end_va + 1)))
    else mret (inr tt)) end_va.

(** [ramimages[i].begin] is [image_begin i]: the linker places the images.
    [loader_panic] writes an exclamation mark and spins. *)
Definition program_loader (image_begin : Z -> Z) (program_id : Z) : prog mem Z :=
  if (program_id <? 0) || (2 <=? program_id) then spin
  else
    let elf_header := image_begin program_id in
    magic ← load32 (e_magic elf_header);
    if negb (magic =? ELF_MAGIC) then spin
    else
      phoff ← load32 (e_phoff elf_header);
      lo ← load8 (e_phnum elf_header);
      hi ← load8 (e_phnum elf_header + 1);
      let phnum := lo + 2 ^ 8 * hi in
      let ph := elf_header + phoff in
      let eph := ph + SIZEOF_PROGHDR * phnum in
      loop (fun ph =>
        if ph <? eph then
          type ← load32 (p_type ph);
          va ← load32 (p_va ph);
          offset ← load32 (p_offset ph);
          filesz ← load32 (p_filesz ph);
          memsz ← load32 (p_memsz ph);
          when (type =? ELF_PROG_LOAD) (copyseg va (elf_header + offset) filesz memsz);;
          mret (inl (ph + SIZEOF_PROGHDR))
        else mret (inr tt)) ph;;
      load32 (e_entry elf_header).

(** ** mpos-kern.c *)

(** The scheduler: [run] in C does not return, so the loop ends there. *)
Definition schedule : prog kern unit :=
  c ← get_current;
  p ← proc c;
  loop (fun pid =>
    let pid := (pid + 1) mod NPROCS in
    p ← proc pid;
    if bool_decide (p_state p = P_RUNNABLE) then run pid;; mret (inr tt)
    else mret (inl pid)) (p_pid p).

(** [for(pid = 1; pid < NPROCS; pid++) if(proc_array[pid].p_state == P_EMPTY) break;] *)
Definition find_empty : prog kern Z :=
  r ← for_ret (Z.to_nat (NPROCS - 1)) 1 (fun pid =>
    p ← proc pid; mret (if bool_decide (p_state p = P_EMPTY) then Some pid else None));
  mret (default NPROCS r).

Definition copy_stack (dest src : Z) : prog kern unit :=
  s ← proc src;
  d ← proc dest;
  let src_stack_top := u32 (PROC1_STACK_ADDR + p_pid s * PROC_STACK_SIZE) in
  let src_stack_bottom := reg_esp (p_registers s) in
  let dest_stack_top := u32 (PROC1_STACK_ADDR + p_pid d * PROC_STACK_SIZE) in
  let dest_stack_bottom := u32 (dest_stack_top - u32 (src_stack_top - src_stack_bottom)) in
  set_proc dest (fun d => set_p_registers (set_esp dest_stack_bottom (p_registers d)) d);;
  in_memory (memcpy dest_stack_bottom src_stack_bottom (u32 (src_stack_top - src_stack_bottom)));;
  mret tt.

Definition do_fork (parent : Z) : prog kern Z :=
  pid ← find_empty;
  if pid =? NPROCS then mret (-1)
  else
    p ← proc parent;
    set_proc pid (set_p_registers (p_registers p));;
    set_proc pid (fun d => set_p_registers (set_eax 0 (p_registers d)) d);;
    set_proc pid (set_p_state P_RUNNABLE);;
    copy_stack pid parent;;
    d ← proc pid;
    mret (p_pid d).

(** [current->p_registers.reg_eax = v] *)
Definition set_current_eax (v : Z) : prog kern unit :=
  c ← get_current;
  set_proc c (fun p => set_p_registers (set_eax v (p_registers p)) p).

(** [current->p_registers.reg_eax], read as a [pid_t] or an [int]. *)
Definition current_eax : prog kern Z :=
  c ← get_current;
  p ← proc c;
  mret (s32 (reg_eax (p_registers p))).

(** The cases of the switch. *)
Definition sys_getpid : prog kern unit :=
  c ← get_current;
  p ← proc c;
  set_current_eax (p_pid p);;
  run c.

Definition sys_fork : prog kern unit :=
  c ← get_current;
  pid ← do_fork c;
  set_current_eax pid;;
  run c.

Definition sys_yield : prog kern unit := schedule.

(** Without an empty descriptor the case falls through to [sys_yield]. *)
Definition sys_newthread : prog kern unit :=
  c ← get_current;
  pid ← find_empty;
  if pid <? NPROCS then
    set_proc pid (set_p_state P_RUNNABLE);;
    let stack_top := u32 (PROC1_STACK_ADDR + pid * PROC_STACK_SIZE) in
    in_memory (memsetp (stack_top - PROC_STACK_SIZE) 0 (Z.to_nat PROC_STACK_SIZE));;
    special_registers_init pid;;
    p ← proc c;
    set_proc pid (fun d => set_p_registers (set_eip (reg_eax (p_registers p)) (p_registers d)) d);;
    set_proc pid (fun d => set_p_registers (set_esp stack_top (p_registers d)) d);;
    set_current_eax pid;;
    run c
  else sys_yield.

Definition sys_exit : prog kern unit :=
  c ← get_current;
  p ← proc c;
  let wait := p_wait p in
  set_proc c (set_p_state P_ZOMBIE);;
  set_proc c (set_p_exit_status (reg_eax (p_registers p)));;
  when (negb (wait =? 0)) (
    set_proc wait (set_p_state P_RUNNABLE);;
    set_proc c (set_p_wait 0));;
  schedule.

(** [proc_array[pid].p_wait] is read before [pid] is checked: [stray] is the
    word that this yields outside the table. *)
Definition sys_kill (stray : Z -> Z) : prog kern unit :=
  c ← get_current;
  pid ← current_eax;
  wait ← (if (0 <=? pid) && (pid <? NPROCS) then p ← proc pid; mret (p_wait p) else mret (stray pid));
  kills ← (if (pid <? NPROCS) && (0 <? pid) then p ← proc pid; mret (negb (bool_decide (p_state p = P_EMPTY)))
           else mret false);
  when kills (
    set_proc pid (set_p_state P_ZOMBIE);;
    set_proc pid (set_p_exit_status 5);;
    when (negb (wait =? 0)) (
      set_proc wait (set_p_state P_RUNNABLE);;
      set_proc pid (set_p_wait 0)));;
  p ← proc c;
  if negb (pid =? p_pid p) then run c else schedule.

Definition sys_wait : prog kern unit :=
  c ← get_current;
  p ← current_eax;
  self ← proc c;
  invalid ← (if (p <=? 0) || (NPROCS <=? p) || (p =? p_pid self) then mret true
             else q ← proc p; mret (bool_decide (p_state q = P_EMPTY)));
  (if (invalid : bool) then set_current_eax (-1)
   else
     q ← proc p;
     if bool_decide (p_state q = P_ZOMBIE) then
       set_current_eax (p_exit_status q);;
       set_proc p (set_p_state P_EMPTY)
     else
       set_proc c (set_p_state P_BLOCKED);;
       set_proc p (set_p_wait (p_pid self)));;
  schedule.

(** The handler: saves the registers of the current process, then dispatches. *)
Definition interrupt (stray : Z -> Z) (reg : registers) : prog kern unit :=
  c ← get_current;
  set_proc c (set_p_registers reg);;
  let intno := reg_intno reg in
  if intno =? INT_SYS_GETPID then sys_getpid
  else if intno =? INT_SYS_FORK then sys_fork
  else if intno =? INT_SYS_NEWTHREAD then sys_newthread
  else if intno =? INT_SYS_YIELD then sys_yield
  else if intno =? INT_SYS_EXIT then sys_exit
  else if intno =? INT_SYS_KILL then sys_kill stray
  else if intno =? INT_SYS_WAIT then sys_wait
  else spin.

(** [keys i] are the status and data that the keyboard controller gives at the
    [i]-th look; the screen is not part of the state. *)
Definition start (image_begin : Z -> Z) (keys : nat -> Z * Z) : prog kern unit := fun fu k =>
  let empty i := Process i 0 (Registers 0 0 0 0 0 0 0 0 0 0 0 0 0 0 0 0 0 0 0 0 0) P_EMPTY 0 in
  (put (Kern (map empty (seqZ 0 NPROCS)) 1 (memory k));;
   special_registers_init 1;;
   whichprocess ← loop (fun i =>
     let d := uncurry console_read_digit (keys i) in
     if negb (d =? 1) && negb (d =? 2) then mret (inl (S i)) else mret (inr d)) 0%nat;
   entry ← in_memory (program_loader image_begin (whichprocess - 1));
   set_proc 1 (fun p => set_p_registers (set_eip entry (p_registers p)) p);;
   set_proc 1 (fun p => set_p_registers (set_esp (PROC1_STACK_ADDR + PROC_STACK_SIZE) (p_registers p)) p);;
   set_proc 1 (set_p_state P_RUNNABLE);;
   run 1) fu k.
