(* ===== verification/MposSpec.v ===== *)
(** * MiniprocOS: an abstract process table, and that the kernel implements it

    Abstractly a system call turns one process table into another, says whether
    the caller goes on, and may return a value to it; then the caller or the
    next runnable process in cyclic order runs.  [interrupt] is shown to do
    exactly this, on every call. *)

From stdpp Require Import functions.
From S2P Require Import Prelude CMemory MposLib MposLibSpec Mpos.

(** ** The abstract machine *)

Record view := View { v_state : procstate; v_wait : Z; v_status : Z }.

Abbreviation table := (Z -> view).

Inductive call :=
| Getpid | Fork | Newthread | Yield | Exit (status : Z) | Kill (pid : Z) | Wait (pid : Z) | Undefined.

(** The first empty slot from 1 on. *)
Definition first_empty (t : table) : option Z :=
  head (filter (fun p => v_state (t p) = P_EMPTY) (seqZ 1 15)).

(** The next runnable process after [c], [c] itself being the last choice. *)
Definition next_runnable (t : table) (c : Z) : option Z :=
  head (filter (fun p => v_state (t p) = P_RUNNABLE) (map (fun i => (c + i) mod 16) (seqZ 1 16))).

Definition set_state (s : procstate) (v : view) : view := View s (v_wait v) (v_status v).

(** Ending process [p] with a status; whoever waits for it becomes runnable. *)
Definition end_process (t : table) (p status : Z) : table :=
  let w := v_wait (t p) in
  let t := <[p := View P_ZOMBIE 0 status]> t in
  if w =? 0 then t else <[w := set_state P_RUNNABLE (t w)]> t.

(** The effect of a call by [c]: the table, whether [c] goes on, and the value
    it finds in %eax, if the call gives one. *)
Definition effect (t : table) (c : Z) (a : call) : table * bool * option Z :=
  match a with
  | Getpid => (t, true, Some c)
  | Fork =>
      match first_empty t with
      | Some p => (<[p := set_state P_RUNNABLE (t p)]> t, true, Some p)
      | None => (t, true, Some (-1))
      end
  | Newthread =>
      match first_empty t with
      | Some p => (<[p := set_state P_RUNNABLE (t p)]> t, true, Some p)
      | None => (t, false, None)
      end
  | Yield => (t, false, None)
  | Exit status => (end_process t c status, false, None)
  | Kill p =>
      let t' := if bool_decide (1 <= p < 16 /\ v_state (t p) <> P_EMPTY) then end_process t p 5 else t in
      (t', negb (p =? c), None)
  | Wait p =>
      if bool_decide (1 <= p < 16 /\ p <> c /\ v_state (t p) <> P_EMPTY) then
        if bool_decide (v_state (t p) = P_ZOMBIE) then
          (<[p := set_state P_EMPTY (t p)]> t, false, Some (v_status (t p)))
        else
          (<[p := View (v_state (t p)) c (v_status (t p))]> (<[c := set_state P_BLOCKED (t c)]> t), false, None)
      else (t, false, Some (-1))
  | Undefined => (t, false, None)
  end.

(** The call that the registers ask for. *)
Definition decode (reg : registers) : call :=
  let arg := s32 (reg_eax reg) in
  let n := reg_intno reg in
  if n =? INT_SYS_GETPID then Getpid
  else if n =? INT_SYS_FORK then Fork
  else if n =? INT_SYS_NEWTHREAD then Newthread
  else if n =? INT_SYS_YIELD then Yield
  else if n =? INT_SYS_EXIT then Exit arg
  else if n =? INT_SYS_KILL then Kill arg
  else if n =? INT_SYS_WAIT then Wait arg
  else Undefined.

(** ** The kernel's state as a table *)

Definition dummy : process :=
  Process 0 0 (Registers 0 0 0 0 0 0 0 0 0 0 0 0 0 0 0 0 0 0 0 0 0) P_EMPTY 0.

Definition desc (k : kern) (pid : Z) : process := nth (Z.to_nat pid) (proc_array k) dummy.
Definition view_of (p : process) : view := View (p_state p) (p_wait p) (p_exit_status p).
Definition abs (k : kern) : table := fun pid => view_of (desc k pid).
Definition regs (k : kern) (pid : Z) : registers := p_registers (desc k pid).

(** The process table's shape, which no call changes. *)
Record shaped (k : kern) : Prop := Shaped {
  sh_len : length (proc_array k) = 16%nat;
  sh_pid : forall i, 0 <= i < 16 -> p_pid (desc k i) = i;
  sh_cur : 1 <= current k < 16
}.

(** A table in which slot 0 is empty, a process that has ended is waited for by
    nobody, and nobody waits for itself. *)
Record table_ok (t : table) : Prop := TableOk {
  to_zero : v_state (t 0) = P_EMPTY;
  to_wait : forall i, 0 <= i < 16 -> 0 <= v_wait (t i) < 16 /\ (v_wait (t i) <> 0 -> v_wait (t i) <> i);
  to_ended : forall i, 0 <= i < 16 -> v_state (t i) = P_EMPTY \/ v_state (t i) = P_ZOMBIE -> v_wait (t i) = 0
}.

(** A state in which a process runs. *)
Record kern_ok (k : kern) : Prop := KernOk {
  ko_shape : shaped k;
  ko_table : table_ok (abs k);
  ko_running : v_state (abs k (current k)) = P_RUNNABLE
}.

(** ** Executing the kernel's code *)

Definition upd (k : kern) (pid : Z) (f : process -> process) : kern :=
  Kern (alter f (Z.to_nat pid) (proc_array k)) (current k) (memory k).

Lemma proc_shaped k pid fu : length (proc_array k) = 16%nat -> 0 <= pid < 16 -> proc pid fu k = Ret (desc k pid) k.
Proof.
  intros Hl Hp. unfold proc, desc. rewrite (proj2 (Z.leb_le 0 pid)) by lia.
  destruct (nth_lookup_or_length (proc_array k) (Z.to_nat pid) dummy) as [->|]; [done|lia].
Qed.

Lemma set_proc_shaped k pid f fu : length (proc_array k) = 16%nat -> 0 <= pid < 16 ->
  set_proc pid f fu k = Ret tt (upd k pid f).
Proof.
  intros Hl Hp. unfold set_proc. rewrite (proj2 (Z.leb_le 0 pid)), (proj2 (Nat.ltb_lt _ _)) by lia. done.
Qed.

Lemma length_upd k pid f : length (proc_array (upd k pid f)) = length (proc_array k).
Proof. apply length_alter. Qed.

Lemma desc_upd k i f j : length (proc_array k) = 16%nat -> 0 <= i < 16 -> 0 <= j < 16 ->
  desc (upd k i f) j = if decide (i = j) then f (desc k i) else desc k j.
Proof.
  intros Hl Hi Hj. unfold desc, upd. cbn [proc_array]. rewrite !nth_lookup.
  destruct (decide (i = j)) as [->|Hne].
  - rewrite list_lookup_alter_eq. destruct (lookup_lt_is_Some_2 (proc_array k) (Z.to_nat j)) as [x ->]; [lia|done].
  - rewrite list_lookup_alter_ne by lia. done.
Qed.

Lemma wp_proc k pid fu (Q : process -> kern -> Prop) : length (proc_array k) = 16%nat -> 0 <= pid < 16 ->
  Q (desc k pid) k -> wp (proc pid) fu k Q.
Proof. intros Hl Hp HQ. unfold wp. by rewrite proc_shaped. Qed.

Lemma wp_set_proc k pid f fu (Q : unit -> kern -> Prop) : length (proc_array k) = 16%nat -> 0 <= pid < 16 ->
  Q tt (upd k pid f) -> wp (set_proc pid f) fu k Q.
Proof. intros Hl Hp HQ. unfold wp. by rewrite set_proc_shaped. Qed.

Lemma run_bind {S A B} (c : prog S A) (f : A -> prog S B) fu s a s' :
  c fu s = Ret a s' -> (c ≫= f) fu s = f a fu s'.
Proof. unfold mbind, prog_bind. by intros ->. Qed.

Lemma bool_decide_state k p s : bool_decide (p_state (desc k p) = s) = bool_decide (v_state (abs k p) = s).
Proof. done. Qed.

(** [find_empty] computes [first_empty]. *)
Lemma find_empty_run k fu : length (proc_array k) = 16%nat ->
  find_empty fu k = Ret (default NPROCS (first_empty (abs k))) k.
Proof.
  intros Hl.
  assert (Hloop : forall n i, 0 <= i -> i + Z.of_nat n <= 16 ->
    for_ret n i (fun pid => p ← proc pid; mret (if bool_decide (p_state p = P_EMPTY) then Some pid else None)) fu k =
      Ret (head (filter (fun p => v_state (abs k p) = P_EMPTY) (seqZ i (Z.of_nat n)))) k).
  { induction n as [|n IH]; intros i Hi Hn; [done|].
    rewrite seqZ_cons by lia. replace (Z.pred (Z.of_nat (S n))) with (Z.of_nat n) by lia.
    cbn [for_ret]. rewrite filter_cons.
    erewrite run_bind; [|exact (run_bind _ _ _ _ _ _ (proc_shaped k i fu Hl ltac:(lia)))].
    change (v_state (abs k i)) with (p_state (desc k i)).
    destruct (decide (p_state (desc k i) = P_EMPTY)) as [He|He].
    - rewrite bool_decide_true by done. done.
    - rewrite bool_decide_false by done. replace (Z.succ i) with (i + 1) by lia. apply IH; lia. }
  unfold find_empty. by erewrite run_bind; [|apply Hloop; done].
Qed.

Lemma first_empty_spec t p : first_empty t = Some p ->
  1 <= p < 16 /\ v_state (t p) = P_EMPTY /\ forall q, 1 <= q < p -> v_state (t q) <> P_EMPTY.
Proof.
  unfold first_empty. destruct (filter _ _) as [|x l] eqn:E; [done|]. cbn. intros [= ->].
  assert (Hin : p ∈ filter (fun p => v_state (t p) = P_EMPTY) (seqZ 1 15)) by (rewrite E; by left).
  apply list_elem_of_filter in Hin as [Hp Hr%elem_of_seqZ]. split; [lia|]. split; [done|].
  intros q Hq He. pose proof (filter_seqZ_least _ 15 1 p l E q ltac:(lia) He). lia.
Qed.

Lemma first_empty_none t : first_empty t = None <-> forall q, 1 <= q < 16 -> v_state (t q) <> P_EMPTY.
Proof.
  unfold first_empty. split.
  - destruct (filter _ _) as [|x l] eqn:E; [|done]. intros _ q Hq He.
    assert (Hin : q ∈ filter (fun p => v_state (t p) = P_EMPTY) (seqZ 1 15)).
    { apply list_elem_of_filter. split; [done|]. apply elem_of_seqZ. lia. }
    rewrite E in Hin. by apply not_elem_of_nil in Hin.
  - intros H. rewrite filter_none; [done|]. intros q Hq%elem_of_seqZ. apply H. lia.
Qed.

Lemma first_empty_ext t t' : (forall i, 0 <= i < 16 -> t i = t' i) -> first_empty t = first_empty t'.
Proof.
  intros H. unfold first_empty. f_equal. apply filter_ext_in. intros i Hi%elem_of_seqZ. by rewrite H by lia.
Qed.

(** The processes in cyclic order after [c]. *)
Definition cycle (c : Z) (n : nat) : list Z := map (fun i => (c + i) mod 16) (seqZ 1 (Z.of_nat n)).

Lemma cycle_S c n : cycle c (S n) = (c + 1) mod 16 :: cycle ((c + 1) mod 16) n.
Proof.
  unfold cycle. rewrite seqZ_cons by lia. replace (Z.pred (Z.of_nat (S n))) with (Z.of_nat n) by lia. cbn [map]. f_equal.
  change (Z.succ 1) with (1 + 1). rewrite <- (fmap_add_seqZ 1 1). change (Z.add 1 <$> ?l) with (map (Z.add 1) l).
  rewrite map_map. apply map_ext. intros i. rewrite Zplus_mod_idemp_l. f_equal. lia.
Qed.

(** [schedule] runs the first runnable process in cyclic order. *)
Lemma schedule_loop k fu : length (proc_array k) = 16%nat -> forall n pid, 0 <= pid < 16 ->
  loop_n n (fun pid =>
    let pid := (pid + 1) mod NPROCS in
    p ← proc pid;
    if bool_decide (p_state p = P_RUNNABLE) then run pid;; mret (inr tt)
    else mret (inl pid)) pid fu k =
  match head (filter (fun p => v_state (abs k p) = P_RUNNABLE) (cycle pid n)) with
  | Some q => Ret tt (Kern (proc_array k) q (memory k))
  | None => Hang
  end.
Proof.
  intros Hl. induction n as [|n IH]; intros pid Hp; [done|].
  cbn [loop_n]. rewrite cycle_S, filter_cons. set (q := (pid + 1) mod 16).
  assert (Hq : 0 <= q < 16) by (apply Z.mod_pos_bound; lia).
  cbv zeta. change NPROCS with 16. fold q. erewrite run_bind; [|exact (proc_shaped k q fu Hl Hq)].
  change (v_state (abs k q)) with (p_state (desc k q)).
  destruct (decide (p_state (desc k q) = P_RUNNABLE)) as [Hr|Hr].
  - rewrite bool_decide_true by done. done.
  - rewrite bool_decide_false by done. cbn. apply IH. done.
Qed.

Lemma cycle_16 c n : (16 <= n)%nat -> exists l, cycle c n = cycle c 16 ++ l.
Proof.
  intros Hn. exists (map (fun i => (c + i) mod 16) (seqZ 17 (Z.of_nat n - 16))). unfold cycle.
  replace (Z.of_nat n) with (16 + (Z.of_nat n - 16)) at 1 by lia.
  rewrite seqZ_app by lia. by rewrite map_app.
Qed.

Lemma in_cycle c q : 0 <= q < 16 -> q ∈ cycle c 16.
Proof.
  intros Hq. unfold cycle. apply list_elem_of_In, in_map_iff.
  exists ((q - c - 1) mod 16 + 1). split.
  - rewrite (Z.add_comm _ 1), Z.add_assoc, Zplus_mod_idemp_r. replace (c + 1 + (q - c - 1)) with q by lia. by apply Z.mod_small.
  - apply list_elem_of_In, elem_of_seqZ. pose proof (Z.mod_pos_bound (q - c - 1) 16). lia.
Qed.

Lemma cycle_range c n q : q ∈ cycle c n -> 0 <= q < 16.
Proof. intros Hq. apply list_elem_of_In, in_map_iff in Hq as (i & <- & _). apply Z.mod_pos_bound. lia. Qed.

Lemma next_runnable_none t c : next_runnable t c = None <-> forall q, 0 <= q < 16 -> v_state (t q) <> P_RUNNABLE.
Proof.
  unfold next_runnable. split.
  - destruct (filter _ _) as [|x l] eqn:E; [|done]. intros _ q Hq Hr.
    assert (Hin : q ∈ filter (fun p => v_state (t p) = P_RUNNABLE) (cycle c 16)).
    { apply list_elem_of_filter. split; [done|]. by apply in_cycle. }
    unfold cycle in Hin. change (Z.of_nat 16) with 16 in Hin. rewrite E in Hin. by apply not_elem_of_nil in Hin.
  - intros H. rewrite filter_none; [done|]. intros q Hq. apply H. by apply (cycle_range c 16).
Qed.

Lemma schedule_run k fu : shaped k ->
  match next_runnable (abs k) (current k) with
  | Some q => (16 <= fu)%nat -> schedule fu k = Ret tt (Kern (proc_array k) q (memory k))
  | None => schedule fu k = Hang
  end.
Proof.
  intros Sh. pose proof (sh_len _ Sh) as Hl. pose proof (sh_cur _ Sh) as Hc.
  assert (Hrun : schedule fu k = match head (filter (fun p => v_state (abs k p) = P_RUNNABLE) (cycle (current k) fu)) with
    | Some q => Ret tt (Kern (proc_array k) q (memory k)) | None => Hang end).
  { unfold schedule. erewrite run_bind; [|reflexivity]. erewrite run_bind; [|apply proc_shaped; lia].
    rewrite (sh_pid _ Sh) by lia. unfold loop. by apply schedule_loop; [|lia]. }
  rewrite Hrun. destruct (next_runnable (abs k) (current k)) as [q|] eqn:E.
  - intros Hfu. destruct (cycle_16 (current k) fu Hfu) as [l ->].
    unfold next_runnable in E. change (map _ _) with (cycle (current k) 16) in E.
    rewrite filter_app. destruct (filter _ (cycle (current k) 16)); [done|]. cbn in *. by simplify_eq.
  - rewrite filter_none; [done|]. intros q Hq. apply (proj1 (next_runnable_none _ _) E). by eapply cycle_range.
Qed.

Lemma bind_assoc {S A B C} (c : prog S A) (f : A -> prog S B) (g : B -> prog S C) fu s :
  ((c ≫= f) ≫= g) fu s = (c ≫= fun a => f a ≫= g) fu s.
Proof. unfold mbind, prog_bind. by destruct (c fu s). Qed.

Lemma current_upd k i f : current (upd k i f) = current k.
Proof. done. Qed.
Lemma memory_upd k i f : memory (upd k i f) = memory k.
Proof. done. Qed.

(** [current->p_registers = *reg] *)
Definition entered_kernel (k : kern) (reg : registers) : kern := upd k (current k) (set_p_registers reg).

Lemma current_entered k reg : current (entered_kernel k reg) = current k.
Proof. done. Qed.

(** The same process table over another memory. *)
Definition with_memory (k : kern) (m : mem) : kern := Kern (proc_array k) (current k) m.

Lemma length_with_memory k m : length (proc_array (with_memory k m)) = length (proc_array k).
Proof. done. Qed.
Lemma desc_with_memory k m i : desc (with_memory k m) i = desc k i.
Proof. done. Qed.
Lemma current_with_memory k m : current (with_memory k m) = current k.
Proof. done. Qed.

Ltac klen := repeat rewrite ?length_upd, ?length_with_memory; assumption.

Lemma in_memory_memset k a c n fu :
  in_memory (memsetp a c n) fu k = Ret tt (with_memory k (memset (memory k) a c n)).
Proof. done. Qed.

(** One step of an equation between the run of a handler and a result. *)
Ltac kstep :=
  cbv beta zeta; cbn [when negb]; repeat rewrite ?current_upd, ?current_with_memory, ?current_entered;
  lazymatch goal with
  | |- mbind _ (mbind _ _) _ _ = _ => rewrite bind_assoc
  | |- mbind _ (mret _) _ _ = _ => erewrite run_bind; [|reflexivity]
  | |- mbind _ get_current _ _ = _ => erewrite run_bind; [|reflexivity]
  | |- mbind _ (proc _) _ _ = _ => erewrite run_bind; [|apply proc_shaped; [klen|lia]]
  | |- mbind _ (set_proc _ _) _ _ = _ => erewrite run_bind; [|apply set_proc_shaped; [klen|lia]]
  | |- mbind _ (in_memory (memsetp _ _ _)) _ _ = _ => erewrite run_bind; [|apply in_memory_memset]
  | |- mbind _ find_empty _ _ = _ => erewrite run_bind; [|apply find_empty_run; klen]
  | |- mbind _ (set_current_eax _) _ _ = _ => unfold set_current_eax
  | |- mbind _ current_eax _ _ = _ => unfold current_eax
  end.

(** The stack of process [pid] ends at [stack_top pid]. *)
Definition stack_top (pid : Z) : Z := PROC1_STACK_ADDR + pid * PROC_STACK_SIZE.

Lemma stack_top_word pid : 0 <= pid < 16 -> u32 (PROC1_STACK_ADDR + pid * PROC_STACK_SIZE) = stack_top pid.
Proof. intros H. apply u32_small. unfold stack_top, PROC1_STACK_ADDR, PROC_STACK_SIZE. lia. Qed.

(** [copy_stack] between two descriptors. *)
Lemma copy_stack_run k dest src fu : shaped k -> 0 <= dest < 16 -> 0 <= src < 16 ->
  let esp := reg_esp (regs k src) in
  let len := u32 (stack_top src - esp) in
  let bottom := u32 (stack_top dest - len) in
  copy_stack dest src fu k =
    Ret tt (with_memory (upd k dest (fun d => set_p_registers (set_esp bottom (p_registers d)) d))
              (copied (Z.to_nat len) bottom esp (memory k))).
Proof.
  intros [Hl Hp Hc] Hd Hs esp len bottom. unfold copy_stack.
  repeat kstep. rewrite !Hp by done. rewrite !stack_top_word by done.
  unfold mbind, prog_bind, in_memory. by rewrite memcpy_copied.
Qed.

(** The state in which a handler ends, before the next process is run. *)
Record called (k : kern) (reg : registers) (t' : table) (res : option Z) (k1 : kern) : Prop := Called {
  ca_shape : shaped k1;
  ca_cur : current k1 = current k;
  ca_table : forall i, 0 <= i < 16 -> abs k1 i = t' i;
  ca_self : regs k1 (current k) = match res with Some v => set_eax v reg | None => reg end;
  ca_other : forall i, 0 <= i < 16 -> i <> current k -> v_state (abs k i) <> P_EMPTY -> regs k1 i = regs k i
}.

Lemma shaped_upd k i f : shaped k -> 0 <= i < 16 -> (forall p, p_pid (f p) = p_pid p) -> shaped (upd k i f).
Proof.
  intros [Hl Hp Hc] Hi Hf. split; [by rewrite length_upd| |done].
  intros j Hj. rewrite desc_upd by done. case_decide; [subst; rewrite Hf|]; by apply Hp.
Qed.

Lemma shaped_memory k m : shaped k -> shaped (with_memory k m).
Proof. by intros [? ? ?]. Qed.

Lemma kern_eta k : Kern (proc_array k) (current k) (memory k) = k.
Proof. by destruct k. Qed.

Section Calls.
Context (k : kern) (reg : registers) (fu : nat) (K : kern_ok k).

Abbreviation c := (current k).
Abbreviation k0 := (entered_kernel k reg).

Lemma k0_shaped : shaped k0.
Proof. apply shaped_upd; [apply K| |done]. pose proof (sh_cur _ (ko_shape _ K)). lia. Qed.

Lemma abs_k0 i : 0 <= i < 16 -> abs k0 i = abs k i.
Proof.
  intros Hi. pose proof (ko_shape _ K) as [Hl _ Hc]. unfold abs, entered_kernel. rewrite desc_upd by first [done|lia].
  case_decide; [by subst|done].
Qed.

Lemma run_self fu' k1 : current k1 = c -> run c fu' k1 = Ret tt k1.
Proof. intros <-. unfold run. by rewrite kern_eta. Qed.

Lemma desc_k0 i : 0 <= i < 16 ->
  desc k0 i = if decide (c = i) then set_p_registers reg (desc k c) else desc k i.
Proof. pose proof (ko_shape _ K) as [Hl _ Hc]. intros Hi. unfold entered_kernel. by rewrite desc_upd by first [done|lia]. Qed.

Lemma pid_k0 i : 0 <= i < 16 -> p_pid (desc k0 i) = i.
Proof. apply k0_shaped. Qed.

Lemma pid_k i : 0 <= i < 16 -> p_pid (desc k i) = i.
Proof. apply K. Qed.

Ltac ksetup :=
  pose proof k0_shaped as Sh; pose proof (sh_len _ Sh) as Hl; pose proof (sh_cur _ Sh) as Hc;
  rewrite current_entered in Hc.

(** The descriptors of an updated table. *)
Ltac kfields := cbn [p_pid p_wait p_registers p_state p_exit_status
  set_p_registers set_p_state set_p_wait set_p_exit_status v_state v_wait v_status set_state].
Ltac kdesc :=
  repeat rewrite ?current_upd, ?current_with_memory, ?current_entered;
  repeat first [rewrite desc_with_memory|rewrite desc_upd by first [klen|lia]];
  rewrite ?desc_k0 by lia; kfields; unfold insert, fn_insert;
  repeat (case_decide; [subst|]); try (exfalso; lia); kfields; rewrite ?pid_k by lia.

Ltac kshaped :=
  repeat lazymatch goal with
  | |- shaped (with_memory _ _) => apply shaped_memory
  | |- shaped (upd _ _ _) => apply shaped_upd; [|lia|done]
  | |- shaped (entered_kernel _ _) => exact k0_shaped
  end.

(** What remains of [called] after the handler's steps. *)
Ltac kcalled :=
  split; [kshaped|done
  |intros ?i ?Hi; unfold abs, view_of; kdesc; try reflexivity
  |unfold regs; kdesc; try reflexivity
  |intros ?i ?Hi ?Hne ?Hst; unfold regs; kdesc; try reflexivity].

Lemma getpid_run : exists k1, called k reg (abs k) (Some c) k1 /\ sys_getpid fu k0 = Ret tt k1.
Proof.
  ksetup. eexists. split; cycle 1.
  - unfold sys_getpid. repeat kstep. by apply run_self.
  - kcalled.
Qed.

Lemma yield_run : exists k1, called k reg (abs k) None k1 /\ sys_yield fu k0 = schedule fu k1.
Proof. ksetup. eexists. split; [|reflexivity]. kcalled. Qed.

Lemma wait_k i : 0 <= i < 16 -> 0 <= p_wait (desc k i) < 16 /\ (p_wait (desc k i) <> 0 -> p_wait (desc k i) <> i).
Proof. apply (to_wait _ (ko_table _ K)). Qed.

Lemma exit_run : exists k1, called k reg (end_process (abs k) c (s32 (reg_eax reg))) None k1 /\
  sys_exit fu k0 = schedule fu k1.
Proof.
  ksetup. destruct (wait_k c ltac:(lia)) as [Hw Hne]. unfold end_process. cbn [abs view_of v_wait].
  assert (Hwk : p_wait (desc k0 c) = p_wait (desc k c)) by (rewrite desc_k0 by lia; by rewrite decide_True).
  destruct (Z.eqb_spec (p_wait (desc k c)) 0) as [H0|H0].
  - eexists. split; cycle 1.
    + unfold sys_exit. repeat kstep. rewrite Hwk, (proj2 (Z.eqb_eq _ 0)) by done. repeat kstep. reflexivity.
    + kcalled. by rewrite H0.
  - eexists. split; cycle 1.
    + unfold sys_exit. repeat kstep. rewrite Hwk, (proj2 (Z.eqb_neq _ 0)) by done. repeat kstep. reflexivity.
    + kcalled.
Qed.

Lemma reg_k0 : p_registers (desc k0 c) = reg.
Proof. pose proof (sh_cur _ (ko_shape _ K)). rewrite desc_k0 by lia. by rewrite decide_True. Qed.

Lemma state_k0 i : 0 <= i < 16 -> p_state (desc k0 i) = p_state (desc k i).
Proof. intros Hi. rewrite desc_k0 by done. by case_decide; subst. Qed.

Lemma wait_k0 i : 0 <= i < 16 -> p_wait (desc k0 i) = p_wait (desc k i).
Proof. intros Hi. rewrite desc_k0 by done. by case_decide; subst. Qed.

(** The end of [sys_kill]. *)
Lemma kill_tail pid k1 : shaped k1 -> current k1 = c ->
  (if negb (pid =? p_pid (desc k1 c)) then run c else schedule) fu k1 =
    if negb (pid =? c) then Ret tt k1 else schedule fu k1.
Proof.
  intros [Hl Hp Hc] Hcur. rewrite Hcur in Hc. rewrite Hp by lia. destruct (negb (pid =? c)); [|done]. by apply run_self.
Qed.

Lemma kill_run stray : let pid := s32 (reg_eax reg) in
  exists k1, called k reg (if bool_decide (1 <= pid < 16 /\ v_state (abs k pid) <> P_EMPTY)
      then end_process (abs k) pid 5 else abs k) None k1 /\
    sys_kill stray fu k0 = if negb (pid =? c) then Ret tt k1 else schedule fu k1.
Proof.
  intros pid. ksetup. unfold sys_kill. case_bool_decide as Hv.
  - destruct Hv as [Hpid Hst]. change (v_state (abs k pid)) with (p_state (desc k pid)) in Hst.
    destruct (wait_k pid ltac:(lia)) as [Hw Hne]. unfold end_process. cbn [abs view_of v_wait].
    destruct (Z.eqb_spec (p_wait (desc k pid)) 0) as [H0|H0].
    + eexists. split; cycle 1.
      * repeat kstep. rewrite reg_k0. fold pid.
        rewrite (proj2 (Z.leb_le 0 pid)), (proj2 (Z.ltb_lt pid NPROCS)), (proj2 (Z.ltb_lt 0 pid)) by (unfold NPROCS; lia).
        cbn [andb]. repeat kstep. rewrite state_k0, wait_k0 by lia. rewrite bool_decide_false by done.
        rewrite (proj2 (Z.eqb_eq _ 0)) by done. repeat kstep. apply kill_tail; [kshaped|done].
      * kcalled; f_equal; congruence.
    + eexists. split; cycle 1.
      * repeat kstep. rewrite reg_k0. fold pid.
        rewrite (proj2 (Z.leb_le 0 pid)), (proj2 (Z.ltb_lt pid NPROCS)), (proj2 (Z.ltb_lt 0 pid)) by (unfold NPROCS; lia).
        cbn [andb]. repeat kstep. rewrite state_k0, wait_k0 by lia. rewrite bool_decide_false by done.
        rewrite (proj2 (Z.eqb_neq _ 0)) by done. repeat kstep. apply kill_tail; [kshaped|done].
      * kcalled. by match goal with H : c = _ |- _ => rewrite H end.
  - exists k0. assert (C : called k reg (abs k) None k0) by kcalled. split; [done|].
    repeat kstep. rewrite reg_k0. fold pid.
    destruct (decide (0 <= pid < 16)) as [Hr|Hr].
    + rewrite (proj2 (Z.leb_le 0 pid)), (proj2 (Z.ltb_lt pid NPROCS)) by (unfold NPROCS; lia). cbn [andb]. repeat kstep.
      destruct (Z.ltb_spec 0 pid); repeat kstep; [|apply kill_tail; [kshaped|done]].
      rewrite state_k0 by lia. rewrite bool_decide_true; [repeat kstep; apply kill_tail; [kshaped|done]|].
      destruct (decide (p_state (desc k pid) = P_EMPTY)); [done|]. destruct Hv. split; [lia|done].
    + replace ((0 <=? pid) && (pid <? NPROCS)) with false by (symmetry; unfold NPROCS; apply andb_false_iff; lia).
      replace ((pid <? NPROCS) && (0 <? pid)) with false by (symmetry; unfold NPROCS; apply andb_false_iff; lia).
      repeat kstep. apply kill_tail; [kshaped|done].
Qed.

Lemma wait_run : let p := s32 (reg_eax reg) in
  exists k1, called k reg (effect (abs k) c (Wait p)).1.1 (effect (abs k) c (Wait p)).2 k1 /\
    sys_wait fu k0 = schedule fu k1.
Proof.
  intros p. ksetup. unfold sys_wait. cbn [effect]. case_bool_decide as Hv.
  - destruct Hv as (Hp & Hpc & Hst). change (v_state (abs k p)) with (p_state (desc k p)) in *.
    assert (Hpre : forall b, ((p <=? 0) || (NPROCS <=? p) || (p =? p_pid (desc k0 c)) = b) -> b = false).
    { intros b <-. rewrite pid_k0 by lia. unfold NPROCS. apply orb_false_iff. rewrite orb_false_iff, Z.leb_gt, Z.leb_gt, Z.eqb_neq. lia. }
    case_bool_decide as Hz; cbn [fst snd]; eexists.
    + split; cycle 1.
      * repeat kstep. rewrite reg_k0. fold p. rewrite (Hpre _ eq_refl). repeat kstep.
        rewrite state_k0 by lia. rewrite bool_decide_false by done. repeat kstep.
        rewrite bool_decide_true by (by rewrite state_k0 by lia). repeat kstep. reflexivity.
      * kcalled.
    + split; cycle 1.
      * repeat kstep. rewrite reg_k0. fold p. rewrite (Hpre _ eq_refl). repeat kstep.
        rewrite state_k0 by lia. rewrite bool_decide_false by done. repeat kstep.
        rewrite bool_decide_false by (by rewrite state_k0 by lia). repeat kstep. rewrite pid_k0 by lia. reflexivity.
      * kcalled.
  - cbn [fst snd]. eexists. split; cycle 1.
    + repeat kstep. rewrite reg_k0. fold p. rewrite pid_k0 by lia.
      destruct ((p <=? 0) || (NPROCS <=? p) || (p =? c)) eqn:E; repeat kstep; [reflexivity|].
      rewrite !orb_false_iff, !Z.leb_gt, Z.eqb_neq in E. unfold NPROCS in E. repeat kstep.
      rewrite state_k0 by lia. rewrite bool_decide_true; [repeat kstep; reflexivity|].
      destruct (decide (p_state (desc k p) = P_EMPTY)); [done|]. destruct Hv. split; [lia|]. split; [lia|done].
    + kcalled.
Qed.

Lemma first_empty_k0 : first_empty (abs k0) = first_empty (abs k).
Proof. apply first_empty_ext. apply abs_k0. Qed.

Lemma fork_full_run : first_empty (abs k) = None ->
  exists k1, called k reg (abs k) (Some (-1)) k1 /\ sys_fork fu k0 = Ret tt k1.
Proof.
  intros Hf. ksetup. eexists. split; cycle 1.
  - unfold sys_fork, do_fork. repeat kstep. rewrite first_empty_k0, Hf. cbn [default Z.eqb NPROCS Pos.eqb].
    repeat kstep. by apply run_self.
  - kcalled.
Qed.

(** Where a copied stack lies, and what the child's registers are. *)
Definition child_esp (child : Z) : Z := u32 (stack_top child - u32 (stack_top c - reg_esp reg)).

Lemma fork_run p : first_empty (abs k) = Some p ->
  exists k1, called k reg (<[p := set_state P_RUNNABLE (abs k p)]> (abs k)) (Some p) k1 /\ sys_fork fu k0 = Ret tt k1 /\
    regs k1 p = set_esp (child_esp p) (set_eax 0 reg) /\
    memory k1 = copied (Z.to_nat (u32 (stack_top c - reg_esp reg))) (child_esp p) (reg_esp reg) (memory k) /\
    forall i, 0 <= i < 16 -> i <> p -> i <> c -> desc k1 i = desc k i.
Proof.
  intros Hf. destruct (first_empty_spec _ _ Hf) as (Hp & Hst & _). ksetup.
  change (p_state (desc k p) = P_EMPTY) in Hst.
  assert (Hpc : p <> c).
  { intros ->. pose proof (ko_running _ K) as Hr. change (p_state (desc k c) = P_RUNNABLE) in Hr. congruence. }
  set (k1 := upd (upd (upd k0 p (set_p_registers reg)) p (fun d => set_p_registers (set_eax 0 (p_registers d)) d)) p
               (set_p_state P_RUNNABLE)).
  assert (Hsh : shaped k1) by (unfold k1; kshaped).
  assert (Hrc : regs k1 c = reg) by (unfold regs, k1; kdesc; done).
  pose proof (copy_stack_run k1 p c fu Hsh ltac:(lia) ltac:(lia)) as Hcopy. rewrite Hrc in Hcopy.
  assert (Hfork : do_fork c fu k0 = Ret p (with_memory (upd k1 p (fun d => set_p_registers (set_esp (child_esp p) (p_registers d)) d))
      (copied (Z.to_nat (u32 (stack_top c - reg_esp reg))) (child_esp p) (reg_esp reg) (memory k1)))).
  { unfold do_fork. repeat kstep. rewrite first_empty_k0, Hf. cbn [default from_option]. unfold id.
    rewrite (proj2 (Z.eqb_neq p NPROCS)) by (unfold NPROCS; lia). repeat kstep. rewrite reg_k0. fold k1.
    erewrite run_bind; [|exact Hcopy]. cbv beta. erewrite run_bind; [|apply proc_shaped; [unfold k1; klen|lia]].
    unfold mret, prog_ret. f_equal.
    apply sh_pid; [apply shaped_memory, shaped_upd; [done|lia|done]|lia]. }
  eexists. split; [|split; [|split; [|split]]]; cycle 1.
  - unfold sys_fork. erewrite run_bind; [|reflexivity]. rewrite current_entered. erewrite run_bind; [|exact Hfork].
    unfold k1. repeat kstep. by apply run_self.
  - unfold regs. kdesc. done.
  - done.
  - intros i Hi Hip Hic. unfold k1. kdesc. done.
  - kcalled. by destruct Hst0.
Qed.

Lemma newthread_full_run : first_empty (abs k) = None ->
  exists k1, called k reg (abs k) None k1 /\ sys_newthread fu k0 = schedule fu k1.
Proof.
  intros Hf. ksetup. eexists. split; cycle 1.
  - unfold sys_newthread. repeat kstep. rewrite first_empty_k0, Hf. reflexivity.
  - kcalled.
Qed.

Lemma newthread_run p : first_empty (abs k) = Some p ->
  exists k1, called k reg (<[p := set_state P_RUNNABLE (abs k p)]> (abs k)) (Some p) k1 /\ sys_newthread fu k0 = Ret tt k1 /\
    regs k1 p = set_esp (stack_top p) (set_eip (reg_eax reg) special_registers) /\
    memory k1 = memset (memory k) (stack_top p - PROC_STACK_SIZE) 0 (Z.to_nat PROC_STACK_SIZE).
Proof.
  intros Hf. destruct (first_empty_spec _ _ Hf) as (Hp & Hst & _). ksetup.
  change (p_state (desc k p) = P_EMPTY) in Hst.
  assert (Hpc : p <> c).
  { intros ->. pose proof (ko_running _ K) as Hr. change (p_state (desc k c) = P_RUNNABLE) in Hr. congruence. }
  eexists. split; [|split; [|split]]; cycle 1.
  - unfold sys_newthread. repeat kstep. rewrite first_empty_k0, Hf. cbn [default from_option]. unfold id.
    rewrite (proj2 (Z.ltb_lt p NPROCS)) by (unfold NPROCS; lia). rewrite stack_top_word by lia.
    unfold special_registers_init. repeat kstep. by apply run_self.
  - unfold regs. kdesc. done.
  - rewrite !memory_upd. reflexivity.
  - kcalled. by destruct Hst0.
Qed.
End Calls.
