(* ===== verification/MposCalls.v ===== *)
(** * MiniprocOS: system calls refine the abstract machine

    Each call of [interrupt] has exactly the effect that the abstract machine
    prescribes, and every state that can be reached from the boot is well
    formed. *)

From stdpp Require Import functions.
From S2P Require Import Prelude CMemory MposLib MposLibSpec Mpos MposSpec.

(** ** The table stays well formed *)

Definition table_range (t t' : table) : Prop := forall i, 0 <= i < 16 -> t i = t' i.

Lemma table_ok_ext t t' : table_range t t' -> table_ok t -> table_ok t'.
Proof.
  intros H [H0 Hw He]. split.
  - by rewrite <- H by lia.
  - intros i Hi. rewrite <- H by done. by apply Hw.
  - intros i Hi. rewrite <- H by done. by apply He.
Qed.

Ltac tcases := unfold insert, fn_insert in *; repeat case_decide; subst; cbn [v_state v_wait v_status set_state] in *.

Lemma end_process_ok t p s : table_ok t -> 1 <= p < 16 -> table_ok (end_process t p s).
Proof.
  intros [H0 Hw He] Hp. destruct (Hw p ltac:(lia)) as [Hr Hne]. unfold end_process.
  destruct (Z.eqb_spec (v_wait (t p)) 0) as [Hz|Hz].
  - split; [tcases; done || lia|intros i Hi; tcases; [split; lia|by apply Hw]|].
    intros i Hi Hs. tcases; [done|by apply He].
  - split; [tcases; try done; lia| |].
    + intros i Hi. tcases; try (split; lia); try (by apply Hw); try lia.
    + intros i Hi Hs. tcases; try done; try lia; [by destruct Hs|by apply He].
Qed.

Lemma effect_ok t c a : table_ok t -> 1 <= c < 16 -> v_state (t c) = P_RUNNABLE -> table_ok (effect t c a).1.1.
Proof.
  intros T Hc Hr. pose proof T as [H0 Hw He].
  assert (Hnew : forall p, first_empty t = Some p -> table_ok (<[p := set_state P_RUNNABLE (t p)]> t)).
  { intros p Hf. destruct (first_empty_spec _ _ Hf) as (Hp & Hs & _). split.
    - tcases; [lia|done].
    - intros i Hi. tcases; by apply Hw.
    - intros i Hi Hst. tcases; [by destruct Hst|by apply He]. }
  destruct a as [| | | |s|p|p|]; cbn [effect]; try done.
  - destruct (first_empty t) eqn:E; [by apply Hnew|done].
  - destruct (first_empty t) eqn:E; [by apply Hnew|done].
  - by apply end_process_ok.
  - cbn. case_bool_decide as Hv; [|done]. apply end_process_ok; [done|lia].
  - case_bool_decide as Hv; [|done]. destruct Hv as (Hp & Hpc & Hs). case_bool_decide as Hz; cbn [fst].
    + split; [tcases; [done|done]| |].
      * intros i Hi. tcases; by apply Hw.
      * intros i Hi Hst. tcases; [apply He; tauto|by apply He].
    + split; [tcases; [lia|lia|done]| |].
      * intros i Hi. tcases; try (by apply Hw); split; lia.
      * intros i Hi Hst. tcases; [by destruct Hst|by destruct Hst|by apply He].
Qed.

(** ** One system call *)

(** The process that runs after a call with this effect. *)
Definition next (e : table * bool * option Z) (c : Z) : option Z :=
  if e.1.2 then Some c else next_runnable e.1.1 c.

(** The registers with which the caller will go on. *)
Definition result_regs (res : option Z) (reg : registers) : registers :=
  match res with Some v => set_eax v reg | None => reg end.

(** What a call does apart from the scheduling. *)
Record implements (k : kern) (reg : registers) (k' : kern) : Prop := Implements {
  im_ok : kern_ok k';
  im_next : next (effect (abs k) (current k) (decode reg)) (current k) = Some (current k');
  im_table : table_range (abs k') (effect (abs k) (current k) (decode reg)).1.1;
  im_self : regs k' (current k) = result_regs (effect (abs k) (current k) (decode reg)).2 reg;
  im_other : forall i, 0 <= i < 16 -> i <> current k -> v_state (abs k i) <> P_EMPTY -> regs k' i = regs k i
}.

Lemma next_runnable_ext t t' c : table_range t t' -> next_runnable t c = next_runnable t' c.
Proof.
  intros H. unfold next_runnable. f_equal. apply filter_ext_in. intros q Hq.
  change (q ∈ cycle c 16) in Hq. apply cycle_range in Hq. by rewrite H.
Qed.

Lemma next_runnable_spec t c q : next_runnable t c = Some q -> 0 <= q < 16 /\ v_state (t q) = P_RUNNABLE.
Proof.
  unfold next_runnable. change (map _ _) with (cycle c 16). destruct (filter _ _) as [|x l] eqn:E; [done|]. cbn. intros [= ->].
  assert (Hin : q ∈ filter (fun p => v_state (t p) = P_RUNNABLE) (cycle c 16)) by (rewrite E; by left).
  apply list_elem_of_filter in Hin as [Hs Hq%cycle_range]. done.
Qed.

(** The handler ends by running the next process. *)
Lemma implements_run k reg k1 (keep : bool) t' res fu : kern_ok k ->
  effect (abs k) (current k) (decode reg) = (t', keep, res) -> called k reg t' res k1 ->
  (keep = true -> v_state (t' (current k)) = P_RUNNABLE) ->
  match next (t', keep, res) (current k) with
  | Some q => (16 <= fu)%nat -> exists k', (if keep then Ret tt k1 else schedule fu k1) = Ret tt k' /\
      implements k reg k' /\ memory k' = memory k1 /\ forall i, regs k' i = regs k1 i
  | None => (if keep then Ret tt k1 else schedule fu k1) = Hang
  end.
Proof.
  intros K He C Hkeep. pose proof (sh_cur _ (ko_shape _ K)) as Hc.
  assert (T' : table_ok t').
  { pose proof (effect_ok (abs k) (current k) (decode reg) (ko_table _ K) Hc (ko_running _ K)) as T. by rewrite He in T. }
  assert (T1 : table_ok (abs k1)) by (apply (table_ok_ext t'); [intros i Hi; symmetry; by apply C|done]).
  pose proof (ca_shape _ _ _ _ _ C) as Sh. pose proof (ca_cur _ _ _ _ _ C) as Hcur.
  assert (Himp : forall q, next (t', keep, res) (current k) = Some q -> 1 <= q < 16 -> v_state (t' q) = P_RUNNABLE ->
            implements k reg (Kern (proc_array k1) q (memory k1))).
  { intros q Hn Hq Hs. split; rewrite ?He; try done.
    - split; [split; [apply Sh|apply Sh|done]|exact T1|]. change (v_state (abs k1 q) = P_RUNNABLE).
      by rewrite (ca_table _ _ _ _ _ C) by lia.
    - intros i Hi. by apply C.
    - apply (ca_self _ _ _ _ _ C).
    - apply (ca_other _ _ _ _ _ C). }
  destruct keep; cbn [next fst snd] in *.
  - intros _. exists k1. split; [done|]. split; [|done].
    rewrite <- (kern_eta k1), Hcur. apply Himp; [done|done|by apply Hkeep].
  - pose proof (schedule_run k1 fu Sh) as Hs.
    rewrite (next_runnable_ext (abs k1) t'), Hcur in Hs by (intros i Hi; by apply C).
    unfold next in *. cbn [fst snd] in *. destruct (next_runnable t' (current k)) as [q|] eqn:E; [|done].
    intros Hfu. exists (Kern (proc_array k1) q (memory k1)). split; [by apply Hs|]. split; [|done].
    destruct (next_runnable_spec _ _ _ E) as [Hq Hr]. apply Himp; [done| |done].
    destruct (decide (q = 0)) as [->|]; [|lia]. rewrite (to_zero _ T') in Hr. done.
Qed.

Lemma keep_runnable t c a : v_state (t c) = P_RUNNABLE -> (effect t c a).1.2 = true ->
  v_state ((effect t c a).1.1 c) = P_RUNNABLE.
Proof.
  intros Hr. destruct a as [| | | |s|p|p|]; cbn [effect]; try done.
  - destruct (first_empty t); cbn [fst snd]; [|done]. intros _. tcases; done.
  - destruct (first_empty t); cbn [fst snd]; [|done]. intros _. tcases; done.
  - cbn [fst snd]. destruct (Z.eqb_spec p c) as [|Hne]; [done|]. intros _. case_bool_decide; [|done].
    unfold end_process. destruct (v_wait (t p) =? 0); tcases; done.
  - case_bool_decide; [case_bool_decide|]; done.
Qed.

(** The handler dispatches on the saved registers. *)
Definition handler (stray : Z -> Z) (a : call) : prog kern unit :=
  match a with
  | Getpid => sys_getpid
  | Fork => sys_fork
  | Newthread => sys_newthread
  | Yield => sys_yield
  | Exit _ => sys_exit
  | Kill _ => sys_kill stray
  | Wait _ => sys_wait
  | Undefined => spin
  end.

Lemma interrupt_handler stray reg k fu : kern_ok k ->
  interrupt stray reg fu k = handler stray (decode reg) fu (entered_kernel k reg).
Proof.
  intros K. pose proof (ko_shape _ K) as [Hl _ Hc]. unfold interrupt.
  erewrite run_bind; [|reflexivity]. erewrite run_bind; [|apply set_proc_shaped; [done|lia]].
  unfold decode. cbv zeta. by repeat destruct (_ =? _).
Qed.

(** What the call of given registers is fixes how they are decoded. *)
Lemma decode_arg reg : match decode reg with
  | Exit v | Kill v | Wait v => v = s32 (reg_eax reg) | _ => True end.
Proof. unfold decode. cbv zeta. by repeat destruct (_ =? _). Qed.

(** Apart from the scheduling, [interrupt] has the effect of the call. *)
Lemma interrupt_run stray reg k fu : kern_ok k -> decode reg <> Undefined ->
  exists k1, called k reg (effect (abs k) (current k) (decode reg)).1.1 (effect (abs k) (current k) (decode reg)).2 k1 /\
    interrupt stray reg fu k =
      if (effect (abs k) (current k) (decode reg)).1.2 then Ret tt k1 else schedule fu k1.
Proof.
  intros K Hd. setoid_rewrite interrupt_handler; [|done]. pose proof (decode_arg reg) as Harg.
  destruct (decode reg) as [| | | |v|v|v|]; try (subst v); cbn [handler].
  - by apply getpid_run.
  - cbn [effect]. destruct (first_empty (abs k)) as [p|] eqn:E; [|by apply fork_full_run].
    destruct (fork_run k reg fu K p E) as (k1 & H1 & H2 & _). by exists k1.
  - cbn [effect]. destruct (first_empty (abs k)) as [p|] eqn:E; [|by apply newthread_full_run].
    destruct (newthread_run k reg fu K p E) as (k1 & H1 & H2 & _). by exists k1.
  - by apply yield_run.
  - by apply exit_run.
  - by apply kill_run.
  - destruct (wait_run k reg fu K) as (k1 & C & Hrun). exists k1. split; [done|].
    rewrite Hrun. cbn [effect]. by repeat case_bool_decide.
  - done.
Qed.

Lemma interrupt_undefined stray reg k fu : kern_ok k -> decode reg = Undefined -> interrupt stray reg fu k = Hang.
Proof. intros K Hd. rewrite interrupt_handler by done. by rewrite Hd. Qed.

(** Every call as the abstract machine prescribes. *)
Lemma interrupt_implements stray reg k fu : kern_ok k -> decode reg <> Undefined ->
  match next (effect (abs k) (current k) (decode reg)) (current k) with
  | Some q => (16 <= fu)%nat -> exists k', interrupt stray reg fu k = Ret tt k' /\ implements k reg k'
  | None => interrupt stray reg fu k = Hang
  end.
Proof.
  intros K Hd. destruct (interrupt_run stray reg k fu K Hd) as (k1 & C & ->).
  pose proof (keep_runnable (abs k) (current k) (decode reg) (ko_running _ K)) as Hk.
  destruct (effect (abs k) (current k) (decode reg)) as [[t' keep] res] eqn:E. cbn [fst snd] in *.
  pose proof (implements_run k reg k1 keep t' res fu K E C Hk) as H. rewrite <- E in *.
  destruct (next _ _) as [q|]; [|done]. intros Hfu. destruct (H Hfu) as (k' & Hrun & Him & _). by exists k'.
Qed.

(** What a call that returned must have done. *)
Lemma interrupt_returns stray reg k fu k' : kern_ok k -> interrupt stray reg fu k = Ret tt k' -> (16 <= fu)%nat ->
  decode reg <> Undefined /\ implements k reg k'.
Proof.
  intros K Hrun Hfu.
  assert (Hd : decode reg <> Undefined) by (intros Hd; by rewrite interrupt_undefined in Hrun).
  split; [done|]. pose proof (interrupt_implements stray reg k fu K Hd) as H.
  destruct (next _ _) as [q|]; [|congruence]. destruct (H Hfu) as (k2 & H2 & Him). congruence.
Qed.
