(* ===== verification/MposProps.v ===== *)
(** * MiniprocOS: the correctness properties of the kernel

    Refinement of the abstract machine, the invariant of the reachable states,
    fairness of the scheduler, [sys_fork], and the protocol of [sys_wait],
    [sys_exit] and [sys_kill]. *)

From stdpp Require Import functions.
From S2P Require Import Prelude CMemory MposLib MposLibSpec Mpos MposSpec MposCalls.

(** ** Refinement *)

(** C22. Every system call, on every well-formed state, does exactly what the
    abstract machine says: the process table becomes what [effect] prescribes,
    the caller's registers are the saved ones but for the result in %eax, nobody
    else's registers change, and the process that runs next is the caller or the
    next runnable one in cyclic order.  The kernel spins forever exactly when no
    process is runnable or the interrupt is not a system call. *)
Theorem interrupt_refines stray reg k fu : kern_ok k -> (16 <= fu)%nat ->
  match decode reg with
  | Undefined => interrupt stray reg fu k = Hang
  | a =>
      match next (effect (abs k) (current k) a) (current k) with
      | Some q => exists k', interrupt stray reg fu k = Ret tt k' /\ current k' = q /\ implements k reg k'
      | None => interrupt stray reg fu k = Hang
      end
  end.
Proof.
  intros K Hfu. pose proof (interrupt_implements stray reg k fu K) as H.
  pose proof (interrupt_undefined stray reg k fu K) as Hu.
  assert (Hgo : decode reg <> Undefined ->
    match next (effect (abs k) (current k) (decode reg)) (current k) with
    | Some q => exists k', interrupt stray reg fu k = Ret tt k' /\ current k' = q /\ implements k reg k'
    | None => interrupt stray reg fu k = Hang
    end).
  { intros Hd. specialize (H Hd). destruct (next _ _) as [q|] eqn:E; [|done].
    destruct (H Hfu) as (k' & Hrun & Him). exists k'. split; [done|]. split; [|done].
    pose proof (im_next _ _ _ Him) as Hn. rewrite E in Hn. by injection Hn. }
  destruct (decode reg); first [by apply Hgo|by apply Hu].
Qed.

(** ** The invariant *)

(** Between two system calls the running process may change its memory. *)
Inductive reachable (image_begin : Z -> Z) (stray : Z -> Z) : kern -> Prop :=
| reach_boot keys k0 fu k :
    start image_begin keys fu k0 = Ret tt k -> reachable image_begin stray k
| reach_call k m reg fu k' :
    reachable image_begin stray k -> (16 <= fu)%nat ->
    interrupt stray reg fu (with_memory k m) = Ret tt k' -> reachable image_begin stray k'.

Lemma in_memory_inv {A} (c : prog mem A) fu k a k' : in_memory c fu k = Ret a k' -> exists m, k' = with_memory k m.
Proof. unfold in_memory. destruct (c fu (memory k)) as [a' m| |]; [|done..]. intros [= <- <-]. by exists m. Qed.

Lemma bind_inv {S A B} (c : prog S A) (f : A -> prog S B) fu s b s' : (c ≫= f) fu s = Ret b s' ->
  exists a t, c fu s = Ret a t /\ f a fu t = Ret b s'.
Proof. unfold mbind, prog_bind. destruct (c fu s) as [a t| |]; [|done..]. by exists a, t. Qed.

Lemma wait_for_key_state keys fu n i k d k' :
  loop_n n (fun i => let d := uncurry console_read_digit (keys i) in
     if negb (d =? 1) && negb (d =? 2) then mret (M := prog kern) (inl (S i)) else mret (inr d)) i fu k = Ret d k' -> k' = k.
Proof.
  revert i. induction n as [|n IH]; intros i; [done|]. cbn [loop_n].
  destruct (negb _ && _); cbn; [apply IH|by intros [= _ <-]].
Qed.

Lemma start_ok image_begin keys fu k0 k : start image_begin keys fu k0 = Ret tt k -> kern_ok k.
Proof.
  unfold start. intros H. apply bind_inv in H as ([] & k1 & [= <-] & H).
  set (k1 := Kern _ 1 _) in *. assert (Hl1 : length (proc_array k1) = 16%nat) by done.
  unfold special_registers_init in H. rewrite (run_bind _ _ _ _ _ _ (set_proc_shaped k1 1 _ fu Hl1 ltac:(lia))) in H.
  set (k2 := upd k1 1 _) in *. assert (Hl2 : length (proc_array k2) = 16%nat) by (unfold k2; by rewrite length_upd).
  apply bind_inv in H as (d & k3 & Hkey & H). apply wait_for_key_state in Hkey as ->.
  apply bind_inv in H as (e & k4 & Hload & H). apply in_memory_inv in Hload as (m & ->).
  set (k4 := with_memory k2 m) in *. assert (Hl4 : length (proc_array k4) = 16%nat) by done.
  rewrite (run_bind _ _ _ _ _ _ (set_proc_shaped k4 1 _ fu Hl4 ltac:(lia))) in H. set (k5 := upd k4 1 _) in *.
  assert (Hl5 : length (proc_array k5) = 16%nat) by (unfold k5; by rewrite length_upd).
  rewrite (run_bind _ _ _ _ _ _ (set_proc_shaped k5 1 _ fu Hl5 ltac:(lia))) in H. set (k6 := upd k5 1 _) in *.
  assert (Hl6 : length (proc_array k6) = 16%nat) by (unfold k6; by rewrite length_upd).
  rewrite (run_bind _ _ _ _ _ _ (set_proc_shaped k6 1 _ fu Hl6 ltac:(lia))) in H. set (k7 := upd k6 1 _) in *.
  injection H as <-. change (kern_ok k7).
  assert (Hd : forall i, 0 <= i < 16 -> p_pid (desc k7 i) = i /\ p_wait (desc k7 i) = 0 /\
    p_state (desc k7 i) = if decide (i = 1) then P_RUNNABLE else P_EMPTY).
  { intros i Hi.
    assert (Hi' : i = 0 \/ i = 1 \/ i = 2 \/ i = 3 \/ i = 4 \/ i = 5 \/ i = 6 \/ i = 7 \/ i = 8 \/ i = 9 \/ i = 10 \/
      i = 11 \/ i = 12 \/ i = 13 \/ i = 14 \/ i = 15) by lia.
    destruct_or! Hi'; subst i; vm_compute; tauto. }
  split; [split|split|].
  - unfold k7. by rewrite length_upd.
  - intros i Hi. by apply Hd.
  - done.
  - by apply Hd.
  - intros i Hi. destruct (Hd i Hi) as (_ & Hw & _). change (v_wait (abs k7 i)) with (p_wait (desc k7 i)). lia.
  - intros i Hi _. by apply Hd.
  - by apply (Hd 1).
Qed.

Lemma kern_ok_memory k m : kern_ok k -> kern_ok (with_memory k m).
Proof. intros [[? ? ?] [? ? ?] ?]. by split. Qed.

(** C23. In every state that the kernel can reach from the boot, whatever the
    processes do between their system calls: there are 16 descriptors numbered
    from 0, slot 0 is never used, the current process is runnable, no process
    that has ended is waited for, and no process waits for itself. *)
Theorem reachable_ok image_begin stray k : reachable image_begin stray k -> kern_ok k.
Proof.
  induction 1 as [keys k0 fu k H|k m reg fu k' _ IH Hfu H]; [by eapply start_ok|].
  destruct (interrupt_returns stray reg (with_memory k m) fu k' (kern_ok_memory k m IH) H Hfu) as [_ Him]. apply Him.
Qed.

(** ** The scheduler is fair *)

(** A sequence of interrupts. *)
Fixpoint interrupts (stray : Z -> Z) (rs : list registers) : prog kern unit :=
  match rs with
  | [] => mret tt
  | reg :: rs' => interrupt stray reg;; interrupts stray rs'
  end.

Lemma head_filter_map (P : Z -> Prop) `{!forall x, Decision (P x)} (f : Z -> Z) n a x :
  head (filter P (map f (seqZ a (Z.of_nat n)))) = Some x ->
  exists e, a <= e < a + Z.of_nat n /\ x = f e /\ P x /\ forall e', a <= e' < e -> ~ P (f e').
Proof.
  revert a. induction n as [|n IH]; intros a; [done|].
  rewrite seqZ_cons by lia. replace (Z.pred (Z.of_nat (S n))) with (Z.of_nat n) by lia.
  cbn [map]. rewrite filter_cons. case_decide as Ha.
  - intros [= <-]. exists a. split; [lia|]. split; [done|]. split; [done|]. lia.
  - intros (e & He & -> & HP & Hlow)%IH. exists e. split; [lia|]. split; [done|]. split; [done|].
    intros e' He'. destruct (decide (e' = a)) as [->|]; [done|]. apply Hlow. lia.
Qed.

(** The next process to run is not past a runnable one. *)
Lemma next_runnable_closer t c q n : 0 <= q < 16 -> v_state (t q) = P_RUNNABLE -> 0 < (q - c) mod 16 ->
  next_runnable t c = Some n -> 0 <= (q - n) mod 16 < (q - c) mod 16.
Proof.
  intros Hq Hr Hd Hn. apply (head_filter_map _ _ 16) in Hn as (e & He & -> & _ & Hlow).
  pose proof (Z.mod_pos_bound (q - c) 16 ltac:(lia)) as Hb.
  assert (Hle : e <= (q - c) mod 16).
  { destruct (Z.le_gt_cases e ((q - c) mod 16)) as [|Hgt]; [done|]. exfalso. apply (Hlow ((q - c) mod 16)); [lia|].
    rewrite Zplus_mod_idemp_r. replace (c + (q - c)) with q by lia. by rewrite Z.mod_small. }
  rewrite Zminus_mod_idemp_r. replace (q - (c + e)) with ((q - c) - e) by lia.
  rewrite <- Zminus_mod_idemp_l, Z.mod_small by lia. lia.
Qed.

Lemma yields_from stray q fu : 1 <= q < 16 -> (16 <= fu)%nat -> forall rs k,
  kern_ok k -> v_state (abs k q) = P_RUNNABLE -> Forall (fun r => decode r = Yield) rs ->
  (q - current k) mod 16 <= Z.of_nat (length rs) ->
  exists n k', (n <= length rs)%nat /\ interrupts stray (take n rs) fu k = Ret tt k' /\ current k' = q.
Proof.
  intros Hq Hfu. induction rs as [|reg rs IH]; intros k K Hr Hrs Hd.
  - exists 0%nat, k. split; [done|]. split; [done|]. pose proof (sh_cur _ (ko_shape _ K)).
    cbn [length] in Hd. clear -Hd Hq H. divlia.
  - pose proof (sh_cur _ (ko_shape _ K)) as Hc. pose proof (Z.mod_pos_bound (q - current k) 16 ltac:(lia)) as Hb.
    destruct (decide ((q - current k) mod 16 = 0)) as [H0|H0].
    { exists 0%nat, k. split; [lia|]. split; [done|]. clear -H0 Hq Hc. divlia. }
    apply Forall_cons in Hrs as [Hy Hrs].
    pose proof (interrupt_implements stray reg k fu K ltac:(by rewrite Hy)) as Himp. rewrite Hy in Himp.
    cbn [effect next fst snd] in Himp.
    destruct (next_runnable (abs k) (current k)) as [n|] eqn:E.
    2: { exfalso. apply (proj1 (next_runnable_none _ _) E q); [lia|done]. }
    destruct (Himp Hfu) as (k1 & Hrun & Him).
    pose proof (im_next _ _ _ Him) as Hn. pose proof (im_table _ _ _ Him) as Ht. rewrite Hy in Hn, Ht.
    cbn [effect next fst snd] in Hn, Ht. rewrite E in Hn. injection Hn as Hn.
    pose proof (next_runnable_closer (abs k) (current k) q n ltac:(lia) Hr ltac:(lia) E) as Hclose. rewrite Hn in Hclose.
    destruct (IH k1 (im_ok _ _ _ Him)) as (i & k' & Hi & Hruns & Hcur).
    + by rewrite Ht by lia.
    + done.
    + cbn [length] in Hd. lia.
    + exists (S i), k'. split; [cbn; lia|]. split; [|done]. cbn [take interrupts]. by erewrite run_bind.
Qed.

(** C24. The scheduler is fair: a runnable process runs after at most 15 yields,
    whichever processes make them. *)
Theorem yields_reach_runnable stray k q rs fu :
  kern_ok k -> 1 <= q < 16 -> v_state (abs k q) = P_RUNNABLE -> (16 <= fu)%nat ->
  length rs = 15%nat -> Forall (fun r => decode r = Yield) rs ->
  exists n k', (n <= 15)%nat /\ interrupts stray (take n rs) fu k = Ret tt k' /\ current k' = q.
Proof.
  intros K Hq Hr Hfu Hlen Hrs. rewrite <- Hlen. apply yields_from; try done. rewrite Hlen.
  pose proof (Z.mod_pos_bound (q - current k) 16). lia.
Qed.

(** ** sys_fork *)

(** C25. [sys_fork] with a free slot, called with the stack pointer inside the
    caller's stack: the child, in the first free slot, gets the parent's
    registers but for 0 in %eax and a stack pointer as far below the top of its
    own stack; the bytes on the two stacks are the same; the parent gets the
    child's id.  Nothing else changes: neither what the child's and the parent's
    descriptors say beyond that, nor any other descriptor, nor a byte outside the
    child's stack. *)
Theorem fork_copies stray reg k p fu :
  kern_ok k -> decode reg = Fork -> first_empty (abs k) = Some p -> (16 <= fu)%nat ->
  stack_top (current k) - PROC_STACK_SIZE <= reg_esp reg <= stack_top (current k) ->
  let off := stack_top (current k) - reg_esp reg in
  exists k', interrupt stray reg fu k = Ret tt k' /\ current k' = current k /\ 1 <= p < 16 /\
    (forall q, 0 <= q < 16 -> abs k' q = if decide (q = p) then set_state P_RUNNABLE (abs k p) else abs k q) /\
    (forall q, 0 <= q < 16 -> q <> p -> q <> current k -> desc k' q = desc k q) /\
    regs k' p = set_esp (stack_top p - off) (set_eax 0 reg) /\ regs k' (current k) = set_eax p reg /\
    (forall i, 0 <= i < off -> ld8 (memory k') (stack_top p - off + i) = ld8 (memory k) (reg_esp reg + i)) /\
    changes (within (stack_top p - PROC_STACK_SIZE) (stack_top p)) (memory k) (memory k').
Proof.
  intros K Hd Hf Hfu Hesp off. destruct (first_empty_spec _ _ Hf) as (Hp & _ & _).
  destruct (fork_run k reg fu K p Hf) as (k1 & C & Hrun & Hregs & Hmem & Hoth).
  pose proof (sh_cur _ (ko_shape _ K)) as Hc.
  assert (Hoff : u32 (stack_top (current k) - reg_esp reg) = off).
  { apply u32_small. unfold off, PROC_STACK_SIZE in *. lia. }
  assert (Hbot : child_esp k reg p = stack_top p - off).
  { unfold child_esp. rewrite Hoff. apply u32_small.
    unfold off, stack_top, PROC1_STACK_ADDR, PROC_STACK_SIZE in *. lia. }
  assert (H0off : 0 <= off <= PROC_STACK_SIZE) by (unfold off; lia).
  rewrite Hbot, Hoff in Hmem. rewrite Hbot in Hregs.
  exists k1. rewrite interrupt_handler, Hd by done. split; [done|]. split; [apply C|]. split; [done|]. split.
  { intros q Hq. rewrite (ca_table _ _ _ _ _ C) by lia. case_decide; [subst; by rewrite fn_lookup_insert|by rewrite fn_lookup_insert_ne]. }
  split; [done|].
  split; [done|]. split; [apply (ca_self _ _ _ _ _ C)|].
  assert (Hpc : p <> current k).
  { intros ->. pose proof (ko_running _ K). destruct (first_empty_spec _ _ Hf) as (_ & He & _). congruence. }
  pose proof (copied_moved (Z.to_nat off) (stack_top p - off) (reg_esp reg) (memory k)) as Hmv. rewrite <- Hmem, Z2Nat.id in Hmv by lia. split.
  - intros i Hi. rewrite Hmv by (unfold stack_top, PROC_STACK_SIZE in *; lia). rewrite decide_True by (unfold within; lia). f_equal. lia.
  - rewrite Hmem. eapply changes_weaken; [apply copied_changes|]. unfold within. lia.
Qed.

(** ** sys_exit and sys_wait *)

Lemma next_runnable_some t c q : 0 <= q < 16 -> v_state (t q) = P_RUNNABLE -> exists n, next_runnable t c = Some n.
Proof.
  intros Hq Hr. destruct (next_runnable t c) as [n|] eqn:E; [by exists n|]. exfalso.
  apply (proj1 (next_runnable_none _ _) E q); done.
Qed.

(** A call that gives up the processor while another process can run. *)
Lemma interrupt_switches stray reg k q fu : kern_ok k -> decode reg <> Undefined -> (16 <= fu)%nat -> 0 <= q < 16 ->
  (effect (abs k) (current k) (decode reg)).1.2 = false ->
  v_state ((effect (abs k) (current k) (decode reg)).1.1 q) = P_RUNNABLE ->
  exists k', interrupt stray reg fu k = Ret tt k' /\ implements k reg k'.
Proof.
  intros K Hd Hfu Hq Hkeep Hr. pose proof (interrupt_implements stray reg k fu K Hd) as H.
  unfold next in H. rewrite Hkeep in H. destruct (next_runnable_some _ (current k) q Hq Hr) as [n Hn]. rewrite Hn in H. by apply H.
Qed.

(** C26. A process exits with a status, and the process that runs next waits for
    it: it finds the status in %eax, and the slot of the process that exited is
    empty again. *)
Theorem exit_then_wait stray reg reg2 k v q fu :
  kern_ok k -> decode reg = Exit v -> decode reg2 = Wait (current k) -> (16 <= fu)%nat ->
  1 <= q < 16 -> q <> current k -> v_state (abs k q) = P_RUNNABLE ->
  exists k1 k2, interrupt stray reg fu k = Ret tt k1 /\ v_state (abs k1 (current k)) = P_ZOMBIE /\
    interrupt stray reg2 fu k1 = Ret tt k2 /\ v_state (abs k2 (current k)) = P_EMPTY /\
    regs k2 (current k1) = set_eax v reg2.
Proof.
  intros K Hd Hd2 Hfu Hq Hqc Hr. pose proof (sh_cur _ (ko_shape _ K)) as Hc.
  destruct (to_wait _ (ko_table _ K) (current k) ltac:(lia)) as [Hw Hne].
  assert (Hq1 : v_state (end_process (abs k) (current k) v q) = P_RUNNABLE).
  { unfold end_process. destruct (_ =? 0); tcases; done. }
  assert (Hz1 : end_process (abs k) (current k) v (current k) = View P_ZOMBIE 0 v).
  { unfold end_process. destruct (Z.eqb_spec (v_wait (abs k (current k))) 0) as [|Hn]; [|specialize (Hne Hn)];
    tcases; done || congruence. }
  destruct (interrupt_switches stray reg k q fu K) as (k1 & Hrun & Him); rewrite ?Hd; cbn [effect fst snd]; try done; [lia|].
  pose proof (im_table _ _ _ Him) as Ht. pose proof (im_ok _ _ _ Him) as K1. rewrite Hd in Ht. cbn [effect fst snd] in Ht.
  assert (Hz : abs k1 (current k) = View P_ZOMBIE 0 v) by (by rewrite Ht by lia).
  assert (Hcur : current k <> current k1).
  { intros He. pose proof (ko_running _ K1) as Hr1. rewrite <- He, Hz in Hr1. done. }
  assert (Heff : effect (abs k1) (current k1) (Wait (current k)) =
    (<[current k := set_state P_EMPTY (abs k1 (current k))]> (abs k1), false, Some v)).
  { cbn [effect]. rewrite bool_decide_true by (by rewrite Hz). rewrite bool_decide_true by (by rewrite Hz). by rewrite Hz. }
  destruct (interrupt_switches stray reg2 k1 (current k1) fu K1) as (k2 & Hrun2 & Him2);
    rewrite ?Hd2, ?Heff; cbn [fst snd]; try done.
  { pose proof (sh_cur _ (ko_shape _ K1)). lia. }
  { rewrite fn_lookup_insert_ne by done. apply K1. }
  exists k1, k2. split; [done|]. split; [by rewrite Hz|]. split; [done|]. split.
  - rewrite (im_table _ _ _ Him2) by lia. rewrite Hd2, Heff. cbn [fst]. by rewrite fn_lookup_insert.
  - rewrite (im_self _ _ _ Him2), Hd2, Heff. done.
Qed.

(** C27. Waiting for a process that still runs blocks the caller, and when that
    process exits the caller becomes runnable with its registers as it left
    them: what it finds in %eax is the process id it passed, not the exit status,
    and the process that exited keeps its slot. *)
Theorem wait_wakes_with_pid stray reg reg2 k p v fu :
  kern_ok k -> decode reg = Wait p -> 1 <= p < 16 -> p <> current k -> (16 <= fu)%nat ->
  v_state (abs k p) = P_RUNNABLE -> next_runnable (<[current k := set_state P_BLOCKED (abs k (current k))]> (abs k)) (current k) = Some p ->
  decode reg2 = Exit v ->
  exists k1 k2, interrupt stray reg fu k = Ret tt k1 /\ current k1 = p /\ v_state (abs k1 (current k)) = P_BLOCKED /\
    interrupt stray reg2 fu k1 = Ret tt k2 /\ v_state (abs k2 (current k)) = P_RUNNABLE /\
    regs k2 (current k) = reg /\ s32 (reg_eax reg) = p /\ abs k2 p = View P_ZOMBIE 0 v.
Proof.
  intros K Hd Hp Hpc Hfu Hr Hnext Hd2. pose proof (sh_cur _ (ko_shape _ K)) as Hc.
  pose proof (decode_arg reg) as Harg. rewrite Hd in Harg.
  set (t1 := <[p := View (v_state (abs k p)) (current k) (v_status (abs k p))]>
               (<[current k := set_state P_BLOCKED (abs k (current k))]> (abs k))).
  assert (Heff : effect (abs k) (current k) (Wait p) = (t1, false, None)).
  { cbn [effect]. rewrite bool_decide_true by (rewrite Hr; done). by rewrite bool_decide_false by (by rewrite Hr). }
  destruct (interrupt_switches stray reg k p fu K) as (k1 & Hrun & Him); rewrite ?Hd, ?Heff; cbn [fst snd]; try done; [lia| |].
  { unfold t1. by rewrite fn_lookup_insert. }
  pose proof (im_table _ _ _ Him) as Ht. pose proof (im_ok _ _ _ Him) as K1. pose proof (im_next _ _ _ Him) as Hn.
  rewrite Hd, Heff in Ht, Hn. cbn [fst next snd] in Ht, Hn.
  assert (Hcur : current k1 = p).
  { assert (Hst : next_runnable t1 (current k) = Some p); [|congruence]. rewrite <- Hnext.
    unfold next_runnable. f_equal. apply filter_ext_in. intros i _. unfold t1.
    destruct (decide (i = p)) as [->|Hi]; [rewrite fn_lookup_insert, fn_lookup_insert_ne by done; done|].
    by rewrite (fn_lookup_insert_ne _ p i). }
  assert (Hc1 : abs k1 (current k) = set_state P_BLOCKED (abs k (current k))).
  { rewrite Ht by lia. unfold t1. rewrite fn_lookup_insert_ne, fn_lookup_insert by done. done. }
  assert (Hp1 : abs k1 p = View P_RUNNABLE (current k) (v_status (abs k p))).
  { rewrite Ht by lia. unfold t1. by rewrite fn_lookup_insert, Hr. }
  assert (Heff2 : effect (abs k1) (current k1) (Exit v) =
    (<[current k := set_state P_RUNNABLE (abs k1 (current k))]> (<[p := View P_ZOMBIE 0 v]> (abs k1)), false, None)).
  { cbn [effect]. unfold end_process. rewrite Hcur, Hp1. cbn [v_wait]. rewrite (proj2 (Z.eqb_neq _ 0)) by lia.
    by rewrite fn_lookup_insert_ne by done. }
  destruct (interrupt_switches stray reg2 k1 (current k) fu K1) as (k2 & Hrun2 & Him2);
    rewrite ?Hd2, ?Heff2; cbn [fst snd]; try done; [lia|by rewrite fn_lookup_insert|].
  pose proof (im_table _ _ _ Him2) as Ht2. rewrite Hd2, Heff2 in Ht2. cbn [fst] in Ht2.
  exists k1, k2. split; [done|]. split; [done|]. split; [by rewrite Hc1|]. split; [done|]. split.
  { rewrite Ht2 by lia. by rewrite fn_lookup_insert. }
  split.
  - rewrite (im_other _ _ _ Him2) by (try lia; try congruence; rewrite Hc1; done).
    rewrite (im_self _ _ _ Him), Hd, Heff. done.
  - split; [done|]. rewrite Ht2 by lia. rewrite fn_lookup_insert_ne by done. by rewrite fn_lookup_insert.
Qed.

(** ** Two waiters *)

(** Any calls of any processes, none of which kills [a]. *)
Inductive steps_sparing (stray : Z -> Z) (a : Z) : kern -> kern -> Prop :=
| spare_done k : steps_sparing stray a k k
| spare_call k m reg fu k1 k2 :
    (16 <= fu)%nat -> decode reg <> Kill a -> interrupt stray reg fu (with_memory k m) = Ret tt k1 ->
    steps_sparing stray a k1 k2 -> steps_sparing stray a k k2.

(** A blocked process that no process remembers as its waiter. *)
Definition stranded (t : table) (a : Z) : Prop :=
  v_state (t a) = P_BLOCKED /\ forall i, 0 <= i < 16 -> v_wait (t i) <> a.

Lemma end_process_stranded t p s a : stranded t a -> a <> 0 -> 0 <= p < 16 -> p <> a -> stranded (end_process t p s) a.
Proof.
  intros [Hb Hw] Ha Hp Hpa. pose proof (Hw p Hp) as Hwp. unfold end_process, stranded.
  destruct (_ =? 0); (split; [tcases; done|]); intros i Hi; pose proof (Hw i Hi); tcases; lia.
Qed.

Lemma effect_stranded t c a d : stranded t a -> a <> 0 -> 1 <= c < 16 -> c <> a -> d <> Kill a ->
  stranded (effect t c d).1.1 a.
Proof.
  intros S Ha Hc Hca Hd. pose proof S as [Hb Hw].
  assert (Hnew : forall p, first_empty t = Some p -> stranded (<[p := set_state P_RUNNABLE (t p)]> t) a).
  { intros p Hf. destruct (first_empty_spec _ _ Hf) as (Hp & Hs & _). split; [tcases; congruence|].
    intros i Hi. pose proof (Hw i Hi). tcases; done. }
  destruct d as [| | | |s|p|p|]; cbn [effect]; try done.
  - destruct (first_empty t) eqn:E; [by apply Hnew|done].
  - destruct (first_empty t) eqn:E; [by apply Hnew|done].
  - apply end_process_stranded; try done. lia.
  - cbn [fst]. case_bool_decide as Hv; [|done]. apply end_process_stranded; try done; [lia|congruence].
  - case_bool_decide as Hv; [|done]. case_bool_decide; cbn [fst]; (split; [tcases; congruence|]);
      intros i Hi; pose proof (Hw i Hi); tcases; lia.
Qed.

Lemma stranded_steps stray a k k' : steps_sparing stray a k k' -> kern_ok k -> 1 <= a < 16 -> stranded (abs k) a ->
  stranded (abs k') a.
Proof.
  induction 1 as [|k m reg fu k1 k2 Hfu Hkill Hrun _ IH]; intros K Ha S; [done|].
  pose proof (kern_ok_memory k m K) as Km. destruct (interrupt_returns stray reg _ fu k1 Km Hrun Hfu) as [_ Him].
  apply IH; [apply Him|done|]. pose proof (im_table _ _ _ Him) as Ht.
  pose proof (sh_cur _ (ko_shape _ K)) as Hc.
  assert (S1 : stranded (effect (abs (with_memory k m)) (current k) (decode reg)).1.1 a).
  { apply effect_stranded; try done; [lia|]. intros He. pose proof (ko_running _ K) as Hr. rewrite He in Hr. destruct S. congruence. }
  destruct S1 as [H1 H2]. split; [by rewrite Ht by lia|]. intros i Hi. rewrite Ht by done. by apply H2.
Qed.

(** A descriptor remembers one waiter: when a second process waits for a
    process that still runs, the first waiter stays blocked for ever, whatever
    the other processes do, unless one of them kills it. *)
Theorem second_waiter_strands_first stray reg k p a fu :
  kern_ok k -> 1 <= a < 16 -> v_state (abs k a) = P_BLOCKED -> v_wait (abs k p) = a ->
  (forall i, 0 <= i < 16 -> i <> p -> v_wait (abs k i) <> a) ->
  decode reg = Wait p -> 1 <= p < 16 -> p <> current k -> v_state (abs k p) = P_RUNNABLE -> (16 <= fu)%nat ->
  exists k1, interrupt stray reg fu k = Ret tt k1 /\
    forall k2, steps_sparing stray a k1 k2 -> v_state (abs k2 a) = P_BLOCKED.
Proof.
  intros K Ha Hb Hw Hother Hd Hp Hpc Hr Hfu. pose proof (sh_cur _ (ko_shape _ K)) as Hc.
  assert (Hca : current k <> a) by (intros He; pose proof (ko_running _ K) as Hr'; rewrite He in Hr'; congruence).
  assert (Heff : effect (abs k) (current k) (Wait p) =
    (<[p := View (v_state (abs k p)) (current k) (v_status (abs k p))]>
       (<[current k := set_state P_BLOCKED (abs k (current k))]> (abs k)), false, None)).
  { cbn [effect]. rewrite bool_decide_true by (rewrite Hr; done). by rewrite bool_decide_false by (by rewrite Hr). }
  destruct (interrupt_switches stray reg k p fu K) as (k1 & Hrun & Him); rewrite ?Hd, ?Heff; cbn [fst snd]; try done;
    [lia|by rewrite fn_lookup_insert|].
  exists k1. split; [done|]. intros k2 Hst. apply (stranded_steps stray a k1 k2 Hst (im_ok _ _ _ Him) Ha).
  pose proof (im_table _ _ _ Him) as Ht. rewrite Hd, Heff in Ht. cbn [fst] in Ht.
  split; [rewrite Ht by lia; tcases; congruence|]. intros i Hi. rewrite Ht by done.
  destruct (decide (i = p)) as [->|Hne]; [rewrite fn_lookup_insert; done|]. pose proof (Hother i Hi Hne). tcases; done.
Qed.

(** ** The theorems on concrete process tables *)

(** Registers that make a call with an argument. *)
Definition asks (intno eax : Z) : registers :=
  Registers 0 0 0 0 0 0 0 eax 0 0 0 0 intno 0 0 0 0 0 (stack_top 1 - 16) 0 0.

(** A table with the views [vs] for the processes from 0 on, process [c] running. *)
Definition table_of (vs : list view) (c : Z) : kern :=
  Kern (imap (fun i v => Process (Z.of_nat i) (v_wait v) (asks 0 0) (v_state v) (v_status v))
          (vs ++ replicate (16 - length vs) (View P_EMPTY 0 0))) c ∅.

Definition slot_check (k : kern) (i : Z) : bool :=
  let v := abs k i in
  (p_pid (desc k i) =? i) && (0 <=? v_wait v) && (v_wait v <? 16) && ((v_wait v =? 0) || negb (v_wait v =? i)) &&
  ((v_wait v =? 0) || negb (bool_decide (v_state v = P_EMPTY \/ v_state v = P_ZOMBIE))).

Lemma kern_check k : length (proc_array k) = 16%nat -> 1 <= current k < 16 ->
  v_state (abs k 0) = P_EMPTY -> v_state (abs k (current k)) = P_RUNNABLE ->
  forallb (slot_check k) (seqZ 0 16) = true -> kern_ok k.
Proof.
  intros Hl Hc H0 Hr Hall. rewrite forallb_forall in Hall.
  assert (Hs : forall i, 0 <= i < 16 -> slot_check k i = true).
  { intros i Hi. apply Hall. apply list_elem_of_In, elem_of_seqZ. lia. }
  unfold slot_check in Hs. cbv zeta in Hs. setoid_rewrite andb_true_iff in Hs. setoid_rewrite andb_true_iff in Hs.
  setoid_rewrite andb_true_iff in Hs. setoid_rewrite andb_true_iff in Hs.
  split; [split; [done| |done]|split; [done| |]|done]; intros i Hi; destruct (Hs i Hi) as [[[[Hp Hw1] Hw2] Hne] He].
  - by apply Z.eqb_eq.
  - rewrite Z.leb_le in Hw1. rewrite Z.ltb_lt in Hw2. rewrite orb_true_iff, negb_true_iff, Z.eqb_eq, Z.eqb_neq in Hne. lia.
  - intros Hst. rewrite orb_true_iff, negb_true_iff, Z.eqb_eq, bool_decide_eq_false in He. destruct He; [done|]. done.
Qed.

(** Processes 1, 2 and 3 can run; 1 runs. *)
Definition three : kern :=
  table_of [View P_EMPTY 0 0; View P_RUNNABLE 0 0; View P_RUNNABLE 0 0; View P_RUNNABLE 0 0] 1.

Lemma three_ok : kern_ok three.
Proof. apply kern_check; [done|vm_compute; split; congruence|done|done|vm_compute; reflexivity]. Qed.

Lemma interrupt_refines_witness : exists k', interrupt (fun _ => 0) (asks INT_SYS_KILL 1) 16%nat three = Ret tt k' /\ current k' = 2.
Proof.
  destruct (interrupt_refines (fun _ => 0) (asks INT_SYS_KILL 1) three 16%nat three_ok ltac:(lia)) as (k' & H1 & H2 & _).
  exists k'. split; [exact H1|exact H2].
Defined.

(** A boot from an image without segments whose entry point is 2097152. *)
Definition bootable : kern := Kern [] 0 (st32 (st32 ∅ 0x110000 ELF_MAGIC) (e_entry 0x110000) 0x200000).

Definition booted : kern :=
  match start (fun _ => 0x110000) (fun _ => (1, 2)) 1%nat bootable with Ret _ k => k | _ => bootable end.

Lemma boot_reaches : reachable (fun _ => 0x110000) (fun _ => 0) booted.
Proof. apply (reach_boot _ _ (fun _ => (1, 2)) bootable 1%nat). vm_compute. reflexivity. Qed.

Lemma reachable_ok_witness : kern_ok booted /\ reg_eip (regs booted 1) = 0x200000.
Proof. split; [exact (reachable_ok _ _ _ boot_reaches)|vm_compute; reflexivity]. Defined.

Lemma yields_reach_runnable_witness :
  exists n k', (n <= 15)%nat /\ interrupts (fun _ => 0) (take n (replicate 15 (asks INT_SYS_YIELD 0))) 16%nat three = Ret tt k' /\
    current k' = 3.
Proof.
  exact (yields_reach_runnable (fun _ => 0) three 3 (replicate 15 (asks INT_SYS_YIELD 0)) 16%nat three_ok ltac:(lia) eq_refl
    ltac:(lia) eq_refl ltac:(apply Forall_replicate; reflexivity)).
Defined.

Lemma fork_copies_witness :
  exists k', interrupt (fun _ => 0) (asks INT_SYS_FORK 0) 16%nat three = Ret tt k' /\
    reg_eax (regs k' 1) = 4 /\ reg_eax (regs k' 4) = 0 /\ reg_esp (regs k' 4) = stack_top 4 - 16.
Proof.
  destruct (fork_copies (fun _ => 0) (asks INT_SYS_FORK 0) three 4 16%nat three_ok eq_refl eq_refl ltac:(lia)
    ltac:(vm_compute; split; congruence)) as (k' & H1 & _ & _ & _ & _ & H2 & H3 & _).
  exists k'. split; [exact H1|]. split; [change (current three) with 1 in H3; by rewrite H3|].
  rewrite H2. split; reflexivity.
Defined.

Lemma exit_then_wait_witness :
  exists k1 k2, interrupt (fun _ => 0) (asks INT_SYS_EXIT 7) 16%nat three = Ret tt k1 /\
    interrupt (fun _ => 0) (asks INT_SYS_WAIT 1) 16%nat k1 = Ret tt k2 /\
    regs k2 (current k1) = set_eax 7 (asks INT_SYS_WAIT 1).
Proof.
  destruct (exit_then_wait (fun _ => 0) (asks INT_SYS_EXIT 7) (asks INT_SYS_WAIT 1) three 7 2 16%nat three_ok eq_refl eq_refl
    ltac:(lia) ltac:(lia) ltac:(vm_compute; congruence) eq_refl) as (k1 & k2 & H1 & _ & H2 & _ & H3).
  exists k1, k2. split; [exact H1|]. split; [exact H2|exact H3].
Defined.

Lemma wait_wakes_with_pid_witness :
  exists k1 k2, interrupt (fun _ => 0) (asks INT_SYS_WAIT 2) 16%nat three = Ret tt k1 /\
    interrupt (fun _ => 0) (asks INT_SYS_EXIT 7) 16%nat k1 = Ret tt k2 /\
    regs k2 1 = asks INT_SYS_WAIT 2 /\ abs k2 2 = View P_ZOMBIE 0 7.
Proof.
  destruct (wait_wakes_with_pid (fun _ => 0) (asks INT_SYS_WAIT 2) (asks INT_SYS_EXIT 7) three 2 7 16%nat three_ok eq_refl
    ltac:(lia) ltac:(vm_compute; congruence) ltac:(lia) eq_refl eq_refl eq_refl)
    as (k1 & k2 & H1 & _ & _ & H2 & _ & H3 & _ & H4).
  exists k1, k2. split; [exact H1|]. split; [exact H2|]. split; [exact H3|exact H4].
Defined.

(** Process 1 waits for 2; process 3 does, too. *)
Definition waited : kern :=
  table_of [View P_EMPTY 0 0; View P_BLOCKED 0 0; View P_RUNNABLE 1 0; View P_RUNNABLE 0 0] 3.

Lemma second_waiter_strands_first_witness :
  exists k1, interrupt (fun _ => 0) (asks INT_SYS_WAIT 2) 16%nat waited = Ret tt k1 /\
    forall k2, steps_sparing (fun _ => 0) 1 k1 k2 -> v_state (abs k2 1) = P_BLOCKED.
Proof.
  assert (K : kern_ok waited) by (apply kern_check; [done|vm_compute; split; congruence|done|done|vm_compute; reflexivity]).
  refine (second_waiter_strands_first (fun _ => 0) (asks INT_SYS_WAIT 2) waited 2 1 16%nat K ltac:(lia) eq_refl eq_refl _
    eq_refl ltac:(lia) ltac:(vm_compute; congruence) eq_refl ltac:(lia)).
  intros i Hi Hne.
  assert (H : forallb (fun i => (i =? 2) || negb (v_wait (abs waited i) =? 1)) (seqZ 0 16) = true) by (vm_compute; reflexivity).
  rewrite forallb_forall in H. specialize (H i ltac:(apply list_elem_of_In, elem_of_seqZ; lia)).
  rewrite orb_true_iff, negb_true_iff, Z.eqb_eq, Z.eqb_neq in H. destruct H; done.
Defined.
