(* ===== verification/MposLoader.v ===== *)
(** * MiniprocOS: loading a program segment (mpos-loader.c) *)

From S2P Require Import Prelude CMemory MposLib MposLibSpec Mpos.

Lemma page_start va : Z.land va (Z.lnot (PAGESIZE - 1)) = va - va mod 4096.
Proof.
  change (PAGESIZE - 1) with (Z.ones 12). rewrite <- Z.ldiff_land, Z.ldiff_ones_r by lia.
  rewrite Z.shiftl_mul_pow2, Z.shiftr_div_pow2 by lia. change (2 ^ 12) with 4096. divlia.
Qed.

(** Clearing from [a] to [b] byte by byte. *)
Lemma wp_clear_bss fu m a b (Q : unit -> mem -> Prop) : 0 <= a -> b < 2 ^ 32 -> b - a < Z.of_nat fu -> (0 < fu)%nat ->
  (forall m', changes (within a b) m m' -> (forall x, a <= x < b -> ld8 m' x = 0) -> Q tt m') ->
  wp (loop (fun end_va => if end_va <? b then store8 end_va 0;; mret (inl (u32 (end_va + 1))) else mret (inr tt)) a) fu m Q.
Proof.
  intros Ha Hb Hfu Hpos HQ.
  apply (wp_loop (fun x t => a <= x /\ (x <= b \/ x = a) /\ changes (within a b) m t /\ forall y, a <= y < x -> ld8 t y = 0)
                 (fun x => Z.to_nat (b - x))).
  - split; [lia|]. split; [by right|]. split; [apply changes_refl|lia].
  - lia.
  - intros x t (Hx & Hxb & Hch & Hz). destruct (Z.ltb_spec x b) as [Hlt|Hge].
    + wp_steps. rewrite u32_small by lia. split; [|lia]. split; [lia|]. split; [lia|]. split.
      * intros y Hy. rewrite ld8_st8_ne; [by apply Hch|]. intros <-. apply Hy. unfold within. lia.
      * intros y Hy. rewrite ld8_st8. case_decide; [done|]. apply Hz. lia.
    + wp_step. apply HQ; [done|]. intros y Hy. apply Hz. lia.
Qed.

(** C29. If its place does not begin among the bytes that are copied, where the
    upward loop of [memcpy] would overtake itself, a segment is loaded at the
    start of the page of its address: the file's bytes from there on, then zeros
    up to the end of the segment; so a segment whose address is a multiple of 4096
    lies exactly at its address, and any other lies too low by the offset within
    the page. *)
Theorem copyseg_places va src filesz memsz fu m :
  0 <= va -> 0 <= filesz <= memsz -> va + memsz < 2 ^ 32 ->
  src + (filesz + va mod 4096) <= va - va mod 4096 \/ va - va mod 4096 <= src -> memsz - filesz < Z.of_nat fu -> (0 < fu)%nat ->
  exists m', copyseg va src filesz memsz fu m = Ret tt m' /\
    (forall i, 0 <= i < filesz + va mod 4096 -> ld8 m' (va - va mod 4096 + i) = ld8 m (src + i)) /\
    (forall i, filesz <= i < memsz -> ld8 m' (va + i) = 0) /\
    changes (within (va - va mod 4096) (va + memsz)) m m'.
Proof.
  intros Hva Hsz Hmax Hov Hfu Hpos. pose proof (Z.mod_pos_bound va 4096 ltac:(lia)) as Hoff. pose proof (Z.mod_le va 4096 Hva ltac:(lia)) as Hle.
  destruct (wp_run (copyseg va src filesz memsz) fu m (fun _ m' =>
    (forall i, 0 <= i < filesz + va mod 4096 -> ld8 m' (va - va mod 4096 + i) = ld8 m (src + i)) /\
    (forall i, filesz <= i < memsz -> ld8 m' (va + i) = 0) /\
    changes (within (va - va mod 4096) (va + memsz)) m m')) as ([] & m' & Hrun & H); [|by exists m'].
  unfold copyseg. cbv zeta. rewrite page_start. rewrite (u32_small (va + filesz)), (u32_small (memsz + va)) by lia.
  rewrite (u32_small (_ - _)) by lia.
  apply wp_bind. eapply wp_of_run; [apply memcpy_copied|].
  set (n := Z.to_nat _). pose proof (copied_moved n (va - va mod 4096) src m) as Hmv. pose proof (copied_changes n (va - va mod 4096) src m) as Hch1.
  set (m1 := copied n _ _ _) in *. assert (Hn : Z.of_nat n = filesz + va mod 4096) by lia. rewrite Hn in *. clearbody n m1.
  assert (Hd1 : forall i, 0 <= i < filesz + va mod 4096 -> ld8 m1 (va - va mod 4096 + i) = ld8 m (src + i)).
  { intros i Hi. rewrite Hmv by lia. rewrite decide_True by (unfold within; lia). f_equal. lia. }
  apply wp_clear_bss; [lia|lia|lia|done|]. intros m2 Hch2 Hz. split; [|split].
  - intros i Hi. rewrite Hch2 by (unfold within; lia). by apply Hd1.
  - intros i Hi. apply Hz. lia.
  - eapply changes_trans; (eapply changes_weaken; [eassumption|unfold within; lia]).
Qed.

Lemma copyseg_places_witness :
  exists m', copyseg 0x200000 0x110000 2 4 10%nat (st_bytes ∅ 0x110000 [7; 8]) = Ret tt m' /\
    ld8 m' 0x200001 = 8 /\ ld8 m' 0x200002 = 0.
Proof.
  destruct (copyseg_places 0x200000 0x110000 2 4 10%nat (st_bytes ∅ 0x110000 [7; 8]) ltac:(lia) ltac:(lia) ltac:(lia) ltac:(left; vm_compute; discriminate) ltac:(lia) ltac:(lia))
    as (m' & H1 & H2 & H3 & _).
  exists m'. split; [exact H1|]. split; [exact (H2 1 ltac:(vm_compute; split; congruence))|exact (H3 2 ltac:(lia))].
Defined.
