(* ===== verification/Md5.v ===== *)
(** * MD5 (Lab3-File-System/md5.c)

    The message digest that ospfsformat is linked with.  Words are integers below
    2^32, a context is the record of md5.h, and the bytes of a message are a
    list.  The 64 [OP] lines of [transform] are the table [ops], in the order
    and with the registers of the source. *)

From S2P Require Import Prelude.

(** ** Words *)

Definition rol (x n : Z) : Z := Z.lor (u32 (Z.shiftl x n)) (Z.shiftr x (32 - n)).

Definition FF (b c d : Z) : Z := Z.lxor d (Z.land b (Z.lxor c d)).
Definition FG (b c d : Z) : Z := FF d b c.
Definition FH (b c d : Z) : Z := Z.lxor (Z.lxor b c) d.
Definition FI (b c d : Z) : Z := Z.lxor c (Z.lor b (u32 (Z.lnot d))).

(** ** Contexts *)

Record MD5_CONTEXT := Context_ {
  ctx_A : Z; ctx_B : Z; ctx_C : Z; ctx_D : Z;
  nblocks : Z;
  buf : list Z;
  count : Z;
  finalized : bool
}.

Definition set_count (c : Z) (hd : MD5_CONTEXT) : MD5_CONTEXT :=
  Context_ (ctx_A hd) (ctx_B hd) (ctx_C hd) (ctx_D hd) (nblocks hd) (buf hd) c (finalized hd).
Definition set_buf (b : list Z) (hd : MD5_CONTEXT) : MD5_CONTEXT :=
  Context_ (ctx_A hd) (ctx_B hd) (ctx_C hd) (ctx_D hd) (nblocks hd) b (count hd) (finalized hd).

(** [md5_init] leaves the buffer as it is. *)
Definition md5_init (ctx : MD5_CONTEXT) : MD5_CONTEXT :=
  Context_ 0x67452301 0xefcdab89 0x98badcfe 0x10325476 0 (buf ctx) 0 false.

(** ** transform *)

Inductive reg := rA | rB | rC | rD.

Abbreviation regs := (Z * Z * Z * Z)%type.

Definition get_reg (r : reg) (s : regs) : Z :=
  let '(A, B, C, D) := s in match r with rA => A | rB => B | rC => C | rD => D end.
Definition set_reg (r : reg) (v : Z) (s : regs) : regs :=
  let '(A, B, C, D) := s in
  match r with rA => (v, B, C, D) | rB => (A, v, C, D) | rC => (A, B, v, D) | rD => (A, B, C, v) end.

(** [OP(f, a, b, c, d, k, s, T)]; in round 1 the word is the next one. *)
Record op := OP { op_f : Z -> Z -> Z -> Z; op_a : reg; op_b : reg; op_c : reg; op_d : reg; op_k : nat; op_s : Z; op_T : Z }.

Definition exec (words : list Z) (st : regs) (o : op) : regs :=
  let b := get_reg (op_b o) st in
  let a := u32 (get_reg (op_a o) st + op_f o b (get_reg (op_c o) st) (get_reg (op_d o) st)
                + nth (op_k o) words 0 + op_T o) in
  let a := rol a (op_s o) in
  set_reg (op_a o) (u32 (a + b)) st.

Definition ops : list op := [
  OP FF rA rB rC rD 0 7 0xd76aa478;
  OP FF rD rA rB rC 1 12 0xe8c7b756;
  OP FF rC rD rA rB 2 17 0x242070db;
  OP FF rB rC rD rA 3 22 0xc1bdceee;
  OP FF rA rB rC rD 4 7 0xf57c0faf;
  OP FF rD rA rB rC 5 12 0x4787c62a;
  OP FF rC rD rA rB 6 17 0xa8304613;
  OP FF rB rC rD rA 7 22 0xfd469501;
  OP FF rA rB rC rD 8 7 0x698098d8;
  OP FF rD rA rB rC 9 12 0x8b44f7af;
  OP FF rC rD rA rB 10 17 0xffff5bb1;
  OP FF rB rC rD rA 11 22 0x895cd7be;
  OP FF rA rB rC rD 12 7 0x6b901122;
  OP FF rD rA rB rC 13 12 0xfd987193;
  OP FF rC rD rA rB 14 17 0xa679438e;
  OP FF rB rC rD rA 15 22 0x49b40821;
  OP FG rA rB rC rD 1 5 0xf61e2562;
  OP FG rD rA rB rC 6 9 0xc040b340;
  OP FG rC rD rA rB 11 14 0x265e5a51;
  OP FG rB rC rD rA 0 20 0xe9b6c7aa;
  OP FG rA rB rC rD 5 5 0xd62f105d;
  OP FG rD rA rB rC 10 9 0x02441453;
  OP FG rC rD rA rB 15 14 0xd8a1e681;
  OP FG rB rC rD rA 4 20 0xe7d3fbc8;
  OP FG rA rB rC rD 9 5 0x21e1cde6;
  OP FG rD rA rB rC 14 9 0xc33707d6;
  OP FG rC rD rA rB 3 14 0xf4d50d87;
  OP FG rB rC rD rA 8 20 0x455a14ed;
  OP FG rA rB rC rD 13 5 0xa9e3e905;
  OP FG rD rA rB rC 2 9 0xfcefa3f8;
  OP FG rC rD rA rB 7 14 0x676f02d9;
  OP FG rB rC rD rA 12 20 0x8d2a4c8a;
  OP FH rA rB rC rD 5 4 0xfffa3942;
  OP FH rD rA rB rC 8 11 0x8771f681;
  OP FH rC rD rA rB 11 16 0x6d9d6122;
  OP FH rB rC rD rA 14 23 0xfde5380c;
  OP FH rA rB rC rD 1 4 0xa4beea44;
  OP FH rD rA rB rC 4 11 0x4bdecfa9;
  OP FH rC rD rA rB 7 16 0xf6bb4b60;
  OP FH rB rC rD rA 10 23 0xbebfbc70;
  OP FH rA rB rC rD 13 4 0x289b7ec6;
  OP FH rD rA rB rC 0 11 0xeaa127fa;
  OP FH rC rD rA rB 3 16 0xd4ef3085;
  OP FH rB rC rD rA 6 23 0x04881d05;
  OP FH rA rB rC rD 9 4 0xd9d4d039;
  OP FH rD rA rB rC 12 11 0xe6db99e5;
  OP FH rC rD rA rB 15 16 0x1fa27cf8;
  OP FH rB rC rD rA 2 23 0xc4ac5665;
  OP FI rA rB rC rD 0 6 0xf4292244;
  OP FI rD rA rB rC 7 10 0x432aff97;
  OP FI rC rD rA rB 14 15 0xab9423a7;
  OP FI rB rC rD rA 5 21 0xfc93a039;
  OP FI rA rB rC rD 12 6 0x655b59c3;
  OP FI rD rA rB rC 3 10 0x8f0ccc92;
  OP FI rC rD rA rB 10 15 0xffeff47d;
  OP FI rB rC rD rA 1 21 0x85845dd1;
  OP FI rA rB rC rD 8 6 0x6fa87e4f;
  OP FI rD rA rB rC 15 10 0xfe2ce6e0;
  OP FI rC rD rA rB 6 15 0xa3014314;
  OP FI rB rC rD rA 13 21 0x4e0811a1;
  OP FI rA rB rC rD 4 6 0xf7537e82;
  OP FI rD rA rB rC 11 10 0xbd3af235;
  OP FI rC rD rA rB 2 15 0x2ad7d2bb;
  OP FI rB rC rD rA 9 21 0xeb86d391].

(** The 16 little-endian words of a block. *)
Definition word_of (data : list Z) (i : nat) : Z :=
  let b j := nth (4 * i + j)%nat data 0 in
  b 0%nat + 2 ^ 8 * b 1%nat + 2 ^ 16 * b 2%nat + 2 ^ 24 * b 3%nat.

Definition transform (ctx : MD5_CONTEXT) (data : list Z) : MD5_CONTEXT :=
  let correct_words := map (word_of data) (seq 0 16) in
  let '(A, B, C, D) := fold_left (exec correct_words) ops (ctx_A ctx, ctx_B ctx, ctx_C ctx, ctx_D ctx) in
  Context_ (u32 (ctx_A ctx + A)) (u32 (ctx_B ctx + B)) (u32 (ctx_C ctx + C)) (u32 (ctx_D ctx + D))
    (nblocks ctx) (buf ctx) (count ctx) (finalized ctx).

(** ** md5_update *)

(** [hd->count = 0; hd->nblocks++;] *)
Definition next_block (hd : MD5_CONTEXT) : MD5_CONTEXT :=
  Context_ (ctx_A hd) (ctx_B hd) (ctx_C hd) (ctx_D hd) (u32 (nblocks hd + 1)) (buf hd) 0 (finalized hd).

Definition absorb (hd : MD5_CONTEXT) (data : list Z) : MD5_CONTEXT := next_block (transform hd data).

(** [md5_update(hd, NULL, 0)]: only the flush. *)
Definition md5_flush (hd : MD5_CONTEXT) : MD5_CONTEXT :=
  if count hd =? 64 then absorb hd (buf hd) else hd.

(** [hd->buf[hd->count++] = c;] *)
Definition put_byte (c : Z) (hd : MD5_CONTEXT) : MD5_CONTEXT :=
  set_count (count hd + 1) (set_buf (<[Z.to_nat (count hd) := c]> (buf hd)) hd).

(** [for (; inlen && hd->count < 64; inlen--) hd->buf[hd->count++] = *inbuf++;] *)
Fixpoint fill (hd : MD5_CONTEXT) (inbuf : list Z) : MD5_CONTEXT * list Z :=
  match inbuf with
  | [] => (hd, [])
  | c :: inbuf' =>
      if count hd <? 64 then
        fill (put_byte c hd) inbuf'
      else (hd, inbuf)
  end.

(** [while (inlen >= 64) ...], at most once per 64 bytes. *)
Fixpoint blocks_loop (n : nat) (hd : MD5_CONTEXT) (inbuf : list Z) : MD5_CONTEXT * list Z :=
  match n with
  | O => (hd, inbuf)
  | S n' =>
      if (64 <=? length inbuf)%nat then blocks_loop n' (absorb hd (take 64 inbuf)) (drop 64 inbuf)
      else (hd, inbuf)
  end.

(** [None] is a null [inbuf]. *)
Definition md5_update (hd : MD5_CONTEXT) (inbuf : option (list Z)) : MD5_CONTEXT :=
  let hd := md5_flush hd in
  match inbuf with
  | None => hd
  | Some inbuf =>
      let '(hd, inbuf, return_) :=
        if negb (count hd =? 0) then
          let '(hd, inbuf) := fill hd inbuf in
          (md5_flush hd, inbuf, bool_decide (inbuf = []))
        else (hd, inbuf, false) in
      if return_ then hd
      else
        let '(hd, inbuf) := blocks_loop (length inbuf / 64) hd inbuf in
        (fill hd inbuf).1
  end.

(** ** md5_final *)

(** The two words of the bit count, as the code computes them from the number
    of blocks and of further bytes. *)
Definition bit_count (blocks cnt : Z) : Z * Z :=
  let msb := 0 in
  let t := blocks in
  let lsb := u32 (Z.shiftl t 6) in
  let msb := if lsb <? t then msb + 1 else msb in
  let msb := u32 (msb + Z.shiftr t 26) in
  let t := lsb in
  let lsb := u32 (t + cnt) in
  let msb := if lsb <? t then u32 (msb + 1) else msb in
  let t := lsb in
  let lsb := u32 (Z.shiftl t 3) in
  let msb := if lsb <? t then u32 (msb + 1) else msb in
  (u32 (msb + Z.shiftr t 29), lsb).

(** The four bytes of a word. *)
Definition le32 (w : Z) : list Z := [u8 w; u8 (Z.shiftr w 8); u8 (Z.shiftr w 16); u8 (Z.shiftr w 24)].

(** [while (hd->count < limit) hd->buf[hd->count++] = 0;], in [n] rounds. *)
Fixpoint put_zeros (n : nat) (hd : MD5_CONTEXT) : MD5_CONTEXT :=
  match n with O => hd | S n' => put_zeros n' (put_byte 0 hd) end.

Definition pad_to (limit : Z) (hd : MD5_CONTEXT) : MD5_CONTEXT :=
  let hd := put_byte 0x80 hd in put_zeros (Z.to_nat (limit - count hd)) hd.

Definition do_final (hd : MD5_CONTEXT) : MD5_CONTEXT :=
  let hd := md5_flush hd in
  let '(msb, lsb) := bit_count (nblocks hd) (count hd) in
  let hd :=
    if count hd <? 56 then pad_to 56 hd
    else
      let hd := md5_flush (pad_to 64 hd) in
      set_buf (replicate 56 0 ++ drop 56 (buf hd)) hd in
  let hd := set_buf (take 56 (buf hd) ++ le32 lsb ++ le32 msb) hd in
  let hd := transform hd (buf hd) in
  let digest := le32 (ctx_A hd) ++ le32 (ctx_B hd) ++ le32 (ctx_C hd) ++ le32 (ctx_D hd) in
  Context_ (ctx_A hd) (ctx_B hd) (ctx_C hd) (ctx_D hd) (nblocks hd) (digest ++ drop 16 (buf hd)) (count hd) true.

(** The digest, and the context that is left. *)
Definition md5_final (ctx : MD5_CONTEXT) : list Z * MD5_CONTEXT :=
  let ctx := if finalized ctx then ctx else do_final ctx in
  (take 16 (buf ctx), ctx).

(** "abcdefghijklmnopqrstuvwxyz234567" *)
Definition chars : list Z := map (Z.add 97) (seqZ 0 26) ++ map (Z.add 50) (seqZ 0 6).

Definition text_char (b : list Z) (bit : Z) : Z :=
  let first_char := bit / 8 in
  let val := Z.shiftr (nth (Z.to_nat first_char) b 0) (bit mod 8) in
  let val :=
    if ((first_char + 1) * 8 <? bit + 8) && (first_char <? 15) then
      val + Z.shiftl (nth (Z.to_nat (first_char + 1)) b 0) (8 - bit mod 8)
    else val in
  nth (Z.to_nat (Z.land val 0x1F)) chars 0.

(** The text without its zero, and the context that is left: bits 0, 5, ..., 125. *)
Definition md5_final_text (ctx : MD5_CONTEXT) : list Z * MD5_CONTEXT :=
  let ctx := if finalized ctx then ctx else do_final ctx in
  (map (fun i => text_char (buf ctx) (5 * i)) (seqZ 0 26), ctx).

Definition empty_context : MD5_CONTEXT := Context_ 0 0 0 0 0 (replicate 64 0) 0 false.

(** The first test value of the source: the digest of "a". *)
Example md5_a : (md5_final (md5_update (md5_init empty_context) (Some [97]))).1 =
  [0x0C; 0xC1; 0x75; 0xB9; 0xC0; 0xF1; 0xB6; 0xA8; 0x31; 0xC3; 0x99; 0xE2; 0x69; 0x77; 0x26; 0x61].
Proof. vm_compute. reflexivity. Qed.
