(* ===== verification/Md5Spec.v ===== *)
(** * MD5: the code computes the digest of RFC 1321

    The reference is the algorithm of the RFC: pad the message with a bit 1,
    zeros and its length in bits, and fold the compression function over its
    blocks of 64 bytes.  A context stands for the bytes it has taken in, so that
    feeding a message in pieces makes no difference. *)

From S2P Require Import Prelude Md5.

(** ** RFC 1321 *)

Definition rfc_F (x y z : Z) : Z := Z.lor (Z.land x y) (Z.land (Z.lnot x) z).
Definition rfc_G (x y z : Z) : Z := Z.lor (Z.land x z) (Z.land y (Z.lnot z)).
Definition rfc_H (x y z : Z) : Z := Z.lxor (Z.lxor x y) z.
Definition rfc_I (x y z : Z) : Z := Z.lxor y (Z.lor x (u32 (Z.lnot z))).

(** The function, the word, the rotation and the constant of step [i]. *)
Definition rfc_function (i : nat) : Z -> Z -> Z -> Z :=
  match (i / 16)%nat with 0%nat => rfc_F | 1%nat => rfc_G | 2%nat => rfc_H | _ => rfc_I end.
Definition rfc_word (i : nat) : nat :=
  match (i / 16)%nat with
  | 0%nat => i
  | 1%nat => (5 * i + 1) mod 16
  | 2%nat => (3 * i + 5) mod 16
  | _ => (7 * i) mod 16
  end.
Definition rfc_shift (i : nat) : Z :=
  nth (i mod 4) (nth (i / 16) [[7; 12; 17; 22]; [5; 9; 14; 20]; [4; 11; 16; 23]; [6; 10; 15; 21]] []) 0.
Definition rfc_T : list Z :=
  [ 0xd76aa478; 0xe8c7b756; 0x242070db; 0xc1bdceee; 0xf57c0faf; 0x4787c62a; 0xa8304613; 0xfd469501;
    0x698098d8; 0x8b44f7af; 0xffff5bb1; 0x895cd7be; 0x6b901122; 0xfd987193; 0xa679438e; 0x49b40821;
    0xf61e2562; 0xc040b340; 0x265e5a51; 0xe9b6c7aa; 0xd62f105d; 0x02441453; 0xd8a1e681; 0xe7d3fbc8;
    0x21e1cde6; 0xc33707d6; 0xf4d50d87; 0x455a14ed; 0xa9e3e905; 0xfcefa3f8; 0x676f02d9; 0x8d2a4c8a;
    0xfffa3942; 0x8771f681; 0x6d9d6122; 0xfde5380c; 0xa4beea44; 0x4bdecfa9; 0xf6bb4b60; 0xbebfbc70;
    0x289b7ec6; 0xeaa127fa; 0xd4ef3085; 0x04881d05; 0xd9d4d039; 0xe6db99e5; 0x1fa27cf8; 0xc4ac5665;
    0xf4292244; 0x432aff97; 0xab9423a7; 0xfc93a039; 0x655b59c3; 0x8f0ccc92; 0xffeff47d; 0x85845dd1;
    0x6fa87e4f; 0xfe2ce6e0; 0xa3014314; 0x4e0811a1; 0xf7537e82; 0xbd3af235; 0x2ad7d2bb; 0xeb86d391 ].

Definition rfc_step (X : list Z) (st : regs) (i : nat) : regs :=
  let '(a, b, c, d) := st in
  let v := u32 (a + rfc_function i b c d + nth (rfc_word i) X 0 + nth i rfc_T 0) in
  (d, u32 (rol v (rfc_shift i) + b), b, c).

Definition compress (H : regs) (block : list Z) : regs :=
  let X := map (word_of block) (seq 0 16) in
  let '(A, B, C, D) := H in
  let '(a, b, c, d) := fold_left (rfc_step X) (seq 0 64) H in
  (u32 (A + a), u32 (B + b), u32 (C + c), u32 (D + d)).

(** The state after the first [k] blocks of [l]. *)
Fixpoint hash (k : nat) (H : regs) (l : list Z) : regs :=
  match k with O => H | S k' => hash k' (compress H (take 64 l)) (drop 64 l) end.

Definition le64 (n : Z) : list Z := map (fun i => u8 (Z.shiftr n (8 * i))) (seqZ 0 8).

Definition pad (msg : list Z) : list Z :=
  msg ++ 0x80 :: replicate (Z.to_nat ((55 - Z.of_nat (length msg)) mod 64)) 0 ++ le64 (8 * Z.of_nat (length msg)).

Definition initial : regs := (0x67452301, 0xefcdab89, 0x98badcfe, 0x10325476).

Definition digest (H : regs) : list Z :=
  let '(A, B, C, D) := H in le32 A ++ le32 B ++ le32 C ++ le32 D.

Definition md5 (msg : list Z) : list Z :=
  digest (hash (length (pad msg) / 64) initial (pad msg)).

(** ** transform is the compression function *)

Lemma FF_rfc b c d : FF b c d = rfc_F b c d.
Proof.
  unfold FF, rfc_F. apply Z.bits_inj'. intros n Hn.
  rewrite !Z.lxor_spec, !Z.lor_spec, !Z.land_spec, !Z.lxor_spec, Z.lnot_spec by done.
  by destruct (Z.testbit b n), (Z.testbit c n), (Z.testbit d n).
Qed.

Lemma FG_rfc b c d : FG b c d = rfc_G b c d.
Proof.
  unfold FG, FF, rfc_G. apply Z.bits_inj'. intros n Hn.
  rewrite !Z.lxor_spec, !Z.lor_spec, !Z.land_spec, !Z.lxor_spec, Z.lnot_spec by done.
  by destruct (Z.testbit b n), (Z.testbit c n), (Z.testbit d n).
Qed.

(** The [OP] line that step [i] of the RFC asks for. *)
Definition op_of (i : nat) : op :=
  let f := match (i / 16)%nat with 0%nat => FF | 1%nat => FG | 2%nat => FH | _ => FI end in
  match (i mod 4)%nat with
  | 0%nat => OP f rA rB rC rD (rfc_word i) (rfc_shift i) (nth i rfc_T 0)
  | 1%nat => OP f rD rA rB rC (rfc_word i) (rfc_shift i) (nth i rfc_T 0)
  | 2%nat => OP f rC rD rA rB (rfc_word i) (rfc_shift i) (nth i rfc_T 0)
  | _ => OP f rB rC rD rA (rfc_word i) (rfc_shift i) (nth i rfc_T 0)
  end.

Lemma ops_rfc : ops = map op_of (seq 0 64).
Proof. reflexivity. Qed.

(** The code renames the registers where the RFC rotates them. *)
Definition rotated (i : nat) (st : regs) : regs :=
  let '(A, B, C, D) := st in
  match (i mod 4)%nat with
  | 0%nat => (A, B, C, D) | 1%nat => (D, A, B, C) | 2%nat => (C, D, A, B) | _ => (B, C, D, A)
  end.

Lemma exec_rfc X i st : rotated (S i) (exec X st (op_of i)) = rfc_step X (rotated i st) i.
Proof.
  assert (Hf : forall b c d, match (i / 16)%nat with 0%nat => FF | 1%nat => FG | 2%nat => FH | _ => FI end b c d = rfc_function i b c d).
  { intros b c d. unfold rfc_function. destruct (i / 16)%nat as [|[|[|n]]]; [apply FF_rfc|apply FG_rfc|done|done]. }
  destruct st as [[[A B] C] D].
  assert (Hi : (i mod 4 < 4)%nat) by (apply Nat.mod_upper_bound; lia).
  assert (HS : (S i mod 4 = S (i mod 4) mod 4)%nat) by exact (eq_sym (Nat.Div0.add_mod_idemp_r 1 i 4)).
  unfold rotated, op_of, rfc_step. rewrite HS.
  destruct (i mod 4)%nat as [|[|[|[|n]]]]; [..|lia]; unfold exec; cbn [op_a op_b op_c op_d op_f op_k op_s op_T get_reg set_reg];
    rewrite Hf; reflexivity.
Qed.

Lemma exec_all X n i st : rotated (i + n) (fold_left (exec X) (map op_of (seq i n)) st) =
  fold_left (rfc_step X) (seq i n) (rotated i st).
Proof.
  revert i st. induction n as [|n IH]; intros i st; [by rewrite Nat.add_0_r|].
  cbn [seq map fold_left]. rewrite <- exec_rfc. replace (i + S n)%nat with (S i + n)%nat by lia. apply IH.
Qed.

Definition state_of (ctx : MD5_CONTEXT) : regs := (ctx_A ctx, ctx_B ctx, ctx_C ctx, ctx_D ctx).

Lemma transform_compress ctx data : state_of (transform ctx data) = compress (state_of ctx) data /\
  nblocks (transform ctx data) = nblocks ctx /\ buf (transform ctx data) = buf ctx /\
  count (transform ctx data) = count ctx /\ finalized (transform ctx data) = finalized ctx.
Proof.
  pose proof (exec_all (map (word_of data) (seq 0 16)) 64 0 (state_of ctx)) as H.
  unfold transform, compress. rewrite ops_rfc. fold (state_of ctx).
  change (rotated 0 (state_of ctx)) with (state_of ctx) in H. rewrite <- H.
  clear H. destruct (fold_left (exec _) _ _) as [[[A B] C] D]. repeat split.
Qed.
#[local] Opaque transform compress.

(** ** What a context stands for *)

Lemma hash_app k j H l1 l2 : length l1 = (64 * k)%nat -> hash (k + j) H (l1 ++ l2) = hash j (hash k H l1) l2.
Proof.
  revert H l1. induction k as [|k IH]; intros H l1 Hl.
  - destruct l1; [done|cbn in Hl; lia].
  - cbn [Nat.add hash]. rewrite take_app_le, drop_app_le by lia. rewrite IH; [done|]. rewrite length_drop. lia.
Qed.

(** The bytes taken in so far: whole blocks, and the [cnt] bytes in the buffer. *)
Record stands_for (ctx : MD5_CONTEXT) (k : nat) (body rest : list Z) : Prop := StandsFor {
  sf_body : length body = (64 * k)%nat;
  sf_state : state_of ctx = hash k initial body;
  sf_blocks : nblocks ctx = u32 (Z.of_nat k);
  sf_buf : length (buf ctx) = 64%nat;
  sf_count : count ctx = Z.of_nat (length rest);
  sf_rest : take (length rest) (buf ctx) = rest;
  sf_room : (length rest <= 64)%nat;
  sf_open : finalized ctx = false
}.

Definition absorbs (ctx : MD5_CONTEXT) (msg : list Z) : Prop :=
  exists k body rest, msg = body ++ rest /\ stands_for ctx k body rest.

Lemma next_block_fields hd : state_of (next_block hd) = state_of hd /\ nblocks (next_block hd) = u32 (nblocks hd + 1) /\
  buf (next_block hd) = buf hd /\ count (next_block hd) = 0 /\ finalized (next_block hd) = finalized hd.
Proof. by destruct hd. Qed.

Lemma absorb_stands ctx k body rest block : stands_for ctx k body rest -> length block = 64%nat ->
  stands_for (absorb ctx block) (S k) (body ++ block) [].
Proof.
  intros [H1 H2 H3 H4 H5 H6 H7 H8] Hb. destruct (transform_compress ctx block) as (T1 & T2 & T3 & T4 & T5).
  unfold absorb. destruct (next_block_fields (transform ctx block)) as (N1 & N2 & N3 & N4 & N5).
  split; [| |rewrite ?N2, ?N3, ?N4, ?N5..].
  - rewrite length_app. lia.
  - rewrite N1, T1, H2.
    replace (S k) with (k + 1)%nat by lia. rewrite hash_app by done. cbn [hash]. by rewrite take_ge by lia.
  - rewrite T2, H3. unfold u32. rewrite Zplus_mod_idemp_l. f_equal. lia.
  - by rewrite T3.
  - reflexivity.
  - reflexivity.
  - cbn [length]. lia.
  - by rewrite T5.
Qed.

Lemma flush_stands ctx k body rest : stands_for ctx k body rest ->
  exists k' body' rest', body' ++ rest' = body ++ rest /\ stands_for (md5_flush ctx) k' body' rest' /\
    (length rest' < 64)%nat /\ (rest' = rest \/ rest' = []).
Proof.
  intros S. unfold md5_flush. pose proof (sf_count _ _ _ _ S) as Hc. pose proof (sf_room _ _ _ _ S) as Hr.
  destruct (Z.eqb_spec (count ctx) 64) as [H|H].
  - exists (Datatypes.S k), (body ++ rest), []. rewrite app_nil_r. split; [done|]. split; [|split; [cbn; lia|by right]].
    assert (Hbuf : buf ctx = rest).
    { rewrite <- (sf_rest _ _ _ _ S), take_ge; [done|]. rewrite (sf_buf _ _ _ _ S). lia. }
    rewrite <- Hbuf. apply (absorb_stands ctx k body rest); [done|]. apply (sf_buf _ _ _ _ S).
  - exists k, body, rest. split; [done|]. split; [done|]. split; [lia|by left].
Qed.

Lemma put_stands ctx k body rest c : stands_for ctx k body rest -> (length rest < 64)%nat ->
  stands_for (put_byte c ctx) k body (rest ++ [c]).
Proof.
  intros [H1 H2 H3 H4 H5 H6 H7 H8] Hlt. split; try done; cbn [buf count put_byte set_count set_buf].
  - by rewrite length_insert.
  - rewrite length_app. cbn. lia.
  - rewrite H5, Nat2Z.id, length_app. cbn [length]. rewrite Nat.add_1_r.
    rewrite (take_S_r _ (length rest) c) by (apply list_lookup_insert_eq; lia).
    rewrite take_insert_ge by lia. by rewrite H6.
  - rewrite length_app. cbn. lia.
Qed.

(** [fill] takes bytes in until the buffer is full. *)
Lemma fill_stands data ctx k body rest : stands_for ctx k body rest ->
  let n := Nat.min (length data) (64 - length rest) in
  stands_for (fill ctx data).1 k body (rest ++ take n data) /\ (fill ctx data).2 = drop n data.
Proof.
  revert ctx rest. induction data as [|c data IH]; intros ctx rest S n.
  { cbn. by rewrite app_nil_r. }
  pose proof (sf_room _ _ _ _ S) as Hr. cbn [fill]. rewrite (sf_count _ _ _ _ S).
  destruct (Z.ltb_spec (Z.of_nat (length rest)) 64) as [Hlt|Hge].
  - destruct (IH (put_byte c ctx) (rest ++ [c])) as [H1 H2]; [by apply put_stands; [|lia]|].
    rewrite length_app in H1, H2. cbn [length] in H1, H2. subst n. cbn [length].
    replace (Nat.min (Datatypes.S (length data)) (64 - length rest)) with
      (Datatypes.S (Nat.min (length data) (64 - (length rest + 1)))) by lia.
    cbn [take drop]. rewrite <- app_assoc in H1. done.
  - subst n. replace (64 - length rest)%nat with 0%nat by lia. rewrite Nat.min_0_r. cbn. by rewrite app_nil_r.
Qed.

(** The loop over whole blocks leaves less than a block. *)
Lemma blocks_loop_stands n ctx k body data : stands_for ctx k body [] -> (length data < 64 * (n + 1))%nat ->
  exists k' body' rest, stands_for (blocks_loop n ctx data).1 k' body' [] /\ (blocks_loop n ctx data).2 = rest /\
    body ++ data = body' ++ rest /\ (length rest < 64)%nat.
Proof.
  revert ctx k body data. induction n as [|n IH]; intros ctx k body data S Hn.
  { exists k, body, data. cbn. split; [done|]. split; [done|]. split; [done|lia]. }
  cbn [blocks_loop]. destruct (Nat.leb_spec 64 (length data)) as [H|H].
  - destruct (IH (absorb ctx (take 64 data)) (Datatypes.S k) (body ++ take 64 data) (drop 64 data)) as (k' & body' & rest & H1 & H2 & H3 & H4).
    + eapply absorb_stands; [exact S|]. rewrite length_take. lia.
    + rewrite length_drop. lia.
    + exists k', body', rest. rewrite <- H3, <- app_assoc, take_drop. done.
  - exists k, body, data. done.
Qed.

Lemma update_absorbs ctx msg data : absorbs ctx msg -> absorbs (md5_update ctx (Some data)) (msg ++ data).
Proof.
  intros (k & body & rest & -> & S). destruct (flush_stands _ _ _ _ S) as (k1 & body1 & rest1 & <- & S1 & Hlt1 & _).
  unfold md5_update. set (hd := md5_flush ctx) in *. clearbody hd. pose proof (sf_count _ _ _ _ S1) as Hc1.
  (* what is left to do once the buffer is empty *)
  assert (Hrest : forall hd k body data, stands_for hd k body [] ->
    absorbs (let '(hd, inbuf) := blocks_loop (length data / 64) hd data in (fill hd inbuf).1) (body ++ data)).
  { clear. intros hd k body data S.
    destruct (blocks_loop_stands (length data / 64) hd k body data S) as (k' & body' & rest & H1 & H2 & H3 & H4).
    { pose proof (Nat.div_mod_eq (length data) 64). pose proof (Nat.mod_upper_bound (length data) 64). lia. }
    destruct (blocks_loop _ _ _) as [hd' inbuf]. cbn [fst snd] in *. subst inbuf.
    destruct (fill_stands rest hd' k' body' [] H1) as [H5 _]. cbn [app] in H5.
    rewrite take_ge in H5 by (cbn [length]; lia). rewrite H3. by exists k', body', rest. }
  destruct (Z.eqb_spec (count hd) 0) as [H0|H0]; cbn [negb].
  - assert (rest1 = []) as -> by (destruct rest1; [done|cbn in Hc1; lia]).
    rewrite app_nil_r. by apply (Hrest hd k1).
  - destruct (fill_stands data hd k1 body1 rest1 S1) as [H1 H2]. set (n := Nat.min _ _) in *.
    destruct (fill hd data) as [hd2 inbuf2]. cbn [fst snd] in H1, H2. subst inbuf2.
    destruct (flush_stands _ _ _ _ H1) as (k3 & body3 & rest3 & Heq & S3 & Hlt3 & Hr3).
    case_bool_decide as Hnil.
    + exists k3, body3, rest3. split; [|done]. rewrite Heq, app_assoc. f_equal.
      rewrite <- (take_drop n data) at 1. by rewrite Hnil, app_nil_r.
    + assert (Hfull : length (rest1 ++ take n data) = 64%nat).
      { rewrite length_app, length_take. assert (n < length data)%nat; [|lia].
        destruct (Nat.lt_ge_cases n (length data)); [done|]. destruct Hnil. by apply drop_ge. }
      assert (rest3 = []) as -> by (destruct Hr3 as [-> | ->]; [lia|done]).
      rewrite app_nil_r in Heq. subst body3. rewrite <- (take_drop n data) at 3. rewrite !app_assoc, <- (app_assoc body1).
      by apply (Hrest _ k3).
Qed.

(** ** Finishing *)

(** The length field, for messages below 4 GB. *)
Lemma bit_count_eq k c : 0 <= k -> 0 <= c < 64 -> 64 * k + c < 2 ^ 32 ->
  let t := 64 * k + c in
  bit_count k c = (8 * t / 2 ^ 32 + (if (8 * t) mod 2 ^ 32 <? t then 1 else 0), (8 * t) mod 2 ^ 32).
Proof.
  intros Hk Hc Ht t. unfold bit_count. cbv zeta. rewrite !Z.shiftl_mul_pow2, !Z.shiftr_div_pow2 by lia.
  change (2 ^ 6) with 64. change (2 ^ 26) with 67108864. change (2 ^ 29) with 536870912. change (2 ^ 3) with 8.
  rewrite (u32_small (k * 64)) by lia. rewrite (proj2 (Z.ltb_ge (k * 64) k)) by lia.
  rewrite (Z.div_small k) by lia. change (u32 (0 + 0)) with 0.
  rewrite (u32_small (k * 64 + c)) by lia. rewrite (proj2 (Z.ltb_ge (k * 64 + c) (k * 64))) by lia.
  replace (k * 64 + c) with t by (unfold t; lia). replace (t * 8) with (8 * t) by lia. change (u32 (8 * t)) with ((8 * t) mod 2 ^ 32).
  assert (Hq : 8 * t / 2 ^ 32 = t / 536870912) by (unfold t in *; clear -Hk Hc Ht; divlia).
  assert (Hb : 0 <= t / 536870912 <= 7) by (unfold t in *; clear -Hk Hc Ht; divlia).
  rewrite Hq. destruct (_ <? t); [change (u32 (0 + 1)) with 1|]; rewrite u32_small by lia; f_equal; lia.
Qed.

Lemma bit_count_small k c : 0 <= k -> 0 <= c < 64 -> 64 * k + c < 2 ^ 29 ->
  bit_count k c = (0, 8 * (64 * k + c)).
Proof.
  intros Hk Hc Ht. rewrite bit_count_eq by lia. rewrite Z.div_small, Z.mod_small by lia.
  by rewrite (proj2 (Z.ltb_ge _ _)) by lia.
Qed.

Lemma le64_small n : 0 <= n < 2 ^ 32 -> le64 n = le32 n ++ le32 0.
Proof.
  intros Hn. assert (H0 : forall i, 32 <= i -> Z.shiftr n i = 0).
  { intros i Hi. rewrite Z.shiftr_div_pow2 by lia. apply Z.div_small. split; [lia|].
    apply Z.lt_le_trans with (2 ^ 32); [lia|]. apply Z.pow_le_mono_r; lia. }
  unfold le64. change (seqZ 0 8) with [0; 1; 2; 3; 4; 5; 6; 7]. cbn [map].
  change (8 * 0) with 0. change (8 * 1) with 8. change (8 * 2) with 16. change (8 * 3) with 24.
  rewrite (H0 (8 * 4)), (H0 (8 * 5)), (H0 (8 * 6)), (H0 (8 * 7)), Z.shiftr_0_r by lia. done.
Qed.

Lemma put_zeros_stands n ctx k body rest : stands_for ctx k body rest -> (length rest + n <= 64)%nat ->
  stands_for (put_zeros n ctx) k body (rest ++ replicate n 0).
Proof.
  revert ctx rest. induction n as [|n IH]; intros ctx rest S Hn; cbn [put_zeros replicate]; [by rewrite app_nil_r|].
  replace (rest ++ 0 :: replicate n 0) with ((rest ++ [0]) ++ replicate n 0) by (by rewrite <- app_assoc). apply IH; [apply put_stands; [done|lia]|]. rewrite length_app. cbn [length]. lia.
Qed.

Lemma pad_to_stands limit ctx k body rest : stands_for ctx k body rest -> (length rest < limit <= 64)%nat ->
  stands_for (pad_to (Z.of_nat limit) ctx) k body (rest ++ 0x80 :: replicate (limit - length rest - 1) 0).
Proof.
  intros S Hl. unfold pad_to. pose proof (put_stands _ _ _ _ 0x80 S ltac:(lia)) as S1.
  rewrite (sf_count _ _ _ _ S1), length_app. cbn [length].
  replace (Z.to_nat (Z.of_nat limit - Z.of_nat (length rest + 1))) with (limit - length rest - 1)%nat by lia.
  replace (0x80 :: replicate (limit - length rest - 1) 0) with ([0x80] ++ replicate (limit - length rest - 1) 0) by done.
  rewrite app_assoc. apply put_zeros_stands; [done|]. rewrite length_app. cbn [length]. lia.
Qed.

(** What [do_final] does with the block it has put together. *)
Definition finish (hd : MD5_CONTEXT) (block : list Z) : MD5_CONTEXT :=
  let hd := transform (set_buf block hd) block in
  Context_ (ctx_A hd) (ctx_B hd) (ctx_C hd) (ctx_D hd) (nblocks hd) (digest (state_of hd) ++ drop 16 (buf hd)) (count hd) true.

Lemma finish_digest hd block : take 16 (buf (finish hd block)) = digest (compress (state_of hd) block).
Proof.
  unfold finish. destruct (transform_compress (set_buf block hd) block) as (T1 & _).
  change (state_of (set_buf block hd)) with (state_of hd) in T1.
  set (h := transform _ _) in *. clearbody h. rewrite T1. cbn [buf].
  destruct (compress (state_of hd) block) as [[[A B] C] D]. done.
Qed.

(** The blocks of a message that ends in this padded block. *)
Lemma md5_last k body block msg : length body = (64 * k)%nat -> length block = 64%nat -> pad msg = body ++ block ->
  md5 msg = digest (compress (hash k initial body) block).
Proof.
  intros Hb Hl Hp. unfold md5. rewrite Hp, length_app, Hb, Hl.
  replace (64 * k + 64)%nat with ((k + 1) * 64)%nat by lia. rewrite Nat.div_mul by lia.
  rewrite hash_app by done. cbn [hash]. by rewrite take_ge by lia.
Qed.

Lemma do_final_digest ctx msg : absorbs ctx msg -> Z.of_nat (length msg) < 2 ^ 29 ->
  take 16 (buf (do_final ctx)) = md5 msg.
Proof.
  intros (k0 & body0 & rest0 & -> & S0) Hlen.
  destruct (flush_stands _ _ _ _ S0) as (k & body & rest & Heq & S & Hlt & _). rewrite <- Heq in *. clear Heq S0.
  unfold do_final. set (hd := md5_flush ctx) in *. clearbody hd.
  pose proof (sf_body _ _ _ _ S) as Hbody. rewrite length_app, Hbody in Hlen.
  assert (Hcount : bit_count (nblocks hd) (count hd) = (0, 8 * Z.of_nat (length (body ++ rest)))).
  { rewrite (sf_blocks _ _ _ _ S), (sf_count _ _ _ _ S), u32_small by lia.
    rewrite bit_count_small by lia. rewrite length_app, Hbody. do 2 f_equal. lia. }
  rewrite Hcount, (sf_count _ _ _ _ S). set (len := Z.of_nat (length (body ++ rest))) in *.
  assert (Hlen' : len = 64 * Z.of_nat k + Z.of_nat (length rest)) by (unfold len; rewrite length_app, Hbody; lia).
  assert (Hle : le32 (8 * len) ++ le32 0 = le64 (8 * len)) by (symmetry; apply le64_small; lia).
  assert (Hpad : pad (body ++ rest) = body ++ rest ++ 0x80 :: replicate (Z.to_nat ((55 - len) mod 64)) 0 ++ le64 (8 * len)).
  { unfold pad. fold len. by rewrite <- app_assoc. }
  destruct (Z.ltb_spec (Z.of_nat (length rest)) 56) as [H56|H56].
  - pose proof (pad_to_stands 56 hd k body rest S ltac:(lia)) as S1. change (Z.of_nat 56) with 56 in S1.
    set (padded := rest ++ _) in S1.
    assert (Hp : length padded = 56%nat).
    { unfold padded. rewrite length_app. cbn [length]. rewrite length_replicate. lia. }
    pose proof (sf_rest _ _ _ _ S1) as Hbuf. rewrite Hp in Hbuf.
    change (take 16 (buf (finish (pad_to 56 hd) (take 56 (buf (pad_to 56 hd)) ++ le32 (8 * len) ++ le32 0))) = md5 (body ++ rest)).
    rewrite finish_digest, Hbuf, (sf_state _ _ _ _ S1), Hle.
    symmetry. apply md5_last; [done|rewrite length_app, Hp; done|]. rewrite Hpad. f_equal. unfold padded.
    rewrite <- app_assoc. cbn [app]. do 4 f_equal.
    assert (Hz : (55 - len) mod 64 = 55 - Z.of_nat (length rest)) by (symmetry; apply (Z.mod_unique _ _ (- Z.of_nat k)); lia). rewrite Hz. lia.
  - pose proof (pad_to_stands 64 hd k body rest S ltac:(lia)) as S1. change (Z.of_nat 64) with 64 in S1.
    set (padded := rest ++ _) in S1.
    assert (Hp : length padded = 64%nat).
    { unfold padded. rewrite length_app. cbn [length]. rewrite length_replicate. lia. }
    assert (S2 : stands_for (md5_flush (pad_to 64 hd)) (Datatypes.S k) (body ++ padded) []).
    { unfold md5_flush. rewrite (sf_count _ _ _ _ S1), Hp. change (Z.of_nat 64 =? 64) with true. cbv iota.
      pose proof (sf_rest _ _ _ _ S1) as Hbuf. rewrite Hp, take_ge in Hbuf by (rewrite (sf_buf _ _ _ _ S1); lia).
      rewrite Hbuf. by apply (absorb_stands _ k body padded). }
    set (hd2 := md5_flush (pad_to 64 hd)) in *. clearbody hd2.
    assert (Hb2 : take 56 (replicate 56 0 ++ drop 56 (buf hd2)) = replicate 56 0) by (by apply take_app_length').
    change (take 16 (buf (finish (set_buf (replicate 56 0 ++ drop 56 (buf hd2)) hd2)
      (take 56 (replicate 56 0 ++ drop 56 (buf hd2)) ++ le32 (8 * len) ++ le32 0))) = md5 (body ++ rest)).
    rewrite finish_digest, Hb2, Hle.
    change (state_of (set_buf (replicate 56 0 ++ drop 56 (buf hd2)) hd2)) with (state_of hd2). rewrite (sf_state _ _ _ _ S2).
    symmetry. apply md5_last; [apply S2|done|]. rewrite Hpad, <- !app_assoc. f_equal. unfold padded.
    rewrite <- app_assoc. do 2 f_equal. cbn [app]. rewrite app_assoc, <- replicate_add. do 3 f_equal.
    assert (Hz : (55 - len) mod 64 = 119 - Z.of_nat (length rest)) by (symmetry; apply (Z.mod_unique _ _ (- Z.of_nat k - 1)); lia). rewrite Hz. lia.
Qed.

(** ** The correctness properties *)

Lemma init_absorbs ctx : length (buf ctx) = 64%nat -> absorbs (md5_init ctx) [].
Proof. intros Hb. exists 0%nat, [], []. split; [done|]. split; try done. cbn [length]. lia. Qed.

Lemma updates_absorb chunks ctx msg : absorbs ctx msg ->
  absorbs (fold_left (fun c d => md5_update c (Some d)) chunks ctx) (msg ++ concat chunks).
Proof.
  revert ctx msg. induction chunks as [|d chunks IH]; intros ctx msg A; cbn [fold_left concat]; [by rewrite app_nil_r|].
  rewrite app_assoc. by apply IH, update_absorbs.
Qed.

(** C34. However a message below 512 MB is cut into pieces, initialising a
    context, updating it with the pieces and finishing it gives the digest that
    RFC 1321 defines for the whole message, and finishing again gives it again. *)
Theorem md5_computes_rfc1321 chunks ctx : length (buf ctx) = 64%nat -> Z.of_nat (length (concat chunks)) < 2 ^ 29 ->
  let '(digest, ctx') := md5_final (fold_left (fun c d => md5_update c (Some d)) chunks (md5_init ctx)) in
  digest = md5 (concat chunks) /\ md5_final ctx' = (digest, ctx').
Proof.
  intros Hb Hlen. pose proof (updates_absorb chunks _ _ (init_absorbs ctx Hb)) as A. cbn [app] in A.
  set (hd := fold_left _ _ _) in *. clearbody hd. pose proof (do_final_digest hd _ A Hlen) as Hd.
  destruct A as (k & body & rest & _ & S). unfold md5_final at 1. rewrite (sf_open _ _ _ _ S). cbv zeta.
  split; [done|]. unfold md5_final. assert (Hf : finalized (do_final hd) = true).
  { unfold do_final. cbv zeta. destruct (bit_count _ _) as [msb lsb]. done. }
  by rewrite Hf.
Qed.

(** The length that ends the last block is right as long as multiplying the
    message's byte count by 8 does not wrap below it, so for all messages below
    512 MB; for the others the carry is counted twice. *)
Theorem bit_count_right k c : 0 <= k -> 0 <= c < 64 -> 64 * k + c < 2 ^ 32 ->
  let bits := 8 * (64 * k + c) in
  (bit_count k c = (bits / 2 ^ 32, bits mod 2 ^ 32) <-> 64 * k + c <= bits mod 2 ^ 32) /\
  (64 * k + c < 2 ^ 29 -> bit_count k c = (0, bits)) /\
  (bits mod 2 ^ 32 < 64 * k + c -> bit_count k c = (bits / 2 ^ 32 + 1, bits mod 2 ^ 32)).
Proof.
  intros Hk Hc Ht bits. split; [|split; [by apply bit_count_small|]]; rewrite bit_count_eq by done; fold bits;
    destruct (Z.ltb_spec (bits mod 2 ^ 32) (64 * k + c)); try done; try lia.
  - split; [|lia]. intros [= H1]. lia.
  - rewrite Z.add_0_r. split; [done|done].
Qed.

Lemma md5_computes_rfc1321_witness :
  (md5_final (md5_update (md5_update (md5_init empty_context) (Some [97])) (Some [98; 99]))).1 = md5 [97; 98; 99].
Proof.
  assert (H := md5_computes_rfc1321 [[97]; [98; 99]] empty_context ltac:(vm_compute; reflexivity) ltac:(vm_compute; reflexivity)).
  cbn [fold_left concat app] in H. destruct (md5_final _) as [d ctx']. exact (proj1 H).
Defined.

(** 2^23 blocks are 2^32 bits, and counted as 2^33. *)
Lemma bit_count_right_witness : bit_count (2 ^ 23) 0 = (2, 0).
Proof.
  exact (proj2 (proj2 (bit_count_right (2 ^ 23) 0 ltac:(lia) ltac:(lia) ltac:(lia))) ltac:(vm_compute; reflexivity)).
Defined.
