(* ===== verification/FmtCache.v ===== *)
(** * ospfsformat: the block cache (ospfsformat.c)

    The program that builds a disk image reads and writes the image's file
    through a cache of 16 blocks.  A pointer into the cache is a slot and an
    offset in the slot's 1024 bytes, so that the union of [struct Block] (bytes,
    words, inodes) is one memory and two pointers into a slot alias; an access
    outside the 1024 bytes is an error of the model.  [abort] is [oops]. *)

From S2P Require Import Prelude CMemory OspfsLayout.

(** ** Data *)

Inductive block_type : Type := BLOCK_SUPER | BLOCK_DIR | BLOCK_FILE | BLOCK_BITS | BLOCK_INODES.

#[export] Instance block_type_eq_dec : EqDecision block_type.
Proof. solve_decision. Defined.

Record Block := MkBlock { bno : Z; type : block_type; busy : Z; used : Z; bytes_of : mem }.

(** A static [struct Block] is zero. *)
Definition zero_block : Block := MkBlock 0 BLOCK_SUPER 0 0 ∅.

Record Hardlink := MkHardlink { osp_ino : Z; host_ino : Z; md5_digest : list Z }.

(** The globals of the program: the file it writes, the cache, [getblk]'s static
    counter [t] (which counts far fewer calls than an [int] holds), the counters,
    the superblock, the option [-c], and the list of hard links. *)
Record fmt := Fmt {
  diskfd : mem;
  cache : list Block;
  clock : Z;
  f_nblocks : Z;
  f_ninodes : Z;
  f_nbitblock : Z;
  f_nextb : Z;
  f_nextinode : Z;
  f_super : ospfs_super_t;
  link_contents : bool;
  hardlinks : list Hardlink
}.

Definition set_io (d : mem) (c : list Block) (t : Z) (s : fmt) : fmt :=
  Fmt d c t (f_nblocks s) (f_ninodes s) (f_nbitblock s) (f_nextb s) (f_nextinode s) (f_super s)
    (link_contents s) (hardlinks s).
Definition set_cache (c : list Block) (s : fmt) : fmt := set_io (diskfd s) c (clock s) s.
Definition set_diskfd (d : mem) (s : fmt) : fmt := set_io d (cache s) (clock s) s.

(** ** Pointers into the cache *)

(** The slot a [struct Block*] points to. *)
Definition slot_at (i : nat) : prog fmt Block := s ← get; deref (cache s !! i) mret.
Definition set_slot (i : nat) (b : Block) : prog fmt unit := s ← get; put (set_cache (<[i := b]> (cache s)) s).

Definition with_bytes (m : mem) (b : Block) : Block := MkBlock (bno b) (type b) (busy b) (used b) m.
Definition with_type (ty : block_type) (b : Block) : Block := MkBlock (bno b) ty (busy b) (used b) (bytes_of b).
Definition with_busy (n : Z) (b : Block) : Block := MkBlock (bno b) (type b) n (used b) (bytes_of b).
Definition with_used (t : Z) (b : Block) : Block := MkBlock (bno b) (type b) (busy b) t (bytes_of b).
Definition with_bno (n : Z) (b : Block) : Block := MkBlock n (type b) (busy b) (used b) (bytes_of b).

(** The [n] bytes at offset [off] lie in the block. *)
Definition in_union (off n : Z) : bool := (0 <=? off) && (off + n <=? OSPFS_BLKSIZE).

Definition u_load32 (i : nat) (off : Z) : prog fmt Z :=
  b ← slot_at i; if in_union off 4 then mret (ld32 (bytes_of b) off) else oops.
Definition u_store32 (i : nat) (off v : Z) : prog fmt unit :=
  b ← slot_at i; if in_union off 4 then set_slot i (with_bytes (st32 (bytes_of b) off v) b) else oops.
Definition u_store_bytes (i : nat) (off : Z) (l : list Z) : prog fmt unit :=
  b ← slot_at i;
  if in_union off (Z.of_nat (length l)) then set_slot i (with_bytes (st_bytes (bytes_of b) off l) b) else oops.
Definition b_memset (i : nat) (c : Z) : prog fmt unit :=
  b ← slot_at i; set_slot i (with_bytes (memset (bytes_of b) 0 c 1024) b).

(** ** Byte order *)

(** [swizzle(x)] for the word at [x]: store its bytes, least significant first. *)
Definition swizzle (m : mem) (x : Z) : mem :=
  let y := ld32 m x in
  st8 (st8 (st8 (st8 m x (Z.land y 0xFF)) (x + 1) (Z.land (Z.shiftr y 8) 0xFF))
    (x + 2) (Z.land (Z.shiftr y 16) 0xFF)) (x + 3) (Z.land (Z.shiftr y 24) 0xFF).

Definition swizzleinode (m : mem) (inode : Z) : mem :=
  if ld32 m (oi_nlink inode) =? 0 then m
  else
    fold_left swizzle
      ([oi_size inode; oi_ftype inode; oi_mode inode; oi_nlink inode] ++
       map (oi_direct inode) (seqZ 0 OSPFS_NDIRECT) ++ [oi_indirect inode; oi_indirect2 inode]) m.

Definition swizzledirentry (m : mem) (direntry : Z) : mem :=
  if ld8 m (od_name direntry) =? 0 then m else swizzle m (od_ino direntry).

Definition swizzleblock (b : Block) : Block :=
  let m := bytes_of b in
  with_bytes
    match type b with
    | BLOCK_SUPER => fold_left swizzle [os_magic 0; os_nblocks 0; os_ninodes 0; os_firstinob 0] m
    | BLOCK_DIR => fold_left swizzledirentry (map (Z.mul OSPFS_DIRENTRY_SIZE) (seqZ 0 8)) m
    | BLOCK_FILE => m
    | BLOCK_BITS => fold_left swizzle (map (Z.mul 4) (seqZ 0 (OSPFS_BLKSIZE / 4))) m
    | BLOCK_INODES => fold_left swizzleinode (map (Z.mul OSPFS_INODESIZE) (seqZ 0 OSPFS_BLKINODES)) m
    end b.

(** ** The cache *)

(** Write a slot back to its place in the file. *)
Definition flushb (i : nat) : prog fmt unit :=
  b ← slot_at i;
  let b := swizzleblock b in
  s ← get;
  put (set_diskfd (st_bytes (diskfd s) (ospfs_block (bno b)) (ld_bytes (bytes_of b) 0 1024)) s);;
  set_slot i (swizzleblock b).

(** The loop over the slots: the slot that holds block [n], or else the slot
    that is not busy and was used least recently ([least], with its [used]). *)
Fixpoint find_slot (n : Z) (l : list Block) (i : nat) (least : option (nat * Z)) : nat + option (nat * Z) :=
  match l with
  | [] => inr least
  | b :: l' =>
      if bno b =? n then inl i
      else
        find_slot n l' (S i)
          (if (busy b =? 0) && match least with None => true | Some (_, u) => used b <? u end
           then Some (i, used b) else least)
  end.

(** [out:] of [getblk]. *)
Definition getblk_out (i : nat) (clr : bool) (ty : block_type) : prog fmt nat :=
  (if clr then b_memset i 0 else mret tt);;
  s ← get;
  put (set_io (diskfd s) (cache s) (clock s + 1) s);;
  b ← slot_at i;
  let b := with_busy (busy b + 1) (with_used (clock s + 1) b) in
  if bool_decide (type b = ty) || (busy b =? 1) then set_slot i (with_type ty b);; mret i
  else oops.

Definition getblk (n : Z) (clr : bool) (ty : block_type) : prog fmt nat :=
  s ← get;
  if f_nblocks s <=? n then oops
  else
    match find_slot n (cache s) 0 None with
    | inl i => getblk_out i clr ty
    | inr None => oops
    | inr (Some (i, _)) =>
        b ← slot_at i;
        (if used b =? 0 then mret tt else flushb i);;
        s ← get;
        b ← slot_at i;
        let b := with_bytes (st_bytes (bytes_of b) 0 (ld_bytes (diskfd s) (ospfs_block n) 1024)) b in
        let b := with_bno n b in
        let b := if clr then b else swizzleblock b in
        set_slot i (with_type ty (with_busy 0 b));;
        getblk_out i clr ty
    end.

Definition putblk (i : nat) : prog fmt unit :=
  b ← slot_at i; set_slot i (with_busy (u32 (busy b - 1)) b).

(** Every slot in use is written back. *)
Fixpoint flush_slots (n i : nat) : prog fmt unit :=
  match n with
  | O => mret tt
  | S n' =>
      b ← slot_at i;
      (if used b =? 0 then mret tt else flushb i);;
      flush_slots n' (S i)
  end.

Definition flushdisk : prog fmt unit := flush_slots 16 0.
