(* ===== verification/Fmt.v ===== *)
(** * ospfsformat: building the image (ospfsformat.c)

    The functions above the block cache, from [storeblk] to [main].  The host's
    file system is an argument: the files and directories that the program opens.
    A [struct ospfs_inode*] or [struct ospfs_direntry*] is a slot of the cache and
    the offset of the structure in it.  Messages on stderr are left out. *)

From S2P Require Import Prelude CMemory OspfsLayout Md5 FmtCache.

(** ** The host *)

(** An open file: the bytes that are left, and how many bytes each of the next
    [read]s gives at most (a negative number is an error); after that, [read]s
    give all they can. *)
Record hostfd := HostFd { left : list Z; chunks : list Z }.

(** [read(f, a, n)]: the result, the bytes, and the file after it. *)
Definition read (n : Z) (f : hostfd) : Z * list Z * hostfd :=
  let most := Z.min n (Z.of_nat (length (left f))) in
  let give k cs := (k, take (Z.to_nat k) (left f), HostFd (drop (Z.to_nat k) (left f)) cs) in
  match chunks f with
  | [] => give most []
  | c :: cs => if c <? 0 then (-1, [], HostFd (left f) cs) else give (Z.min (Z.max 1 c) most) cs
  end.

(** What [lstat] and [open] find: a regular file (its bytes, unless it cannot be
    opened, and the sizes of its [read]s), a directory with the entries [readdir]
    returns, a symbolic link, or anything else. *)
Inductive host : Type :=
| HReg (content : option (list Z)) (sizes : list Z) (st_nlink st_ino st_mode : Z)
| HDir (st_mode : Z) (entries : list (list Z * host))
| HLnk (text : list Z) (st_nlink st_ino : Z)
| HOther.

(** [s.st_nlink > 1 ? s.st_ino : 0] *)
Definition link_ino (st_nlink st_ino : Z) : Z := if 1 <? st_nlink then st_ino else 0.

(** Fill the first [n] bytes of a slot from a file.  [size_t] is unsigned, so an
    error of [read] is the largest [size_t]. *)
Definition readn (i : nat) (n : Z) (f : hostfd) : prog fmt (Z * hostfd) :=
  loop (fun '(t, f) =>
    if t <? n then
      let '(r, data, f) := read (n - t) f in
      u_store_bytes i t data;;
      let m := u32 r in
      mret (if m =? 0 then inr (if t =? 0 then s32 m else s32 t, f) else inl (u32 (t + m), f))
    else mret (inr (s32 t, f))) (0, f).

(** ** Globals *)

Definition set_counters (nbitblock nextb nextinode : Z) (s : fmt) : fmt :=
  Fmt (diskfd s) (cache s) (clock s) (f_nblocks s) (f_ninodes s) nbitblock nextb nextinode (f_super s)
    (link_contents s) (hardlinks s).
Definition set_super (sp : ospfs_super_t) (s : fmt) : fmt :=
  Fmt (diskfd s) (cache s) (clock s) (f_nblocks s) (f_ninodes s) (f_nbitblock s) (f_nextb s) (f_nextinode s) sp
    (link_contents s) (hardlinks s).
Definition set_links (l : list Hardlink) (s : fmt) : fmt :=
  Fmt (diskfd s) (cache s) (clock s) (f_nblocks s) (f_ninodes s) (f_nbitblock s) (f_nextb s) (f_nextinode s)
    (f_super s) (link_contents s) l.

(** [nextb++] *)
Definition take_nextb : prog fmt Z :=
  s ← get; put (set_counters (f_nbitblock s) (u32 (f_nextb s + 1)) (f_nextinode s) s);; mret (f_nextb s).

(** ** Hard links *)

Fixpoint find_hardlink (lc : bool) (l : list Hardlink) (ino : Z) (digest : option (list Z)) : Z :=
  match l with
  | [] => 0
  | cur :: l' =>
      if (negb (ino =? 0) && (host_ino cur =? ino)) ||
         (lc && match digest with Some d => bool_decide (md5_digest cur = d) | None => false end)
      then osp_ino cur
      else find_hardlink lc l' ino digest
  end.

Definition get_hardlink (ino : Z) (digest : option (list Z)) : prog fmt Z :=
  s ← get; mret (find_hardlink (link_contents s) (hardlinks s) ino digest).

Definition add_hardlink (ino osp : Z) (digest : option (list Z)) : prog fmt unit :=
  s ← get;
  let d := match digest with Some d => if link_contents s then d else replicate 16 0 | None => replicate 16 0 end in
  put (set_links (MkHardlink osp ino d :: hardlinks s) s).

(** ** The disk *)

Definition opendisk : prog fmt unit :=
  s ← get;
  put (set_diskfd ∅ s);;
  let nbitblock := u32 (f_nblocks s + OSPFS_BLKBITSIZE - 1) / OSPFS_BLKBITSIZE in
  for_each (seqZ 0 nbitblock) (fun i =>
    b ← getblk (OSPFS_FREEMAP_BLK + i) false BLOCK_BITS; b_memset b 0xFF;; putblk b);;
  let ninodeblock := u32 (f_ninodes s + OSPFS_BLKINODES - 1) / OSPFS_BLKINODES in
  for_each (seqZ 0 ninodeblock) (fun i =>
    b ← getblk (OSPFS_FREEMAP_BLK + nbitblock + i) true BLOCK_INODES; putblk b);;
  s ← get;
  put (set_super (OspfsSuper OSPFS_MAGIC (f_nblocks s) (f_ninodes s) (OSPFS_FREEMAP_BLK + nbitblock))
    (set_counters nbitblock (OSPFS_FREEMAP_BLK + nbitblock + ninodeblock) 0 s)).

(** A word that names a block: 0 asks for a new block, which is cleared and
    recorded by [record]. *)
Definition get_indirect (word : Z) (record : Z -> prog fmt unit) : prog fmt nat :=
  if word =? 0 then
    n ← take_nextb;
    bindir ← getblk n true BLOCK_BITS;
    c ← slot_at bindir;
    record (bno c);;
    mret bindir
  else getblk word false BLOCK_BITS.

Definition storeblk (ino : nat * Z) (b : nat) (nblk : Z) : prog fmt unit :=
  blk ← slot_at b;
  if nblk <? OSPFS_NDIRECT then u_store32 ino.1 (oi_direct ino.2 nblk) (bno blk)
  else if nblk <? OSPFS_NDIRECT + OSPFS_NINDIRECT then
    indirect ← u_load32 ino.1 (oi_indirect ino.2);
    bindir ← get_indirect indirect (u_store32 ino.1 (oi_indirect ino.2));
    u_store32 bindir (4 * (nblk - OSPFS_NDIRECT)) (bno blk);;
    putblk bindir
  else if nblk <? OSPFS_MAXFILEBLKS then
    indirect2 ← u_load32 ino.1 (oi_indirect2 ino.2);
    bindir2 ← get_indirect indirect2 (u_store32 ino.1 (oi_indirect2 ino.2));
    let nblk := nblk - (OSPFS_NDIRECT + OSPFS_NINDIRECT) in
    indirect ← u_load32 bindir2 (4 * (nblk / OSPFS_NINDIRECT));
    bindir ← get_indirect indirect (u_store32 bindir2 (4 * (nblk / OSPFS_NINDIRECT)));
    u_store32 bindir (4 * (nblk mod OSPFS_NINDIRECT)) (bno blk);;
    putblk bindir;;
    putblk bindir2
  else oops.

(** [allocinode(&ino, &ib)]: the number, which [store] stores, and the inode. *)
Definition allocinode (store : Z -> prog fmt unit) : prog fmt (Z * (nat * Z)) :=
  s ← get;
  if f_nextinode s =? f_ninodes s then oops
  else
    let ino := f_nextinode s in
    put (set_counters (f_nbitblock s) (f_nextb s) (u32 (ino + 1)) s);;
    store ino;;
    ib ← getblk (u32 (s_firstinob (f_super s) + ino / OSPFS_BLKINODES)) false BLOCK_INODES;
    mret (ino, (ib, OSPFS_INODESIZE * (ino mod OSPFS_BLKINODES))).

(** ** Directories *)

(** The last block of a directory; [nblk] is its index. *)
Definition last_dirb (dirino : nat * Z) (nblk : Z) : prog fmt (option nat) :=
  if OSPFS_NDIRECT + OSPFS_NINDIRECT <=? nblk then
    let nblk_off := nblk - OSPFS_NDIRECT - OSPFS_NINDIRECT in
    indirect2 ← u_load32 dirino.1 (oi_indirect2 dirino.2);
    bindir2 ← getblk indirect2 false BLOCK_BITS;
    indirect ← u_load32 bindir2 (4 * (nblk_off / OSPFS_NINDIRECT));
    bindir ← getblk indirect false BLOCK_BITS;
    n ← u_load32 bindir (4 * (nblk_off mod OSPFS_NINDIRECT));
    dirb ← getblk n false BLOCK_DIR;
    putblk bindir;;
    putblk bindir2;;
    mret (Some dirb)
  else if OSPFS_NDIRECT <=? nblk then
    indirect ← u_load32 dirino.1 (oi_indirect dirino.2);
    bindir ← getblk indirect false BLOCK_BITS;
    n ← u_load32 bindir (4 * (nblk - OSPFS_NDIRECT));
    dirb ← getblk n false BLOCK_DIR;
    putblk bindir;;
    mret (Some dirb)
  else if 0 <=? nblk then
    n ← u_load32 dirino.1 (oi_direct dirino.2 nblk);
    dirb ← getblk n false BLOCK_DIR;
    mret (Some dirb)
  else mret None.

(** The first entry of a directory block without an inode. *)
Definition free_entry (dirb : nat) : prog fmt (option Z) :=
  for_ret 8 0 (fun i =>
    ino ← u_load32 dirb (od_ino (OSPFS_DIRENTRY_SIZE * i));
    mret (if ino =? 0 then Some (OSPFS_DIRENTRY_SIZE * i) else None)).

(** [new_dirb:], with [nblk] the index of the last block. *)
Definition new_dirb (dirino : nat * Z) (nblk : Z) : prog fmt (nat * Z) :=
  n ← take_nextb;
  dirb ← getblk n true BLOCK_DIR;
  for_each (seqZ 0 8) (fun i => u_store32 dirb (od_ino (OSPFS_DIRENTRY_SIZE * i)) 0);;
  storeblk dirino dirb (nblk + 1);;
  size ← u_load32 dirino.1 (oi_size dirino.2);
  u_store32 dirino.1 (oi_size dirino.2) (size + OSPFS_BLKSIZE);;
  size ← u_load32 dirino.1 (oi_size dirino.2);
  if u32 ((nblk + 1 + 1) * OSPFS_BLKSIZE) =? size then mret (dirb, 0) else oops.

(** The entry, in the block [dirb]; [None] is a null pointer. *)
Definition allocdirentry (dirino : nat * Z) (name : list Z) : prog fmt (option (nat * Z)) :=
  if OSPFS_MAXNAMELEN <? Z.of_nat (length name) then mret None
  else
    size ← u_load32 dirino.1 (oi_size dirino.2);
    let nblk := s32 (u32 (size + OSPFS_BLKSIZE - 1) / OSPFS_BLKSIZE) - 1 in
    last ← last_dirb dirino nblk;
    od ← match last with
         | None => new_dirb dirino nblk
         | Some dirb =>
             free ← free_entry dirb;
             match free with
             | Some off => mret (dirb, off)
             | None => putblk dirb;; new_dirb dirino nblk
             end
         end;
    u_store_bytes od.1 (od_name od.2) (name ++ [0]);;
    mret (Some od).

(** The part of a path after its last slash. *)
Fixpoint last_component (acc name : list Z) : list Z :=
  match name with
  | [] => acc
  | c :: name' => if c =? 47 then last_component name' name' else last_component acc name'
  end.
Definition basename (name : list Z) : list Z := last_component name name.

(** ** Files *)

(** The digest of an open file, read in pieces of [BUFSIZ]; [None] if a read
    fails ([r == EAGAIN] never holds of a negative [r]). *)
Definition BUFSIZ : Z := 8192.
Definition digest_file (f : hostfd) : prog fmt (option (list Z) * hostfd) :=
  loop (fun '(md5, f) =>
    let '(r, buf, f) := read BUFSIZ f in
    mret (if r =? 0 then inr (Some (md5_final md5).1, f)
          else if r <? 0 then inr (None, f)
          else inl (md5_update md5 (Some buf), f))) (md5_init empty_context, f).

(** The inode of an entry: [hardlink_ino], linked once more, or a new one, which
    is recorded when [record] says so.  [true] is a new inode. *)
Definition entry_inode (de : nat * Z) (hardlink_ino ino : Z) (record : bool) (digest : option (list Z)) :
    prog fmt (bool * (nat * Z)) :=
  if hardlink_ino =? 0 then
    '(_, oi) ← allocinode (u_store32 de.1 (od_ino de.2));
    u_store32 oi.1 (oi_nlink oi.2) 1;;
    (if record : bool then osp ← u_load32 de.1 (od_ino de.2); add_hardlink ino osp digest else mret tt);;
    mret (true, oi)
  else
    u_store32 de.1 (od_ino de.2) hardlink_ino;;
    s ← get;
    inob ← getblk (u32 (s_firstinob (f_super s) + hardlink_ino / OSPFS_BLKINODES)) false BLOCK_INODES;
    let off := OSPFS_INODESIZE * (hardlink_ino mod OSPFS_BLKINODES) in
    nlink ← u_load32 inob (oi_nlink off);
    u_store32 inob (oi_nlink off) (nlink + 1);;
    mret (false, (inob, off)).

(** The loop over the blocks of a file; the result is its size. *)
Definition copy_blocks (ino : nat * Z) (f : hostfd) : prog fmt Z :=
  loop (fun '(nblk, f) =>
    s ← get;
    b ← getblk (f_nextb s) true BLOCK_FILE;
    '(n, f) ← readn b OSPFS_BLKSIZE f;
    if n <? 0 then oops
    else if n =? 0 then
      putblk b;;
      mret (inr (nblk * OSPFS_BLKSIZE + n))
    else
      take_nextb;;
      storeblk ino b nblk;;
      putblk b;;
      mret (if n <? OSPFS_BLKSIZE then inr (nblk * OSPFS_BLKSIZE + n) else inl (nblk + 1, f))) (0, f).

(** [content] and [sizes] are what [open(name)] finds. *)
Definition writefile (dirino : nat * Z) (name : list Z) (content : option (list Z)) (sizes : list Z)
    (ino mode : Z) : prog fmt unit :=
  deref content (fun data =>
    de ← allocdirentry dirino (basename name);
    s ← get;
    let lc := link_contents s in
    let f := HostFd data sizes in
    '(digest, f) ← (if lc then digest_file f else mret (Some [], f));
    match digest with
    | None => mret tt
    | Some digest =>
        let f := HostFd data (chunks f) in
        let record := negb (ino =? 0) || lc in
        hardlink_ino ← (if record then get_hardlink ino (Some digest) else mret 0);
        deref de (fun de =>
          '(new, oi) ← entry_inode de hardlink_ino ino record (Some digest);
          when new (
            u_store32 oi.1 (oi_ftype oi.2) OSPFS_FTYPE_REG;;
            u_store32 oi.1 (oi_mode oi.2) mode;;
            size ← copy_blocks oi f;
            u_store32 oi.1 (oi_size oi.2) size);;
          putblk de.1;;
          putblk oi.1)
    end).

(** ** Symbolic links *)

Definition addsymlink (dirino : nat * Z) (name linkbuf : list Z) (ino : Z) : prog fmt unit :=
  de ← allocdirentry dirino (basename name);
  hardlink_ino ← (if ino =? 0 then mret 0 else get_hardlink ino None);
  deref de (fun de =>
    '(new, sino) ← entry_inode de hardlink_ino ino (negb (ino =? 0)) None;
    when new (
      u_store32 sino.1 (oi_ftype sino.2) OSPFS_FTYPE_SYMLINK;;
      u_store_bytes sino.1 (oi_symlink sino.2) (linkbuf ++ [0]);;
      u_store32 sino.1 (oi_size sino.2) (Z.of_nat (length linkbuf)));;
    putblk de.1;;
    putblk sino.1).

(** A link whose text does not fit is left out. *)
Definition writesymlink (dirino : nat * Z) (name text : list Z) (ino : Z) : prog fmt unit :=
  if OSPFS_MAXSYMLINKLEN <? Z.of_nat (length text) then mret tt else addsymlink dirino name text ino.

(** ** Directory trees *)

(** The directories that are not visited: ".", "..", "CVS", ".svn" and ".git". *)
Definition char_at (name : list Z) (i : nat) : Z := nth i name 0.
Definition descend (name : list Z) : bool :=
  let longer k := (k <? length name)%nat in
  let differs k c := negb (char_at name k =? c) in
  (longer 1%nat || differs 0%nat 46) &&
  (longer 2%nat || differs 0%nat 46 || differs 1%nat 46) &&
  (longer 3%nat || differs 0%nat 67 || differs 1%nat 86 || differs 2%nat 83) &&
  (longer 4%nat || differs 0%nat 46 || differs 1%nat 115 || differs 2%nat 118 || differs 3%nat 110) &&
  (longer 4%nat || differs 0%nat 46 || differs 1%nat 103 || differs 2%nat 105 || differs 3%nat 116).

(** [pathbuf] with its final slash. *)
Definition PATH_MAX : Z := 4096.
Definition dir_path (name : list Z) : prog fmt (list Z) :=
  if PATH_MAX <=? Z.of_nat (length name) then oops
  else
    match last name with
    | None => oops
    | Some c => mret (if c =? 47 then name else name ++ [47])
    end.

(** The directory's own entry and inode, unless it is the root. *)
Definition new_directory (parentdirino : nat * Z) (name : list Z) (mode : Z) : prog fmt ((nat * Z) * nat) :=
  dirod ← allocdirentry parentdirino (basename name);
  deref dirod (fun dirod =>
    '(_, dirino) ← allocinode (u_store32 dirod.1 (od_ino dirod.2));
    nlink ← u_load32 parentdirino.1 (oi_nlink parentdirino.2);
    u_store32 parentdirino.1 (oi_nlink parentdirino.2) (nlink + 1);;
    u_store32 dirino.1 (oi_ftype dirino.2) OSPFS_FTYPE_DIR;;
    u_store32 dirino.1 (oi_size dirino.2) 0;;
    u_store32 dirino.1 (oi_nlink dirino.2) 1;;
    u_store32 dirino.1 (oi_mode dirino.2) mode;;
    mret (dirino, dirod.1)).

(** One entry of the directory [dirino], whose path is [dir]. *)
Fixpoint write_entry (dirino : nat * Z) (dir name : list Z) (h : host) {struct h} : prog fmt unit :=
  if PATH_MAX <=? Z.of_nat (length dir + length name) then oops
  else
    match h with
    | HReg content sizes st_nlink st_ino st_mode =>
        writefile dirino (dir ++ name) content sizes (link_ino st_nlink st_ino) (Z.land st_mode 0x1FF)
    | HDir st_mode entries =>
        when (descend name) (
          '(dirino, dirb) ← new_directory dirino (dir ++ name) (Z.land st_mode 0x1FF);
          path ← dir_path (dir ++ name);
          (fix write_entries (l : list (list Z * host)) : prog fmt unit :=
             match l with
             | [] => mret tt
             | (n, h') :: l' => write_entry dirino path n h';; write_entries l'
             end) entries;;
          putblk dirb;;
          putblk dirino.1)
    | HLnk text st_nlink st_ino => writesymlink dirino (dir ++ name) text (link_ino st_nlink st_ino)
    | HOther => mret tt
    end.

(** [writedirectory] of the root. *)
Definition write_root (rootino : nat * Z) (name : list Z) (entries : list (list Z * host)) : prog fmt unit :=
  path ← dir_path name;
  for_each entries (fun '(n, h) => write_entry rootino path n h).

(** ** The end of the image *)

(** [b->u.u[i/32] &= ~(1<<(i%32))] *)
Definition clear_bit (b : nat) (i : Z) : prog fmt unit :=
  w ← u_load32 b (4 * (i / 32));
  u_store32 b (4 * (i / 32)) (Z.land w (u32 (Z.lnot (Z.shiftl 1 (i mod 32))))).

Definition finishfs : prog fmt unit :=
  s ← get;
  for_each (seqZ 0 (f_nextb s)) (fun i =>
    b ← getblk (OSPFS_FREEMAP_BLK + i / OSPFS_BLKBITSIZE) false BLOCK_BITS;
    clear_bit b (i mod OSPFS_BLKBITSIZE);;
    putblk b);;
  s ← get;
  (if f_nblocks s =? u32 (f_nbitblock s * OSPFS_BLKBITSIZE) then mret tt
   else
     b ← getblk (u32 (OSPFS_FREEMAP_BLK + f_nbitblock s - 1)) false BLOCK_BITS;
     let first := f_nblocks s mod OSPFS_BLKBITSIZE in
     for_each (seqZ first (OSPFS_BLKBITSIZE - first)) (clear_bit b);;
     putblk b);;
  s ← get;
  b ← getblk 1 true BLOCK_SUPER;
  u_store32 b (os_magic 0) (s_magic (f_super s));;
  u_store32 b (os_nblocks 0) (s_nblocks (f_super s));;
  u_store32 b (os_ninodes 0) (s_ninodes (f_super s));;
  u_store32 b (os_firstinob 0) (s_firstinob (f_super s));;
  putblk b.

(** ** main *)

(** [strtol(text, &s, 0)] of the C library, on a machine whose [long] has 32 bits:
    the number and the rest [s], or [None] where there is no number ([s] is then
    the text itself). *)
Definition is_space (c : Z) : bool := (c =? 32) || ((9 <=? c) && (c <=? 13)).
Fixpoint skip_spaces (l : list Z) : list Z :=
  match l with c :: l' => if is_space c then skip_spaces l' else l | [] => [] end.
Definition digit (c : Z) : Z :=
  if (48 <=? c) && (c <=? 57) then c - 48
  else if (65 <=? c) && (c <=? 90) then c - 55
  else if (97 <=? c) && (c <=? 122) then c - 87
  else 36.
Fixpoint digits (base acc : Z) (l : list Z) : Z * list Z :=
  match l with
  | c :: l' => if digit c <? base then digits base (base * acc + digit c) l' else (acc, l)
  | [] => (acc, [])
  end.
Definition strtol (text : list Z) : option (Z * list Z) :=
  let l := skip_spaces text in
  let '(sign, l) :=
    match l with c :: l' => if c =? 45 then (-1, l') else if c =? 43 then (1, l') else (1, l) | [] => (1, []) end in
  let '(base, l) :=
    match l with
    | c :: x :: d :: l' =>
        if (c =? 48) && ((x =? 120) || (x =? 88)) && (digit d <? 16) then (16, d :: l')
        else if c =? 48 then (8, l) else (10, l)
    | c :: _ => if c =? 48 then (8, l) else (10, l)
    | [] => (10, [])
    end in
  match l with
  | c :: _ =>
      if digit c <? base then
        let '(v, rest) := digits base 0 l in Some (Z.max (- 2 ^ 31) (Z.min (2 ^ 31 - 1) (sign * v)), rest)
      else None
  | [] => None
  end.

(** A number that is a whole argument; anything else prints the usage and aborts. *)
Definition number_arg (text : list Z) : prog fmt Z :=
  match strtol text with Some (v, []) => mret (u32 v) | _ => oops end.

(** The text before and after the first colon. *)
Fixpoint split_colon (l : list Z) : option (list Z * list Z) :=
  match l with
  | [] => None
  | c :: l' =>
      if c =? 58 then Some ([], l')
      else match split_colon l' with Some (a, b) => Some (c :: a, b) | None => None end
  end.

(** The options at the head of the arguments: [-V], [-c] and [-l SRC:DST]; the
    links (source, destination), the last one first, and the arguments left. *)
Fixpoint options (argv : list (list Z)) (links : list (list Z * list Z)) :
    prog fmt (list (list Z * list Z) * list (list Z)) :=
  match argv with
  | a :: rest =>
      if bool_decide (a = [45; 86]) then options rest links
      else if bool_decide (a = [45; 99]) then
        s ← get;
        put (Fmt (diskfd s) (cache s) (clock s) (f_nblocks s) (f_ninodes s) (f_nbitblock s) (f_nextb s)
               (f_nextinode s) (f_super s) true (hardlinks s));;
        options rest links
      else if bool_decide (a = [45; 108]) then
        match rest with
        | b :: rest' =>
            match split_colon b with
            | Some (source, destination) =>
                if bool_decide (47 ∈ destination) then oops
                else options rest' ((source, destination) :: links)
            | None => oops
            end
        | [] => oops
        end
      else mret (links, argv)
  | [] => mret (links, [])
  end.

(** The geometry that the arguments ask for. *)
Definition set_geometry (nblocks ninodes : Z) (s : fmt) : fmt :=
  Fmt (diskfd s) (cache s) (clock s) nblocks ninodes (f_nbitblock s) (f_nextb s) (f_nextinode s) (f_super s)
    (link_contents s) (hardlinks s).
Definition geometry (nblocks ninodes : Z) : prog fmt unit :=
  if (nblocks <? 2) || (8192 <? nblocks) then oops
  else if ninodes <? 2 then oops
  else if u32 (nblocks - 2 - nblocks / OSPFS_BLKBITSIZE) <=? ninodes then oops
  else s ← get; put (set_geometry nblocks ninodes s).

(** The inodes up to the root's, and the root's, which stays busy. *)
Definition make_root : prog fmt (nat * Z) :=
  loop (fun _ =>
    s ← get;
    if f_nextinode s =? OSPFS_ROOT_INO then mret (inr tt)
    else
      '(_, rootino) ← allocinode (fun _ => mret tt);
      u_store32 rootino.1 (oi_nlink rootino.2) 1;;
      putblk rootino.1;;
      mret (inl tt)) tt;;
  '(ino, rootino) ← allocinode (fun _ => mret tt);
  if ino =? OSPFS_ROOT_INO then
    u_store32 rootino.1 (oi_ftype rootino.2) OSPFS_FTYPE_DIR;;
    u_store32 rootino.1 (oi_nlink rootino.2) 1;;
    u_store32 rootino.1 (oi_mode rootino.2) 0x1FF;;
    mret rootino
  else oops.

(** The host: the files and the directories that can be opened by name. *)
Record host_fs := HostFs {
  open_file : list Z -> option (list Z * list Z);
  open_dir : list Z -> option (list (list Z * host))
}.

Definition init : fmt :=
  Fmt ∅ (replicate 16 zero_block) 1 0 0 0 0 0 (OspfsSuper 0 0 0 0) false [].

Definition format_main (hfs : host_fs) (argv : list (list Z)) : prog fmt unit :=
  '(links, args) ← options argv [];
  match args with
  | img :: nb :: ni :: first :: more =>
      nblocks ← number_arg nb;
      ninodes ← number_arg ni;
      geometry nblocks ninodes;;
      opendisk;;
      rootino ← make_root;
      (if bool_decide (first = [45; 114]) then
         match more with
         | [dir] => deref (open_dir hfs dir) (fun entries => write_root rootino dir entries)
         | _ => oops
         end
       else
         for_each (first :: more) (fun name =>
           writefile rootino name (fst <$> open_file hfs name) (from_option snd [] (open_file hfs name)) 0 0x1B6));;
      for_each links (fun '(source, destination) => addsymlink rootino destination source 0);;
      putblk rootino.1;;
      finishfs;;
      flushdisk
  | _ => oops
  end.
