(* ===== verification/FmtCacheSpec.v ===== *)
(** * ospfsformat: what the block cache promises

    Seen through the cache, the image is one memory [m]: [cached s m H] says that
    the cached blocks and the file together hold [m], and that [H] are the blocks
    in use, one element per [getblk] that awaits its [putblk].  The lemmas are
    the rules by which the rest of the program reads and writes [m]. *)

From S2P Require Import Prelude CMemory OspfsLayout FmtCache.

Abbreviation holds := (list (Z * block_type)).

(** How often a block is in use. *)
Definition uses (H : holds) (n : Z) : Z := Z.of_nat (length (filter (fun h => h.1 = n) H)).

(** Slot [i] holds block [n]. *)
Definition in_slot (s : fmt) (i : nat) (n : Z) : Prop :=
  exists b, cache s !! i = Some b /\ used b <> 0 /\ bno b = n.

Record cached (s : fmt) (m : mem) (H : holds) : Prop := Cached {
  ca_length : length (cache s) = 16%nat;
  ca_clock : 0 < clock s;
  ca_nblocks : f_nblocks s <= 8192;
  ca_few : (length H <= 16)%nat;
  ca_unused : forall i b, cache s !! i = Some b -> used b = 0 -> bno b = 0 /\ busy b = 0;
  ca_range : forall i b, cache s !! i = Some b -> used b <> 0 -> 0 < bno b < f_nblocks s;
  (** no block is cached twice *)
  ca_inj : forall i j n, in_slot s i n -> in_slot s j n -> i = j;
  ca_bytes : forall i b x, cache s !! i = Some b -> used b <> 0 -> 0 <= x < 1024 ->
    ld8 m (1024 * bno b + x) = ld8 (bytes_of b) x;
  ca_disk : forall a, (forall i, ~ in_slot s i (a / 1024)) -> ld8 m a = ld8 (diskfd s) a;
  ca_busy : forall i b, cache s !! i = Some b -> used b <> 0 -> busy b = uses H (bno b);
  ca_held : forall n ty, (n, ty) ∈ H ->
    exists i b, cache s !! i = Some b /\ used b <> 0 /\ bno b = n /\ type b = ty
}.

(** Only the cache changed, and the blocks of [H] are where they were. *)
Record io_only (H : holds) (s s' : fmt) : Prop := IoOnly {
  io_globals : set_io ∅ [] 0 s' = set_io ∅ [] 0 s;
  io_slots : forall i n ty, (n, ty) ∈ H -> in_slot s i n -> in_slot s' i n
}.

Lemma io_only_refl H s : io_only H s s.
Proof. by split. Qed.

Lemma io_only_trans H s1 s2 s3 : io_only H s1 s2 -> io_only H s2 s3 -> io_only H s1 s3.
Proof.
  intros [G1 S1] [G2 S2]. split; [by rewrite G2|]. intros i n ty Hn Hi. eapply S2; [done|]. by eapply S1.
Qed.

Lemma io_only_sub H H' s s' : (forall n ty, (n, ty) ∈ H' -> exists ty', (n, ty') ∈ H) ->
  io_only H s s' -> io_only H' s s'.
Proof. intros Hs [G S1]. split; [done|]. intros i n ty Hn Hi. destruct (Hs n ty Hn). by eapply S1. Qed.

(** Chains of steps: an element of a list of held blocks, the changes from one
    state to a later one, and where a held block still is. *)
Ltac in_list := solve [assumption | by left | right; in_list].
Ltac io_chain :=
  first
  [ assumption
  | apply io_only_refl
  | match goal with
    | Hio : io_only _ ?s1 ?s' |- io_only _ _ ?s' =>
        apply (io_only_trans _ _ s1);
          [io_chain | eapply io_only_sub, Hio; let n := fresh in let t := fresh in intros n t ?; exists t; in_list]
    end ].
Ltac slot_chain :=
  first
  [ assumption
  | match goal with
    | Hio : io_only _ _ ?s' |- in_slot ?s' _ _ => eapply (io_slots _ _ _ Hio); [in_list | slot_chain]
    end ].

Lemma uses_cons H n n' ty : uses ((n', ty) :: H) n = uses H n + if decide (n' = n) then 1 else 0.
Proof. unfold uses. rewrite filter_cons. cbn. case_decide; cbn; lia. Qed.

Lemma uses_none H n : (forall ty, (n, ty) ∉ H) -> uses H n = 0.
Proof.
  intros Hn. unfold uses. rewrite (filter_none _ H); [done|]. intros [n' ty] Hin Heq. cbn in Heq. subst.
  by apply (Hn ty).
Qed.

Lemma uses_pos H n ty : (n, ty) ∈ H -> 0 < uses H n.
Proof.
  intros Hin. unfold uses. assert (Hf : (n, ty) ∈ filter (fun h => h.1 = n) H) by by apply list_elem_of_filter.
  destruct (filter _ H); [by apply not_elem_of_nil in Hf|]. cbn. lia.
Qed.

Lemma uses_0 H n : uses H n = 0 -> forall ty, (n, ty) ∉ H.
Proof. intros Hu ty Hin. pose proof (uses_pos H n ty Hin). lia. Qed.

Lemma div_block n x : 0 <= x < 1024 -> (1024 * n + x) / 1024 = n.
Proof. intros. divlia. Qed.

(** ** Changing one slot *)

Lemma cached_set s m H i b b' m' H' d t :
  cached s m H -> cache s !! i = Some b -> 0 < t -> (length H' <= 16)%nat -> used b' <> 0 -> 0 < bno b' < f_nblocks s ->
  (forall j, in_slot s j (bno b') -> j = i) ->
  (forall x, 0 <= x < 1024 -> ld8 m' (1024 * bno b' + x) = ld8 (bytes_of b') x) ->
  (forall a, a / 1024 <> bno b' -> ld8 m' a = ld8 m a) ->
  (forall a, a / 1024 <> bno b' -> (forall j, j <> i -> ~ in_slot s j (a / 1024)) -> ld8 m a = ld8 d a) ->
  busy b' = uses H' (bno b') ->
  (forall j n, j <> i -> in_slot s j n -> uses H' n = uses H n) ->
  (forall n ty, (n, ty) ∈ H' -> (n = bno b' /\ ty = type b') \/ ((n, ty) ∈ H /\ ~ in_slot s i n)) ->
  cached (set_io d (<[i := b']> (cache s)) t s) m' H' /\ in_slot (set_io d (<[i := b']> (cache s)) t s) i (bno b') /\
  (forall j n, j <> i -> in_slot s j n -> in_slot (set_io d (<[i := b']> (cache s)) t s) j n).
Proof.
  intros C Hi Ht Hfew Hu' Hr' Huniq Hbytes Hother Hdisk Hbusy Huses Hheld.
  set (s' := set_io d _ t s).
  assert (Hc : forall j c, cache s' !! j = Some c -> (j = i /\ c = b') \/ (j <> i /\ cache s !! j = Some c)).
  { intros j c Hj. cbn in Hj. destruct (decide (j = i)) as [->|Hne].
    - rewrite list_lookup_insert_eq in Hj by (by eapply lookup_lt_Some). naive_solver.
    - rewrite list_lookup_insert_ne in Hj by done. auto. }
  assert (Hii : cache s' !! i = Some b') by (cbn; apply list_lookup_insert_eq; by eapply lookup_lt_Some).
  assert (Hin : in_slot s' i (bno b')) by by exists b'.
  assert (Hfwd : forall j n, j <> i -> in_slot s j n -> in_slot s' j n).
  { intros j n Hne (c & Hj & Hc'). exists c. split; [|done]. cbn. by rewrite list_lookup_insert_ne. }
  assert (Hbwd : forall j n, in_slot s' j n -> (j = i /\ n = bno b') \/ (j <> i /\ in_slot s j n)).
  { intros j n (c & Hj & Hu & <-). destruct (Hc j c Hj) as [[-> ->]|[Hne Hj']]; [by left|].
    right. split; [done|]. by exists c. }
  split; [|done]. split; try apply C; try done.
  - cbn. rewrite length_insert. apply C.
  - intros j c [[-> ->]|[Hne Hj]]%Hc Hu; [done|]. by eapply (ca_unused _ _ _ C).
  - intros j c [[-> ->]|[Hne Hj]]%Hc Hu; [done|]. by eapply (ca_range _ _ _ C).
  - intros j k n [[-> ->]|[Hj Hj']]%Hbwd [[-> Hk]|[Hk Hk']]%Hbwd; try done.
    + by rewrite (Huniq k).
    + subst. by rewrite (Huniq j).
    + by apply (ca_inj _ _ _ C j k n).
  - intros j c x [[-> ->]|[Hne Hj]]%Hc Hu Hx; [by apply Hbytes|].
    rewrite Hother; [by eapply (ca_bytes _ _ _ C)|]. rewrite div_block by done. intros He.
    apply Hne, Huniq. exists c. done.
  - intros a Ha. assert (Hne : a / 1024 <> bno b') by (intros He; apply (Ha i); by rewrite He).
    rewrite Hother by done. apply Hdisk; [done|]. intros j Hj Hin'. apply (Ha j). by apply Hfwd.
  - intros j c [[-> ->]|[Hne Hj]]%Hc Hu; [done|].
    rewrite (Huses j) by first [done|by exists c]. by eapply (ca_busy _ _ _ C).
  - intros n ty Hn. destruct (Hheld n ty Hn) as [[-> ->]|[Hin' Hnot]]; [by exists i, b'|].
    destruct (ca_held _ _ _ C n ty Hin') as (j & c & Hj & Hu & <- & <-).
    assert (j <> i). { intros ->. apply Hnot. by exists c. }
    exists j, c. split; [|done]. cbn. by rewrite list_lookup_insert_ne.
Qed.

(** What every change of a cached block uses: its slot is the only one, the other
    slots and the file account for the other blocks, and its type is the one it
    is held with. *)
Section Slot.
Context (s : fmt) (m : mem) (H : holds) (C : cached s m H) (i : nat) (b : Block).
Context (Hi : cache s !! i = Some b) (Hu : used b <> 0).

Lemma in_slot_block n c : in_slot s i n -> cache s !! i = Some c -> used c <> 0 /\ bno c = n.
Proof. intros (d & Hd & Hd' & Hn) Hc. rewrite Hd in Hc. injection Hc as ->. done. Qed.

Lemma slot_unique j : in_slot s j (bno b) -> j = i.
Proof. intros Hj. apply (ca_inj _ _ _ C j i (bno b)); [done|]. by exists b. Qed.

Lemma rest_on_disk a : a / 1024 <> bno b -> (forall j, j <> i -> ~ in_slot s j (a / 1024)) -> ld8 m a = ld8 (diskfd s) a.
Proof.
  intros Ha Hno. apply (ca_disk _ _ _ C). intros j Hj. apply (Hno j); [|done].
  intros ->. destruct (in_slot_block _ b Hj Hi) as [_ He]. by apply Ha.
Qed.

Lemma held_type ty : (bno b, ty) ∈ H -> ty = type b.
Proof.
  intros Hn. destruct (ca_held _ _ _ C (bno b) ty Hn) as (j & c & Hj & Huc & Hbc & <-).
  assert (j = i) as -> by (apply slot_unique; by exists c). rewrite Hi in Hj. by injection Hj as ->.
Qed.

Lemma held_split n ty : (n, ty) ∈ H -> (n = bno b /\ ty = type b) \/ ((n, ty) ∈ H /\ ~ in_slot s i n).
Proof.
  intros Hn. destruct (decide (n = bno b)) as [->|Hne]; [left; split; [done|by apply held_type]|].
  right. split; [done|]. intros Hin. by destruct (in_slot_block n b Hin Hi) as [_ <-].
Qed.
End Slot.

(** Writing the bytes of a cached block. *)
Lemma cached_bytes s m H i b u m' :
  cached s m H -> cache s !! i = Some b -> used b <> 0 ->
  (forall x, 0 <= x < 1024 -> ld8 m' (1024 * bno b + x) = ld8 u x) ->
  (forall a, a / 1024 <> bno b -> ld8 m' a = ld8 m a) ->
  let s' := set_cache (<[i := with_bytes u b]> (cache s)) s in
  cached s' m' H /\ io_only H s s' /\ (forall j n, in_slot s j n -> in_slot s' j n).
Proof.
  intros C Hi Hu Hx Ho s'.
  destruct (cached_set s m H i b (with_bytes u b) m' H (diskfd s) (clock s)) as (C' & Hin & Hfwd); try done.
  - apply C.
  - apply C.
  - exact (ca_range _ _ _ C i b Hi Hu).
  - exact (slot_unique s m H C i b Hi Hu).
  - exact (rest_on_disk s m H C i b Hi).
  - exact (ca_busy _ _ _ C i b Hi Hu).
  - exact (held_split s m H C i b Hi Hu).
  - assert (Hall : forall j n, in_slot s j n -> in_slot s' j n).
    { intros j n Hj. destruct (decide (j = i)) as [->|Hne]; [|by apply Hfwd].
      by destruct (in_slot_block s i n b Hj Hi) as [_ <-]. }
    split; [done|]. split; [|done]. split; [done|]. eauto.
Qed.

(** ** Byte order: on a little-endian machine nothing happens *)

Lemma byte_of_word m x k : 0 <= k < 4 -> u8 (Z.land (Z.shiftr (ld32 m x) (8 * k)) 0xFF) = ld8 m (x + k).
Proof.
  intros Hk. change 0xFF with (Z.ones 8). rewrite Z.land_ones, Z.shiftr_div_pow2 by lia.
  unfold u8. rewrite Z.mod_mod by lia. unfold ld32.
  pose proof (ld8_range m x); pose proof (ld8_range m (x + 1));
  pose proof (ld8_range m (x + 2)); pose proof (ld8_range m (x + 3)).
  assert (k = 0 \/ k = 1 \/ k = 2 \/ k = 3) as [-> | [-> | [-> | -> ]]] by lia; rewrite ?Z.add_0_r; divlia.
Qed.

Lemma swizzle_id m x : swizzle m x ≡ m.
Proof.
  intros a. unfold swizzle. cbv zeta. rewrite !ld8_st8.
  pose proof (byte_of_word m x 0 ltac:(lia)) as H0. pose proof (byte_of_word m x 1 ltac:(lia)) as H1.
  pose proof (byte_of_word m x 2 ltac:(lia)) as H2. pose proof (byte_of_word m x 3 ltac:(lia)) as H3.
  rewrite Z.add_0_r in H0. change (Z.shiftr (ld32 m x) (8 * 0)) with (ld32 m x) in H0.
  repeat case_decide; subst; done.
Qed.

Lemma fold_id {A} (f : mem -> A -> mem) l m : (forall m a, f m a ≡ m) -> fold_left f l m ≡ m.
Proof.
  intros Hf. revert m. induction l as [|a l IH]; intros m; cbn; [done|]. by rewrite IH, Hf.
Qed.

Lemma swizzleblock_id b : exists u, swizzleblock b = with_bytes u b /\ u ≡ bytes_of b.
Proof.
  eexists. split; [done|]. destruct (type b); apply fold_id || done; intros m x.
  - apply swizzle_id.
  - unfold swizzledirentry. by destruct (_ =? 0); [|apply swizzle_id].
  - apply swizzle_id.
  - unfold swizzleinode. destruct (_ =? 0); [done|]. apply fold_id. apply swizzle_id.
Qed.

(** ** The rules *)

Lemma wp_slot_at s i b fu (Q : Block -> fmt -> Prop) : cache s !! i = Some b -> Q b s -> wp (slot_at i) fu s Q.
Proof. intros Hi HQ. unfold slot_at. apply wp_bind, wp_get. by rewrite Hi. Qed.

Lemma wp_set_slot s i b fu (Q : unit -> fmt -> Prop) :
  Q tt (set_cache (<[i := b]> (cache s)) s) -> wp (set_slot i b) fu s Q.
Proof. done. Qed.

Section Rules.
Context (s : fmt) (m : mem) (H : holds) (C : cached s m H).

(** The bytes of a cached block are those of the image. *)
Lemma cached_ld8 i b x : cache s !! i = Some b -> used b <> 0 -> 0 <= x < 1024 ->
  ld8 (bytes_of b) x = ld8 m (1024 * bno b + x).
Proof. intros. symmetry. by apply (ca_bytes _ _ _ C i). Qed.

Lemma cached_ld32 i b x : cache s !! i = Some b -> used b <> 0 -> 0 <= x -> x + 4 <= 1024 ->
  ld32 (bytes_of b) x = ld32 m (1024 * bno b + x).
Proof.
  intros Hi Hu H1 H2. unfold ld32. rewrite !(cached_ld8 i) by first [done|lia].
  by rewrite !Z.add_assoc.
Qed.

Lemma in_union_true off n : 0 <= off -> off + n <= 1024 -> in_union off n = true.
Proof. intros. unfold in_union, OSPFS_BLKSIZE. apply andb_true_intro. split; by apply Z.leb_le. Qed.

Lemma wp_u_load32 i n off fu (Q : Z -> fmt -> Prop) :
  in_slot s i n -> 0 <= off -> off + 4 <= 1024 -> Q (ld32 m (1024 * n + off)) s -> wp (u_load32 i off) fu s Q.
Proof.
  intros (b & Hi & Hu & <-) H1 H2 HQ. unfold u_load32. eapply wp_bind, wp_slot_at; [done|].
  rewrite in_union_true by lia. apply wp_ret. by rewrite (cached_ld32 i).
Qed.

(** A change of the bytes of a slot that is the same change of the image. *)
Lemma wp_change_bytes i n (f : mem -> Z -> mem) fu (Q : unit -> fmt -> Prop) b :
  in_slot s i n -> cache s !! i = Some b ->
  (forall x, 0 <= x < 1024 -> ld8 (f m (1024 * n)) (1024 * n + x) = ld8 (f (bytes_of b) 0) x) ->
  (forall a, a / 1024 <> n -> ld8 (f m (1024 * n)) a = ld8 m a) ->
  (forall s', cached s' (f m (1024 * n)) H -> io_only H s s' -> in_slot s' i n -> Q tt s') ->
  wp (set_slot i (with_bytes (f (bytes_of b) 0) b)) fu s Q.
Proof.
  intros Hin Hb Hx Ho HQ. destruct (in_slot_block s i n b Hin Hb) as [Hu <-]. apply wp_set_slot.
  destruct (cached_bytes s m H i b (f (bytes_of b) 0) (f m (1024 * bno b))) as (C' & Hio & Hall); eauto.
Qed.

Lemma wp_u_store32 i n off v fu (Q : unit -> fmt -> Prop) :
  in_slot s i n -> 0 <= off -> off + 4 <= 1024 ->
  (forall s', cached s' (st32 m (1024 * n + off) v) H -> io_only H s s' -> in_slot s' i n -> Q tt s') ->
  wp (u_store32 i off v) fu s Q.
Proof.
  intros Hin H1 H2 HQ. pose proof Hin as (b & Hb & Hu & Hn). unfold u_store32.
  eapply wp_bind, wp_slot_at; [done|]. rewrite in_union_true by lia.
  change (st32 (bytes_of b) off v) with ((fun m a => st32 m (a + off) v) (bytes_of b) 0).
  apply (wp_change_bytes i n); [done|done|..]; [| |done].
  - intros x Hx. unfold st32. rewrite !ld8_st8, (cached_ld8 i b x), Hn by done. repeat case_decide; try done; lia.
  - intros a Ha. apply ld8_st32_ne. divlia.
Qed.

Lemma wp_u_store_bytes i n off l fu (Q : unit -> fmt -> Prop) :
  in_slot s i n -> 0 <= off -> off + Z.of_nat (length l) <= 1024 ->
  (forall s', cached s' (st_bytes m (1024 * n + off) l) H -> io_only H s s' -> in_slot s' i n -> Q tt s') ->
  wp (u_store_bytes i off l) fu s Q.
Proof.
  intros Hin H1 H2 HQ. pose proof Hin as (b & Hb & Hu & Hn). unfold u_store_bytes.
  eapply wp_bind, wp_slot_at; [done|]. rewrite in_union_true by lia.
  change (st_bytes (bytes_of b) off l) with ((fun m a => st_bytes m (a + off) l) (bytes_of b) 0).
  apply (wp_change_bytes i n); [done|done|..]; [| |done].
  - intros x Hx. destruct (decide (off <= x < off + Z.of_nat (length l))) as [Hr|Hr].
    + destruct (lookup_lt_is_Some_2 l (Z.to_nat (x - off))) as [y Hy]; [lia|].
      replace (1024 * n + x) with (1024 * n + off + Z.of_nat (Z.to_nat (x - off))) by lia.
      replace x with (0 + off + Z.of_nat (Z.to_nat (x - off))) at 2 by lia. by rewrite !(ld8_st_bytes_in _ _ _ _ y).
    + rewrite !ld8_st_bytes_out by lia. rewrite (cached_ld8 i b x), Hn by done. done.
  - intros a Ha. apply ld8_st_bytes_out. divlia.
Qed.

Lemma wp_b_memset i n c fu (Q : unit -> fmt -> Prop) :
  in_slot s i n ->
  (forall s', cached s' (memset m (1024 * n) c 1024) H -> io_only H s s' -> in_slot s' i n -> Q tt s') ->
  wp (b_memset i c) fu s Q.
Proof.
  intros Hin HQ. pose proof Hin as (b & Hb & Hu & Hn). unfold b_memset.
  eapply wp_bind, wp_slot_at; [done|].
  apply (wp_change_bytes i n (fun m a => memset m a c 1024)); [done|done|..]; [| |done].
  - intros x Hx. by rewrite !ld8_memset_in by lia.
  - intros a Ha. apply ld8_memset_out. divlia.
Qed.
End Rules.

(** ** Putting a block back *)

Lemma uses_length H n : uses H n <= Z.of_nat (length H).
Proof. unfold uses. pose proof (length_filter (fun h => h.1 = n) H). lia. Qed.

Lemma wp_putblk s m H i n ty fu (Q : unit -> fmt -> Prop) :
  cached s m ((n, ty) :: H) -> in_slot s i n ->
  (forall s', cached s' m H -> io_only H s s' -> Q tt s') -> wp (putblk i) fu s Q.
Proof.
  intros C Hin HQ. pose proof Hin as (b & Hb & Hu & Hn). unfold putblk. eapply wp_bind, wp_slot_at; [done|].
  apply wp_set_slot. pose proof (ca_busy _ _ _ C i b Hb Hu) as Hbusy. rewrite uses_cons, Hn, decide_True in Hbusy by done.
  pose proof (ca_few _ _ _ C) as Hfew. cbn in Hfew. pose proof (uses_length H n).
  destruct (cached_set s m ((n, ty) :: H) i b (with_busy (u32 (busy b - 1)) b) m H (diskfd s) (clock s))
    as (C' & Hin' & Hfwd); try done.
  - apply C.
  - lia.
  - exact (ca_range _ _ _ C i b Hb Hu).
  - exact (slot_unique s m _ C i b Hb Hu).
  - intros x Hx. by apply (ca_bytes _ _ _ C i b).
  - exact (rest_on_disk s m _ C i b Hb).
  - cbn [with_busy busy bno]. rewrite Hbusy, Hn. unfold uses in *. rewrite u32_small; lia.
  - intros j n' Hne Hj. rewrite uses_cons, decide_False; [lia|]. intros ->.
    apply Hne, (slot_unique s m _ C i b Hb Hu). by rewrite Hn.
  - intros n' ty' Hn'. apply (held_split s m _ C i b Hb Hu). by right.
  - apply HQ; [done|]. split; [done|]. intros j n' ty' Hn' Hj. destruct (decide (j = i)) as [->|Hne]; [|by apply Hfwd].
    by destruct (in_slot_block s i n' b Hj Hb) as [_ <-].
Qed.

(** What is held is a multiset. *)
Lemma cached_perm s m H H' : H ≡ₚ H' -> cached s m H -> cached s m H'.
Proof.
  intros Hp C. destruct C. split; try done.
  - by rewrite <- Hp.
  - intros i b Hb Hu. rewrite (ca_busy0 i b Hb Hu). unfold uses. by rewrite Hp.
  - intros n ty Hn. apply ca_held0. by rewrite Hp.
Qed.

(** ** Getting a block *)

(** [set_io] replaces the file, the cache and the clock. *)
Lemma set_io_set_io d c t d' c' t' s : set_io d c t (set_io d' c' t' s) = set_io d c t s.
Proof. done. Qed.
Lemma set_cache_set_io c d' c' t' s : set_cache c (set_io d' c' t' s) = set_io d' c t' s.
Proof. done. Qed.
Lemma cache_set_io d c t s : cache (set_io d c t s) = c.
Proof. done. Qed.
Lemma diskfd_set_io d c t s : diskfd (set_io d c t s) = d.
Proof. done. Qed.
Lemma clock_set_io d c t s : clock (set_io d c t s) = t.
Proof. done. Qed.

Lemma wp_getblk_out s i b (clr : bool) ty fu (Q : nat -> fmt -> Prop) :
  cache s !! i = Some b -> (type b = ty \/ busy b = 0) ->
  Q i (set_io (diskfd s) (<[i := MkBlock (bno b) ty (busy b + 1) (clock s + 1)
         (if clr then memset (bytes_of b) 0 0 1024 else bytes_of b)]> (cache s)) (clock s + 1) s) ->
  wp (getblk_out i clr ty) fu s Q.
Proof.
  intros Hb Hty HQ. unfold getblk_out.
  assert (Hlt : (i < length (cache s))%nat) by by eapply lookup_lt_Some.
  assert (Htest : (bool_decide (type b = ty) || (busy b + 1 =? 1)) = true).
  { destruct Hty as [->| ->]; [by rewrite bool_decide_true|apply orb_true_r]. }
  destruct clr; apply wp_bind.
  - unfold b_memset. eapply wp_bind, wp_slot_at; [done|]. apply wp_set_slot. apply wp_bind, wp_get, wp_bind, wp_put.
    change (set_cache ?c s) with (set_io (diskfd s) c (clock s) s). rewrite !set_io_set_io, !cache_set_io, !diskfd_set_io, !clock_set_io.
    eapply wp_bind, wp_slot_at; [rewrite cache_set_io; by apply list_lookup_insert_eq|]. cbn [with_busy with_used with_bytes type busy].
    rewrite Htest. apply wp_bind, wp_set_slot, wp_ret.
    rewrite set_cache_set_io, cache_set_io, list_insert_insert_eq. exact HQ.
  - apply wp_ret, wp_bind, wp_get, wp_bind, wp_put. eapply wp_bind, wp_slot_at; [done|].
    cbn [with_busy with_used type busy]. rewrite Htest. by apply wp_bind, wp_set_slot, wp_ret.
Qed.

Lemma wp_flushb s i b fu (Q : unit -> fmt -> Prop) :
  cache s !! i = Some b ->
  (forall u, u ≡ bytes_of b ->
   Q tt (set_io (st_bytes (diskfd s) (ospfs_block (bno b)) (ld_bytes (bytes_of b) 0 1024))
          (<[i := with_bytes u b]> (cache s)) (clock s) s)) ->
  wp (flushb i) fu s Q.
Proof.
  intros Hb HQ. unfold flushb. eapply wp_bind, wp_slot_at; [done|]. cbv zeta.
  apply wp_bind, wp_get, wp_bind, wp_put, wp_set_slot.
  destruct (swizzleblock_id b) as (u & Hs & Hu). rewrite Hs.
  destruct (swizzleblock_id (with_bytes u b)) as (v & Hs' & Hv). rewrite Hs'.
  cbn in Hv. specialize (HQ v). cbn [bno with_bytes bytes_of].
  rewrite (ld_bytes_ext (bytes_of b) u) by (intros; apply Hu). apply HQ. by rewrite Hv.
Qed.

(** What the search finds: the block's slot, or a slot that is not busy, or that
    all slots are busy. *)
Lemma find_slot_spec n l i least :
  match find_slot n l i least with
  | inl k => exists j b, k = (i + j)%nat /\ l !! j = Some b /\ bno b = n
  | inr (Some (k, u)) => (forall b, b ∈ l -> bno b <> n) /\
      (least = Some (k, u) \/ exists j b, k = (i + j)%nat /\ l !! j = Some b /\ busy b = 0)
  | inr None => least = None /\ forall b, b ∈ l -> bno b <> n /\ busy b <> 0
  end.
Proof.
  revert i least. induction l as [|b l IH]; intros i least; cbn.
  { destruct least as [[k u]|]; split; try (by left); try done; intros b Hb; by apply not_elem_of_nil in Hb. }
  destruct (Z.eqb_spec (bno b) n) as [Hn|Hn]; [exists 0%nat, b; split; [lia|done]|].
  set (least' := if _ : bool then Some (i, used b) else least). specialize (IH (S i) least').
  destruct (find_slot n l (S i) least') as [k|[[k u]|]].
  - destruct IH as (j & c & -> & Hj & Hc). exists (S j), c. split; [lia|done].
  - destruct IH as [Hno Hl]. split; [intros c [->|Hc]%elem_of_cons; auto|].
    destruct Hl as [Hl|(j & c & -> & Hj & Hc)]; [|right; exists (S j), c; split; [lia|done]].
    unfold least' in Hl. destruct (busy b =? 0) eqn:Eb; cbn [andb] in Hl; [|by left].
    destruct (match least with Some (_, u0) => used b <? u0 | None => true end); [|by left].
    injection Hl as <- <-. right. exists 0%nat, b. split; [lia|]. split; [done|]. by apply Z.eqb_eq.
  - destruct IH as [Hl Hno]. unfold least' in Hl.
    destruct (busy b =? 0) eqn:Eb; cbn [andb] in Hl.
    + destruct least as [[k u]|]; [by destruct (used b <? u)|done].
    + split; [done|]. apply Z.eqb_neq in Eb. intros c [->|Hc]%elem_of_cons; auto.
Qed.

(** Fewer than 16 blocks in use leave a slot that is not busy. *)
Lemma some_free_slot s m H : cached s m H -> (length H < 16)%nat -> ~ (forall b, b ∈ cache s -> busy b <> 0).
Proof.
  intros C Hfew Hall.
  assert (Hin : forall i b, cache s !! i = Some b -> exists ty, (bno b, ty) ∈ H /\ used b <> 0).
  { intros i b Hb. pose proof (Hall b (list_elem_of_lookup_2 _ _ _ Hb)) as Hne.
    assert (Hu : used b <> 0) by (intros Hu; by destruct (ca_unused _ _ _ C i b Hb Hu)).
    rewrite (ca_busy _ _ _ C i b Hb Hu) in Hne. unfold uses in Hne.
    destruct (filter (fun h => h.1 = bno b) H) as [|[n ty] l] eqn:E; [done|].
    assert (Hx : (n, ty) ∈ filter (fun h => h.1 = bno b) H) by (rewrite E; by left).
    apply list_elem_of_filter in Hx as [<- Hx]. by exists ty. }
  assert (Hnd : NoDup (bno <$> cache s)).
  { apply NoDup_alt. intros i j n Hi Hj. apply list_lookup_fmap_Some in Hi as (b & -> & Hb), Hj as (c & Hbc & Hc).
    apply (ca_inj _ _ _ C i j (bno b)); [exists b|exists c].
    - by destruct (Hin i b Hb) as (ty & _ & ?).
    - by destruct (Hin j c Hc) as (ty & _ & ?). }
  assert (Hsub : (bno <$> cache s) ⊆ H.*1).
  { intros n Hn. apply list_elem_of_fmap in Hn as (b & -> & Hb). apply list_elem_of_lookup in Hb as (i & Hb).
    destruct (Hin i b Hb) as (ty & Hx & _). apply list_elem_of_fmap. by exists (bno b, ty). }
  pose proof (NoDup_submseteq _ _ Hnd Hsub) as Hlen%submseteq_length.
  rewrite !length_fmap, (ca_length _ _ _ C) in Hlen. lia.
Qed.

(** The image that [getblk] leaves. *)
Definition cleared (clr : bool) (m : mem) (n : Z) : mem := if clr then memset m (1024 * n) 0 1024 else m.

Lemma cleared_other clr m n a : a / 1024 <> n -> ld8 (cleared clr m n) a = ld8 m a.
Proof. intros Ha. destruct clr; [|done]. apply ld8_memset_out. divlia. Qed.

Lemma cleared_same clr m n u x : 0 <= x < 1024 -> (forall y, 0 <= y < 1024 -> ld8 u y = ld8 m (1024 * n + y)) ->
  ld8 (cleared clr m n) (1024 * n + x) = ld8 (if clr then memset u 0 0 1024 else u) x.
Proof. intros Hx Hu. unfold cleared. destruct clr; [|by rewrite Hu]. by rewrite !ld8_memset_in by lia. Qed.

Section Getblk.
Context (s : fmt) (m : mem) (H : holds) (C : cached s m H) (n : Z) (clr : bool) (ty : block_type).
Context (Hfew : (length H < 16)%nat) (Hn : 0 < n < f_nblocks s).
Context (Hty : forall ty', (n, ty') ∈ H -> ty' = ty).

(** A block that is cached. *)
Lemma wp_getblk_hit i b fu (Q : nat -> fmt -> Prop) :
  cache s !! i = Some b -> bno b = n ->
  (forall i s', cached s' (cleared clr m n) ((n, ty) :: H) -> in_slot s' i n -> io_only H s s' -> Q i s') ->
  wp (getblk_out i clr ty) fu s Q.
Proof.
  intros Hb Hbn HQ.
  assert (Hu : used b <> 0). { intros Hu. destruct (ca_unused _ _ _ C i b Hb Hu). lia. }
  assert (Huniq := slot_unique s m H C i b Hb Hu). assert (Htype := held_type s m H C i b Hb Hu).
  assert (Hdisk := rest_on_disk s m H C i b Hb). rewrite Hbn in Huniq, Htype, Hdisk.
  apply (wp_getblk_out s i b clr ty); [done| |].
  { rewrite (ca_busy _ _ _ C i b Hb Hu), Hbn. destruct (decide (uses H n = 0)) as [|Hne]; [by right|].
    left. unfold uses in Hne. destruct (filter (fun h => h.1 = n) H) as [|[n' ty'] l] eqn:E; [done|].
    assert (Hx : (n', ty') ∈ filter (fun h => h.1 = n) H) by (rewrite E; by left).
    apply list_elem_of_filter in Hx as [<- Hx]. cbn in *. rewrite <- (Htype ty' Hx). by apply Hty. }
  match goal with |- Q _ (set_io _ (<[i := ?c]> _) _ _) => set (b' := c) end.
  destruct (cached_set s m H i b b' (cleared clr m n) ((n, ty) :: H) (diskfd s) (clock s + 1))
    as (C' & Hin' & Hfwd); try done; pose proof (ca_clock _ _ _ C); cbn [b' bno used busy bytes_of type]; rewrite ?Hbn.
  - lia.
  - lia.
  - done.
  - done.
  - intros x Hx. apply cleared_same; [done|]. intros y Hy. rewrite <- Hbn. by apply (cached_ld8 s m H C i b).
  - intros a Ha. by apply cleared_other.
  - exact Hdisk.
  - rewrite uses_cons, decide_True by done. rewrite (ca_busy _ _ _ C i b Hb Hu), Hbn. lia.
  - intros j n' Hne Hj. rewrite uses_cons, decide_False; [lia|]. intros <-. by apply Hne, Huniq.
  - intros n' ty' [[= -> ->]|Hn']%elem_of_cons; [by left|].
    destruct (decide (n' = n)) as [->|Hne]; [left; split; [done|by apply Hty]|].
    right. split; [done|]. intros Hj. destruct (in_slot_block s i n' b Hj Hb). congruence.
  - cbn [b' bno] in Hin'. rewrite Hbn in Hin'. apply HQ; [done|done|].
    split; [done|]. intros j n' ty' Hn' Hj. destruct (decide (j = i)) as [->|Hne]; [|by apply Hfwd].
    destruct (in_slot_block s i n' b Hj Hb) as [_ <-]. by rewrite Hbn.
Qed.

(** What the file holds after the slot's old block is written back. *)
Definition written_back (b : Block) : mem :=
  if used b =? 0 then diskfd s
  else st_bytes (diskfd s) (ospfs_block (bno b)) (ld_bytes (bytes_of b) 0 1024).

Lemma written_back_spec i b a : cache s !! i = Some b ->
  (forall j, j <> i -> ~ in_slot s j (a / 1024)) -> ld8 m a = ld8 (written_back b) a.
Proof.
  intros Hb Hno. unfold written_back. destruct (Z.eqb_spec (used b) 0) as [Hu|Hu].
  - apply (ca_disk _ _ _ C). intros j Hj. destruct (decide (j = i)) as [->|Hne]; [|by apply (Hno j)].
    destruct (in_slot_block s i _ b Hj Hb). done.
  - pose proof (ca_range _ _ _ C i b Hb Hu). pose proof (ca_nblocks _ _ _ C).
    rewrite ospfs_block_small by lia. destruct (decide (a / 1024 = bno b)) as [Ha|Ha].
    + replace a with (1024 * bno b + (a - 1024 * bno b)) by lia.
      rewrite (ld8_copy (bytes_of b)) by divlia. rewrite (ca_bytes _ _ _ C i b) by first [done|divlia].
      f_equal. lia.
    + rewrite ld8_st_bytes_out by (rewrite length_ld_bytes; divlia).
      apply (ca_disk _ _ _ C). intros j Hj. destruct (decide (j = i)) as [->|Hne]; [|by apply (Hno j)].
      destruct (in_slot_block s i _ b Hj Hb) as [_ He]. by rewrite He in Ha.
Qed.

(** A block that is read into the slot [i]. *)
Lemma cached_load i b u t :
  cache s !! i = Some b -> busy b = 0 -> (forall c, c ∈ cache s -> bno c <> n) -> 0 < t ->
  (forall y, 0 <= y < 1024 -> ld8 u y = ld8 m (1024 * n + y)) ->
  let b' := MkBlock n ty 1 t (if clr then memset u 0 0 1024 else u) in
  let s' := set_io (written_back b) (<[i := b']> (cache s)) t s in
  cached s' (cleared clr m n) ((n, ty) :: H) /\ in_slot s' i n /\ io_only H s s'.
Proof.
  intros Hb Hbusy Hno Ht Hu b' s'.
  assert (Hnone : forall j, ~ in_slot s j n).
  { intros j (c & Hj & _ & Hc). by apply (Hno c); [eapply list_elem_of_lookup_2|]. }
  assert (Hnu : forall n' ty', (n', ty') ∈ H -> ~ in_slot s i n').
  { intros n' ty' Hn' Hi. destruct (in_slot_block s i n' b Hi Hb) as [Hub <-].
    rewrite (ca_busy _ _ _ C i b Hb Hub) in Hbusy. by apply (uses_0 H _ Hbusy ty'). }
  assert (Hnn : forall ty', (n, ty') ∉ H).
  { intros ty' Hn'. destruct (ca_held _ _ _ C n ty' Hn') as (j & c & Hj & Huc & Hc & _). apply (Hnone j). by exists c. }
  destruct (cached_set s m H i b b' (cleared clr m n) ((n, ty) :: H) (written_back b) t)
    as (C' & Hin' & Hfwd); try done; cbn [b' bno used busy bytes_of type].
  - lia.
  - intros j Hj. by destruct (Hnone j).
  - intros x Hx. by apply cleared_same.
  - intros a Ha. by apply cleared_other.
  - intros a _ Hother. by apply (written_back_spec i).
  - rewrite uses_cons, decide_True, (uses_none H n) by done. done.
  - intros j n' Hne Hj. rewrite uses_cons, decide_False; [lia|]. intros <-. by apply (Hnone j).
  - intros n' ty' [[= -> ->]|Hn']%elem_of_cons; [by left|]. right. split; [done|]. by eapply Hnu.
  - split; [done|]. split; [done|]. split; [done|]. intros j n' ty' Hn' Hj.
    apply Hfwd; [|done]. intros ->. by apply (Hnu n' ty').
Qed.

(** The second half of a miss: the slot's old block is written back, and its
    bytes read [v]. *)
Definition load_slot (i : nat) : prog fmt nat :=
  s ← get;
  b ← slot_at i;
  let b := with_bytes (st_bytes (bytes_of b) 0 (ld_bytes (diskfd s) (ospfs_block n) 1024)) b in
  let b := with_bno n b in
  let b := if clr then b else swizzleblock b in
  set_slot i (with_type ty (with_busy 0 b));;
  getblk_out i clr ty.

Lemma wp_load_slot j b v fu (Q : nat -> fmt -> Prop) :
  cache s !! j = Some b -> busy b = 0 -> (forall c, c ∈ cache s -> bno c <> n) ->
  (forall i s', cached s' (cleared clr m n) ((n, ty) :: H) -> in_slot s' i n -> io_only H s s' -> Q i s') ->
  wp (load_slot j) fu (set_io (written_back b) (<[j := with_bytes v b]> (cache s)) (clock s) s) Q.
Proof.
  intros Hb Hbusy Hno HQ. unfold load_slot.
  assert (Hlt : (j < length (cache s))%nat) by by eapply lookup_lt_Some.
  apply wp_bind, wp_get. eapply wp_bind, wp_slot_at; [cbn; by apply list_lookup_insert_eq|]. cbv zeta.
  set (w := st_bytes v 0 (ld_bytes (written_back b) (ospfs_block n) 1024)).
  assert (Hw : forall y, 0 <= y < 1024 -> ld8 w y = ld8 m (1024 * n + y)).
  { pose proof (ca_nblocks _ _ _ C). intros y Hy. unfold w. rewrite ld8_copy, ospfs_block_small by lia.
    rewrite (written_back_spec j b) by (done || (intros k _ (c & Hk & _ & Hc); rewrite div_block in Hc by done;
      by apply (Hno c); [eapply list_elem_of_lookup_2|])). f_equal. lia. }
  assert (Hex : exists w', (if clr then with_bno n (with_bytes w (with_bytes v b)) else
      swizzleblock (with_bno n (with_bytes w (with_bytes v b)))) = with_bno n (with_bytes w' b) /\ w' ≡ w).
  { destruct clr; [by exists w|]. destruct (swizzleblock_id (with_bno n (with_bytes w (with_bytes v b)))) as (w' & -> & Hw').
    exists w'. done. }
  destruct Hex as (w' & Heq & Hw'). rewrite diskfd_set_io. cbn [bytes_of with_bytes] in *. fold w.
  unfold with_bytes at 1 in Heq. unfold with_bytes in *. rewrite Heq. clear Heq.
  apply wp_bind, wp_set_slot. rewrite set_cache_set_io, cache_set_io. eapply wp_getblk_out.
  - rewrite cache_set_io. apply list_lookup_insert_eq. by rewrite length_insert.
  - by left.
  - rewrite diskfd_set_io, cache_set_io, clock_set_io, set_io_set_io, !list_insert_insert_eq. pose proof (ca_clock _ _ _ C).
    destruct (cached_load j b w' (clock s + 1)) as (C' & Hin & Hio); try done.
    + lia.
    + intros y Hy. rewrite (Hw' y). by apply Hw.
    + by apply HQ.
Qed.

(** The rule of [getblk]: while fewer than 16 blocks are in use it returns a slot
    that holds the block, and the image is as it was, or has the block cleared. *)
Lemma wp_getblk fu (Q : nat -> fmt -> Prop) :
  (forall i s', cached s' (cleared clr m n) ((n, ty) :: H) -> in_slot s' i n -> io_only H s s' -> Q i s') ->
  wp (getblk n clr ty) fu s Q.
Proof.
  intros HQ. unfold getblk. apply wp_bind, wp_get. rewrite (proj2 (Z.leb_gt _ _)) by lia.
  pose proof (find_slot_spec n (cache s) 0 None) as F.
  destruct (find_slot n (cache s) 0 None) as [i|[[i u]|]].
  - destruct F as (j & b & -> & Hb & Hbn). by apply (wp_getblk_hit j b).
  - destruct F as [Hno [F|(j & b & -> & Hb & Hbusy)]]; [done|]. cbn [Nat.add].
    eapply wp_bind, wp_slot_at; [done|]. apply wp_bind.
    change (wp (if used b =? 0 then mret tt else flushb j) fu s (fun _ s' => wp (load_slot j) fu s' Q)).
    assert (Hstep : forall v, wp (load_slot j) fu
      (set_io (written_back b) (<[j := with_bytes v b]> (cache s)) (clock s) s) Q) by (intros v; by apply wp_load_slot).
    unfold written_back in Hstep. destruct (Z.eqb_spec (used b) 0) as [Hu|Hu].
    + apply wp_ret. specialize (Hstep (bytes_of b)).
      replace (set_io (diskfd s) (<[j:=with_bytes (bytes_of b) b]> (cache s)) (clock s) s) with s in Hstep; [done|].
      replace (with_bytes (bytes_of b) b) with b by (by destruct b). rewrite list_insert_id by done. by destruct s.
    + apply (wp_flushb s j b); [done|]. intros v _. apply Hstep.
  - destruct F as [_ F]. exfalso. apply (some_free_slot s m H C Hfew). intros b Hb. by apply F.
Qed.
End Getblk.

(** ** Writing everything back *)

Lemma wp_flush_slots k i s m H fu (Q : unit -> fmt -> Prop) :
  cached s m H -> (i + k = 16)%nat ->
  (forall j b x, (j < i)%nat -> cache s !! j = Some b -> used b <> 0 -> 0 <= x < 1024 ->
     ld8 (diskfd s) (1024 * bno b + x) = ld8 (bytes_of b) x) ->
  (forall s', diskfd s' ≡ m -> Q tt s') -> wp (flush_slots k i) fu s Q.
Proof.
  revert i s. induction k as [|k IH]; intros i s C Hk Hdone HQ; cbn [flush_slots].
  { apply wp_ret, HQ. intros a. destruct (list_find (fun b => used b <> 0 /\ bno b = a / 1024) (cache s)) as [[j b]|] eqn:E.
    - apply list_find_Some in E as (Hb & [Hu Ha] & _). pose proof (ca_length _ _ _ C). apply lookup_lt_Some in Hb as Hlt.
      replace a with (1024 * bno b + a mod 1024) by (rewrite Ha; divlia).
      rewrite (Hdone j b) by first [done|lia|divlia]. symmetry. apply (ca_bytes _ _ _ C j b); [done|done|divlia].
    - symmetry. apply (ca_disk _ _ _ C). intros j (b & Hb & Hu & Ha). apply list_find_None in E.
      rewrite Forall_forall in E. apply (E b); [by eapply list_elem_of_lookup_2|done]. }
  destruct (lookup_lt_is_Some_2 (cache s) i) as [b Hb]; [rewrite (ca_length _ _ _ C); lia|].
  eapply wp_bind, wp_slot_at; [done|]. apply wp_bind. destruct (Z.eqb_spec (used b) 0) as [Hu|Hu].
  - apply wp_ret, IH; [done|lia| |done]. intros j c x Hj Hc Huc. apply (Hdone j c); [|done|done].
    destruct (decide (j = i)) as [->|]; [|lia]. congruence.
  - apply (wp_flushb s i b); [done|]. intros u Hub. pose proof (ca_range _ _ _ C i b Hb Hu).
    pose proof (ca_nblocks _ _ _ C). rewrite ospfs_block_small by lia.
    set (d := st_bytes _ _ _).
    destruct (cached_set s m H i b (with_bytes u b) m H d (clock s)) as (C' & _ & _); try done.
    + apply C.
    + apply C.
    + exact (slot_unique s m H C i b Hb Hu).
    + intros x Hx. cbn. rewrite (Hub x). by apply (ca_bytes _ _ _ C i b).
    + intros a Ha Hno. unfold d. rewrite ld8_st_bytes_out by (rewrite length_ld_bytes; cbn [bno with_bytes] in Ha; divlia).
      by apply (rest_on_disk s m H C i b Hb).
    + exact (ca_busy _ _ _ C i b Hb Hu).
    + exact (held_split s m H C i b Hb Hu).
    + apply IH; [done|lia| |done]. intros j c x Hj Hc Huc Hx. cbn [set_io cache] in Hc. cbn [diskfd set_io].
      assert (Hlt : (i < length (cache s))%nat) by by eapply lookup_lt_Some.
      destruct (decide (j = i)) as [->|Hne].
      * rewrite list_lookup_insert_eq in Hc by done. injection Hc as <-. cbn [bno bytes_of with_bytes]. unfold d.
        rewrite (ld8_copy (bytes_of b)) by lia. rewrite (Hub x). f_equal. lia.
      * rewrite list_lookup_insert_ne in Hc by done. unfold d.
        assert (bno c <> bno b).
        { intros He. apply Hne, (slot_unique s m H C i b Hb Hu). rewrite <- He. by exists c. }
        rewrite ld8_st_bytes_out by (rewrite length_ld_bytes; lia). apply (Hdone j c); [lia|done..].
Qed.

(** The rule of [flushdisk]: the file holds the image. *)
Lemma wp_flushdisk s m H fu (Q : unit -> fmt -> Prop) :
  cached s m H -> (forall s', diskfd s' ≡ m -> Q tt s') -> wp flushdisk fu s Q.
Proof. intros C HQ. apply (wp_flush_slots 16 0 s m H); [done|done|intros; lia|done]. Qed.
