(* ===== verification/FmtStore.v ===== *)
(** * ospfsformat: storeblk

    A file of the image under construction is a tree of blocks, as in OspfsTree,
    whose blocks lie between the first data block and [nextb].  [storeblk] turns
    the tree of [n] blocks into the tree of [n + 1]. *)

From S2P Require Import Prelude CMemory OspfsLayout OspfsAlloc OspfsTree OspfsWork OspfsGrow FmtCache Fmt FmtCacheSpec.

(** ** The counters *)

Definition set_nextb (k : Z) (s : fmt) : fmt := set_counters (f_nbitblock s) k (f_nextinode s) s.

Lemma set_nextb_twice k k' s : set_nextb k (set_nextb k' s) = set_nextb k s.
Proof. done. Qed.

Lemma set_nextb_same s : set_nextb (f_nextb s) s = s.
Proof. by destruct s. Qed.

(** The cache does not know the counters. *)
Lemma cached_globals s s' m H : cached s m H -> diskfd s' = diskfd s -> cache s' = cache s ->
  clock s' = clock s -> f_nblocks s' = f_nblocks s -> cached s' m H.
Proof.
  intros C Hd Hc Ht Hn. destruct s, s'. cbn in *. subst. destruct C. by split.
Qed.

Lemma io_only_globals H s s' : io_only H s s' ->
  f_nblocks s' = f_nblocks s /\ f_ninodes s' = f_ninodes s /\ f_nbitblock s' = f_nbitblock s /\
  f_nextb s' = f_nextb s /\ f_nextinode s' = f_nextinode s /\ f_super s' = f_super s /\
  link_contents s' = link_contents s /\ hardlinks s' = hardlinks s.
Proof. intros [G _]. unfold set_io in G. by injection G. Qed.

Lemma io_only_nextb H k s s' : io_only H s s' -> io_only H (set_nextb k s) (set_nextb k s').
Proof.
  intros I. destruct (io_only_globals H s s' I) as (G1 & G2 & G3 & G4 & G5 & G6 & G7 & G8). destruct I as [_ S1].
  split; [|done]. unfold set_io, set_nextb, set_counters. cbn. congruence.
Qed.

Lemma wp_take_nextb s fu (Q : Z -> fmt -> Prop) :
  0 <= f_nextb s < 2 ^ 32 - 1 -> Q (f_nextb s) (set_nextb (f_nextb s + 1) s) -> wp take_nextb fu s Q.
Proof.
  intros Hn HQ. unfold take_nextb. apply wp_bind, wp_get, wp_bind, wp_put, wp_ret. by rewrite u32_small by lia.
Qed.

(** ** A file that grows *)

Record growing (lo : Z) (L : role -> Prop) (H : holds) (s : fmt) (m : mem) (oi : Z) : Prop := Growing {
  gw_cached : cached s m H;
  gw_tree : tree_in lo m oi L;
  (** blocks from [nextb] on are not in use *)
  gw_below : forall r, L r -> blk m oi r < f_nextb s;
  gw_next : lo <= f_nextb s <= f_nblocks s;
  gw_held : forall n ty, (n, ty) ∈ H -> 0 < n < f_nextb s;
  (** an index block is only ever held as one *)
  gw_index : forall r ty, L r -> is_index r -> (blk m oi r, ty) ∈ H -> ty = BLOCK_BITS
}.

(** The bytes of the blocks from [a] to [b - 1]. *)
Definition blocks_between (a b : Z) : Z -> Prop := within (1024 * a) (1024 * b).

Lemma nextb_bound lo L H s m oi : growing lo L H s m oi -> 3 < lo /\ f_nextb s <= 8192.
Proof.
  intros G. destruct (tr_inode _ _ _ (gw_tree _ _ _ _ _ _ G)). pose proof (gw_next _ _ _ _ _ _ G).
  pose proof (ca_nblocks _ _ _ (gw_cached _ _ _ _ _ _ G)). lia.
Qed.

(** Where an index word that is about to be read or written is: offset [o] of a
    held block. *)
Definition at_slot (H : holds) (s : fmt) (m : mem) (oi : Z) (r : role) (j : nat) (o : Z) : Prop :=
  exists p ty, (p, ty) ∈ H /\ in_slot s j p /\ 0 <= o /\ o + 4 <= 1024 /\ 1024 * p + o = slot m oi r.

(** The word of a role that is not attached is 0. *)
Lemma unattached lo m oi L r : tree_in lo m oi L -> is_index r -> attachable L r -> ~ L r -> blk m oi r = 0.
Proof.
  intros T Hi [Hv Hp] Hr. destruct r as [i| | |j]; [done|by apply T|by apply T|].
  by apply (tr_zero _ _ _ T (RL1 j) RInd2).
Qed.

(** What lies from [nextb] on is no part of the tree. *)
Lemma below_tree_area lo L H s m oi a : growing lo L H s m oi -> 1024 * f_nextb s <= a -> ~ tree_area m oi L a.
Proof.
  intros G Ha. pose proof (tr_inode _ _ _ (gw_tree _ _ _ _ _ _ G)). pose proof (gw_next _ _ _ _ _ _ G).
  intros [Hin|(q & Hq & _ & Hb)].
  - unfold inode_slots, within in Hin. lia.
  - pose proof (gw_below _ _ _ _ _ _ G q Hq). unfold in_block, within in Hb. lia.
Qed.

(** A block that is taken from [nextb], cleared, and recorded in a slot. *)
Lemma attach_next lo L H s m oi r b :
  growing lo L H s m oi -> attachable L r -> ~ L r -> b = f_nextb s ->
  let m1 := memset m (1024 * b) 0 1024 in
  let m2 := st32 m1 (slot m oi r) b in
  tree_in lo m2 oi (fun r' => r' = r \/ L r') /\ blk m2 oi r = b /\ (forall r', L r' -> blk m2 oi r' = blk m oi r') /\
  changes (fun a => word_at (slot m oi r) a \/ blocks_between b (b + 1) a) m m2.
Proof.
  intros G Ha Hr -> m1 m2. destruct (nextb_bound _ _ _ _ _ _ G). pose proof (gw_next _ _ _ _ _ _ G).
  assert (Hch : changes (blocks_between (f_nextb s) (f_nextb s + 1)) m m1).
  { intros a Hn. apply ld8_memset_out. unfold blocks_between, within in Hn. lia. }
  destruct (tree_in_frame m oi L (gw_tree _ _ _ _ _ _ G) _ m1 Hch) as (T1 & Hk1).
  { intros a Hta Hb. eapply (below_tree_area _ _ _ _ _ _ a G); [|done]. unfold blocks_between, within in Hb. lia. }
  assert (Hsl : slot m1 oi r = slot m oi r) by by apply Hk1.
  assert (Hb1 : forall r', L r' -> blk m1 oi r' = blk m oi r').
  { intros r' Hr'. apply Hk1. by apply (attachable_member m oi L (gw_tree _ _ _ _ _ _ G)). }
  destruct (tree_in_attach m1 oi L T1 r (f_nextb s)) as (T2 & Hbr & Hk2); [done|done|lia|..].
  { intros r' Hr'. rewrite Hb1 by done. pose proof (gw_below _ _ _ _ _ _ G r' Hr'). lia. }
  { intros _ a _ Hb. apply ld8_memset_in. unfold in_block, within in Hb. lia. }
  rewrite Hsl in *. fold m2 in T2, Hbr, Hk2. split; [done|]. split; [done|]. split.
  - intros r' Hr'. by rewrite Hk2, Hb1.
  - intros a Hn. unfold m2. rewrite ld8_st32_ne by (unfold word_at, within in Hn; lia). apply Hch. tauto.
Qed.

Section GetIndirect.
Context (lo : Z) (L : role -> Prop) {L_dec : forall r, Decision (L r)} (H : holds) (s : fmt) (m : mem) (oi : Z).
Context (G : growing lo L H s m oi) (r : role) (j : nat) (o : Z).
Context (Hfew : (length H < 16)%nat) (Hidx : is_index r) (Hatt : attachable L r) (Hat : at_slot H s m oi r j o).

(** One block more if the role is not there yet. *)
Definition extra : Z := if decide (L r) then 0 else 1.

(** What an index block that is there, or has just been made, comes with. *)
Record indexed (i : nat) (s' : fmt) (m' : mem) : Prop := Indexed {
  ix_growing : growing lo (fun r' => r' = r \/ L r') ((blk m' oi r, BLOCK_BITS) :: H) s' m' oi;
  ix_slot : in_slot s' i (blk m' oi r);
  ix_io : io_only H (set_nextb (f_nextb s + extra) s) s';
  ix_keep : forall r', L r' -> blk m' oi r' = blk m oi r';
  ix_new : ~ L r -> blk m' oi r = f_nextb s;
  ix_changes : changes (fun a => word_at (slot m oi r) a \/ blocks_between (f_nextb s) (f_nextb s + extra) a) m m'
}.

Lemma wp_get_indirect_old fu (Q : nat -> fmt -> Prop) : L r ->
  (forall i s' m', indexed i s' m' -> Q i s') -> wp (get_indirect (blk m oi r) (u_store32 j o)) fu s Q.
Proof.
  intros Hr HQ. pose proof (tr_range _ _ _ (gw_tree _ _ _ _ _ _ G) r Hr) as Hb. destruct (nextb_bound _ _ _ _ _ _ G).
  pose proof (gw_below _ _ _ _ _ _ G r Hr). pose proof (gw_next _ _ _ _ _ _ G).
  unfold get_indirect. rewrite (proj2 (Z.eqb_neq _ _)) by lia.
  apply (wp_getblk s m H (gw_cached _ _ _ _ _ _ G)); [done|lia| |].
  { intros ty Hty. by apply (gw_index _ _ _ _ _ _ G r). }
  intros i s' C' Hin Hio. destruct (io_only_globals _ _ _ Hio) as (E1 & _ & _ & E4 & _).
  apply (HQ i s' m). split; try done.
  - split; [done| | | | |].
    + eapply tree_in_iff, G. intros r'. cbn. naive_solver.
    + intros r' [->|Hr']; rewrite E4; by apply G.
    + rewrite E1, E4. apply G.
    + intros n ty [[= -> ->]|Hn]%elem_of_cons; rewrite E4; [lia|by eapply G].
    + intros r' ty Hr' Hi [[= _ ->]|Hn]%elem_of_cons; [done|].
      destruct Hr' as [->|Hr']; [by apply (gw_index _ _ _ _ _ _ G r)|by apply (gw_index _ _ _ _ _ _ G r')].
  - unfold extra. rewrite decide_True by done. by rewrite Z.add_0_r, set_nextb_same.
Qed.

Lemma wp_get_indirect_new fu (Q : nat -> fmt -> Prop) : ~ L r -> f_nextb s < f_nblocks s ->
  (forall i s' m', indexed i s' m' -> Q i s') -> wp (get_indirect (blk m oi r) (u_store32 j o)) fu s Q.
Proof.
  intros Hr Hroom HQ. destruct (nextb_bound _ _ _ _ _ _ G). pose proof (gw_next _ _ _ _ _ _ G).
  unfold get_indirect. rewrite (unattached lo m oi L r (gw_tree _ _ _ _ _ _ G)) by done. cbn [Z.eqb].
  apply wp_bind, wp_take_nextb; [lia|]. set (b := f_nextb s). set (s1 := set_nextb (b + 1) s).
  assert (C1 : cached s1 m H) by by apply (cached_globals s s1 m H (gw_cached _ _ _ _ _ _ G)).
  apply wp_bind, (wp_getblk s1 m H C1); [done|cbn; lia| |].
  { intros ty Hty. destruct (gw_held _ _ _ _ _ _ G b ty Hty). lia. }
  intros i s2 C2 Hin2 Hio2. cbn [cleared] in C2. pose proof Hin2 as (c & Hc & _ & Hcb).
  eapply wp_bind, wp_slot_at; [done|]. rewrite Hcb.
  destruct Hat as (p & ty & Hp & Hj & Ho & Ho' & Haddr).
  apply wp_bind, (wp_u_store32 s2 _ _ C2 j p); [by apply (io_slots _ _ _ Hio2 j p ty)|done|done|].
  intros s3 C3 Hio3 Hj3. apply wp_ret. rewrite Haddr in C3.
  destruct (attach_next lo L H s m oi r b G Hatt Hr eq_refl) as (T & Hbr & Hkeep & Hch).
  set (m2 := st32 (memset m (1024 * b) 0 1024) (slot m oi r) b) in *. clearbody m2.
  assert (Hio : io_only H s1 s3).
  { eapply io_only_trans; [done|]. eapply io_only_sub, Hio3. intros n t Hn. exists t. by right. }
  destruct (io_only_globals _ _ _ Hio) as (E1 & _ & _ & E4 & _). cbn in E1, E4.
  assert (Hex : extra = 1) by (unfold extra; by rewrite decide_False).
  apply (HQ i s3 m2). split; rewrite ?Hbr, ?Hex; try done.
  - split; rewrite ?E1, ?E4; [done|done| |lia| |].
    + intros r' [->|Hr']; [lia|]. rewrite Hkeep by done. pose proof (gw_below _ _ _ _ _ _ G r' Hr'). lia.
    + intros n t [[= -> ->]|Hn]%elem_of_cons; [lia|]. pose proof (gw_held _ _ _ _ _ _ G n t Hn). lia.
    + intros r' t Hr' Hi Hn. apply elem_of_cons in Hn as [[= _ ->]|Hn]; [done|].
      destruct Hr' as [->|Hr']; [|rewrite Hkeep in Hn by done; by apply (gw_index _ _ _ _ _ _ G r')].
      rewrite Hbr in Hn. pose proof (gw_held _ _ _ _ _ _ G b t Hn). lia.
  - apply (io_slots _ _ _ Hio3 i b BLOCK_BITS); [by left|done].
Qed.

Lemma wp_get_indirect fu (Q : nat -> fmt -> Prop) : f_nextb s + extra <= f_nblocks s ->
  (forall i s' m', indexed i s' m' -> Q i s') -> wp (get_indirect (blk m oi r) (u_store32 j o)) fu s Q.
Proof.
  unfold extra at 1. intros Hroom HQ. destruct (decide (L r)); [by apply wp_get_indirect_old|].
  apply wp_get_indirect_new; [done|lia|done].
Qed.
End GetIndirect.

(** ** storeblk *)

(** The index blocks that a file of [n] blocks needs for one more. *)
Definition index_blocks (n : Z) : Z :=
  if n <? 10 then 0
  else if n <? 266 then (if n =? 10 then 1 else 0)
  else if n =? 266 then 2 else if (n - 266) mod 256 =? 0 then 1 else 0.

Lemma index_blocks_nonneg n : 0 <= index_blocks n.
Proof. unfold index_blocks. zcases. Qed.

#[export] Instance live_dec n r : Decision (live n r).
Proof. destruct r; cbn; apply _. Defined.

Lemma growing_iff lo (L L' : role -> Prop) H s m oi : (forall r, L r <-> L' r) ->
  growing lo L H s m oi -> growing lo L' H s m oi.
Proof.
  intros HL [C T B N E I]. split; try done.
  - by eapply tree_in_iff, T.
  - intros r Hr. apply B. by apply HL.
  - intros r ty Hr. apply I. by apply HL.
Qed.

Lemma growing_put lo L H s m oi b ty s' :
  growing lo L ((b, ty) :: H) s m oi -> cached s' m H -> io_only H s s' -> growing lo L H s' m oi.
Proof.
  intros G C Hio. destruct (io_only_globals _ _ _ Hio) as (E1 & _ & _ & E4 & _).
  split; rewrite ?E1, ?E4; [done|apply G..| |].
  - intros n t Hn. eapply (gw_held _ _ _ _ _ _ G). by right.
  - intros r t Hr Hi Hn. apply (gw_index _ _ _ _ _ _ G r); [done|done|by right].
Qed.

(** A data block is recorded in the slot of its role. *)
Lemma wp_store_data lo L H s m oi n bn j o fu (Q : unit -> fmt -> Prop) :
  growing lo L H s m oi -> attachable L (RData n) -> ~ L (RData n) -> lo <= bn < f_nextb s ->
  (forall r, L r -> blk m oi r <> bn) -> at_slot H s m oi (RData n) j o ->
  (forall s' m', growing lo (fun r => r = RData n \/ L r) H s' m' oi -> io_only H s s' ->
     blk m' oi (RData n) = bn -> (forall r, L r -> blk m' oi r = blk m oi r) ->
     changes (word_at (slot m oi (RData n))) m m' -> Q tt s') ->
  wp (u_store32 j o bn) fu s Q.
Proof.
  intros G Ha Hr Hbn Hnew (p & ty & Hp & Hj & Ho & Ho' & Haddr) HQ.
  destruct (nextb_bound _ _ _ _ _ _ G).
  apply (wp_u_store32 s m H (gw_cached _ _ _ _ _ _ G) j p); [done..|].
  intros s' C' Hio _. rewrite Haddr in C'. destruct (io_only_globals _ _ _ Hio) as (E1 & _ & _ & E4 & _).
  destruct (tree_in_attach m oi L (gw_tree _ _ _ _ _ _ G) (RData n) bn) as (T & Hb & Hk); [done|done|lia|done|..].
  { intros r' a Hpr. by apply parent_index in Hpr. }
  apply (HQ s' (st32 m (slot m oi (RData n)) bn)); [|done|done|done|by apply changes_st32].
  split; rewrite ?E1, ?E4; [done|done| |apply G|apply G|].
  - intros r [->|Hr']; [lia|]. rewrite Hk by done. by apply G.
  - intros r t [->|Hr'] Hi; [done|]. rewrite Hk by done. by apply (gw_index _ _ _ _ _ _ G).
Qed.

Lemma extra_ind2 n : 266 <= n ->
  extra (live n) RInd2 + extra (fun r => r = RInd2 \/ live n r) (RL1 ((n - 266) / 256)) = index_blocks n.
Proof.
  intros Hn. unfold index_blocks, extra. rewrite (proj2 (Z.ltb_ge n 10)), (proj2 (Z.ltb_ge n 266)) by lia.
  pose proof (Z.div_mod (n - 266) 256 ltac:(lia)) as Hd. pose proof (Z.mod_pos_bound (n - 266) 256 ltac:(lia)) as Hm.
  revert Hd Hm. generalize ((n - 266) / 256), ((n - 266) mod 256). intros q r Hd Hm. cbn [live].
  destruct (Z.eqb_spec n 266), (Z.eqb_spec r 0); case_decide; case_decide as Hc; try lia.
  all: try (destruct Hc as [Hc|Hc]; [done|lia]). all: exfalso; apply Hc; right; lia.
Qed.

Lemma live_next n r : 266 <= n ->
  (r = RData n \/ r = RL1 ((n - 266) / 256) \/ r = RInd2 \/ live n r) <-> live (n + 1) r.
Proof.
  intros Hn. pose proof (Z.div_mod (n - 266) 256 ltac:(lia)). pose proof (Z.mod_pos_bound (n - 266) 256 ltac:(lia)).
  destruct r as [i| | |j]; cbn; rewrite !role_eq; lia.
Qed.

Record stored_block (lo : Z) (H : holds) (s : fmt) (m : mem) (oi n bn : Z) (s' : fmt) (m' : mem) : Prop := StoredBlock {
  sb_growing : growing lo (live (n + 1)) H s' m' oi;
  sb_io : io_only H (set_nextb (f_nextb s + index_blocks n) s) s';
  sb_new : blk m' oi (RData n) = bn;
  sb_keep : forall r, live n r -> blk m' oi r = blk m oi r;
  sb_fresh : forall r, live (n + 1) r -> ~ live n r -> r = RData n \/ f_nextb s <= blk m' oi r;
  sb_changes : changes (fun a => tree_area m oi (live n) a \/
    blocks_between (f_nextb s) (f_nextb s + index_blocks n) a) m m'
}.

(** The head of the inode (size, type, links, mode) is not touched. *)
Lemma stored_block_head lo H s m oi n bn s' m' a : growing lo (live n) H s m oi ->
  stored_block lo H s m oi n bn s' m' -> within oi (oi + 16) a -> ld8 m' a = ld8 m a.
Proof.
  intros G S Ha. pose proof (tr_inode _ _ _ (gw_tree _ _ _ _ _ _ G)). pose proof (gw_next _ _ _ _ _ _ G).
  apply (sb_changes _ _ _ _ _ _ _ _ _ S). unfold within in Ha. intros [[Hi|(q & Hq & _ & Hb)]|Hb].
  - unfold inode_slots, within in Hi. lia.
  - pose proof (tr_range _ _ _ (gw_tree _ _ _ _ _ _ G) q Hq). unfold in_block, within in Hb. lia.
  - unfold blocks_between, within in Hb. lia.
Qed.

Section Storeblk.
Context (lo : Z) (H : holds) (s : fmt) (m : mem) (n : Z) (nb off : Z) (i b : nat) (bn : Z) (tyb : block_type).
Let oi : Z := 1024 * nb + off.
Context (G : growing lo (live n) H s m oi) (Hn : 0 <= n < OSPFS_MAXFILEBLKS) (Hfew : (length H < 15)%nat).
Context (Hi : in_slot s i nb) (Hnb : (nb, BLOCK_INODES) ∈ H) (Hoff : 0 <= off /\ off + 64 <= 1024).
Context (Hb : in_slot s b bn) (Hbn : lo <= bn < f_nextb s) (Hnew : forall r, live n r -> blk m oi r <> bn).
Context (Hroom : f_nextb s + index_blocks n <= f_nblocks s).

Lemma storeblk_direct fu (Q : unit -> fmt -> Prop) : n < 10 ->
  (forall s' m', stored_block lo H s m oi n bn s' m' -> Q tt s') ->
  wp (u_store32 i (oi_direct off n) bn) fu s Q.
Proof.
  intros Hlt HQ. assert (Hidx : index_blocks n = 0) by (unfold index_blocks; zcases; done).
  assert (Ha : attachable (live n) (RData n)) by (split; [done|cbn; by rewrite (proj2 (Z.ltb_lt _ _))]).
  apply (wp_store_data lo (live n) H s m oi n); [done|done|cbn; lia|done|done|..].
  { exists nb, BLOCK_INODES. rewrite slot_direct by lia. unfold oi_direct, oi. repeat (split; [done || lia|]). lia. }
  intros s' m' G' Hio Hbk Hk Hch. apply (HQ s' m'). split; try done.
  - eapply growing_iff, G'. intros r. live_cases r.
  - by rewrite Hidx, Z.add_0_r, set_nextb_same.
  - intros r Hl Hnl. left. revert Hl Hnl. destruct r; cbn; rewrite ?role_eq; lia.
  - eapply changes_weaken; [done|]. intros a Hw. left. eapply (slot_in_area m oi _ (gw_tree _ _ _ _ _ _ G)); done.
Qed.

(** Before the block is recorded, its index block [q] was made or found, and the
    tree has the roles [L']. *)
Lemma storeblk_in_index (L' : role -> Prop) H' s' m' j q o fu (Q : unit -> fmt -> Prop) :
  growing lo L' H' s' m' oi -> in_slot s' j (blk m' oi q) -> (exists ty, (blk m' oi q, ty) ∈ H') ->
  L' q -> parent (RData n) = Some q -> offset (RData n) = o -> ~ L' (RData n) ->
  (forall r, L' r -> blk m' oi r <> bn) -> f_nextb s <= f_nextb s' ->
  (forall s2 m2, growing lo (fun r => r = RData n \/ L' r) H' s2 m2 oi -> io_only H' s' s2 ->
     blk m2 oi (RData n) = bn -> (forall r, L' r -> blk m2 oi r = blk m' oi r) ->
     changes (in_block (blk m' oi q)) m' m2 -> Q tt s2) ->
  wp (u_store32 j o bn) fu s' Q.
Proof.
  intros G' Hj (ty & Hq) Hlq Hp <- Hl Hne Hle HQ.
  assert (Ha : attachable L' (RData n)) by (split; [done|by rewrite Hp]).
  assert (Hv : valid (RData n)) by done. pose proof (offset_block _ _ Hv Hp) as [Ho Ho'].
  assert (Hs : slot m' oi (RData n) = 1024 * blk m' oi q + offset (RData n)).
  { rewrite slot_unfold, Hp. by rewrite (block_of m' oi L' (gw_tree _ _ _ _ _ _ G')). }
  apply (wp_store_data lo L' H' s' m' oi n); [done|done|done|lia|done|..].
  { exists (blk m' oi q), ty. by rewrite Hs. }
  intros s2 m2 G2 Hio Hbk Hk Hch. apply (HQ s2 m2); [done..|].
  eapply changes_weaken; [done|]. intros a Hw. rewrite Hs in Hw. unfold word_at, in_block, within in *. lia.
Qed.

Lemma at_inode r o : parent r = None -> valid r -> offset r = o -> at_slot H s m oi r i (off + o).
Proof.
  intros Hp Hv <-. exists nb, BLOCK_INODES. rewrite slot_unfold, Hp. pose proof (offset_inode r Hv Hp).
  unfold oi. repeat (split; [done || lia|]). lia.
Qed.

(** The bytes of an index block that was there, or was made from [nextb] on. *)
Lemma index_area q b' k a : in_block b' a -> is_index q ->
  (live n q /\ b' = blk m oi q) \/ (f_nextb s <= b' < f_nextb s + k) ->
  tree_area m oi (live n) a \/ blocks_between (f_nextb s) (f_nextb s + k) a.
Proof.
  intros Ha Hq [[Hl ->]|Hb']; [left; right; by exists q|]. right. unfold blocks_between, in_block, within in *. lia.
Qed.

Lemma storeblk_indirect fu (Q : unit -> fmt -> Prop) : 10 <= n < 266 ->
  (forall s' m', stored_block lo H s m oi n bn s' m' -> Q tt s') ->
  wp (indirect ← u_load32 i (oi_indirect off);
      bindir ← get_indirect indirect (u_store32 i (oi_indirect off));
      u_store32 bindir (4 * (n - OSPFS_NDIRECT)) bn;;
      putblk bindir) fu s Q.
Proof.
  intros Hr HQ. pose proof (gw_tree _ _ _ _ _ _ G) as T.
  apply wp_bind, (wp_u_load32 s m H (gw_cached _ _ _ _ _ _ G) i nb); [done|unfold oi_indirect; lia..|].
  replace (ld32 m (1024 * nb + oi_indirect off)) with (blk m oi RInd).
  2:{ rewrite blk_ind. unfold oi_indirect, oi. f_equal. lia. }
  assert (Hex : extra (live n) RInd = index_blocks n).
  { unfold extra, index_blocks. cbn [live]. case_decide; zcases; done. }
  apply wp_bind, (wp_get_indirect lo (live n) H s m oi G RInd i); [lia|done|done|by apply (at_inode RInd 56)|lia|].
  intros j s1 m1 [G1 Hj Hio1 Hk1 Hn1 Hc1]. rewrite Hex in *.
  destruct (io_only_globals _ _ _ Hio1) as (E1 & _ & _ & E4 & _). cbn in E1, E4.
  assert (Hne1 : forall r, r = RInd \/ live n r -> blk m1 oi r <> bn).
  { intros r Hr'. destruct (decide (live n r)) as [Hl|Hl]; [rewrite Hk1 by done; by apply Hnew|].
    destruct Hr' as [->|]; [|done]. rewrite Hn1 by done. lia. }
  apply wp_bind, (storeblk_in_index _ _ s1 m1 j RInd _ _ _ G1); try done.
  { exists BLOCK_BITS. by left. }
  { by left. }
  { cbn. zcases. done. }
  { cbn. zcases. done. }
  { intros [?|Hl]; [done|]. cbn in Hl. lia. }
  { pose proof (index_blocks_nonneg n). lia. }
  intros s2 m2 G2 Hio2 Hbk Hk2 Hc2.
  assert (Hj2 : in_slot s2 j (blk m1 oi RInd)) by (apply (io_slots _ _ _ Hio2 j _ BLOCK_BITS); [by left|done]).
  eapply (wp_putblk s2 m2 H j _ _ _ _ (gw_cached _ _ _ _ _ _ G2) Hj2).
  intros s3 C3 Hio3. apply (HQ s3 m2).
  assert (Hio : io_only H (set_nextb (f_nextb s + index_blocks n) s) s3).
  { eapply io_only_trans; [done|]. eapply io_only_trans; [|done].
    eapply io_only_sub, Hio2. intros k t Hkt. exists t. by right. }
  split; [|done|done| | |].
  - eapply growing_iff; [|by eapply growing_put]. intros r. live_cases r.
  - intros r Hl. rewrite Hk2 by by right. by apply Hk1.
  - intros r Hl Hnl. destruct (decide (r = RInd)) as [->|Hne]; [right; rewrite Hk2, Hn1 by (done || by left); lia|left].
    revert Hl Hnl Hne. destruct r; cbn; rewrite ?role_eq; lia.
  - eapply changes_trans; [eapply changes_weaken; [done|]|eapply changes_weaken; [done|]]; cbn.
    + intros a [Hw|Hb']; [left|by right]. by eapply (slot_in_area m oi _ T RInd).
    + intros a Hw. apply (index_area RInd (blk m1 oi RInd)); [done|done|].
      rewrite <- Hex. unfold extra. case_decide as Hl; [left; by rewrite Hk1|right; rewrite Hn1 by done; lia].
Qed.

(** Under oi_indirect2: its block was made or found ([s1]), then the indirect block
    under it ([s2]), then the data block was recorded ([s3]). *)
Section UnderInd2.
Context (s1 s2 s3 : fmt) (m1 m2 m3 : mem) (i2 j : nat) (Hr : 266 <= n).
Let q : Z := (n - 266) / 256.
Let L1 : role -> Prop := fun r => r = RInd2 \/ live n r.
Context (I1 : indexed lo (live n) H s m oi RInd2 i2 s1 m1).
Let H1 : holds := (blk m1 oi RInd2, BLOCK_BITS) :: H.
Context (I2 : indexed lo L1 H1 s1 m1 oi (RL1 q) j s2 m2).
Let H2 : holds := (blk m2 oi (RL1 q), BLOCK_BITS) :: H1.

Lemma ind2_slot : slot m1 oi (RL1 q) = 1024 * blk m1 oi RInd2 + 4 * q.
Proof.
  rewrite slot_unfold. cbn [parent offset].
  rewrite (block_of m1 oi L1 (gw_tree _ _ _ _ _ _ (ix_growing _ _ _ _ _ _ _ _ _ _ I1))); [done|by left].
Qed.

Lemma ind2_io s5 : io_only H2 s2 s3 -> io_only H1 s3 s5 -> io_only H (set_nextb (f_nextb s + index_blocks n) s) s5.
Proof.
  intros Hio3 Hio5.
  assert (Hsub : forall h k ty, (k, ty) ∈ H -> exists ty', (k, ty') ∈ h :: H) by (intros h k ty Hk; exists ty; by right).
  pose proof (ix_io _ _ _ _ _ _ _ _ _ _ I1) as Hio1. destruct (io_only_globals _ _ _ Hio1) as (_ & _ & _ & E4 & _).
  cbn in E4. eapply io_only_trans; [|eapply io_only_sub, Hio5; apply Hsub].
  eapply io_only_trans; [|eapply io_only_sub, Hio3; intros k ty Hk; exists ty; by do 2 right].
  eapply io_only_trans; [|eapply io_only_sub, (ix_io _ _ _ _ _ _ _ _ _ _ I2); apply Hsub].
  rewrite <- (extra_ind2 n Hr), Z.add_assoc, <- E4, <- (set_nextb_twice _ (f_nextb s1) s). apply io_only_nextb. by rewrite E4.
Qed.

Lemma ind2_blocks r : r = RL1 q \/ L1 r -> blk m2 oi r <> bn.
Proof.
  intros Hr'. destruct I1 as [_ _ Hio1 Hk1 Hn1 _], I2 as [_ _ _ Hk2 Hn2 _].
  destruct (io_only_globals _ _ _ Hio1) as (_ & _ & _ & E4 & _). cbn in E4.
  assert (He : 0 <= extra (live n) RInd2) by (unfold extra; by case_decide).
  destruct (decide (live n r)) as [Hl|Hl]; [rewrite Hk2, Hk1 by (done || by right); by apply Hnew|].
  destruct (decide (L1 r)) as [Hl1|Hl1].
  - rewrite Hk2 by done. destruct Hl1 as [->|]; [|done]. rewrite Hn1 by done. lia.
  - destruct Hr' as [->|]; [|done]. rewrite Hn2 by done. lia.
Qed.

Lemma ind2_fresh r : (forall r', r' = RL1 q \/ L1 r' -> blk m3 oi r' = blk m2 oi r') ->
  live (n + 1) r -> ~ live n r -> r = RData n \/ f_nextb s <= blk m3 oi r.
Proof.
  intros Hk3 Hl Hnl. destruct I1 as [_ _ Hio1 Hk1 Hn1 _], I2 as [_ _ _ Hk2 Hn2 _].
  destruct (io_only_globals _ _ _ Hio1) as (_ & _ & _ & E4 & _). cbn in E4.
  assert (He1 : 0 <= extra (live n) RInd2) by (unfold extra; by case_decide).
  apply live_next in Hl; [|done]. destruct Hl as [->|[->|[->|Hl]]]; [by left|right|right|done].
  - fold q in Hnl |- *. rewrite Hk3, Hn2; [lia| |by left]. by intros [?|?].
  - rewrite Hk3, Hk2, Hn1; [lia|done|by left|right; by left].
Qed.

Lemma ind2_changes : changes (in_block (blk m2 oi (RL1 q))) m2 m3 ->
  changes (fun a => tree_area m oi (live n) a \/ blocks_between (f_nextb s) (f_nextb s + index_blocks n) a) m m3.
Proof.
  intros Hc3. destruct I1 as [_ _ Hio1 Hk1 Hn1 Hc1], I2 as [_ _ _ Hk2 Hn2 Hc2].
  destruct (io_only_globals _ _ _ Hio1) as (_ & _ & _ & E4 & _). cbn in E4. pose proof (extra_ind2 n Hr) as Hex.
  assert (He1 : 0 <= extra (live n) RInd2) by (unfold extra; by case_decide).
  assert (He2 : 0 <= extra L1 (RL1 q)) by (unfold extra; by case_decide).
  fold q L1 in Hex. pose proof (gw_tree _ _ _ _ _ _ G) as T.
  assert (Ha1 : forall a, in_block (blk m1 oi RInd2) a -> tree_area m oi (live n) a \/
    blocks_between (f_nextb s) (f_nextb s + index_blocks n) a).
  { intros a Hw. apply (index_area RInd2 (blk m1 oi RInd2)); [done|done|]. rewrite <- Hex. unfold extra at 1.
    case_decide as Hl; [left; by rewrite Hk1|right; rewrite Hn1 by done; lia]. }
  eapply changes_trans; [eapply changes_weaken; [exact Hc1|]|eapply changes_trans;
    [eapply changes_weaken; [exact Hc2|]|eapply changes_weaken; [exact Hc3|]]]; cbv beta.
  - intros a [Hw|Hb']; [left; by eapply (slot_in_area m oi _ T RInd2)|right]. unfold blocks_between, within in *. lia.
  - intros a [Hw|Hb']; [apply Ha1|right; unfold blocks_between, within in *; lia].
    rewrite ind2_slot in Hw. assert (0 <= q < 256) by (unfold q; ospfs_consts; divlia).
    unfold word_at, in_block, within in *. lia.
  - intros a Hw. apply (index_area (RL1 q) (blk m2 oi (RL1 q))); [done|done|].
    destruct (decide (live n (RL1 q))) as [Hl|Hl]; [left; rewrite Hk2, Hk1 by (done || by right); done|right].
    assert (HnL : ~ L1 (RL1 q)) by by intros [?|?]. rewrite Hn2 by done. revert Hex. unfold extra at 2.
    rewrite decide_False by done. lia.
Qed.
End UnderInd2.

Lemma storeblk_under_ind2 s1 m1 i2 fu (Q : unit -> fmt -> Prop) : 266 <= n ->
  indexed lo (live n) H s m oi RInd2 i2 s1 m1 ->
  (forall s' m', stored_block lo H s m oi n bn s' m' -> Q tt s') ->
  wp (indirect ← u_load32 i2 (4 * ((n - 266) / 256));
      bindir ← get_indirect indirect (u_store32 i2 (4 * ((n - 266) / 256)));
      u_store32 bindir (4 * ((n - 266) mod 256)) bn;;
      putblk bindir;;
      putblk i2) fu s1 Q.
Proof.
  intros Hr I1 HQ. pose proof I1 as [G1 Hi2 Hio1 Hk1 _ _].
  destruct (io_only_globals _ _ _ Hio1) as (E1 & _ & _ & E4 & _). cbn in E1, E4.
  pose proof (ind2_slot s1 m1 i2 I1) as Hslot. pose proof (extra_ind2 n Hr) as Hex. pose proof (index_blocks_nonneg n).
  assert (Hq : 0 <= (n - 266) / 256 < 256) by (ospfs_consts; divlia). set (q := (n - 266) / 256) in *.
  apply wp_bind, (wp_u_load32 s1 m1 _ (gw_cached _ _ _ _ _ _ G1) i2 (blk m1 oi RInd2)); [done|lia..|].
  rewrite <- Hslot. fold (blk m1 oi (RL1 q)).
  apply wp_bind, (wp_get_indirect lo (fun r => r = RInd2 \/ live n r) _ s1 m1 oi G1 (RL1 q) i2 (4 * q)); [cbn; lia|done|..].
  { split; [done|]. by left. }
  { exists (blk m1 oi RInd2), BLOCK_BITS. rewrite Hslot. repeat (split; [done || lia || by left|]). done. }
  { lia. }
  intros j s2 m2 I2. pose proof I2 as [G2 Hj Hio2 Hk2 _ _].
  destruct (io_only_globals _ _ _ Hio2) as (F1 & _ & _ & F4 & _). cbn in F1, F4.
  apply wp_bind, (storeblk_in_index _ _ s2 m2 j (RL1 q) _ _ _ G2); try done.
  { exists BLOCK_BITS. by left. }
  { by left. }
  { by (cbn; zcases). }
  { by (cbn; zcases). }
  { intros [?|[?|Hl]]; [done..|]. cbn in Hl. lia. }
  { apply (ind2_blocks s1 s2 m1 m2 i2 j I1 I2). }
  { lia. }
  intros s3 m3 G3 Hio3 Hbk Hk3 Hc3.
  assert (Hj3 : in_slot s3 j (blk m2 oi (RL1 q))) by (apply (io_slots _ _ _ Hio3 j _ BLOCK_BITS); [by left|done]).
  eapply wp_bind, (wp_putblk s3 m3 _ j _ _ _ _ (gw_cached _ _ _ _ _ _ G3) Hj3). intros s4 C4 Hio4.
  assert (Hi4 : in_slot s4 i2 (blk m1 oi RInd2)).
  { apply (io_slots _ _ _ Hio4 i2 _ BLOCK_BITS); [by left|]. apply (io_slots _ _ _ Hio3 i2 _ BLOCK_BITS); [by right; left|].
    apply (io_slots _ _ _ Hio2 i2 _ BLOCK_BITS); [by left|done]. }
  eapply (wp_putblk s4 m3 H i2 _ _ _ _ C4 Hi4). intros s5 C5 Hio5. apply (HQ s5 m3). split; [| |done| | |].
  - eapply growing_iff; [|eapply growing_put, Hio5; [eapply growing_put, Hio4|]; done]. intros r. by apply live_next.
  - eapply io_only_trans, Hio5. eapply io_only_sub, (ind2_io s1 s2 s3 m1 m2 i2 j Hr I1 I2 s4 Hio3 Hio4).
    intros k ty Hk. by exists ty.
  - intros r Hl. rewrite Hk3, Hk2, Hk1; [done|done|by right|by do 2 right].
  - intros r. apply (ind2_fresh s1 s2 m1 m2 m3 i2 j Hr I1 I2). intros r' Hr'. by apply Hk3.
  - by apply (ind2_changes s1 s2 m1 m2 m3 i2 j Hr I1 I2).
Qed.

(** The rule of [storeblk]. *)
Lemma wp_storeblk fu (Q : unit -> fmt -> Prop) :
  (forall s' m', stored_block lo H s m oi n bn s' m' -> Q tt s') -> wp (storeblk (i, off) b n) fu s Q.
Proof.
  intros HQ. unfold storeblk. pose proof Hb as (c & Hc & _ & Hcb). eapply wp_bind, wp_slot_at; [done|]. rewrite Hcb.
  cbn [fst snd]. assert (HN : OSPFS_MAXFILEBLKS = 65802) by done. change OSPFS_NDIRECT with 10.
  change (10 + OSPFS_NINDIRECT) with 266. change OSPFS_NINDIRECT with 256.
  destruct (Z.ltb_spec n 10); [by apply storeblk_direct|].
  destruct (Z.ltb_spec n 266); [by apply storeblk_indirect|]. rewrite (proj2 (Z.ltb_lt n _)) by lia.
  pose proof (gw_tree _ _ _ _ _ _ G) as T.
  apply wp_bind, (wp_u_load32 s m H (gw_cached _ _ _ _ _ _ G) i nb); [done|unfold oi_indirect2; lia..|].
  replace (ld32 m (1024 * nb + oi_indirect2 off)) with (blk m oi RInd2).
  2:{ rewrite blk_ind2. unfold oi_indirect2, oi. f_equal. lia. }
  pose proof (extra_ind2 n) as Hex.
  assert (0 <= extra (fun r => r = RInd2 \/ live n r) (RL1 ((n - 266) / 256))) by (unfold extra; by case_decide).
  apply wp_bind, (wp_get_indirect lo (live n) H s m oi G RInd2 i); [lia|done|done|by apply (at_inode RInd2 60)|lia|].
  intros i2 s1 m1 I1. by apply (storeblk_under_ind2 s1 m1 i2).
Qed.
End Storeblk.
