(* ===== verification/FmtFile.v ===== *)
(** * ospfsformat: the blocks of a file

    [readn] fills a block whatever the sizes of the single [read]s, and the loop
    of [writefile] ([copy_blocks]) makes a file of the image whose bytes are
    those of the host's file. *)

From S2P Require Import Prelude CMemory OspfsLayout OspfsAlloc OspfsTree OspfsWork OspfsGrow OspfsShrink OspfsSize FmtCache Fmt FmtCacheSpec FmtStore.

Lemma st_bytes_app m a l1 l2 : st_bytes (st_bytes m a l1) (a + Z.of_nat (length l1)) l2 = st_bytes m a (l1 ++ l2).
Proof.
  revert m a. induction l1 as [|x l1 IH]; intros m a; cbn; [by rewrite Z.add_0_r|].
  rewrite <- IH. f_equal. lia.
Qed.

(** ** Reading *)

(** A file whose next reads succeed. *)
Definition readable (f : hostfd) : Prop := Forall (fun c => 0 <= c) (chunks f).

(** A [read] that succeeds returns at least one byte, unless the file is at its
    end. *)
Lemma read_spec n f : readable f -> 0 < n ->
  exists k f', read n f = (Z.of_nat k, take k (left f), f') /\ readable f' /\ left f' = drop k (left f) /\
    Z.of_nat k <= n /\ (k <= length (left f))%nat /\ (k = 0%nat -> left f = []).
Proof.
  intros Hf Hn. unfold read, readable in *. destruct (chunks f) as [|c cs] eqn:E.
  - exists (Z.to_nat (Z.min n (Z.of_nat (length (left f))))). eexists. rewrite Z2Nat.id by lia.
    split; [done|]. repeat (split; [done || lia|]). intros H. destruct (left f); [done|]. cbn in H. lia.
  - apply Forall_cons in Hf as [Hc Hf]. rewrite (proj2 (Z.ltb_ge c 0)) by lia.
    exists (Z.to_nat (Z.min (Z.max 1 c) (Z.min n (Z.of_nat (length (left f)))))). eexists. rewrite Z2Nat.id by lia.
    split; [done|]. repeat (split; [done || lia|]). intros H. destruct (left f); [done|]. cbn in H. lia.
Qed.

(** The rule of [readn]: the block starts with the next [n] bytes of the file, or
    with all that are left. *)
Lemma wp_readn s m H i nb n f fu (Q : Z * hostfd -> fmt -> Prop) :
  cached s m H -> in_slot s i nb -> (exists ty, (nb, ty) ∈ H) -> readable f -> 0 < n <= 1024 -> (Z.to_nat n + 1 < fu)%nat ->
  (forall s' f', let l := take (Z.to_nat n) (left f) in
     cached s' (st_bytes m (1024 * nb) l) H -> io_only H s s' -> readable f' -> left f' = drop (Z.to_nat n) (left f) ->
     Q (Z.of_nat (length l), f') s') ->
  wp (readn i n f) fu s Q.
Proof.
  intros C Hi (ty & Hty) Hf Hn Hfu HQ.
  apply (wp_loop (fun '(t, f') s' => exists k, t = Z.of_nat k /\ (k <= Z.to_nat n)%nat /\ (k <= length (left f))%nat /\
    cached s' (st_bytes m (1024 * nb) (take k (left f))) H /\ io_only H s s' /\ readable f' /\ left f' = drop k (left f))
    (fun '(t, f') => Z.to_nat n - Z.to_nat t)%nat).
  { exists 0%nat. rewrite take_0, drop_0. cbn. repeat (split; [done || lia|]). done. }
  { lia. }
  intros [t f'] s' (k & -> & Hk & Hk' & C' & Hio & Hf' & Hl). cbv beta iota.
  assert (Hend : forall f2, take k (left f) = take (Z.to_nat n) (left f) -> readable f2 -> left f2 = drop (Z.to_nat n) (left f) ->
    Q (s32 (Z.of_nat k), f2) s').
  { intros f2 He Hf2 Hl2. rewrite s32_small by lia. replace k with (length (take k (left f))) by (rewrite length_take; lia).
    rewrite He. apply HQ; [by rewrite <- He|done..]. }
  destruct (Z.ltb_spec (Z.of_nat k) n) as [Hlt|Hge].
  2:{ apply wp_ret. apply Hend; [f_equal; lia|done|]. rewrite Hl. f_equal. lia. }
  destruct (read_spec (n - Z.of_nat k) f' Hf' ltac:(lia)) as (r & f2 & -> & Hf2 & Hl2 & Hr & Hr' & Hr0). rewrite Hl in *.
  rewrite length_drop in Hr'.
  assert (Hdata : length (take r (drop k (left f))) = r) by (rewrite length_take, length_drop; lia).
  apply wp_bind, (wp_u_store_bytes s' _ H C' i nb); [by apply (io_slots _ _ _ Hio i nb ty)|lia|rewrite Hdata; lia|].
  intros s2 C2 Hio2 _. apply wp_ret. rewrite u32_small by lia.
  replace (1024 * nb + Z.of_nat k) with (1024 * nb + Z.of_nat (length (take k (left f)))) in C2
    by (rewrite length_take; lia).
  rewrite st_bytes_app, take_take_drop in C2. destruct (Z.eqb_spec (Z.of_nat r) 0) as [Hz|Hz].
  - assert (r = 0%nat) as -> by lia. rewrite Nat.add_0_r in C2. specialize (Hr0 eq_refl).
    apply (f_equal length) in Hr0. rewrite length_drop in Hr0. cbn in Hr0.
    assert (He : take k (left f) = take (Z.to_nat n) (left f)) by (rewrite !take_ge by lia; done).
    replace (if Z.of_nat k =? 0 then s32 (Z.of_nat 0) else s32 (Z.of_nat k)) with (Z.of_nat (length (take (Z.to_nat n) (left f)))).
    + apply HQ; [by rewrite <- He|by eapply io_only_trans|done|]. rewrite Hl2, drop_drop, !drop_ge; [done|lia|lia].
    + rewrite <- He, length_take. zcases; rewrite s32_small by lia; lia.
  - rewrite u32_small by lia. split; [|lia]. exists (k + r)%nat. rewrite Hl2, drop_drop.
    repeat (split; [done || lia|]). split; [by eapply io_only_trans|]. done.
Qed.

(** ** The loop of writefile *)

(** The blocks of a tree of [n] data blocks. *)
Definition tree_size (n : Z) : Z :=
  n + (if 10 <? n then 1 else 0) + (if 266 <? n then 1 + (n - 266 + 255) / 256 else 0).

Lemma tree_size_succ n : 0 <= n -> tree_size (n + 1) = tree_size n + 1 + index_blocks n.
Proof.
  intros Hn. unfold tree_size, index_blocks.
  destruct (Z.ltb_spec n 10); [zcases|]. destruct (Z.ltb_spec n 266); [zcases|].
  rewrite (proj2 (Z.ltb_lt 10 n)), (proj2 (Z.ltb_lt 10 (n + 1))), (proj2 (Z.ltb_lt 266 (n + 1))) by lia.
  destruct (Z.eqb_spec n 266) as [->|]; [done|]. rewrite (proj2 (Z.ltb_lt 266 n)) by lia.
  destruct (Z.eqb_spec ((n - 266) mod 256) 0); divlia.
Qed.

Lemma tree_size_mono n n' : 0 <= n <= n' -> tree_size n <= tree_size n'.
Proof.
  intros Hn. unfold tree_size. assert ((n - 266 + 255) / 256 <= (n' - 266 + 255) / 256) by (apply Z.div_le_mono; lia).
  zcases; divlia.
Qed.

Lemma tree_size_ge n : 0 <= n -> n <= tree_size n.
Proof. intros Hn. unfold tree_size. zcases; divlia. Qed.

(** The blocks that writing [len] bytes asks for: the last [getblk] finds the end
    of a file that fills its blocks. *)
Definition blocks_of (len : Z) : Z := (len + 1023) / 1024.
Definition blocks_needed (len : Z) : Z := tree_size (blocks_of len) + (if len mod 1024 =? 0 then 1 else 0).

Lemma data_not_area lo m oi L j a :
  tree_in lo m oi L -> L (RData j) -> in_block (blk m oi (RData j)) a -> ~ tree_area m oi L a.
Proof.
  intros T Hj Ha [Hin|(q & Hq & Hi & Hb)].
  - pose proof (used_above m oi L T (RData j) Hj). unfold inode_slots, in_block, within in *. lia.
  - assert (blk m oi (RData j) = blk m oi q) as He by (unfold in_block, within in *; lia).
    apply (tr_inj _ _ _ T) in He; [|done|done]. by subst.
Qed.

(** The next block is filled but not yet recorded. *)
Lemma growing_fresh ty lo' L H' s m o m' b s' : growing lo' L H' s m o -> b = f_nextb s -> b < f_nblocks s ->
  changes (blocks_between b (b + 1)) m m' -> cached s' m' ((b, ty) :: H') ->
  f_nextb s' = b + 1 -> f_nblocks s' = f_nblocks s ->
  growing lo' L ((b, ty) :: H') s' m' o /\ (forall r, L r -> blk m' o r = blk m o r).
Proof.
  intros G -> Hb Hch C E4 E1. pose proof (gw_next _ _ _ _ _ _ G). destruct (nextb_bound _ _ _ _ _ _ G).
  destruct (tree_in_frame m o L (gw_tree _ _ _ _ _ _ G) _ m' Hch) as (T & Hk).
  { intros a Ha Hin. eapply (below_tree_area _ _ _ _ _ _ a G); [|done]. unfold blocks_between, within in Hin. lia. }
  assert (Hkb : forall r, L r -> blk m' o r = blk m o r).
  { intros r Hr. apply Hk. by apply (attachable_member m o L (gw_tree _ _ _ _ _ _ G)). }
  split; [|done]. split; rewrite ?E1, ?E4; [done|done| |lia| |].
  - intros r Hr. rewrite Hkb by done. pose proof (gw_below _ _ _ _ _ _ G r Hr). lia.
  - intros n t [[= -> ->]|Hn]%elem_of_cons; [lia|]. pose proof (gw_held _ _ _ _ _ _ G n t Hn). lia.
  - intros r t Hr Hix Hn. rewrite Hkb in Hn by done. apply elem_of_cons in Hn as [[= He ->]|Hn].
    + pose proof (gw_below _ _ _ _ _ _ G r Hr). lia.
    + by apply (gw_index _ _ _ _ _ _ G r).
Qed.

(** Everything from block [b] on. *)
Definition from_block (b a : Z) : Prop := 1024 * b <= a.

Section CopyBlocks.
Context (s0 : fmt) (m0 : mem) (H : holds) (nb off : Z) (i : nat) (data : list Z).
Let oi : Z := 1024 * nb + off.
Let lo : Z := f_nextb s0.
Let len : Z := Z.of_nat (length data).
Context (G0 : growing lo (live 0) H s0 m0 oi) (Hfew : (length H < 14)%nat) (Hdata : bytes data).
Context (Hi : in_slot s0 i nb) (Hnb : (nb, BLOCK_INODES) ∈ H) (Hoff : 0 <= off /\ off + 64 <= 1024).
Context (Hroom : f_nextb s0 + blocks_needed len <= f_nblocks s0).

(** After [n] blocks and [k] bytes. *)
Record copied (n k : Z) (s : fmt) (m : mem) : Prop := Copied {
  cp_growing : growing lo (live n) H s m oi;
  cp_io : io_only H (set_nextb (lo + tree_size n) s0) s;
  cp_bytes : forall x, 0 <= x < k -> data !! Z.to_nat x = Some (file_byte m oi x);
  cp_changes : changes (fun a => inode_slots oi a \/ from_block lo a) m0 m
}.

(** The area of the tree is the inode's pointers and the file's own blocks. *)
Lemma copied_area n k s m a : copied n k s m -> tree_area m oi (live n) a ->
  inode_slots oi a \/ from_block lo a.
Proof.
  intros D [Ha|(q & Hq & _ & Ha)]; [by left|right].
  pose proof (tr_range _ _ _ (gw_tree _ _ _ _ _ _ (cp_growing _ _ _ _ D)) q Hq).
  unfold from_block, in_block, within in *. lia.
Qed.

(** One block more: its bytes [l] were put into block [b] ([m2]), then the block
    was stored ([m3]). *)
Section Step.
Context (n : Z) (s : fmt) (m : mem) (l : list Z) (b : Z) (s2 : fmt) (m2 : mem) (s3 : fmt) (m3 : mem).
Context (D : copied n (1024 * n) s m) (Hn : 0 <= n) (Hb : b = lo + tree_size n).
Context (Hl : l = take 1024 (drop (Z.to_nat (1024 * n)) data)).
Context (Hc2 : changes (blocks_between b (b + 1)) m m2).
Context (Hl2 : forall k x, l !! k = Some x -> ld8 m2 (1024 * b + Z.of_nat k) = x).
Context (Hk2 : forall r, live n r -> blk m2 oi r = blk m oi r).
Context (G2 : growing lo (live n) ((b, BLOCK_FILE) :: H) s2 m2 oi).
Context (Hio2 : io_only H (set_nextb (b + 1) s0) s2) (E2 : f_nextb s2 = b + 1).
Context (S : stored_block lo ((b, BLOCK_FILE) :: H) s2 m2 oi n b s3 m3).

Lemma below_b r : live n r -> blk m oi r < b.
Proof.
  intros Hr. pose proof (gw_below _ _ _ _ _ _ (cp_growing _ _ _ _ D) r Hr).
  destruct (io_only_globals _ _ _ (cp_io _ _ _ _ D)) as (_ & _ & _ & E4 & _). cbn in E4. lia.
Qed.

Lemma step_old x : 0 <= x < 1024 * n -> file_byte m3 oi x = file_byte m oi x.
Proof.
  intros Hx. unfold file_byte. assert (Hlv : live n (RData (x / 1024))) by (cbn; divlia).
  pose proof (below_b _ Hlv). rewrite (sb_keep _ _ _ _ _ _ _ _ _ S), Hk2 by done.
  rewrite (sb_changes _ _ _ _ _ _ _ _ _ S).
  - apply Hc2. unfold blocks_between, within. divlia.
  - intros [Ha|Ha].
    + eapply (data_not_area lo m2 oi (live n) (x / 1024)); [apply G2|done| |exact Ha].
      rewrite Hk2 by done. apply in_block_byte.
    + unfold blocks_between, within in Ha. divlia.
Qed.

Lemma step_new k x : l !! k = Some x -> file_byte m3 oi (1024 * n + Z.of_nat k) = x.
Proof.
  intros Hk. assert (Hlt : (k < 1024)%nat) by (apply lookup_lt_Some in Hk; subst l; rewrite length_take in Hk; lia).
  unfold file_byte. replace ((1024 * n + Z.of_nat k) / 1024) with n by divlia.
  replace ((1024 * n + Z.of_nat k) mod 1024) with (Z.of_nat k) by divlia.
  rewrite (sb_new _ _ _ _ _ _ _ _ _ S), (sb_changes _ _ _ _ _ _ _ _ _ S); [by apply Hl2|].
  intros [[Ha|(q & Hq & _ & Ha)]|Ha].
  - destruct (tr_inode _ _ _ (gw_tree _ _ _ _ _ _ G2)). pose proof (tree_size_mono 0 n ltac:(lia)).
    change (tree_size 0) with 0 in *. unfold inode_slots, within in Ha. lia.
  - rewrite Hk2 in Ha by done. pose proof (below_b q Hq). unfold in_block, within in Ha. lia.
  - unfold blocks_between, within in Ha. lia.
Qed.

Lemma copied_step s4 : cached s4 m3 H -> io_only H s3 s4 -> copied (n + 1) (1024 * n + Z.of_nat (length l)) s4 m3.
Proof.
  intros C4 Hio4. pose proof (tree_size_succ n Hn) as Hts. pose proof (index_blocks_nonneg n).
  pose proof (tree_size_mono 0 n ltac:(lia)) as Hpos. change (tree_size 0) with 0 in Hpos. split.
  - eapply growing_put; [apply S|done|done].
  - eapply io_only_trans, Hio4. eapply io_only_trans; [|eapply io_only_sub, (sb_io _ _ _ _ _ _ _ _ _ S)].
    + rewrite E2. replace (lo + tree_size (n + 1)) with (b + 1 + index_blocks n) by lia.
      rewrite <- (set_nextb_twice _ (b + 1) s0). by apply io_only_nextb.
    + intros k ty Hk. exists ty. by right.
  - intros x Hx. destruct (decide (x < 1024 * n)) as [Hlt|Hge].
    + rewrite step_old by lia. apply (cp_bytes _ _ _ _ D). lia.
    + destruct (lookup_lt_is_Some_2 l (Z.to_nat (x - 1024 * n))) as [y Hy]; [lia|].
      pose proof (step_new _ _ Hy) as Hv. rewrite Z2Nat.id in Hv by lia. replace (1024 * n + (x - 1024 * n)) with x in Hv by lia.
      rewrite Hv. subst l. apply lookup_take_Some in Hy as [Hy _]. rewrite lookup_drop in Hy. rewrite <- Hy. f_equal. lia.
  - eapply changes_trans; [apply D|eapply changes_trans;
      [eapply changes_weaken; [exact Hc2|]|eapply changes_weaken; [apply S|]]]; cbv beta.
    + intros a Ha. right. unfold blocks_between, from_block, within in *. lia.
    + intros a [Ha|Ha]; [|right; unfold blocks_between, from_block, within in *; lia].
      eapply tree_area_keep in Ha; [|exact Hk2]. by eapply copied_area.
Qed.
End Step.

Lemma copied_0 : copied 0 0 s0 m0.
Proof.
  split; [done| |intros; lia|done]. change (tree_size 0) with 0. unfold lo. rewrite Z.add_0_r, set_nextb_same.
  apply io_only_refl.
Qed.

(** A block that was cleared but stays unused does no harm. *)
Lemma copied_idle n k s m s' m' : copied n k s m -> k <= 1024 * n ->
  changes (blocks_between (f_nextb s) (f_nextb s + 1)) m m' -> cached s' m' H -> io_only H s s' ->
  copied n k s' m'.
Proof.
  intros [G Hio Hby Hch] Hk Hc C Hio'. pose proof (gw_next _ _ _ _ _ _ G).
  destruct (io_only_globals _ _ _ Hio') as (E1 & _ & _ & E4 & _).
  destruct (tree_in_frame m oi _ (gw_tree _ _ _ _ _ _ G) _ m' Hc) as (T & Hkp).
  { intros a Ha Hin. eapply (below_tree_area _ _ _ _ _ _ a G); [|done]. unfold blocks_between, within in Hin. lia. }
  assert (Hkb : forall r, live n r -> blk m' oi r = blk m oi r).
  { intros r Hr. apply Hkp. by apply (attachable_member m oi _ (gw_tree _ _ _ _ _ _ G)). }
  split.
  - split; rewrite ?E1, ?E4; [done|done| |done|apply G|].
    + intros r Hr. rewrite Hkb by done. by apply G.
    + intros r ty Hr Hix. rewrite Hkb by done. by apply (gw_index _ _ _ _ _ _ G).
  - by eapply io_only_trans.
  - intros x Hx. rewrite Hby by done. unfold file_byte.
    assert (Hlv : live n (RData (x / 1024))) by (cbn; divlia). pose proof (gw_below _ _ _ _ _ _ G _ Hlv).
    rewrite Hkb by done. f_equal. symmetry. apply Hc. unfold blocks_between, within. divlia.
  - eapply changes_trans; [done|]. eapply changes_weaken; [done|]. intros a Ha. right.
    unfold blocks_between, from_block, within, lo in *. lia.
Qed.

(** There is room for the next block. *)
Lemma room_for n k : 0 <= n -> 1024 * n + k <= len -> 0 < k \/ len = 1024 * n ->
  lo + tree_size n < f_nblocks s0 /\ (0 < k -> lo + tree_size (n + 1) <= f_nblocks s0).
Proof.
  intros Hn Hk Hor. unfold blocks_needed, blocks_of in Hroom. fold lo in Hroom. pose proof (tree_size_succ n Hn).
  pose proof (index_blocks_nonneg n). destruct (decide (0 < k)) as [Hp|Hp].
  - pose proof (tree_size_mono (n + 1) ((len + 1023) / 1024) ltac:(split; [lia|divlia])).
    destruct (len mod 1024 =? 0); lia.
  - destruct Hor as [|He]; [lia|]. rewrite He in Hroom. replace ((1024 * n + 1023) / 1024) with n in Hroom by divlia.
    replace (1024 * n mod 1024 =? 0) with true in Hroom; [lia|]. symmetry. apply Z.eqb_eq. divlia.
Qed.

(** The state in which a round of the loop starts. *)
Definition round (n : Z) (f : hostfd) (s : fmt) : Prop :=
  exists m, copied n (1024 * n) s m /\ 0 <= n /\ 1024 * n <= len /\ readable f /\
    left f = drop (Z.to_nat (1024 * n)) data.

Lemma copied_next n k s m : copied n k s m -> f_nextb s = lo + tree_size n /\ f_nblocks s = f_nblocks s0 /\ in_slot s i nb.
Proof.
  intros [_ Hio _ _]. destruct (io_only_globals _ _ _ Hio) as (E1 & _ & _ & E4 & _).
  split; [done|]. split; [done|]. by apply (io_slots _ _ _ Hio i nb BLOCK_INODES).
Qed.

(** A round that reads the bytes [l]: the block is stored. *)
Lemma wp_store_round {A} n s m l j s2 fu (k : prog fmt A) (Q : A -> fmt -> Prop) :
  let b := lo + tree_size n in
  copied n (1024 * n) s m -> 0 <= n -> l = take 1024 (drop (Z.to_nat (1024 * n)) data) -> (0 < length l)%nat ->
  cached s2 (st_bytes (memset m (1024 * b) 0 1024) (1024 * b) l) ((b, BLOCK_FILE) :: H) ->
  in_slot s2 j b -> io_only H s s2 ->
  (forall s3 m3, copied (n + 1) (1024 * n + Z.of_nat (length l)) s3 m3 -> wp k fu s3 Q) ->
  wp (take_nextb;; storeblk (i, off) j n;; putblk j;; k) fu s2 Q.
Proof.
  intros b D Hn Hl Hpos C2 Hj Hio HQ. destruct (copied_next _ _ _ _ D) as (E4 & E1 & Hi2).
  pose proof (cp_growing _ _ _ _ D) as G. pose proof (nextb_bound _ _ _ _ _ _ G). pose proof (tree_size_succ n Hn).
  pose proof (index_blocks_nonneg n).
  assert (Hll : length l = Nat.min 1024 (length data - Z.to_nat (1024 * n))) by (subst l; by rewrite length_take, length_drop).
  assert (Hle : 1024 * n + Z.of_nat (length l) <= len) by (unfold len; lia).
  destruct (room_for n (Z.of_nat (length l))) as [Hr1 Hr2]; [done|done|lia|].
  assert (Hl' : (length l <= 1024)%nat) by lia.
  destruct (io_only_globals _ _ _ Hio) as (F1 & _ & _ & F4 & _).
  pose proof (tree_size_ge n Hn).
  apply wp_bind, wp_take_nextb; [rewrite F4, E4; fold b; lia|]. rewrite F4, E4. fold b.
  set (m2 := st_bytes _ _ _) in *.
  assert (Hc2 : changes (blocks_between b (b + 1)) m m2).
  { intros a Ha. unfold m2. unfold blocks_between, within in Ha.
    rewrite ld8_st_bytes_out, ld8_memset_out by lia. done. }
  assert (Hl2 : forall k x, l !! k = Some x -> ld8 m2 (1024 * b + Z.of_nat k) = x).
  { intros y x Hk. unfold m2. rewrite (ld8_st_bytes_in _ _ _ _ x) by done. apply u8_small.
    subst l. apply lookup_take_Some in Hk as [Hk _]. rewrite lookup_drop in Hk.
    unfold bytes in Hdata. rewrite Forall_lookup in Hdata. eauto. }
  clearbody m2. set (s2' := set_nextb (b + 1) s2).
  assert (C2' : cached s2' m2 ((b, BLOCK_FILE) :: H)) by by apply (cached_globals s2 s2' _ _ C2).
  destruct (growing_fresh BLOCK_FILE lo (live n) H s m oi m2 b s2' G) as (G2 & Hk2); [done|lia|done|done|done|done|].
  assert (Hio2 : io_only H (set_nextb (b + 1) s0) s2').
  { rewrite <- (set_nextb_twice (b + 1) b s0). apply io_only_nextb. eapply io_only_trans, Hio. apply D. }
  apply wp_bind, (wp_storeblk lo _ s2' m2 n nb off i j b G2); try done.
  - ospfs_consts. lia.
  - cbn. lia.
  - by apply (io_slots _ _ _ Hio i nb BLOCK_INODES).
  - by right.
  - cbn. lia.
  - intros r Hr. rewrite Hk2 by done. pose proof (gw_below _ _ _ _ _ _ G r Hr). lia.
  - cbn. rewrite F1. lia.
  - intros s3 m3 S. assert (Hj3 : in_slot s3 j b) by (apply (io_slots _ _ _ (sb_io _ _ _ _ _ _ _ _ _ S) j b BLOCK_FILE); [by left|done]).
    apply wp_bind, (wp_putblk s3 m3 H j b BLOCK_FILE); [apply S|done|]. intros s4 C4 Hio4. apply (HQ s4 m3).
    by apply (copied_step n s m l b s2' m2 s3 m3 D Hn eq_refl Hl Hc2 Hl2 Hk2 G2 Hio2 eq_refl S).
Qed.

(** The rule of the loop: the file is written whole. *)
Lemma wp_copy_blocks f fu (Q : Z -> fmt -> Prop) : readable f -> left f = data ->
  (Z.to_nat (blocks_of len) + 1026 < fu)%nat ->
  (forall s m, copied (blocks_of len) len s m -> Q len s) -> wp (copy_blocks (i, off) f) fu s0 Q.
Proof.
  intros Hf Hleft Hfu HQ.
  apply (wp_loop (fun '(n, f) s => round n f s) (fun '(n, _) => Z.to_nat (blocks_of len) + 1 - Z.to_nat n)%nat).
  { exists m0. rewrite Z.mul_0_r. split; [apply copied_0|]. unfold len. repeat (split; [done || lia|]). done. }
  { lia. }
  intros [n f'] s (m & D & Hn & Hle & Hf' & Hl). destruct (copied_next _ _ _ _ D) as (E4 & E1 & Hi2).
  pose proof (cp_growing _ _ _ _ D) as G. destruct (nextb_bound _ _ _ _ _ _ G). pose proof (gw_next _ _ _ _ _ _ G).
  set (b := lo + tree_size n) in *. set (l := take (Z.to_nat 1024) (left f')).
  assert (Hll : length l = Nat.min 1024 (length data - Z.to_nat (1024 * n))).
  { unfold l. rewrite Hl, length_take, length_drop. done. }
  destruct (room_for n (Z.of_nat (length l))) as [Hr1 _]; [done|unfold len in *; lia..|].
  apply wp_bind, wp_get, wp_bind. rewrite E4.
  apply (wp_getblk s m H (gw_cached _ _ _ _ _ _ G)); [lia|lia| |].
  { intros ty Hty. pose proof (gw_held _ _ _ _ _ _ G b ty Hty). lia. }
  intros j s1 C1 Hj Hio1. cbn [cleared] in C1.
  apply wp_bind, (wp_readn s1 (memset m (1024 * b) 0 1024) ((b, BLOCK_FILE) :: H) j b 1024 f'); [done|done|exists BLOCK_FILE; by left|done|done|lia|].
  intros s2 f2 l' C2 Hio2 Hf2 Hl2. fold l in l'. subst l'. cbv beta iota. rewrite (proj2 (Z.ltb_ge _ 0)) by lia.
  assert (Hj2 : in_slot s2 j b) by (apply (io_slots _ _ _ Hio2 j b BLOCK_FILE); [by left|done]).
  assert (Hio : io_only H s s2).
  { eapply io_only_trans; [done|]. eapply io_only_sub, Hio2. intros k ty Hk. exists ty. by right. }
  destruct (Z.eqb_spec (Z.of_nat (length l)) 0) as [Hz|Hz].
  - assert (Hnil : l = []) by (destruct l; [done|cbn in Hz; lia]). rewrite Hnil in C2. cbn [st_bytes] in C2.
    apply wp_bind, (wp_putblk s2 (memset m (1024 * b) 0 1024) H j b BLOCK_FILE); [done|done|]. intros s3 C3 Hio3. apply wp_ret.
    assert (He : len = 1024 * n) by (unfold len in *; lia).
    replace (n * OSPFS_BLKSIZE + Z.of_nat (length l)) with len by (unfold OSPFS_BLKSIZE; lia).
    apply (HQ s3 (memset m (1024 * b) 0 1024)). rewrite He. replace (blocks_of (1024 * n)) with n by (unfold blocks_of; divlia).
    apply (copied_idle n _ s m); [done|lia| |done|by eapply io_only_trans].
    intros a Ha. rewrite E4 in Ha. apply ld8_memset_out. unfold blocks_between, within in Ha. lia.
  - apply (wp_store_round n s m l j s2); [done|done|unfold l; by rewrite Hl|lia|done|done|done|].
    intros s3 m3 D3. apply wp_ret. destruct (Z.ltb_spec (Z.of_nat (length l)) OSPFS_BLKSIZE) as [Hsh|Hsh]; unfold OSPFS_BLKSIZE in *.
    + replace (n * 1024 + Z.of_nat (length l)) with len by (unfold len; lia). apply (HQ s3 m3).
      replace (blocks_of len) with (n + 1) by (unfold blocks_of, len; divlia).
      replace len with (1024 * n + Z.of_nat (length l)) by (unfold len; lia). done.
    + assert (Hlen : length l = 1024%nat) by lia. split.
      * exists m3. split; [by replace (1024 * (n + 1)) with (1024 * n + Z.of_nat (length l)) by lia|].
        split; [lia|]. split; [unfold len; lia|]. split; [done|]. rewrite Hl2, Hl, drop_drop. f_equal. lia.
      * assert (n + 1 <= blocks_of len) by (unfold blocks_of, len; divlia). lia.
Qed.
End CopyBlocks.
