(* ===== verification/FmtBuild.v ===== *)
(** * ospfsformat: the image while it is built

    [layout] describes the image when some files are in place: the tree and the
    entries of the root directory, the files with their bytes, each in a run of
    blocks of its own, and what is still unused.  The lemmas are its frame
    property and the changes that the program makes. *)

From S2P Require Import Prelude CMemory OspfsLayout OspfsAlloc OspfsTree OspfsWork OspfsGrow OspfsShrink OspfsSize OspfsIo OspfsDirSpec FmtCache Fmt FmtCacheSpec FmtStore FmtFile.

Abbreviation root := (inode_at 1).

(** A file of the image: its name, its bytes, and the blocks that it occupies,
    from [pl_lo] to [pl_hi - 1]. *)
Record placed := Placed { pl_name : list Z; pl_data : list Z; pl_lo : Z; pl_hi : Z }.

Definition pl_len (p : placed) : Z := Z.of_nat (length (pl_data p)).

(** Inode [j] is the file [p]. *)
Record file_at (m : mem) (j : Z) (p : placed) : Prop := FileAt {
  fa_tree : tree_in (pl_lo p) m (inode_at j) (live (blocks_of (pl_len p)));
  fa_hi : forall r, live (blocks_of (pl_len p)) r -> blk m (inode_at j) r < pl_hi p;
  fa_size : ld32 m (oi_size (inode_at j)) = pl_len p;
  fa_type : ld32 m (oi_ftype (inode_at j)) = OSPFS_FTYPE_REG;
  fa_nlink : inode_nlink m j = 1;
  fa_bytes : forall x, 0 <= x < pl_len p -> pl_data p !! Z.to_nat x = Some (file_byte m (inode_at j) x)
}.

(** The bytes of inode [j]. *)
Definition inode_bytes (j : Z) : Z -> Prop := within (inode_at j) (inode_at j + 64).

(** The entry [e] of the root names inode [j]. *)
Record entry_at (m : mem) (e j : Z) (name : list Z) : Prop := EntryAt {
  en_ino : entry_ino m root e = j;
  en_name : forall k x, (name ++ [0]) !! k = Some x -> ld8 m (od_name (dirent_at m root e) + Z.of_nat k) = x
}.

(** [nn] inodes, of which the first [ni] are taken; a root directory of [k]
    blocks with the files [P], whose entries from [u] on are blank; blocks from
    [nxt] on are unused. *)
Record layout (nn k : Z) (P : list placed) (u ni nxt : Z) (m : mem) : Prop := Layout {
  ly_root : tree_in (3 + (nn + 15) / 16) m root (live k);
  ly_below : forall r, live k r -> blk m root r < nxt;
  ly_type : ld32 m (oi_ftype root) = OSPFS_FTYPE_DIR;
  ly_size : ld32 m (oi_size root) = 1024 * k;
  ly_entry : forall e p, P !! e = Some p -> entry_at m (Z.of_nat e) (2 + Z.of_nat e) (pl_name p);
  ly_blank : forall e, u <= e < 8 * k -> entry_ino m root e = 0;
  ly_count : Z.of_nat (length P) <= u /\ u <= 8 * k;
  ly_inodes : 2 + Z.of_nat (length P) <= ni <= nn;
  ly_file : forall j p, P !! j = Some p -> file_at m (2 + Z.of_nat j) p /\
    3 + (nn + 15) / 16 <= pl_lo p <= pl_hi p /\ pl_hi p <= nxt /\
    forall r, live k r -> blk m root r < pl_lo p \/ pl_hi p <= blk m root r;
  ly_apart : forall i j p q, (i < j)%nat -> P !! i = Some p -> P !! j = Some q -> pl_hi p <= pl_lo q;
  ly_zero : forall a, inode_at ni <= a < 1024 * (3 + (nn + 15) / 16) -> ld8 m a = 0
}.

(** What a change must leave alone to preserve the layout. *)
Definition kept (nn k : Z) (P : list placed) (u ni : Z) (m : mem) (a : Z) : Prop :=
  inode_bytes 1 a \/ tree_area m root (live k) a \/
  (exists e, 0 <= e < 8 * k /\ (e < Z.of_nat (length P) /\ entry_area m root e a \/
     u <= e /\ word_at (od_ino (dirent_at m root e)) a)) \/
  (exists j p, P !! j = Some p /\ (inode_bytes (2 + Z.of_nat j) a \/ blocks_between (pl_lo p) (pl_hi p) a)) \/
  inode_at ni <= a < 1024 * (3 + (nn + 15) / 16).

(** The bitmap is left alone, too, until the image is finished. *)
Definition protected (nn k : Z) (P : list placed) (u ni : Z) (m : mem) (a : Z) : Prop :=
  kept nn k P u ni m a \/ in_block 2 a.

(** A file is untouched by what touches neither its inode nor its blocks. *)
Lemma file_at_frame A m m' j p : file_at m j p -> changes A m m' ->
  (forall a, A a -> ~ inode_bytes j a) -> (forall a, A a -> ~ blocks_between (pl_lo p) (pl_hi p) a) ->
  file_at m' j p.
Proof.
  intros F Hch Hi Hb. set (n := blocks_of (pl_len p)).
  assert (Hin : forall b a, pl_lo p <= b < pl_hi p -> in_block b a -> blocks_between (pl_lo p) (pl_hi p) a).
  { intros b a Hlt Ha. unfold in_block, blocks_between, within in *. lia. }
  assert (Hown : forall r a, live n r -> in_block (blk m (inode_at j) r) a -> ~ A a).
  { intros r a Hr Ha HA. apply (Hb a HA), (Hin (blk m (inode_at j) r)); [|done].
    pose proof (tr_range _ _ _ (fa_tree _ _ _ F) r Hr). pose proof (fa_hi _ _ _ F r Hr). lia. }
  destruct (tree_in_frame m (inode_at j) _ (fa_tree _ _ _ F) A m' Hch) as (T & Hk).
  { intros a [Ha|(q & Hq & _ & Ha)] HA; [|by apply (Hown q a Hq Ha)].
    apply (Hi a HA). unfold inode_slots, inode_bytes, within in *. lia. }
  assert (Hkb : forall r, live n r -> blk m' (inode_at j) r = blk m (inode_at j) r).
  { intros r Hr. apply Hk. by apply (attachable_member m _ _ (fa_tree _ _ _ F)). }
  assert (Hw : forall x, inode_at j <= x -> x + 4 <= inode_at j + 64 -> ld32 m' x = ld32 m x).
  { intros x H1 H2. apply (changes_ld32 A m m' x Hch). intros a Ha HA. apply (Hi a HA).
    unfold inode_bytes, within in *. lia. }
  split; [done| | | | |].
  - intros r Hr. rewrite Hkb by done. by apply F.
  - rewrite Hw by (unfold oi_size; lia). apply F.
  - rewrite Hw by (unfold oi_ftype; lia). apply F.
  - unfold inode_nlink. rewrite Hw by (unfold oi_nlink; lia). apply F.
  - intros x Hx. rewrite (fa_bytes _ _ _ F x Hx). f_equal. unfold file_byte.
    assert (Hr : live n (RData (x / 1024))) by (cbn; unfold n, blocks_of; divlia).
    rewrite Hkb by done. symmetry. apply Hch. intros HA. by apply (Hown _ _ Hr (in_block_byte _ x)).
Qed.

(** An entry whose bytes and place are unchanged is unchanged. *)
Lemma entry_ino_kept m m' e : blk m' root (RData (e / 8)) = blk m root (RData (e / 8)) ->
  (forall a, word_at (od_ino (dirent_at m root e)) a -> ld8 m' a = ld8 m a) ->
  dirent_at m' root e = dirent_at m root e /\ entry_ino m' root e = entry_ino m root e.
Proof.
  intros Hb Ha. assert (Hd : dirent_at m' root e = dirent_at m root e) by (unfold dirent_at; by rewrite Hb).
  split; [done|]. unfold entry_ino. rewrite Hd. unfold ld32. by rewrite !Ha by (unfold word_at, within; lia).
Qed.

Lemma entry_kept m m' e j name : blk m' root (RData (e / 8)) = blk m root (RData (e / 8)) ->
  (forall a, entry_area m root e a -> ld8 m' a = ld8 m a) -> (length name <= 123)%nat ->
  entry_at m e j name -> entry_at m' e j name.
Proof.
  intros Hb Ha Hl [E1 E2]. destruct (entry_ino_kept m m' e Hb) as [Hd Hi].
  { intros a Hw. apply Ha. unfold entry_area, word_at, od_ino, within in *. lia. }
  split; [by rewrite Hi|]. intros i x Hx. rewrite Hd, Ha; [by apply E2|].
  apply lookup_lt_Some in Hx. rewrite length_app in Hx. cbn in Hx. unfold entry_area, od_name, within. lia.
Qed.

Definition short_names (P : list placed) : Prop := forall j p, P !! j = Some p -> name_ok (pl_name p).

Lemma layout_frame nn k P u ni nxt A m m' : layout nn k P u ni nxt m -> short_names P -> changes A m m' ->
  (forall a, A a -> ~ kept nn k P u ni m a) ->
  layout nn k P u ni nxt m' /\ (forall r, attachable (live k) r -> blk m' root r = blk m root r) /\
  (forall e, 0 <= e < 8 * k -> dirent_at m' root e = dirent_at m root e).
Proof.
  intros Y Hn Hch HA.
  destruct (tree_in_frame m root _ (ly_root _ _ _ _ _ _ _ Y) A m' Hch) as (T & Hk).
  { intros a Ha HAa. apply (HA a HAa). right; by left. }
  assert (Hkb : forall r, live k r -> blk m' root r = blk m root r).
  { intros r Hr. apply Hk. by apply (attachable_member m _ _ (ly_root _ _ _ _ _ _ _ Y)). }
  assert (Hw : forall x, root <= x -> x + 4 <= root + 64 -> ld32 m' x = ld32 m x).
  { intros x H1 H2. apply (changes_ld32 A m m' x Hch). intros a Ha HAa. apply (HA a HAa). left.
    unfold inode_bytes, within in *. lia. }
  assert (He : forall e, 0 <= e < 8 * k -> blk m' root (RData (e / 8)) = blk m root (RData (e / 8))).
  { intros e Hr. apply Hkb. cbn. divlia. }
  pose proof (ly_count _ _ _ _ _ _ _ Y).
  split; [|split; [intros r Hr; by apply Hk|intros e Hr; unfold dirent_at; by rewrite He]]. split; try apply Y; try done.
  - intros r Hr. rewrite Hkb by done. by apply Y.
  - rewrite Hw by (unfold oi_ftype; lia). apply Y.
  - rewrite Hw by (unfold oi_size; lia). apply Y.
  - intros e p Hp. pose proof (lookup_lt_Some _ _ _ Hp). apply (entry_kept m); [apply He; lia| |by apply (Hn e p)|by apply Y].
    intros a Ha. apply Hch. intros HAa. apply (HA a HAa). do 2 right; left. exists (Z.of_nat e). split; [lia|]. left. split; [lia|done].
  - intros e Hr. destruct (entry_ino_kept m m' e) as [_ ->]; [apply He; lia| |by apply (ly_blank _ _ _ _ _ _ _ Y)].
    intros a Ha. apply Hch. intros HAa. apply (HA a HAa). do 2 right; left. exists e. split; [lia|]. right. split; [lia|done].
  - intros j p Hp. destruct (ly_file _ _ _ _ _ _ _ Y j p Hp) as (F & H1 & H2 & H3). split; [|split; [done|split; [done|]]].
    + eapply file_at_frame; [done|done|..]; intros a HAa Ha; apply (HA a HAa); do 3 right; left; exists j, p; tauto.
    + intros r Hr. rewrite Hkb by done. by apply H3.
  - intros a Ha. rewrite Hch; [by apply Y|]. intros HAa. apply (HA a HAa). by do 4 right.
Qed.

(** ** The state of the program *)

(** The program between two files: the layout, the counters, and the root's
    inode block, which is in use. *)
Record built (nb nn k : Z) (P : list placed) (s : fmt) (m : mem) (H : holds) (ri : nat) (u ni : Z) : Prop := Built {
  bu_layout : layout nn k P u ni (f_nextb s) m;
  bu_cached : cached s m H;
  bu_names : short_names P;
  bu_bits : forall a, in_block 2 a -> ld8 m a = 255;
  bu_root : in_slot s ri 3 /\ (3, BLOCK_INODES) ∈ H;
  bu_held : forall n ty, (n, ty) ∈ H -> 0 < n < f_nextb s;
  (** blocks of the inode table and index blocks are held as such *)
  bu_table : forall n ty, (n, ty) ∈ H -> 3 <= n < 3 + (nn + 15) / 16 -> ty = BLOCK_INODES;
  bu_index : forall r ty, live k r -> is_index r -> (blk m root r, ty) ∈ H -> ty = BLOCK_BITS;
  bu_data : forall j ty, 0 <= j < k -> (blk m root (RData j), ty) ∈ H -> ty = BLOCK_DIR;
  bu_next : 3 + (nn + 15) / 16 <= f_nextb s <= f_nblocks s;
  bu_nextinode : f_nextinode s = ni;
  bu_nblocks : f_nblocks s = nb;
  bu_ninodes : f_ninodes s = nn /\ 2 <= nn < 2 ^ 16;
  bu_bitblock : f_nbitblock s = 1;
  bu_super : f_super s = OspfsSuper OSPFS_MAGIC nb nn 3;
  bu_plain : link_contents s = false
}.

Lemma root_growing nb nn k P s m H ri u ni : built nb nn k P s m H ri u ni ->
  growing (3 + (nn + 15) / 16) (live k) H s m root.
Proof. intros B. split; try apply B. Qed.

(** Blocks that may be held without harm. *)
Definition holdable (nn k : Z) (s : fmt) (m : mem) (n : Z) (ty : block_type) : Prop :=
  0 < n < f_nextb s /\ (3 <= n < 3 + (nn + 15) / 16 -> ty = BLOCK_INODES) /\
  (forall r, live k r -> is_index r -> blk m root r = n -> ty = BLOCK_BITS) /\
  (forall j, 0 <= j < k -> blk m root (RData j) = n -> ty = BLOCK_DIR).

(** A step that changes only unprotected bytes, and what is held. *)
Lemma built_step nb nn k P s m H ri u ni A s' m' H' :
  built nb nn k P s m H ri u ni -> changes A m m' -> (forall a, A a -> ~ protected nn k P u ni m a) ->
  cached s' m' H' -> io_only H s s' ->
  (forall n ty, (n, ty) ∈ H' -> (n, ty) ∈ H \/ holdable nn k s m n ty) -> (3, BLOCK_INODES) ∈ H' ->
  built nb nn k P s' m' H' ri u ni /\ (forall r, attachable (live k) r -> blk m' root r = blk m root r) /\
  (forall e, 0 <= e < 8 * k -> dirent_at m' root e = dirent_at m root e).
Proof.
  intros B Hch HA C Hio Hh H3.
  destruct (io_only_globals _ _ _ Hio) as (E1 & E2 & E3 & E4 & E5 & E6 & E7 & E8).
  destruct (layout_frame nn k P u ni (f_nextb s) A m m') as (Y & Hk & Hd); [apply B|apply B|done|by intros a Ha Hp; apply (HA a Ha); left|].
  assert (Hkb : forall r, live k r -> blk m' root r = blk m root r).
  { intros r Hr. apply Hk. by apply (attachable_member m _ _ (ly_root _ _ _ _ _ _ _ (bu_layout _ _ _ _ _ _ _ _ _ _ B))). }
  split; [|done]. split; rewrite ?E1, ?E2, ?E3, ?E4, ?E5, ?E6, ?E7; try apply B; try done.
  - intros a Ha. rewrite Hch; [by apply B|]. intros HAa. apply (HA a HAa). by right.
  - split; [|done]. apply (io_slots _ _ _ Hio ri 3 BLOCK_INODES); apply B.
  - intros n ty Hn. destruct (Hh n ty Hn) as [Ho|[Ho _]]; [by apply (bu_held _ _ _ _ _ _ _ _ _ _ B n ty)|done].
  - intros n ty Hn Hr. destruct (Hh n ty Hn) as [Ho|(_ & Ho & _)]; [by apply (bu_table _ _ _ _ _ _ _ _ _ _ B n ty)|auto].
  - intros r ty Hr Hi Hn. rewrite Hkb in Hn by done.
    destruct (Hh _ ty Hn) as [Ho|(_ & _ & Ho & _)]; [by apply (bu_index _ _ _ _ _ _ _ _ _ _ B r ty)|by apply (Ho r)].
  - intros j ty Hj Hn. rewrite Hkb in Hn by (cbn; lia).
    destruct (Hh _ ty Hn) as [Ho|(_ & _ & _ & Ho)]; [by apply (bu_data _ _ _ _ _ _ _ _ _ _ B j ty)|by apply (Ho j)].
Qed.

(** ** Finding the last block of a directory *)

Section LastDirb.
Context (lo : Z) (H : holds) (s : fmt) (m : mem) (k : Z) (nb off : Z) (i : nat).
Let oi : Z := 1024 * nb + off.
Context (G : growing lo (live k) H s m oi) (Hfew : (length H < 13)%nat) (Hk : 0 < k).
Context (Hi : in_slot s i nb) (Hoff : 0 <= off /\ off + 64 <= 1024).
Context (Hdir : forall j ty, 0 <= j < k -> (blk m oi (RData j), ty) ∈ H -> ty = BLOCK_DIR).

(** A block of the tree is got, with the type its role has. *)
Lemma wp_get_role H' s' r ty fu (Q : nat -> fmt -> Prop) :
  cached s' m H' -> io_only H s s' -> (length H' < 16)%nat -> live k r ->
  (forall t, (blk m oi r, t) ∈ H' -> t = ty) ->
  (forall j s2, cached s2 m ((blk m oi r, ty) :: H') -> in_slot s2 j (blk m oi r) -> io_only H' s' s2 -> Q j s2) ->
  wp (getblk (blk m oi r) false ty) fu s' Q.
Proof.
  intros C Hio Hl Hr Hty HQ. pose proof (tr_range _ _ _ (gw_tree _ _ _ _ _ _ G) r Hr).
  pose proof (gw_below _ _ _ _ _ _ G r Hr). destruct (nextb_bound _ _ _ _ _ _ G). pose proof (gw_next _ _ _ _ _ _ G).
  destruct (io_only_globals _ _ _ Hio) as (E1 & _).
  apply (wp_getblk s' m H' C); [done|lia|done|]. intros j s2 C2 Hj Hio2. by apply HQ.
Qed.

(** The word of a role inside an index block that is held. *)
Lemma wp_load_role H' s' j r q o fu (Q : Z -> fmt -> Prop) :
  cached s' m H' -> in_slot s' j (blk m oi q) -> valid r -> parent r = Some q -> live k q -> offset r = o ->
  Q (blk m oi r) s' -> wp (u_load32 j o) fu s' Q.
Proof.
  intros C Hj Hv Hp Hq <- HQ. pose proof (offset_block r q Hv Hp).
  apply (wp_u_load32 s' m H' C j (blk m oi q)); [done|lia|lia|].
  unfold blk at 1 in HQ. rewrite slot_unfold, Hp, (block_of m oi _ (gw_tree _ _ _ _ _ _ G) q Hq) in HQ. done.
Qed.

Lemma not_index q : live k q -> is_index q -> blk m oi q <> blk m oi (RData (k - 1)).
Proof.
  intros Hq Hix He. apply (tr_inj _ _ _ (gw_tree _ _ _ _ _ _ G)) in He; [by subst|done|cbn; lia].
Qed.

(** The last block, when the index block [q] that names it is held in slot [j]. *)
Lemma wp_last_under {A} H' s' j q o fu (kont : nat -> prog fmt A) (R : A -> fmt -> Prop) :
  cached s' m H' -> io_only H s s' -> (length H' < 15)%nat -> in_slot s' j (blk m oi q) ->
  parent (RData (k - 1)) = Some q -> live k q -> offset (RData (k - 1)) = o -> k <= OSPFS_MAXFILEBLKS ->
  (forall n t, (n, t) ∈ H' -> (n, t) ∈ H \/ exists q', live k q' /\ is_index q' /\ n = blk m oi q') ->
  (forall b s2, cached s2 m ((blk m oi (RData (k - 1)), BLOCK_DIR) :: H') ->
     in_slot s2 b (blk m oi (RData (k - 1))) -> io_only H' s' s2 -> wp (kont b) fu s2 R) ->
  wp (n ← u_load32 j o; dirb ← getblk n false BLOCK_DIR; kont dirb) fu s' R.
Proof.
  intros C Hio Hl Hj Hp Hq Ho Hmax Hs HR.
  apply wp_bind, (wp_load_role H' s' j (RData (k - 1)) q o); [done|done|cbn; lia|done|done|done|].
  apply wp_bind, (wp_get_role H' s' (RData (k - 1)) BLOCK_DIR); [done|done|lia|cbn; lia| |done].
  intros t Ht. destruct (Hs _ _ Ht) as [Hin|(q' & Hq' & Hix & He)]; [by apply (Hdir (k - 1)); [lia|]|].
  by destruct (not_index q' Hq' Hix).
Qed.

(** The rule of [last_dirb]: the block of the last role, held once more. *)
Lemma wp_last_dirb fu (Q : option nat -> fmt -> Prop) :
  (forall j s', cached s' m ((blk m oi (RData (k - 1)), BLOCK_DIR) :: H) -> in_slot s' j (blk m oi (RData (k - 1))) ->
     io_only H s s' -> Q (Some j) s') ->
  k <= OSPFS_MAXFILEBLKS -> wp (last_dirb (i, off) (k - 1)) fu s Q.
Proof.
  intros HQ Hmax. pose proof (gw_cached _ _ _ _ _ _ G) as C. pose proof (io_only_refl H s) as Hr.
  unfold last_dirb. cbn [fst snd]. change OSPFS_NDIRECT with 10. change (10 + OSPFS_NINDIRECT) with 266. change OSPFS_NINDIRECT with 256.
  assert (Hidx : forall q, live k q -> is_index q -> forall t, (blk m oi q, t) ∈ H -> t = BLOCK_BITS).
  { intros q Hq Hix t. by apply (gw_index _ _ _ _ _ _ G q). }
  destruct (Z.leb_spec 266 (k - 1)) as [H2|H2]; [|destruct (Z.leb_spec 10 (k - 1)) as [H1|H1]].
  - apply wp_bind, (wp_u_load32 s m H C i nb); [done|unfold oi_indirect2; lia..|].
    replace (ld32 m (1024 * nb + oi_indirect2 off)) with (blk m oi RInd2) by (rewrite blk_ind2; unfold oi_indirect2, oi; f_equal; lia).
    assert (Hl2 : live k RInd2) by (cbn; lia). set (q := RL1 ((k - 1 - 10 - 256) / 256)).
    assert (Hlq : live k q) by (cbn; divlia).
    apply wp_bind, (wp_get_role H s RInd2); [done|done|lia|done|by apply Hidx|].
    intros j2 s2 C2 Hj2 Hio2. apply wp_bind, (wp_load_role ((blk m oi RInd2, BLOCK_BITS) :: H) s2 j2 q RInd2); [done|done|cbn; ospfs_consts; divlia|done|done|done|].
    apply wp_bind, (wp_get_role ((blk m oi RInd2, BLOCK_BITS) :: H) s2 q BLOCK_BITS); [done|done|cbn; lia|done| |].
    { intros t [[= _ ->]|Ht]%elem_of_cons; [done|]. by apply (Hidx q). }
    intros j1 s1 C1 Hj1 Hio1. apply (wp_last_under ((blk m oi q, BLOCK_BITS) :: (blk m oi RInd2, BLOCK_BITS) :: H) s1 j1 q); [done|io_chain|cbn; lia|done| |done| |done| |].
    { unfold q. replace (k - 1 - 10 - 256) with (k - 1 - 266) by lia. by (cbn; zcases). }
    { replace (k - 1 - 10 - 256) with (k - 1 - 266) by lia. by (cbn; zcases). }
    { intros n t [[= -> ->]|[[= -> ->]|Hn]%elem_of_cons]%elem_of_cons; [right; by exists q|right; by exists RInd2|by left]. }
    intros j s3 C3 Hj3 Hio3.
    apply wp_bind, (wp_putblk s3 m ((blk m oi (RData (k - 1)), BLOCK_DIR) :: (blk m oi RInd2, BLOCK_BITS) :: H) j1 (blk m oi q) BLOCK_BITS);
      [eapply cached_perm; [apply Permutation_swap|exact C3]|slot_chain|].
    intros s4 C4 Hio4.
    apply wp_bind, (wp_putblk s4 m ((blk m oi (RData (k - 1)), BLOCK_DIR) :: H) j2 (blk m oi RInd2) BLOCK_BITS);
      [eapply cached_perm; [apply Permutation_swap|exact C4]|slot_chain|].
    intros s5 C5 Hio5. apply wp_ret, HQ; [done|slot_chain|io_chain].
  - apply wp_bind, (wp_u_load32 s m H C i nb); [done|unfold oi_indirect; lia..|].
    replace (ld32 m (1024 * nb + oi_indirect off)) with (blk m oi RInd) by (rewrite blk_ind; unfold oi_indirect, oi; f_equal; lia).
    assert (Hl1 : live k RInd) by (cbn; lia).
    apply wp_bind, (wp_get_role H s RInd); [done|done|lia|done|by apply Hidx|].
    intros j1 s1 C1 Hj1 Hio1. apply (wp_last_under ((blk m oi RInd, BLOCK_BITS) :: H) s1 j1 RInd); [done|done|cbn; lia|done| |done| |done| |].
    { by (cbn; zcases). }
    { by (cbn; zcases). }
    { intros n t [[= -> ->]|Hn]%elem_of_cons; [right; by exists RInd|by left]. }
    intros j s3 C3 Hj3 Hio3.
    apply wp_bind, (wp_putblk s3 m ((blk m oi (RData (k - 1)), BLOCK_DIR) :: H) j1 (blk m oi RInd) BLOCK_BITS);
      [eapply cached_perm; [apply Permutation_swap|exact C3]|slot_chain|].
    intros s5 C5 Hio5. apply wp_ret, HQ; [done|slot_chain|io_chain].
  - rewrite (proj2 (Z.leb_le 0 (k - 1))) by lia.
    apply wp_bind, (wp_u_load32 s m H C i nb); [done|unfold oi_direct; lia..|].
    replace (ld32 m (1024 * nb + oi_direct off (k - 1))) with (blk m oi (RData (k - 1)))
      by (unfold blk at 1; rewrite slot_direct by lia; unfold oi_direct, oi; f_equal; lia).
    apply wp_bind, (wp_get_role H s (RData (k - 1)) BLOCK_DIR); [done|done|lia|cbn; lia|intros t; apply (Hdir (k - 1)); lia|].
    intros j s3 C3 Hj3 Hio3. by apply wp_ret, HQ.
Qed.
End LastDirb.
