(* ===== verification/FmtDir.v ===== *)
(** * ospfsformat: new directory entries

    [allocdirentry] finds the first blank entry in the last block of the root
    directory, or gives the directory one block more, and writes the name. *)

From S2P Require Import Prelude CMemory OspfsLayout OspfsAlloc OspfsTree OspfsWork OspfsGrow OspfsShrink OspfsSize OspfsIo OspfsDirSpec FmtCache Fmt FmtCacheSpec FmtStore FmtFile FmtBuild.

(** ** One block more for the root *)

(** The root's tree got the role [RData k], for a zeroed block taken from [nxt]
    on, and its size was stored. *)
Record root_grown (nn k nxt nxt' : Z) (m m' : mem) : Prop := RootGrown {
  rg_tree : tree_in (3 + (nn + 15) / 16) m' root (live (k + 1));
  rg_below : forall r, live (k + 1) r -> blk m' root r < nxt';
  rg_keep : forall r, live k r -> blk m' root r = blk m root r;
  rg_new : forall r, live (k + 1) r -> ~ live k r -> nxt <= blk m' root r;
  rg_zero : forall a, in_block (blk m' root (RData k)) a -> ld8 m' a = 0;
  rg_size : ld32 m' (oi_size root) = 1024 * (k + 1);
  rg_changes : changes (fun a => word_at (oi_size root) a \/ tree_area m root (live k) a \/ from_block nxt a) m m'
}.

(** The area of the root's own tree is no inode but the root's, no block of a
    file, and no entry. *)
Lemma root_area_apart nn k P u ni nxt m a : layout nn k P u ni nxt m -> tree_area m root (live k) a ->
  (root + 16 <= a < root + 64 \/ 1024 * (3 + (nn + 15) / 16) <= a) /\
  (forall j p, P !! j = Some p -> ~ blocks_between (pl_lo p) (pl_hi p) a) /\
  (forall e, 0 <= e < 8 * k -> ~ entry_area m root e a).
Proof.
  intros Y Ha. pose proof (ly_root _ _ _ _ _ _ _ Y) as T. destruct (tr_inode _ _ _ T) as [_ Htop].
  assert (Hent : forall e, 0 <= e < 8 * k -> ~ entry_area m root e a).
  { intros e He Hin%entry_in_block. eapply (data_not_area _ m root (live k) (e / 8)); [done|cbn; divlia|done|done]. }
  destruct Ha as [Ha|(q & Hq & Hix & Ha)].
  - unfold inode_slots, within in Ha. split; [lia|]. split; [|done]. intros j p Hp Hb.
    destruct (ly_file _ _ _ _ _ _ _ Y j p Hp) as (_ & Hlo & _). unfold blocks_between, within in Hb. lia.
  - pose proof (tr_range _ _ _ T q Hq). unfold in_block, within in Ha. split; [lia|]. split; [|done]. intros j p Hp Hb.
    destruct (ly_file _ _ _ _ _ _ _ Y j p Hp) as (_ & _ & _ & Hd). specialize (Hd q Hq).
    unfold blocks_between, within in Hb. lia.
Qed.

Lemma layout_grow_root nn k P u ni nxt nxt' m m' : layout nn k P u ni nxt m -> short_names P -> 0 <= k -> u = 8 * k ->
  3 + (nn + 15) / 16 <= nxt -> nxt < nxt' -> root_grown nn k nxt nxt' m m' -> layout nn (k + 1) P u ni nxt' m'.
Proof.
  intros Y Hn Hk Hu Hlo Hlt R. pose proof (rg_changes _ _ _ _ _ _ R) as Hch.
  pose proof (ly_inodes _ _ _ _ _ _ _ Y) as Hni. pose proof (ly_count _ _ _ _ _ _ _ Y) as Hct.
  assert (Hfirst : 3200 <= 1024 * (3 + (nn + 15) / 16)) by apply (tr_inode _ _ _ (ly_root _ _ _ _ _ _ _ Y)).
  assert (Hout : forall a, root + 64 <= a < 1024 * (3 + (nn + 15) / 16) \/ in_block 2 a \/ word_at (oi_ftype root) a -> ld8 m' a = ld8 m a).
  { intros a Ha. apply Hch. intros [Hw|[Ht|Hf]].
    - unfold word_at, oi_size, oi_ftype, in_block, inode_at, within in *. lia.
    - destruct (root_area_apart _ _ _ _ _ _ _ a Y Ht) as [Hr _].
      unfold word_at, oi_ftype, in_block, inode_at, within in *. lia.
    - unfold from_block, word_at, oi_ftype, in_block, inode_at, within in *. lia. }
  assert (Hbk : forall e, 0 <= e < 8 * k -> blk m' root (RData (e / 8)) = blk m root (RData (e / 8))).
  { intros e He. apply (rg_keep _ _ _ _ _ _ R). cbn. divlia. }
  assert (Hent : forall e a, 0 <= e < 8 * k -> entry_area m root e a -> ld8 m' a = ld8 m a).
  { intros e a He Ha. apply Hch. pose proof (entry_in_block _ _ _ _ Ha) as Hb.
    assert (Hl : live k (RData (e / 8))) by (cbn; divlia). pose proof (ly_below _ _ _ _ _ _ _ Y _ Hl).
    pose proof (tr_range _ _ _ (ly_root _ _ _ _ _ _ _ Y) _ Hl). intros [Hw|[Ht|Hf]].
    - unfold word_at, oi_size, in_block, inode_at, within in *. lia.
    - destruct (root_area_apart _ _ _ _ _ _ _ a Y Ht) as (_ & _ & Hd). by apply (Hd e).
    - unfold from_block, in_block, within in *. lia. }
  split; try apply R.
  - rewrite <- (ly_type _ _ _ _ _ _ _ Y). unfold ld32. by rewrite !Hout by (unfold word_at, within; lia).
  - intros e p Hp. pose proof (lookup_lt_Some _ _ _ Hp).
    apply (entry_kept m); [apply Hbk; lia|intros a; apply Hent; lia|by apply (Hn e p)|by apply Y].
  - intros e He. unfold entry_ino. assert (e / 8 = k) as Hq by divlia. unfold od_ino, ld32, dirent_at. rewrite Hq.
    rewrite !(rg_zero _ _ _ _ _ _ R) by (unfold in_block, within; divlia). done.
  - lia.
  - done.
  - intros j p Hp. pose proof (lookup_lt_Some _ _ _ Hp). destruct (ly_file _ _ _ _ _ _ _ Y j p Hp) as (F & H1 & H2 & H3).
    split; [|split; [done|split; [lia|]]].
    + eapply file_at_frame; [done|done|..]; intros a [Hw|[Ht|Hf]] Ha.
      * unfold word_at, oi_size, inode_bytes, inode_at, within in *. lia.
      * destruct (root_area_apart _ _ _ _ _ _ _ a Y Ht) as [Hr _]. unfold inode_bytes, inode_at, within in *. divlia.
      * unfold from_block, inode_bytes, inode_at, within in *. divlia.
      * unfold word_at, oi_size, blocks_between, inode_at, within in *. lia.
      * destruct (root_area_apart _ _ _ _ _ _ _ a Y Ht) as (_ & Hr & _). by apply (Hr j p).
      * unfold from_block, blocks_between, within in *. lia.
    + intros r Hr. destruct (decide (live k r)) as [Hl|Hl]; [rewrite (rg_keep _ _ _ _ _ _ R) by done; by apply H3|].
      pose proof (rg_new _ _ _ _ _ _ R r Hr Hl). lia.
  - apply Y.
  - intros a Ha. rewrite Hout; [by apply Y|]. left. unfold inode_at in *. lia.
Qed.

(** ** new_dirb *)

(** The zeroes that are written into the block that was just cleared. *)
Lemma wp_blank_entries s m H j b ty fu (Q : unit -> fmt -> Prop) :
  cached s m ((b, ty) :: H) -> in_slot s j b -> (forall a, in_block b a -> ld8 m a = 0) ->
  (forall s' m', cached s' m' ((b, ty) :: H) -> io_only ((b, ty) :: H) s s' ->
     (forall a, in_block b a -> ld8 m' a = 0) -> changes (in_block b) m m' -> Q tt s') ->
  wp (for_each (seqZ 0 8) (fun i => u_store32 j (od_ino (OSPFS_DIRENTRY_SIZE * i)) 0)) fu s Q.
Proof.
  intros C Hj Hz HQ.
  apply (wp_for_each (fun _ s' => exists m', cached s' m' ((b, ty) :: H) /\ io_only ((b, ty) :: H) s s' /\
    (forall a, in_block b a -> ld8 m' a = 0) /\ changes (in_block b) m m')).
  - exists m. split; [done|]. split; [apply io_only_refl|done].
  - intros k i t [Hi Hlt]%lookup_seqZ (m' & C' & Hio & Hz' & Hch). unfold od_ino, OSPFS_DIRENTRY_SIZE.
    apply (wp_u_store32 t m' _ C' j b); [slot_chain|lia|lia|]. intros s' C2 Hio2 _. eexists. split; [done|].
    split; [io_chain|]. split.
    + intros a Ha. unfold st32. rewrite !ld8_st8. repeat case_decide; try done. by apply Hz'.
    + eapply changes_trans; [done|]. apply changes_st32. intros a Ha. unfold in_block, within in *. lia.
  - intros t (m' & C' & Hio & Hz' & Hch). by apply (HQ t m').
Qed.

Lemma root_blocks_bound nb nn k P s m H ri u ni : built nb nn k P s m H ri u ni -> 0 <= k -> k <= 8192.
Proof.
  intros B Hk. pose proof (root_growing _ _ _ _ _ _ _ _ _ _ B) as G. destruct (nextb_bound _ _ _ _ _ _ G). pose proof (gw_next _ _ _ _ _ _ G).
  pose proof (tree_bound (3 + (nn + 15) / 16) (f_nextb s) m root k Hk ltac:(lia) (gw_tree _ _ _ _ _ _ G)) as Hb.
  assert (k <= f_nextb s - (3 + (nn + 15) / 16)); [|lia]. apply Hb. intros i Hi. apply G. cbn. lia.
Qed.

Section NewDirb.
Context (nb nn k : Z) (P : list placed) (s : fmt) (m : mem) (H : holds) (ri : nat) (u ni : Z).
Context (B : built nb nn k P s m H ri u ni) (Hfew : (length H < 12)%nat) (Hu : u = 8 * k) (Hk : 0 <= k).
Context (Hroom : f_nextb s + 1 + index_blocks k <= nb).

(** The block was cleared ([s2], [m2]) and stored in the tree ([s3], [m3]), and the
    size is stored ([s4], [m4]). *)
Section Grown.
Let b : Z := f_nextb s.
Let lo : Z := 3 + (nn + 15) / 16.
Context (s2 : fmt) (m2 : mem) (s3 : fmt) (m3 : mem) (s4 : fmt).
Let m4 : mem := st32 m3 (oi_size root) (1024 * (k + 1)).
Context (Hc2 : changes (blocks_between b (b + 1)) m m2) (Hk2 : forall r, live k r -> blk m2 root r = blk m root r).
Context (G2 : growing lo (live k) ((b, BLOCK_DIR) :: H) s2 m2 root) (Hz2 : forall a, in_block b a -> ld8 m2 a = 0).
Context (E2 : f_nextb s2 = b + 1) (Hio2 : io_only H (set_nextb (b + 1) s) s2).
Context (S : stored_block lo ((b, BLOCK_DIR) :: H) s2 m2 root k b s3 m3).
Context (C4 : cached s4 m4 ((b, BLOCK_DIR) :: H)) (Hio4 : io_only ((b, BLOCK_DIR) :: H) s3 s4).

Lemma grown_io : io_only H (set_nextb (b + 1 + index_blocks k) s) s4.
Proof.
  eapply io_only_trans; [|eapply io_only_sub, Hio4; intros n t Hn; exists t; in_list].
  eapply io_only_trans; [|eapply io_only_sub, (sb_io _ _ _ _ _ _ _ _ _ S); intros n t Hn; exists t; in_list].
  rewrite E2, <- (set_nextb_twice (b + 1 + index_blocks k) (b + 1) s). by apply io_only_nextb.
Qed.

Lemma grown_tree : tree_in lo m4 root (live (k + 1)) /\ (forall r, live (k + 1) r -> blk m4 root r = blk m3 root r).
Proof.
  pose proof (sb_growing _ _ _ _ _ _ _ _ _ S) as G3. pose proof (gw_tree _ _ _ _ _ _ G3) as T3.
  assert (Hlo : 3200 <= 1024 * lo) by apply (tr_inode _ _ _ T3).
  destruct (tree_in_frame m3 root _ T3 (word_at (oi_size root)) m4) as (T & Hkp); [by apply changes_st32| |].
  - intros a [Ha|(q & Hq & _ & Ha)] Hw.
    + unfold inode_slots, word_at, oi_size, within in *. lia.
    + pose proof (tr_range _ _ _ T3 q Hq). unfold in_block, word_at, oi_size, inode_at, within in *. lia.
  - split; [done|]. intros r Hr. apply Hkp. by apply (attachable_member m3 root _ T3).
Qed.

Lemma grown_root : root_grown nn k b (f_nextb s4) m m4.
Proof.
  pose proof (sb_growing _ _ _ _ _ _ _ _ _ S) as G3. destruct grown_tree as (T & Hkp).
  destruct (io_only_globals _ _ _ Hio4) as (_ & _ & _ & F4 & _). pose proof (root_blocks_bound _ _ _ _ _ _ _ _ _ _ B Hk).
  pose proof (root_growing _ _ _ _ _ _ _ _ _ _ B) as G. destruct (nextb_bound _ _ _ _ _ _ G).
  pose proof (gw_next _ _ _ _ _ _ G) as Hnx. fold b lo in Hnx.
  assert (Hlo : 3200 <= 1024 * lo) by apply (tr_inode _ _ _ T).
  assert (Hsk : forall r, live k r -> live (k + 1) r) by (intros []; cbn; lia).
  split.
  - done.
  - intros r Hr. rewrite Hkp, F4 by done. by apply G3.
  - intros r Hr. rewrite Hkp by by apply Hsk. rewrite (sb_keep _ _ _ _ _ _ _ _ _ S) by done. by apply Hk2.
  - intros r Hr Hn. rewrite Hkp by done. destruct (sb_fresh _ _ _ _ _ _ _ _ _ S r Hr Hn) as [->|Hf]; [|lia].
    rewrite (sb_new _ _ _ _ _ _ _ _ _ S). lia.
  - rewrite Hkp, (sb_new _ _ _ _ _ _ _ _ _ S) by (cbn; lia). intros a Ha. unfold m4.
    rewrite ld8_st32_ne by (unfold in_block, oi_size, inode_at, within in *; lia).
    rewrite (sb_changes _ _ _ _ _ _ _ _ _ S); [by apply Hz2|]. intros [[Hin|(q & Hq & _ & Hb)]|Hb].
    + unfold inode_slots, in_block, inode_at, within in *. lia.
    + rewrite Hk2 in Hb by done. pose proof (gw_below _ _ _ _ _ _ G q Hq). unfold in_block, within in *. lia.
    + unfold blocks_between, in_block, within in *. lia.
  - unfold m4. rewrite ld32_st32_eq. apply u32_small. lia.
  - eapply changes_trans; [|eapply changes_trans; [|apply changes_st32]].
    + eapply changes_weaken; [exact Hc2|]. intros a Ha. do 2 right. unfold blocks_between, from_block, within in *. lia.
    + eapply changes_weaken; [apply S|]. cbn. intros a [Ha|Ha]; [|do 2 right; unfold blocks_between, from_block, within in *; lia].
      right; left. by eapply tree_area_keep.
    + intros a Ha. by left.
Qed.

Lemma built_grown : built nb nn (k + 1) P s4 m4 ((b, BLOCK_DIR) :: H) ri u ni /\ blk m4 root (RData k) = b.
Proof.
  pose proof grown_io as Hio. destruct grown_tree as (T & Hkp). pose proof grown_root as R.
  destruct (io_only_globals _ _ _ Hio) as (E1 & F2 & F3 & F4 & F5 & F6 & F7 & F8). cbn in E1, F2, F3, F4, F5, F6, F7.
  pose proof (index_blocks_nonneg k). pose proof (bu_next _ _ _ _ _ _ _ _ _ _ B) as Hnx. fold b in Hnx.
  pose proof (bu_layout _ _ _ _ _ _ _ _ _ _ B) as Y. pose proof (bu_nblocks _ _ _ _ _ _ _ _ _ _ B).
  destruct (nextb_bound _ _ _ _ _ _ (root_growing _ _ _ _ _ _ _ _ _ _ B)) as [Hlo3 _].
  assert (Hheld : forall n ty, (n, ty) ∈ H -> 0 < n < b) by (intros n ty; apply (bu_held _ _ _ _ _ _ _ _ _ _ B)).
  assert (Hb : blk m4 root (RData k) = b) by (rewrite Hkp by (cbn; lia); apply (sb_new _ _ _ _ _ _ _ _ _ S)).
  split; [|done]. split; rewrite ?E1, ?F2, ?F3, ?F5, ?F6, ?F7; try apply B; try done.
  - eapply layout_grow_root; [exact Y|apply B|done|done|lia| |done]. fold b. lia.
  - intros a Ha. rewrite (rg_changes _ _ _ _ _ _ R); [by apply B|]. intros [Hw|[Ht|Hf]].
    + unfold word_at, oi_size, in_block, inode_at, within in *. lia.
    + destruct (root_area_apart _ _ _ _ _ _ _ a Y Ht) as [Hr _]. unfold in_block, inode_at, within in *. lia.
    + unfold from_block, in_block, within in *. lia.
  - split; [|right; apply B]. apply (io_slots _ _ _ Hio ri 3 BLOCK_INODES); apply B.
  - intros n ty [[= -> ->]|Hn]%elem_of_cons; [lia|]. pose proof (Hheld n ty Hn). lia.
  - intros n ty [[= -> ->]|Hn]%elem_of_cons Hr; [lia|]. by apply (bu_table _ _ _ _ _ _ _ _ _ _ B n ty).
  - intros r ty Hr Hi Hn. apply elem_of_cons in Hn as [[= He ->]|Hn].
    { rewrite Hkp in He by done. rewrite <- (sb_new _ _ _ _ _ _ _ _ _ S) in He.
      apply (tr_inj _ _ _ (gw_tree _ _ _ _ _ _ (sb_growing _ _ _ _ _ _ _ _ _ S))) in He; [by subst|done|cbn; lia]. }
    destruct (decide (live k r)) as [Hl|Hl].
    + rewrite (rg_keep _ _ _ _ _ _ R) in Hn by done. by apply (bu_index _ _ _ _ _ _ _ _ _ _ B r ty).
    + pose proof (rg_new _ _ _ _ _ _ R r Hr Hl). pose proof (Hheld _ _ Hn). lia.
  - intros j ty Hj Hn. apply elem_of_cons in Hn as [[= _ ->]|Hn]; [done|]. destruct (decide (j = k)) as [->|Hne].
    + rewrite Hb in Hn. pose proof (Hheld _ _ Hn). lia.
    + rewrite (rg_keep _ _ _ _ _ _ R) in Hn by (cbn; lia). apply (bu_data _ _ _ _ _ _ _ _ _ _ B j ty); [lia|done].
  - rewrite F4. lia.
Qed.
End Grown.

(** The rule of [new_dirb]. *)
Lemma wp_new_dirb fu (Q : nat * Z -> fmt -> Prop) :
  (forall j s' m', built nb nn (k + 1) P s' m' ((f_nextb s, BLOCK_DIR) :: H) ri u ni ->
     blk m' root (RData k) = f_nextb s -> in_slot s' j (f_nextb s) ->
     io_only H (set_nextb (f_nextb s + 1 + index_blocks k) s) s' -> Q (j, 0) s') ->
  wp (new_dirb (ri, 64) (k - 1)) fu s Q.
Proof.
  intros HQ. pose proof (root_growing _ _ _ _ _ _ _ _ _ _ B) as G. destruct (nextb_bound _ _ _ _ _ _ G).
  pose proof (root_blocks_bound _ _ _ _ _ _ _ _ _ _ B Hk) as Hkb. pose proof (index_blocks_nonneg k). pose proof (bu_nblocks _ _ _ _ _ _ _ _ _ _ B).
  pose proof (bu_next _ _ _ _ _ _ _ _ _ _ B) as Hnx. set (b := f_nextb s) in *.
  unfold new_dirb. cbn [fst snd]. replace (k - 1 + 1) with k by lia. apply wp_bind, wp_take_nextb; [fold b; lia|].
  fold b. set (s1 := set_nextb (b + 1) s).
  assert (C1 : cached s1 m H) by by apply (cached_globals s s1 m H (gw_cached _ _ _ _ _ _ G)).
  apply wp_bind, (wp_getblk s1 m H C1); [lia|cbn; lia| |].
  { intros ty Hty. pose proof (gw_held _ _ _ _ _ _ G b ty Hty). unfold b in *. lia. }
  intros j s2 C2 Hj Hio2. cbn [cleared] in C2.
  apply wp_bind, (wp_blank_entries s2 (memset m (1024 * b) 0 1024) H j b BLOCK_DIR); [done|done| |].
  { intros a Ha. apply ld8_memset_in. unfold in_block, within in Ha. lia. }
  intros s3 m3 C3 Hio3 Hz3 Hc3.
  assert (Hch : changes (blocks_between b (b + 1)) m m3).
  { eapply changes_trans; [|eapply changes_weaken; [exact Hc3|]].
    - intros a Ha. apply ld8_memset_out. unfold blocks_between, within in Ha. lia.
    - intros a Ha. unfold blocks_between, in_block, within in *. lia. }
  assert (Hio13 : io_only H s1 s3) by io_chain.
  destruct (io_only_globals _ _ _ Hio13) as (E1 & _ & _ & E4 & _). cbn in E1, E4.
  destruct (growing_fresh BLOCK_DIR _ (live k) H s m root m3 b s3 G) as (G3 & Hk3); [done|lia|done|done|done|done|].
  apply wp_bind, (wp_storeblk _ _ s3 m3 k 3 64 ri j b G3); [ospfs_consts; lia|cbn; lia| | |lia|slot_chain|lia| |lia|].
  { slot_chain || (apply (io_slots _ _ _ Hio13 ri 3 BLOCK_INODES); apply B). }
  { right. apply B. }
  { intros r Hr. rewrite Hk3 by done. pose proof (gw_below _ _ _ _ _ _ G r Hr). unfold b. lia. }
  intros s4 m4 S. change (1024 * 3 + 64) with root in S. pose proof (sb_growing _ _ _ _ _ _ _ _ _ S) as G4. pose proof (sb_io _ _ _ _ _ _ _ _ _ S) as Hio4.
  assert (Hri : in_slot s4 ri 3).
  { apply (io_slots _ _ _ Hio4 ri 3 BLOCK_INODES); [right; apply B|]. apply (io_slots _ _ _ Hio13 ri 3 BLOCK_INODES); apply B. }
  assert (Hsz : ld32 m4 (oi_size root) = 1024 * k).
  { rewrite <- (ly_size _ _ _ _ _ _ _ (bu_layout _ _ _ _ _ _ _ _ _ _ B)). transitivity (ld32 m3 (oi_size root)).
    - unfold ld32. by rewrite !(stored_block_head _ _ _ _ _ _ _ _ _ _ G3 S) by (unfold oi_size, within; lia).
    - apply (changes_ld32 _ _ _ _ Hch). intros a Ha Hb. unfold blocks_between, oi_size, inode_at, within in *. lia. }
  apply wp_bind, (wp_u_load32 s4 m4 _ (gw_cached _ _ _ _ _ _ G4) ri 3); [done|unfold oi_size; lia..|].
  change (1024 * 3 + oi_size 64) with (oi_size root). rewrite Hsz.
  apply wp_bind, (wp_u_store32 s4 m4 _ (gw_cached _ _ _ _ _ _ G4) ri 3); [done|unfold oi_size; lia..|].
  change (1024 * 3 + oi_size 64) with (oi_size root). unfold OSPFS_BLKSIZE. replace (1024 * k + 1024) with (1024 * (k + 1)) by lia.
  intros s5 C5 Hio5 Hri5.
  apply wp_bind, (wp_u_load32 s5 _ _ C5 ri 3); [done|unfold oi_size; lia..|].
  change (1024 * 3 + oi_size 64) with (oi_size root). rewrite ld32_st32_eq.
  replace ((k + 1) * 1024) with (1024 * (k + 1)) by lia. rewrite Z.eqb_refl. apply wp_ret.
  assert (Hio3' : io_only H (set_nextb (b + 1) s) s3) by done. assert (Hj3 : in_slot s3 j b) by slot_chain.
  assert (Hj4 : in_slot s4 j b) by (apply (io_slots _ _ _ Hio4 j b BLOCK_DIR); [by left|done]).
  destruct (built_grown s3 m3 s4 m4 s5) as (B' & Hb'); try done.
  apply (HQ j s5 _ B'); [done|slot_chain|]. by apply (grown_io s3 m3 s4 m4 s5).
Qed.
End NewDirb.

(** ** allocdirentry *)

(** The bytes of an entry that no file has are unprotected, except for the inode
    number of one that must stay blank. *)
Lemma entry_free nn k P u ni nxt m e a : layout nn k P u ni nxt m -> Z.of_nat (length P) <= e < 8 * k ->
  entry_area m root e a -> (u <= e -> ~ word_at (od_ino (dirent_at m root e)) a) -> ~ protected nn k P u ni m a.
Proof.
  intros Y He Ha Hno. pose proof (entry_in_block _ _ _ _ Ha) as Hib. pose proof (ly_root _ _ _ _ _ _ _ Y) as T.
  assert (Hl : live k (RData (e / 8))) by (cbn; divlia). pose proof (tr_range _ _ _ T _ Hl) as Hrg.
  assert (Hfirst : 3200 <= 1024 * (3 + (nn + 15) / 16)) by apply (tr_inode _ _ _ T).
  pose proof (ly_inodes _ _ _ _ _ _ _ Y) as Hni. unfold in_block, within in Hib.
  intros [[Hp|[Hp|[(x & Hx & Hp)|[(i & p & Hi & [Hp|Hp])|Hp]]]]|Hp].
  - unfold inode_bytes, inode_at, within in Hp. lia.
  - destruct (root_area_apart _ _ _ _ _ _ _ a Y Hp) as (_ & _ & Hx). apply (Hx e); [lia|done].
  - destruct (decide (x = e)) as [->|Hne]; [destruct Hp as [[Hlt _]|[Hge Hp]]; [lia|by apply Hno]|].
    assert (entry_area m root x a) as Hxa.
    { destruct Hp as [[_ Hp]|[_ Hp]]; [done|]. unfold word_at, od_ino, entry_area, within in *. lia. }
    apply (entry_areas_apart _ m root k x e a T); [lia|lia|done|done|done].
  - pose proof (lookup_lt_Some _ _ _ Hi). unfold inode_bytes, inode_at, within in Hp. divlia.
  - destruct (ly_file _ _ _ _ _ _ _ Y i p Hi) as (_ & _ & _ & Hx). specialize (Hx _ Hl).
    unfold blocks_between, within in Hp. lia.
  - lia.
  - unfold in_block, within in Hp. lia.
Qed.

Section Allocdirentry.
Context (nb nn k : Z) (P : list placed) (s : fmt) (m : mem) (H : holds) (ri : nat) (u ni : Z).
Context (B : built nb nn k P s m H ri u ni) (Hfew : (length H < 12)%nat) (Hk : 0 <= k).
Context (Hu : u = Z.of_nat (length P)) (Hfull : 8 * k <= u + 8).

(** In the last block, the entries before [u] are taken and the others are blank. *)
Lemma wp_free_entry H' s' j fu (Q : option Z -> fmt -> Prop) :
  0 < k -> cached s' m H' -> in_slot s' j (blk m root (RData (k - 1))) ->
  Q (if u <? 8 * k then Some (128 * (u mod 8)) else None) s' -> wp (free_entry j) fu s' Q.
Proof.
  intros Hpos C Hj HQ. pose proof (bu_layout _ _ _ _ _ _ _ _ _ _ B) as Y. pose proof (ly_count _ _ _ _ _ _ _ Y) as Hct.
  set (x := u - 8 * (k - 1)). assert (Hx : 0 <= x <= 8 /\ (u < 8 * k -> u mod 8 = x)) by (unfold x; divlia).
  assert (Hent : forall i, 0 <= i < 8 -> 1024 * blk m root (RData (k - 1)) + 128 * i = dirent_at m root (8 * (k - 1) + i)).
  { intros i Hi. unfold dirent_at. replace ((8 * (k - 1) + i) / 8) with (k - 1) by divlia.
    by replace ((8 * (k - 1) + i) mod 8) with i by divlia. }
  apply (wp_for_ret (fun i t => t = s' /\ 0 <= i <= x)).
  - split; [done|lia].
  - intros i t Hi [-> Hix]. unfold od_ino, OSPFS_DIRENTRY_SIZE.
    apply wp_bind, (wp_u_load32 s' m H' C j (blk m root (RData (k - 1)))); [done|lia|lia|]. rewrite Hent by lia.
    change (ld32 m (dirent_at m root (8 * (k - 1) + i))) with (entry_ino m root (8 * (k - 1) + i)). apply wp_ret. destruct (decide (i = x)) as [->|Hne].
    + rewrite (ly_blank _ _ _ _ _ _ _ Y) by (unfold x; lia). cbn [Z.eqb]. destruct Hx as [_ Hx].
      rewrite (proj2 (Z.ltb_lt _ _)) in HQ by (unfold x in *; lia). by rewrite Hx in HQ by (unfold x in *; lia).
    + destruct (lookup_lt_is_Some_2 P (Z.to_nat (8 * (k - 1) + i))) as [p Hp]; [unfold x in *; lia|].
      pose proof (en_ino _ _ _ _ (ly_entry _ _ _ _ _ _ _ Y _ _ Hp)) as He. rewrite Z2Nat.id in He by lia.
      rewrite He. rewrite (proj2 (Z.eqb_neq _ 0)) by lia. split; [done|]. unfold x in *. lia.
  - intros t [-> Hix]. rewrite (proj2 (Z.ltb_ge _ _)) in HQ by (unfold x in *; lia). done.
Qed.

(** The name is written into entry [u], which stays blank. *)
Lemma wp_write_name k' s' m' H' d j name fu (Q : unit -> fmt -> Prop) :
  built nb nn k' P s' m' H' ri u ni -> u < 8 * k' -> in_slot s' j d -> d = blk m' root (RData (u / 8)) -> name_ok name ->
  (forall s2 m2, built nb nn k' P s2 m2 H' ri u ni -> in_slot s2 j d -> io_only H' s' s2 ->
     (forall r, attachable (live k') r -> blk m2 root r = blk m' root r) ->
     dirent_at m2 root u = 1024 * d + 128 * (u mod 8) ->
     (forall i x, (name ++ [0]) !! i = Some x -> ld8 m2 (od_name (dirent_at m2 root u) + Z.of_nat i) = x) -> Q tt s2) ->
  wp (u_store_bytes j (od_name (128 * (u mod 8))) (name ++ [0])) fu s' Q.
Proof.
  intros B' Hlt Hj Hd [Hname Hlen] HQ. pose proof (bu_layout _ _ _ _ _ _ _ _ _ _ B') as Y.
  assert (Hm8 : 0 <= u mod 8 < 8) by (apply Z.mod_pos_bound; lia).
  assert (Hl : length (name ++ [0]) = S (length name)) by (rewrite length_app; cbn; lia).
  assert (Hdir : dirent_at m' root u = 1024 * d + 128 * (u mod 8)) by (unfold dirent_at; by rewrite Hd).
  apply (wp_u_store_bytes s' m' H' (bu_cached _ _ _ _ _ _ _ _ _ _ B') j d); [done|unfold od_name; lia|rewrite Hl; unfold od_name; lia|].
  set (a0 := 1024 * d + od_name (128 * (u mod 8))). intros s2 C2 Hio2 Hj2.
  set (A := within a0 (a0 + Z.of_nat (length (name ++ [0])))).
  destruct (built_step nb nn k' P s' m' H' ri u ni A s2 (st_bytes m' a0 (name ++ [0])) H') as (B2 & Hk2 & Hd2); [done| | |done|done|by left|apply B'|].
  - intros a Ha. unfold A, within in Ha. apply ld8_st_bytes_out. lia.
  - intros a Ha. apply (entry_free nn k' P u ni (f_nextb s') m' u a Y); [lia|..];
      unfold A, a0, entry_area, word_at, od_name, od_ino, within in *; rewrite Hdir; rewrite Hl in Ha; lia.
  - specialize (Hd2 u ltac:(lia)). apply (HQ s2 _ B2); [done|done|done|by rewrite Hd2|].
    intros i x Hx. rewrite Hd2, Hdir. unfold a0. replace (od_name (1024 * d + 128 * (u mod 8))) with a0 by (unfold a0, od_name; lia).
    fold a0. rewrite (ld8_st_bytes_in _ _ _ _ x) by done. apply u8_small.
    apply lookup_app_Some in Hx as [Hx|[_ Hx]].
    + rewrite Forall_lookup in Hname. specialize (Hname _ _ Hx). lia.
    + apply list_lookup_singleton_Some in Hx as [_ <-]. lia.
Qed.

(** The directory after the call has [k'] blocks; the next block is [nx]. *)
Let k' : Z := if u =? 8 * k then k + 1 else k.
Let nx : Z := if u =? 8 * k then f_nextb s + 1 + index_blocks k else f_nextb s.

(** What the block in slot [j] and the image are after a call. *)
Record entry_made (name : list Z) (d : Z) (j : nat) (s' : fmt) (m' : mem) : Prop := EntryMade {
  em_built : built nb nn k' P s' m' ((d, BLOCK_DIR) :: H) ri u ni;
  em_room : u < 8 * k';
  em_slot : in_slot s' j d;
  em_io : io_only H (set_nextb nx s) s';
  em_place : dirent_at m' root u = 1024 * d + 128 * (u mod 8);
  em_name : forall i x, (name ++ [0]) !! i = Some x -> ld8 m' (od_name (dirent_at m' root u) + Z.of_nat i) = x
}.

(** The name is written and the entry returned. *)
Lemma wp_allocdirentry_finish name d j s1 m1 fu (Q : option (nat * Z) -> fmt -> Prop) :
  name_ok name -> u < 8 * k' -> built nb nn k' P s1 m1 ((d, BLOCK_DIR) :: H) ri u ni -> in_slot s1 j d ->
  d = blk m1 root (RData (u / 8)) -> io_only H (set_nextb nx s) s1 ->
  (forall s' m', entry_made name d j s' m' -> Q (Some (j, 128 * (u mod 8))) s') ->
  wp (u_store_bytes j (od_name (128 * (u mod 8))) (name ++ [0]);; mret (Some (j, 128 * (u mod 8)))) fu s1 Q.
Proof.
  intros Hname Hlt B1 Hj Hd Hio HQ. apply wp_bind, (wp_write_name k' s1 m1 ((d, BLOCK_DIR) :: H) d j name); [done..|].
  intros s2 m2 B2 Hj2 Hio2 _ Hpl Hnm. apply wp_ret, (HQ s2 m2). split; try done.
  eapply io_only_trans; [done|]. eapply io_only_sub, Hio2. intros n t Hn. exists t. by right.
Qed.

Lemma holdable_data j : 0 <= j < k -> holdable nn k s m (blk m root (RData j)) BLOCK_DIR.
Proof.
  intros Hj. pose proof (bu_layout _ _ _ _ _ _ _ _ _ _ B) as Y. pose proof (ly_root _ _ _ _ _ _ _ Y) as T.
  assert (Hl : live k (RData j)) by (cbn; lia). pose proof (tr_range _ _ _ T _ Hl). pose proof (ly_below _ _ _ _ _ _ _ Y _ Hl).
  destruct (tr_inode _ _ _ T). split; [unfold inode_at in *; lia|]. split; [lia|]. split; [|done].
  intros r Hr Hix He. apply (tr_inj _ _ _ T) in He; [by subst|done|done].
Qed.

(** The entry is the first of a new block. *)
Lemma wp_alloc_new name s0 m0 fu (Q : option (nat * Z) -> fmt -> Prop) : name_ok name -> nx <= nb ->
  u = 8 * k -> built nb nn k P s0 m0 H ri u ni -> io_only H s s0 ->
  (forall d j s' m', entry_made name d j s' m' -> Q (Some (j, 128 * (u mod 8))) s') ->
  wp (new_dirb (ri, 64) (k - 1)) fu s0 (fun od s' =>
    wp (u_store_bytes od.1 (od_name od.2) (name ++ [0]);; mret (Some od)) fu s' Q).
Proof.
  intros Hname Hroom Hu8 B0 Hio0 HQ. destruct (io_only_globals _ _ _ Hio0) as (_ & _ & _ & E4 & _).
  assert (Hb : (u =? 8 * k) = true) by by apply Z.eqb_eq. assert (Hk' : k' = k + 1) by (unfold k'; by rewrite Hb).
  assert (Hnx : nx = f_nextb s + 1 + index_blocks k) by (unfold nx; by rewrite Hb).
  assert (Hmod : u mod 8 = 0) by divlia. assert (Hdiv : u / 8 = k) by divlia.
  apply (wp_new_dirb nb nn k P s0 m0 H ri u ni B0 Hfew Hu8 Hk); [rewrite E4; lia|].
  intros j s1 m1 B1 Hb1 Hj1 Hio1. cbn [fst snd].
  pose proof (wp_allocdirentry_finish name (f_nextb s0) j s1 m1 fu Q) as W. rewrite Hmod in W, HQ. change (128 * 0) with 0 in W, HQ.
  apply W; rewrite ?Hk', ?Hdiv; try done; [lia| |by apply HQ].
  rewrite Hnx. eapply io_only_trans, Hio1. rewrite E4. by apply io_only_nextb.
Qed.

(** The rule of [allocdirentry]. *)
Lemma wp_allocdirentry name fu (Q : option (nat * Z) -> fmt -> Prop) : name_ok name -> nx <= nb ->
  (forall d j s' m', entry_made name d j s' m' -> Q (Some (j, 128 * (u mod 8))) s') ->
  wp (allocdirentry (ri, 64) name) fu s Q.
Proof.
  intros Hname Hroom HQ. pose proof (root_growing _ _ _ _ _ _ _ _ _ _ B) as G. pose proof (bu_layout _ _ _ _ _ _ _ _ _ _ B) as Y.
  pose proof (root_blocks_bound nb nn k P s m H ri u ni B Hk) as Hkb. pose proof (ly_count _ _ _ _ _ _ _ Y) as Hct.
  destruct (bu_root _ _ _ _ _ _ _ _ _ _ B) as [Hri H3]. destruct (Hname) as [Hby Hlen].
  unfold allocdirentry. rewrite (proj2 (Z.ltb_ge _ _)) by (ospfs_consts; lia). cbn [fst snd].
  apply wp_bind, (wp_u_load32 s m H (bu_cached _ _ _ _ _ _ _ _ _ _ B) ri 3); [done|unfold oi_size; lia..|].
  change (1024 * 3 + oi_size 64) with (oi_size root). rewrite (ly_size _ _ _ _ _ _ _ Y).
  replace (s32 (u32 (1024 * k + OSPFS_BLKSIZE - 1) / OSPFS_BLKSIZE) - 1) with (k - 1).
  2: { unfold OSPFS_BLKSIZE. rewrite u32_small by lia. rewrite s32_small by divlia. divlia. }
  apply wp_bind. destruct (decide (k = 0)) as [Hk0|Hk0].
  - unfold last_dirb. ospfs_consts. rewrite !(proj2 (Z.leb_gt _ _)) by lia. apply wp_ret, wp_bind.
    apply (wp_alloc_new name s m); [done|done|lia|done|apply io_only_refl|done].
  - apply (wp_last_dirb (3 + (nn + 15) / 16) H s m k 3 64 ri G); [lia|lia|done|lia|by apply B| |ospfs_consts; lia].
    intros j s1 C1 Hj1 Hio1. change (1024 * 3 + 64) with root in *. set (d := blk m root (RData (k - 1))) in *.
    apply wp_bind, wp_bind, (wp_free_entry ((d, BLOCK_DIR) :: H) s1 j); [lia|done|done|].
    destruct (Z.ltb_spec u (8 * k)) as [Hlt|Hge].
    + apply wp_ret. cbn [fst snd]. assert (Hne : (u =? 8 * k) = false) by (apply Z.eqb_neq; lia).
      assert (Hk' : k' = k) by (unfold k'; by rewrite Hne). assert (Hnx : nx = f_nextb s) by (unfold nx; by rewrite Hne).
      destruct (built_step nb nn k P s m H ri u ni (fun _ => False) s1 m ((d, BLOCK_DIR) :: H)) as (B1 & _ & _); try done.
      { intros n ty [[= -> ->]|Hn]%elem_of_cons; [right; apply holdable_data; lia|by left]. }
      { by right. }
      apply (wp_allocdirentry_finish name d j s1 m); rewrite ?Hk', ?Hnx, ?set_nextb_same; try done; [|by apply HQ].
      unfold d. f_equal. f_equal. divlia.
    + apply wp_bind, (wp_putblk s1 m H j d BLOCK_DIR); [done|done|]. intros s2 C2 Hio2.
      assert (Hio : io_only H s s2) by by eapply io_only_trans.
      destruct (built_step nb nn k P s m H ri u ni (fun _ => False) s2 m H) as (B2 & _ & _); try done; [by left|].
      apply (wp_alloc_new name s2 m); [done|done|lia|done|done|done].
Qed.
End Allocdirentry.
Arguments em_built {nb nn k P s H ri u ni name d j s' m'} _.
Arguments em_room {nb nn k P s H ri u ni name d j s' m'} _.
Arguments em_slot {nb nn k P s H ri u ni name d j s' m'} _.
Arguments em_io {nb nn k P s H ri u ni name d j s' m'} _.
Arguments em_place {nb nn k P s H ri u ni name d j s' m'} _.
Arguments em_name {nb nn k P s H ri u ni name d j s' m'} _ _ _ _.
