(* ===== verification/FmtWrite.v ===== *)
(** * ospfsformat: writing a file

    [writefile] makes an entry, takes the next inode and copies the bytes: the
    layout gains a file. *)

From S2P Require Import Prelude CMemory OspfsLayout OspfsAlloc OspfsTree OspfsWork OspfsGrow OspfsShrink OspfsSize OspfsIo OspfsDirSpec FmtCache Fmt FmtCacheSpec FmtStore FmtFile FmtBuild FmtDir.

(** ** Changes of the counters *)

(** Inodes and entries may be given up for use, and blocks too. *)
Lemma layout_reserve nn k P u ni nxt u' ni' nxt' m : layout nn k P u ni nxt m ->
  u <= u' <= 8 * k -> ni <= ni' <= nn -> nxt <= nxt' -> layout nn k P u' ni' nxt' m.
Proof.
  intros Y Hu Hi Hx. pose proof (ly_count _ _ _ _ _ _ _ Y). pose proof (ly_inodes _ _ _ _ _ _ _ Y).
  split; try apply Y; try lia.
  - intros r Hr. pose proof (ly_below _ _ _ _ _ _ _ Y r Hr). lia.
  - intros e He. apply (ly_blank _ _ _ _ _ _ _ Y). lia.
  - intros j p Hp. destruct (ly_file _ _ _ _ _ _ _ Y j p Hp) as (F & H1 & H2 & H3).
    split; [done|split; [done|split; [lia|done]]].
  - intros a Ha. apply Y. unfold inode_at in *. lia.
Qed.

Lemma built_reserve nb nn k P s m H ri u ni x u' ni' : built nb nn k P s m H ri u ni ->
  u <= u' <= 8 * k -> ni <= ni' <= nn -> f_nextb s <= x <= nb ->
  built nb nn k P (set_counters (f_nbitblock s) x ni' s) m H ri u' ni'.
Proof.
  intros B Hu Hi Hx. pose proof (bu_next _ _ _ _ _ _ _ _ _ _ B). pose proof (bu_nblocks _ _ _ _ _ _ _ _ _ _ B).
  split; cbn; try apply B; try done.
  - eapply layout_reserve; [apply B|lia..].
  - by apply (cached_globals s _ m H (bu_cached _ _ _ _ _ _ _ _ _ _ B)).
  - intros n ty Hn. pose proof (bu_held _ _ _ _ _ _ _ _ _ _ B n ty Hn). lia.
  - lia.
Qed.

(** A file is added. *)
Lemma layout_snoc nn k P ni nxt m p : let u := Z.of_nat (length P) in
  layout nn k P (u + 1) ni nxt m -> 3 + u <= ni -> nxt <= pl_lo p <= pl_hi p -> 3 + (nn + 15) / 16 <= nxt ->
  entry_at m u (2 + u) (pl_name p) -> file_at m (2 + u) p ->
  layout nn k (P ++ [p]) (u + 1) ni (pl_hi p) m.
Proof.
  intros u Y Hni Hp Hx He F. pose proof (ly_count _ _ _ _ _ _ _ Y). pose proof (ly_inodes _ _ _ _ _ _ _ Y).
  assert (Hsnoc : forall j q, (P ++ [p]) !! j = Some q -> P !! j = Some q \/ (Z.of_nat j = u /\ q = p)).
  { intros j q [Hq|[Hle Hq]]%lookup_app_Some; [by left|]. apply list_lookup_singleton_Some in Hq as [Hj <-].
    right. split; [unfold u; lia|done]. }
  split; try apply Y; rewrite ?length_app; cbn [length]; try (unfold u in *; lia).
  - intros r Hr. pose proof (ly_below _ _ _ _ _ _ _ Y r Hr). lia.
  - intros e q [Hq|[-> ->]]%Hsnoc; [by apply Y|done].
  - intros j q [Hq|[-> ->]]%Hsnoc.
    + destruct (ly_file _ _ _ _ _ _ _ Y j q Hq) as (F' & H1 & H2 & H3). split; [done|split; [done|split; [lia|done]]].
    + split; [done|]. split; [lia|]. split; [lia|]. intros r Hr. pose proof (ly_below _ _ _ _ _ _ _ Y r Hr). left. lia.
  - intros i j q q' Hij [Hq|[Hi ->]]%Hsnoc [Hq'|[Hj ->]]%Hsnoc.
    + by apply (ly_apart _ _ _ _ _ _ _ Y i j).
    + destruct (ly_file _ _ _ _ _ _ _ Y i q Hq) as (_ & _ & H2 & _). lia.
    + apply lookup_lt_Some in Hq'. unfold u in *. lia.
    + lia.
Qed.

(** ** An inode without blocks *)

Lemma no_blocks r : ~ live 0 r.
Proof. destruct r; cbn; lia. Qed.

Lemma empty_inode lo m oi : 3072 <= oi -> oi + 64 <= 1024 * lo -> (forall a, inode_slots oi a -> ld8 m a = 0) ->
  tree_in lo m oi (live 0).
Proof.
  intros H1 H2 Hz.
  assert (Hw : forall a, oi + 16 <= a -> a + 4 <= oi + 64 -> ld32 m a = 0).
  { intros a Ha Hb. unfold ld32. by rewrite !Hz by (unfold inode_slots, within; lia). }
  split; try (intros; exfalso; by eapply no_blocks).
  - done.
  - intros _. rewrite blk_ind. apply Hw; unfold oi_indirect; lia.
  - intros _. rewrite blk_ind2. apply Hw; unfold oi_indirect2; lia.
Qed.

(** ** A new inode *)

Section Opened.
Context (nb nn k : Z) (P : list placed) (H : holds) (ri j i : nat) (d : Z) (name : list Z) (nx0 : Z).
Let u : Z := Z.of_nat (length P).
Let ni : Z := 2 + u.
Let b : Z := 3 + ni / 16.
Let HH : holds := (b, BLOCK_INODES) :: (d, BLOCK_DIR) :: H.
Context (Hname : name_ok name).

(** The entry [u] names the inode [ni]; the blocks of both are in use, and the
    next block is [nx]; the file's own blocks start at [nx0]. *)
Record opened (nx : Z) (s : fmt) (m : mem) : Prop := Opened {
  op_built : built nb nn k P s m HH ri (u + 1) (ni + 1);
  op_ino : in_slot s i b;
  op_dir : in_slot s j d;
  op_entry : entry_at m u ni name;
  op_nextb : f_nextb s = nx;
  op_layout : layout nn k P (u + 1) (ni + 1) nx0 m;
  op_first : 3 + (nn + 15) / 16 <= nx0 <= nx
}.

Lemma inode_place : inode_at ni = 1024 * b + 64 * (ni mod 16) /\ 0 <= 64 * (ni mod 16) <= 960.
Proof. unfold inode_at, b. assert (0 <= ni) by (unfold ni, u; lia). divlia. Qed.

(** The new inode and the unused blocks are not protected. *)
Lemma new_inode_free nx m a : layout nn k P (u + 1) (ni + 1) nx m -> 3 + (nn + 15) / 16 <= nx ->
  inode_bytes ni a \/ from_block nx a ->
  ~ protected nn k P (u + 1) (ni + 1) m a /\ forall e, 0 <= e < 8 * k -> ~ entry_area m root e a.
Proof.
  intros Y Hx Ha. pose proof (ly_root _ _ _ _ _ _ _ Y) as T. destruct (tr_inode _ _ _ T) as [_ Htop].
  pose proof (ly_inodes _ _ _ _ _ _ _ Y) as Hni.
  assert (Hend : inode_at ni + 64 <= 1024 * (3 + (nn + 15) / 16)) by (unfold inode_at; divlia).
  assert (Hin : forall r, live k r -> ~ in_block (blk m root r) a).
  { intros r Hr Hb. pose proof (tr_range _ _ _ T r Hr). pose proof (ly_below _ _ _ _ _ _ _ Y r Hr).
    unfold in_block, inode_bytes, from_block, within in *. lia. }
  assert (He : forall e, 0 <= e < 8 * k -> ~ entry_area m root e a).
  { intros e He Hea%entry_in_block. apply (Hin (RData (e / 8))); [cbn; divlia|done]. }
  assert (Hi : forall y, 0 <= y -> y < ni -> ~ inode_bytes y a).
  { intros y Hy Hlt Hb. unfold inode_bytes, from_block, inode_at, within in *. lia. }
  split; [|done]. intros [[Hp|[[Hp|(q & Hq & _ & Hp)]|[(e & Hr & [[_ Hp]|[_ Hp]])|[(y & p & Hy & [Hp|Hp])|Hp]]]]|Hp].
  - apply (Hi 1); unfold ni, u in *; [lia|lia|done].
  - apply (Hi 1); [lia|unfold ni, u in *; lia|]. unfold inode_slots, inode_bytes, within in *. lia.
  - by apply (Hin q).
  - by apply (He e).
  - apply (He e Hr). unfold word_at, entry_area, od_ino, within in *. lia.
  - pose proof (lookup_lt_Some _ _ _ Hy). apply (Hi (2 + Z.of_nat y)); [lia|unfold ni, u; lia|done].
  - destruct (ly_file _ _ _ _ _ _ _ Y y p Hy) as (_ & H1 & H2 & _).
    unfold blocks_between, inode_bytes, from_block, within in *. lia.
  - unfold inode_bytes, from_block, inode_at, within in *. lia.
  - unfold in_block, inode_bytes, from_block, inode_at, within in *. lia.
Qed.

Lemma opened_step nx nx' A s m s' m' : opened nx s m -> nx <= nx' <= nb -> changes A m m' ->
  (forall a, A a -> inode_bytes ni a \/ from_block nx0 a) -> cached s' m' HH -> io_only HH (set_nextb nx' s) s' ->
  opened nx' s' m'.
Proof.
  intros [B Hi Hj He En Y0 Hx0] Hx Hch HA C Hio. pose proof (bu_next _ _ _ _ _ _ _ _ _ _ B) as Hnx. rewrite En in Hnx.
  pose proof (ly_count _ _ _ _ _ _ _ (bu_layout _ _ _ _ _ _ _ _ _ _ B)) as Hct.
  pose proof (bu_layout _ _ _ _ _ _ _ _ _ _ B) as Y. rewrite En in Y.
  assert (Hfree : forall a, A a -> ~ protected nn k P (u + 1) (ni + 1) m a /\ forall e, 0 <= e < 8 * k -> ~ entry_area m root e a).
  { intros a Ha. eapply (new_inode_free nx0); [done|lia|by apply HA]. }
  assert (B2 : built nb nn k P (set_nextb nx' s) m HH ri (u + 1) (ni + 1)).
  { unfold set_nextb. rewrite (bu_nextinode _ _ _ _ _ _ _ _ _ _ B). apply (built_reserve nb nn k P s m HH ri (u + 1) (ni + 1)); [done|lia|pose proof (ly_inodes _ _ _ _ _ _ _ Y); lia|lia]. }
  destruct (built_step nb nn k P (set_nextb nx' s) m HH ri (u + 1) (ni + 1) A s' m' HH) as (B' & Hk & Hd); try done.
  - intros a Ha. by apply Hfree.
  - by left.
  - apply B.
  - destruct (io_only_globals _ _ _ Hio) as (_ & _ & _ & E4 & _). split; [done| | | |done| |lia].
    + apply (io_slots _ _ _ Hio i b BLOCK_INODES); [by left|done].
    + apply (io_slots _ _ _ Hio j d BLOCK_DIR); [by right; left|done].
    + assert (Hu : 0 <= u < 8 * k) by (unfold u in *; lia). apply (entry_kept m); [| |apply Hname|done].
      * apply Hk. apply (attachable_member m root _ (ly_root _ _ _ _ _ _ _ Y)). cbn. divlia.
      * intros a Ha. apply Hch. intros HAa. destruct (Hfree a HAa) as [_ Hf]. by apply (Hf u).
    + eapply layout_frame; [done|apply B|done|]. intros a Ha Hp. apply (Hfree a Ha). by left.
Qed.

(** A word of the inode's head is stored. *)
Lemma wp_store_head nx s m o v fu (Q : unit -> fmt -> Prop) : opened nx s m -> 0 <= o <= 60 ->
  (forall s', opened nx s' (st32 m (inode_at ni + o) v) -> Q tt s') -> wp (u_store32 i (64 * (ni mod 16) + o) v) fu s Q.
Proof.
  intros O Ho HQ. destruct inode_place as [Hpl Hoff]. pose proof (bu_next _ _ _ _ _ _ _ _ _ _ (op_built _ _ _ O)).
  pose proof (bu_nblocks _ _ _ _ _ _ _ _ _ _ (op_built _ _ _ O)). pose proof (op_nextb _ _ _ O).
  apply (wp_u_store32 s m HH (bu_cached _ _ _ _ _ _ _ _ _ _ (op_built _ _ _ O)) i b); [apply O|lia|lia|].
  replace (1024 * b + (64 * (ni mod 16) + o)) with (inode_at ni + o) by lia. intros s' C Hio _. apply HQ.
  apply (opened_step nx nx (word_at (inode_at ni + o)) s m); [done|lia|by apply changes_st32| |done|].
  - intros a Ha. left. unfold word_at, inode_bytes, within in *. lia.
  - replace nx with (f_nextb s). by rewrite set_nextb_same.
Qed.

Lemma wp_load_head nx s m o fu (Q : Z -> fmt -> Prop) : opened nx s m -> 0 <= o <= 60 ->
  Q (ld32 m (inode_at ni + o)) s -> wp (u_load32 i (64 * (ni mod 16) + o)) fu s Q.
Proof.
  intros O Ho HQ. destruct inode_place as [Hpl Hoff].
  apply (wp_u_load32 s m HH (bu_cached _ _ _ _ _ _ _ _ _ _ (op_built _ _ _ O)) i b); [apply O|lia|lia|].
  by replace (1024 * b + (64 * (ni mod 16) + o)) with (inode_at ni + o) by lia.
Qed.
End Opened.
Arguments op_built {nb nn k P H ri j i d name nx0 nx s m} _.
Arguments op_ino {nb nn k P H ri j i d name nx0 nx s m} _.
Arguments op_dir {nb nn k P H ri j i d name nx0 nx s m} _.
Arguments op_entry {nb nn k P H ri j i d name nx0 nx s m} _.
Arguments op_nextb {nb nn k P H ri j i d name nx0 nx s m} _.
Arguments op_layout {nb nn k P H ri j i d name nx0 nx s m} _.
Arguments op_first {nb nn k P H ri j i d name nx0 nx s m} _.

(** ** The inode of an entry *)

Section EntryInode.
Context (nb nn k : Z) (P : list placed) (s : fmt) (m : mem) (H : holds) (ri j : nat) (d : Z) (name : list Z).
Let u : Z := Z.of_nat (length P).
Let ni : Z := 2 + u.
Let b : Z := 3 + ni / 16.
Context (B : built nb nn k P s m ((d, BLOCK_DIR) :: H) ri u ni) (Hfew : (length H < 13)%nat) (Hu : u < 8 * k).
Context (Hj : in_slot s j d) (Hroom : ni < nn) (Hname : name_ok name).
Context (Hplace : dirent_at m root u = 1024 * d + 128 * (u mod 8)).
Context (Hbytes : forall x y, (name ++ [0]) !! x = Some y -> ld8 m (od_name (dirent_at m root u) + Z.of_nat x) = y).

Let s1 : fmt := set_counters (f_nbitblock s) (f_nextb s) (ni + 1) s.
Let m1 : mem := st32 m (od_ino (dirent_at m root u)) ni.

Lemma inode_reserved : built nb nn k P s1 m ((d, BLOCK_DIR) :: H) ri (u + 1) (ni + 1).
Proof.
  pose proof (bu_next _ _ _ _ _ _ _ _ _ _ B). pose proof (bu_nblocks _ _ _ _ _ _ _ _ _ _ B).
  apply (built_reserve nb nn k P s m _ ri u ni); [exact B|lia..].
Qed.

(** The number is stored in the entry. *)
Lemma inode_stored s2 : cached s2 m1 ((d, BLOCK_DIR) :: H) -> io_only ((d, BLOCK_DIR) :: H) s1 s2 ->
  built nb nn k P s2 m1 ((d, BLOCK_DIR) :: H) ri (u + 1) (ni + 1) /\ entry_at m1 u ni name.
Proof.
  intros C Hio. pose proof inode_reserved as B1. pose proof (bu_layout _ _ _ _ _ _ _ _ _ _ B1) as Y.
  destruct (bu_ninodes _ _ _ _ _ _ _ _ _ _ B) as [_ Hnn].
  assert (Hw : forall a, word_at (od_ino (dirent_at m root u)) a -> entry_area m root u a).
  { intros a. unfold word_at, od_ino, entry_area, within. lia. }
  destruct (built_step nb nn k P s1 m ((d, BLOCK_DIR) :: H) ri (u + 1) (ni + 1) (word_at (od_ino (dirent_at m root u))) s2 m1
    ((d, BLOCK_DIR) :: H)) as (B2 & _ & Hd); [done|by apply changes_st32| |done|done|by left|apply B1|].
  - intros a Ha. eapply (entry_free nn k P _ _ _ m u a Y); [unfold u in *; lia|by apply Hw|lia].
  - split; [done|]. specialize (Hd u ltac:(unfold u in *; lia)). split.
    + unfold entry_ino. rewrite Hd. unfold m1. rewrite ld32_st32_eq. apply u32_small. unfold ni, u in *. lia.
    + intros x y Hx. rewrite Hd. unfold m1. rewrite ld8_st32_ne; [by apply Hbytes|]. unfold od_name, od_ino. lia.
Qed.

(** The bytes of the new inode are zero, also after the entry was written. *)
Lemma inode_blank a : inode_bytes ni a -> ld8 m1 a = 0.
Proof.
  intros Ha. pose proof (bu_layout _ _ _ _ _ _ _ _ _ _ B) as Y. pose proof (ly_root _ _ _ _ _ _ _ Y) as T.
  assert (Hl : live k (RData (u / 8))) by (cbn; unfold u in *; divlia). pose proof (tr_range _ _ _ T _ Hl) as Hrg.
  assert (Hend : inode_at ni + 64 <= 1024 * (3 + (nn + 15) / 16)) by (unfold inode_at; divlia).
  assert (Hin : in_block (blk m root (RData (u / 8))) (od_ino (dirent_at m root u))).
  { apply entry_in_block. unfold entry_area, od_ino, within. lia. }
  unfold in_block, within in Hin. unfold inode_bytes, within in Ha. unfold m1. rewrite ld8_st32_ne by lia. apply Y. lia.
Qed.

(** The rule of [entry_inode] for a file without a hard link. *)
Lemma wp_entry_inode dg fu (Q : bool * (nat * Z) -> fmt -> Prop) :
  (forall i s' m', opened nb nn k P H ri j i d name (f_nextb s) (f_nextb s) s' m' -> inode_nlink m' ni = 1 ->
     (forall a, inode_slots (inode_at ni) a -> ld8 m' a = 0) -> Q (true, (i, 64 * (ni mod 16))) s') ->
  wp (entry_inode (j, 128 * (u mod 8)) 0 0 false dg) fu s Q.
Proof.
  intros HQ. destruct (bu_ninodes _ _ _ _ _ _ _ _ _ _ B) as [Hn Hnn]. pose proof (bu_layout _ _ _ _ _ _ _ _ _ _ B) as Y.
  pose proof (ly_inodes _ _ _ _ _ _ _ Y) as Hni. pose proof (bu_next _ _ _ _ _ _ _ _ _ _ B) as Hnx.
  pose proof (ca_nblocks _ _ _ (bu_cached _ _ _ _ _ _ _ _ _ _ B)) as Hnb.
  assert (Hm8 : 0 <= u mod 8 < 8) by (apply Z.mod_pos_bound; lia).
  assert (Hb3 : 3 <= b < 3 + (nn + 15) / 16) by (unfold b; unfold ni, u in *; divlia).
  unfold entry_inode. rewrite Z.eqb_refl. cbn [fst snd]. unfold allocinode.
  apply wp_bind, wp_bind, wp_get. rewrite Hn, (bu_nextinode _ _ _ _ _ _ _ _ _ _ B).
  rewrite (proj2 (Z.eqb_neq _ _)) by lia. apply wp_bind, wp_put, wp_bind. rewrite (u32_small (ni + 1)) by lia. fold s1.
  pose proof inode_reserved as B1.
  apply (wp_u_store32 s1 m ((d, BLOCK_DIR) :: H) (bu_cached _ _ _ _ _ _ _ _ _ _ B1) j d); [done|unfold od_ino; lia..|].
  unfold od_ino at 1. rewrite <- Hplace. change (st32 m (dirent_at m root u) ni) with m1. intros s2 C2 Hio2 Hj2.
  destruct (inode_stored s2 C2 Hio2) as [B2 E2]. apply wp_bind.
  assert (Hsup : u32 (s_firstinob (f_super s) + ni / OSPFS_BLKINODES) = b).
  { rewrite (bu_super _ _ _ _ _ _ _ _ _ _ B). cbn [s_firstinob]. change OSPFS_BLKINODES with 16. unfold b in *. rewrite u32_small by lia. done. }
  rewrite Hsup. destruct (io_only_globals _ _ _ Hio2) as (E1 & _ & _ & E4 & _). cbn in E1, E4.
  apply (wp_getblk s2 m1 ((d, BLOCK_DIR) :: H) C2); [cbn; lia|lia| |].
  { intros ty Hty. by apply (bu_table _ _ _ _ _ _ _ _ _ _ B2 b ty). }
  intros i s3 C3 Hi3 Hio3. cbn [cleared] in C3. apply wp_ret. cbv beta iota. cbn [fst snd].
  destruct (built_step nb nn k P s2 m1 ((d, BLOCK_DIR) :: H) ri (u + 1) (ni + 1) (fun _ => False) s3 m1
    ((b, BLOCK_INODES) :: (d, BLOCK_DIR) :: H)) as (B3 & _ & _); try done; [| |].
  { intros n ty [[= -> ->]|Ht]%elem_of_cons; [right|by left].
    pose proof (ly_root _ _ _ _ _ _ _ (bu_layout _ _ _ _ _ _ _ _ _ _ B2)) as T. split; [lia|]. split; [done|].
    split; [intros r Hr _ He; pose proof (tr_range _ _ _ T r Hr); lia|].
    intros x Hx He. pose proof (tr_range _ _ _ T (RData x) ltac:(cbn; lia)). lia. }
  { right. apply B2. }
  assert (O : opened nb nn k P H ri j i d name (f_nextb s) (f_nextb s) s3 m1).
  { destruct (io_only_globals _ _ _ Hio3) as (_ & _ & _ & F4 & _). pose proof (bu_layout _ _ _ _ _ _ _ _ _ _ B3) as Y3.
    replace (f_nextb s3) with (f_nextb s) in Y3 by lia. split; [done|done|slot_chain|done|lia|done|lia]. }
  apply wp_bind, (wp_store_head nb nn k P H ri j i d name (f_nextb s) Hname (f_nextb s) s3 m1 8 1); [done|lia|].
  intros s4 O4. apply wp_bind, wp_ret, wp_ret, (HQ i s4 _ O4).
  - apply ld32_st32_eq.
  - intros a Ha. unfold inode_slots, ni, u, within in Ha. rewrite ld8_st32_ne by lia.
    apply inode_blank. unfold inode_bytes, ni, u, within. lia.
Qed.
End EntryInode.

(** ** The bytes of a file *)

Section Fill.
Context (nb nn k : Z) (P : list placed) (H : holds) (ri j i : nat) (d : Z) (name data : list Z) (nx : Z).
Let u : Z := Z.of_nat (length P).
Let ni : Z := 2 + u.
Let b : Z := 3 + ni / 16.
Let HH : holds := (b, BLOCK_INODES) :: (d, BLOCK_DIR) :: H.
Let len : Z := Z.of_nat (length data).
Context (Hname : name_ok name) (Hfew : (length H < 12)%nat) (Hdata : bytes data) (Hroom : nx + blocks_needed len <= nb).

Abbreviation opened := (opened nb nn k P H ri j i d name nx).

Definition new_file : placed := Placed name data nx (nx + tree_size (blocks_of len)).

Lemma opened_growing s m : opened nx s m -> (forall a, inode_slots (inode_at ni) a -> ld8 m a = 0) ->
  growing nx (live 0) HH s m (inode_at ni).
Proof.
  intros O Hz. pose proof (op_built O) as B. pose proof (op_nextb O) as En.
  pose proof (ly_inodes _ _ _ _ _ _ _ (bu_layout _ _ _ _ _ _ _ _ _ _ B)) as Hni. pose proof (bu_next _ _ _ _ _ _ _ _ _ _ B) as Hnx.
  fold u in Hni. split.
  - apply B.
  - apply empty_inode; [unfold inode_at; lia|unfold inode_at, ni in *; divlia|done].
  - intros r Hr. by destruct (no_blocks r).
  - lia.
  - apply B.
  - intros r ty Hr. by destruct (no_blocks r).
Qed.

(** The file after its blocks were copied ([s1], [m1]) and its size was stored. *)
Lemma filled s0 m0 s1 m1 : opened nx s0 m0 -> in_slot s0 i b ->
  copied s0 m0 HH b (64 * (ni mod 16)) data (blocks_of len) len s1 m1 ->
  ld32 m0 (oi_ftype (inode_at ni)) = OSPFS_FTYPE_REG -> inode_nlink m0 ni = 1 ->
  file_at (st32 m1 (oi_size (inode_at ni)) len) ni new_file.
Proof.
  intros O Hi D Hty Hnl. set (m2 := st32 _ _ _). destruct (inode_place P) as [Hpl Hoff]. fold u ni b in Hpl, Hoff.
  pose proof (op_nextb O) as En. pose proof (cp_growing _ _ _ _ _ _ _ _ _ _ D) as G.
  destruct (io_only_globals _ _ _ (cp_io _ _ _ _ _ _ _ _ _ _ D)) as (_ & _ & _ & E4 & _). cbn in E4.
  pose proof (cp_changes _ _ _ _ _ _ _ _ _ _ D) as Hch. pose proof (cp_bytes _ _ _ _ _ _ _ _ _ _ D) as Hby.
  rewrite <- Hpl in G, Hch, Hby. rewrite En in *. pose proof (gw_tree _ _ _ _ _ _ G) as T. destruct (tr_inode _ _ _ T) as [_ Htop].
  set (n := blocks_of len) in *. assert (Hlen : 0 <= len < 2 ^ 32).
  { unfold len, blocks_needed, n, blocks_of in *. pose proof (tree_size_ge ((len + 1023) / 1024) ltac:(unfold len; divlia)).
    unfold len in *. pose proof (nextb_bound _ _ _ _ _ _ G). pose proof (bu_next _ _ _ _ _ _ _ _ _ _ (op_built O)).
    pose proof (bu_nblocks _ _ _ _ _ _ _ _ _ _ (op_built O)).
    pose proof (ca_nblocks _ _ _ (gw_cached _ _ _ _ _ _ G)). destruct (_ mod _ =? 0) in Hroom; divlia. }
  destruct (tree_in_frame m1 (inode_at ni) _ T (word_at (oi_size (inode_at ni))) m2) as (T2 & Hk); [by apply changes_st32| |].
  { intros a [Ha|(q & Hq & _ & Ha)] Hw.
    - unfold inode_slots, word_at, oi_size, within in *. lia.
    - pose proof (tr_range _ _ _ T q Hq). unfold in_block, word_at, oi_size, within in *. lia. }
  assert (Hkb : forall r, live n r -> blk m2 (inode_at ni) r = blk m1 (inode_at ni) r).
  { intros r Hr. apply Hk. by apply (attachable_member m1 (inode_at ni) _ T). }
  assert (Hw : forall x, inode_at ni + 4 <= x -> x + 4 <= inode_at ni + 16 -> ld32 m2 x = ld32 m0 x).
  { intros x H1 H2. unfold m2. rewrite ld32_st32_ne by (unfold oi_size; lia). apply (changes_ld32 _ _ _ _ Hch).
    intros a Ha. unfold inode_slots, from_block, within in *. lia. }
  split; unfold pl_len; cbn [pl_data pl_lo pl_hi new_file]; fold len n.
  - done.
  - intros r Hr. rewrite Hkb by done. pose proof (gw_below _ _ _ _ _ _ G r Hr). lia.
  - unfold m2. rewrite ld32_st32_eq. by apply u32_small.
  - rewrite Hw by (unfold oi_ftype; lia). done.
  - unfold inode_nlink. rewrite Hw by (unfold oi_nlink; lia). done.
  - intros x Hx. rewrite Hby by done. f_equal. unfold file_byte.
    assert (Hlv : live n (RData (x / 1024))) by (cbn; unfold n, blocks_of; divlia). rewrite Hkb by done.
    pose proof (tr_range _ _ _ T _ Hlv). unfold m2. rewrite ld8_st32_ne; [done|]. unfold oi_size. divlia.
Qed.

(** The rest of the program for a new inode, in [writefile]. *)
Lemma wp_fill s m mode f fu (Q : unit -> fmt -> Prop) : opened nx s m -> inode_nlink m ni = 1 ->
  (forall a, inode_slots (inode_at ni) a -> ld8 m a = 0) -> readable f -> left f = data ->
  (Z.to_nat (blocks_of len) + 1026 < fu)%nat ->
  (forall s' m', opened (pl_hi new_file) s' m' -> file_at m' ni new_file -> Q tt s') ->
  wp (u_store32 i (oi_ftype (64 * (ni mod 16))) OSPFS_FTYPE_REG;;
      u_store32 i (oi_mode (64 * (ni mod 16))) mode;;
      size ← copy_blocks (i, 64 * (ni mod 16)) f;
      u_store32 i (oi_size (64 * (ni mod 16))) size) fu s Q.
Proof.
  intros O Hnl Hz Hf Hleft Hfu HQ. destruct (inode_place P) as [Hpl Hoff]. fold u ni b in Hpl, Hoff.
  apply wp_bind, (wp_store_head nb nn k P H ri j i d name _ Hname nx s m 4 OSPFS_FTYPE_REG _ _ O); [lia|]. intros s1 O1.
  apply wp_bind, (wp_store_head nb nn k P H ri j i d name _ Hname nx s1 _ 12 mode _ _ O1); [lia|]. intros s2 O2. fold u ni in O1, O2.
  set (m2 := st32 _ (inode_at ni + 12) mode) in *.
  assert (Hsl : forall a, inode_slots (inode_at ni) a -> ld8 m2 a = 0).
  { intros a Ha. unfold m2. rewrite !ld8_st32_ne by (unfold inode_slots, within in *; lia). by apply Hz. }
  assert (Hty : ld32 m2 (oi_ftype (inode_at ni)) = OSPFS_FTYPE_REG).
  { unfold m2. rewrite ld32_st32_ne by (unfold oi_ftype; lia). apply ld32_st32_eq. }
  assert (Hnl2 : inode_nlink m2 ni = 1).
  { unfold inode_nlink in *. unfold m2. by rewrite !ld32_st32_ne by (unfold oi_nlink; lia). }
  clearbody m2. clear O O1. pose proof (opened_growing s2 m2 O2 Hsl) as G. rewrite Hpl in G.
  pose proof (op_nextb O2) as En. pose proof (op_built O2) as B2.
  apply wp_bind, (wp_copy_blocks s2 m2 HH b (64 * (ni mod 16)) i data); try done.
  - by rewrite En.
  - cbn. lia.
  - apply O2.
  - by left.
  - lia.
  - rewrite En, (bu_nblocks _ _ _ _ _ _ _ _ _ _ B2). done.
  - intros s3 m3 D. pose proof (cp_growing _ _ _ _ _ _ _ _ _ _ D) as G3. pose proof (cp_io _ _ _ _ _ _ _ _ _ _ D) as Hio3. rewrite En in *. fold len in D, G3, Hio3.
    pose proof (filled s2 m2 s3 m3 O2 (op_ino O2) D Hty Hnl2) as F.
    assert (O3 : opened (pl_hi new_file) s3 m3).
    { eapply (opened_step nb nn k P H ri j i d name nx Hname nx (pl_hi new_file) _ s2 m2 s3 m3 O2); [|apply D| |apply G3|done].
      - cbn [pl_hi new_file]. assert (0 <= blocks_of len) as Hb0 by (unfold blocks_of, len; divlia).
        pose proof (tree_size_ge _ Hb0). unfold blocks_needed in Hroom. destruct (len mod 1024 =? 0); lia.
      - fold u ni b. rewrite <- Hpl. intros a [Ha|Ha]; [left|by right; rewrite En in Ha].
        unfold inode_slots, inode_bytes, within in *. lia. }
    replace (oi_size (64 * (ni mod 16))) with (64 * (ni mod 16) + 0) by (unfold oi_size; lia).
    apply (wp_store_head nb nn k P H ri j i d name _ Hname _ s3 m3 0 len _ _ O3); [lia|]. intros s4 O4. apply (HQ s4 _ O4).
    unfold oi_size in F. fold u ni. by rewrite Z.add_0_r.
Qed.
End Fill.

(** ** writefile *)

Section Writefile.
Context (nb nn k : Z) (P : list placed) (s : fmt) (m : mem) (H : holds) (ri : nat) (name data : list Z).
Let u : Z := Z.of_nat (length P).
Let ni : Z := 2 + u.
Let len : Z := Z.of_nat (length data).
Context (B : built nb nn k P s m H ri u ni) (Hfew : (length H < 11)%nat) (Hk : 0 <= k) (Hfull : 8 * k <= u + 8).

(** The root's blocks afterwards, and the first block of the file. *)
Definition root_blocks_after : Z := if u =? 8 * k then k + 1 else k.
Definition next_after : Z := if u =? 8 * k then f_nextb s + 1 + index_blocks k else f_nextb s.

Context (Hname : name_ok (basename name)) (Hdata : bytes data) (Hinode : ni < nn).
Context (Hroom : next_after + blocks_needed len <= nb).

Definition written : placed := new_file (basename name) data next_after.

(** What the image has when the file is in place and nothing but [H] is in use. *)
Lemma writefile_placed j i d s1 m1 s2 :
  opened nb nn root_blocks_after P H ri j i d (basename name) next_after (pl_hi written) s1 m1 -> file_at m1 ni written ->
  cached s2 m1 H -> io_only H s1 s2 ->
  built nb nn root_blocks_after (P ++ [written]) s2 m1 H ri (u + 1) (ni + 1) /\ f_nextb s2 = pl_hi written.
Proof.
  intros O F C Hio. pose proof (op_built O) as B1. pose proof (bu_layout _ _ _ _ _ _ _ _ _ _ B1) as Y1.
  destruct (io_only_globals _ _ _ Hio) as (E1 & E2 & E3 & E4 & E5 & E6 & E7 & E8). pose proof (op_nextb O) as En.
  pose proof (op_first O) as Hx0. pose proof (ly_inodes _ _ _ _ _ _ _ Y1).
  assert (Hn : forall n ty, (n, ty) ∈ H -> (n, ty) ∈ (3 + (2 + Z.of_nat (length P)) / 16, BLOCK_INODES) :: (d, BLOCK_DIR) :: H)
    by (intros n ty Hin; by right; right).
  assert (Y : layout nn root_blocks_after (P ++ [written]) (u + 1) (ni + 1) (pl_hi written) m1).
  { assert (0 <= blocks_of len) as Hb0 by (unfold blocks_of, len; divlia). pose proof (tree_size_ge _ Hb0).
    eapply layout_snoc; [apply (op_layout O)|unfold ni; fold u; lia|cbn [pl_lo pl_hi written new_file]; fold len; lia|lia| |done]. apply (op_entry O). }
  split; [|by rewrite E4, En]. rewrite <- En in Y.
  split; rewrite ?E1, ?E2, ?E3, ?E4, ?E5, ?E6, ?E7; try apply B1; try done.
  - intros i' q [Hq|[_ Hq]]%lookup_app_Some; [by apply (bu_names _ _ _ _ _ _ _ _ _ _ B i')|].
    by apply list_lookup_singleton_Some in Hq as [_ <-].
  - destruct (bu_root _ _ _ _ _ _ _ _ _ _ B) as [_ H3]. split; [|done].
    apply (io_slots _ _ _ Hio ri 3 BLOCK_INODES); [done|apply B1].
  - intros n ty Hin. by apply (bu_held _ _ _ _ _ _ _ _ _ _ B1 n ty), Hn.
  - intros n ty Hin. by apply (bu_table _ _ _ _ _ _ _ _ _ _ B1 n ty), Hn.
  - intros r ty Hr Hix Hin. by apply (bu_index _ _ _ _ _ _ _ _ _ _ B1 r ty), Hn.
  - intros x ty Hx Hin. by apply (bu_data _ _ _ _ _ _ _ _ _ _ B1 x ty), Hn.
Qed.

(** The rule of [writefile] for a file that can be read and has no hard link. *)
Lemma wp_writefile sizes mode fu (Q : unit -> fmt -> Prop) : Forall (fun c => 0 <= c) sizes ->
  (Z.to_nat (blocks_of len) + 1026 < fu)%nat ->
  (forall s' m', built nb nn root_blocks_after (P ++ [written]) s' m' H ri (u + 1) (ni + 1) ->
     f_nextb s' = pl_hi written -> Q tt s') ->
  wp (writefile (ri, 64) name (Some data) sizes 0 mode) fu s Q.
Proof.
  intros Hsz Hfu HQ. unfold writefile, deref.
  assert (Hnx : next_after <= nb).
  { assert (0 <= blocks_of len) as Hb0 by (unfold blocks_of, len; divlia). pose proof (tree_size_ge _ Hb0).
    unfold blocks_needed in Hroom. destruct (len mod 1024 =? 0); lia. }
  apply wp_bind, (wp_allocdirentry nb nn k P s m H ri u ni B ltac:(lia) Hk eq_refl Hfull (basename name)); [done|done|].
  intros d j s1 m1 E. destruct (io_only_globals _ _ _ (em_io E)) as (_ & _ & _ & E4 & _). cbn in E4. fold next_after in E4.
  pose proof (em_built E) as B1. fold root_blocks_after in B1. pose proof (em_room E) as Hu1. fold root_blocks_after in Hu1.
  apply wp_bind, wp_get. rewrite (bu_plain _ _ _ _ _ _ _ _ _ _ B1).
  apply wp_bind, wp_ret. cbn [negb orb Z.eqb chunks]. apply wp_bind, wp_ret. cbn [fst snd].
  apply wp_bind, (wp_entry_inode nb nn root_blocks_after P s1 m1 H ri j d (basename name) B1); [lia|done|apply E|done|done|apply E|apply E|].
  intros i s2 m2 O Hnl Hz. unfold when. cbn [fst snd]. rewrite E4 in O. fold u ni in Hnl, Hz, O |- *.
  apply wp_bind, (wp_fill nb nn root_blocks_after P H ri j i d (basename name) data next_after Hname ltac:(lia) Hdata Hroom s2 m2 mode); try done.
  intros s3 m3 O3 F3. pose proof (bu_cached _ _ _ _ _ _ _ _ _ _ (op_built O3)) as C3.
  apply wp_bind, (wp_putblk s3 m3 ((3 + (2 + u) / 16, BLOCK_INODES) :: H) j d BLOCK_DIR);
    [eapply cached_perm; [apply Permutation_swap|exact C3]|apply O3|]. intros s4 C4 Hio4.
  apply (wp_putblk s4 m3 H i (3 + (2 + u) / 16) BLOCK_INODES); [exact C4| |].
  { apply (io_slots _ _ _ Hio4 i _ BLOCK_INODES); [by left|apply O3]. }
  intros s5 C5 Hio5. destruct (writefile_placed j i d s3 m3 s5 O3 F3 C5) as [B5 En5]; [io_chain|]. by apply (HQ s5 m3).
Qed.
End Writefile.

