(* ===== verification/FmtFinish.v ===== *)
(** * ospfsformat: finishing the image

    [opendisk] blanks the bitmap and the inode table, [make_root] makes the first
    two inodes, and [finishfs] marks the blocks that were used and writes the
    superblock. *)

From S2P Require Import Prelude CMemory OspfsLayout OspfsAlloc OspfsTree OspfsWork OspfsGrow OspfsShrink OspfsSize OspfsIo OspfsDirSpec FmtCache Fmt FmtCacheSpec FmtStore FmtFile FmtBuild FmtDir FmtWrite.

(** ** The bitmap *)

(** A bitmap of ones. *)
Lemma bit_of_ones m i : (forall a, in_block 2 a -> ld8 m a = 255) -> 0 <= i < 8192 -> bit m 2048 i = true.
Proof.
  intros H Hi. unfold bit. assert (ld32 m (2048 + 4 * (i / 32)) = Z.ones 32) as ->.
  { unfold ld32. rewrite !H by (unfold in_block, within; divlia). done. }
  apply Z.ones_spec_low. divlia.
Qed.

Lemma wp_clear_bit s m H i j fu (Q : unit -> fmt -> Prop) : cached s m H -> in_slot s j 2 -> 0 <= i < 8192 ->
  (forall s' m', cached s' m' H -> io_only H s s' -> in_slot s' j 2 -> changes (in_block 2) m m' ->
     (forall x, 0 <= x -> bit m' 2048 x = if decide (x = i) then false else bit m 2048 x) -> Q tt s') ->
  wp (clear_bit j i) fu s Q.
Proof.
  intros C Hj Hi HQ. unfold clear_bit.
  apply wp_bind, (wp_u_load32 s m H C j 2); [done|divlia|divlia|].
  apply (wp_u_store32 s m H C j 2); [done|divlia|divlia|]. intros s' C' Hio Hj'. change (1024 * 2) with 2048 in *.
  apply (HQ s' _ C'); [done|done| |].
  - apply changes_st32. unfold in_block, within. intros a Ha. divlia.
  - apply bit_update; [lia|]. intros x Hx.
    rewrite Z.land_spec, testbit_u32, Z.lnot_spec, testbit_pow2 by divlia.
    case_decide; case_bool_decide; try done; by rewrite ?andb_true_r, ?andb_false_r.
Qed.

Section Finish.
Context (nb nn : Z) (s : fmt) (m : mem) (C : cached s m []).
Context (Hnb : f_nblocks s = nb) (Hbit : f_nbitblock s = 1) (Hnext : 3 <= f_nextb s <= nb) (Hmin : 3 < nb).
Context (Hones : forall a, in_block 2 a -> ld8 m a = 255) (Hsuper : f_super s = OspfsSuper OSPFS_MAGIC nb nn 3).

(** The bits that are still set, given by [P]. *)
Definition cleared_to (P : Z -> bool) (H : holds) (t : fmt) : Prop :=
  exists m', cached t m' H /\ io_only [] s t /\ changes (in_block 2) m m' /\
    forall x, 0 <= x < 8192 -> bit m' 2048 x = P x.

Lemma wp_clear_one P Q' H t j i fu : cleared_to P H t -> in_slot t j 2 -> 0 <= i < 8192 ->
  (forall x, 0 <= x < 8192 -> Q' x = if decide (x = i) then false else P x) ->
  (exists ty, (2, ty) ∈ H) ->
  wp (clear_bit j i) fu t (fun _ t' => cleared_to Q' H t' /\ in_slot t' j 2).
Proof.
  intros (m' & C' & Hio & Hch & Hb) Hj Hi HQ' [ty Hty]. apply (wp_clear_bit t m' H i j); [done..|].
  intros t2 m2 C2 Hio2 Hj2 Hch2 Hb2. split; [|done]. exists m2. split; [done|].
  split; [eapply io_only_trans; [done|]; eapply io_only_sub, Hio2; by intros n y Hn%not_elem_of_nil|].
  split; [by eapply changes_trans|]. intros x Hx. rewrite Hb2, HQ' by lia. case_decide; [done|by apply Hb].
Qed.

(** The bitmap's block is got and put back around a change. *)
Lemma cleared_to_getblk P t fu (Q : nat -> fmt -> Prop) : cleared_to P [] t ->
  (forall j t', cleared_to P [(2, BLOCK_BITS)] t' -> in_slot t' j 2 -> Q j t') -> wp (getblk 2 false BLOCK_BITS) fu t Q.
Proof.
  intros (m' & C' & Hio & Hch & Hb) HQ. destruct (io_only_globals _ _ _ Hio) as (E1 & _).
  apply (wp_getblk t m' [] C'); [cbn; lia|lia|by intros ty Hn%not_elem_of_nil|]. intros j t' C2 Hj Hio2.
  apply HQ; [|done]. exists m'. split; [done|]. split; [by eapply io_only_trans|done].
Qed.

Lemma cleared_to_putblk P t j fu (Q : unit -> fmt -> Prop) : cleared_to P [(2, BLOCK_BITS)] t -> in_slot t j 2 ->
  (forall t', cleared_to P [] t' -> Q tt t') -> wp (putblk j) fu t Q.
Proof.
  intros (m' & C' & Hio & Hch & Hb) Hj HQ. apply (wp_putblk t m' [] j 2 BLOCK_BITS); [done|done|].
  intros t' C2 Hio2. apply HQ. exists m'. split; [done|]. split; [by eapply io_only_trans|done].
Qed.

Lemma cleared_to_ext P P' H t : cleared_to P H t -> (forall x, 0 <= x < 8192 -> P x = P' x) -> cleared_to P' H t.
Proof.
  intros (m' & C' & Hio & Hch & Hb) He. exists m'. do 3 (split; [done|]). intros x Hx. by rewrite Hb, He.
Qed.

(** The blocks that were used. *)
Lemma wp_clear_used fu (Q : unit -> fmt -> Prop) :
  (forall t, cleared_to (fun x => f_nextb s <=? x) [] t -> Q tt t) ->
  wp (for_each (seqZ 0 (f_nextb s)) (fun i =>
    b ← getblk (OSPFS_FREEMAP_BLK + i / OSPFS_BLKBITSIZE) false BLOCK_BITS;
    clear_bit b (i mod OSPFS_BLKBITSIZE);;
    putblk b)) fu s Q.
Proof.
  intros HQ. pose proof (ca_nblocks _ _ _ C).
  apply (wp_for_each (fun k t => cleared_to (fun x => Z.of_nat k <=? x) [] t)).
  - exists m. split; [done|]. split; [apply io_only_refl|]. split; [done|]. intros x Hx. rewrite bit_of_ones by done.
    symmetry. apply Z.leb_le. lia.
  - intros k i t Hk It. apply lookup_seqZ in Hk as [-> Hk]. change OSPFS_FREEMAP_BLK with 2. change OSPFS_BLKBITSIZE with 8192.
    replace (2 + (0 + Z.of_nat k) / 8192) with 2 by divlia. replace ((0 + Z.of_nat k) mod 8192) with (Z.of_nat k) by divlia.
    apply wp_bind, (cleared_to_getblk _ t fu _ It). intros j t1 I1 Hj1. apply wp_bind.
    eapply wp_mono; [apply (wp_clear_one _ (fun x => Z.of_nat (Datatypes.S k) <=? x) _ t1 j (Z.of_nat k) fu I1 Hj1); [lia| |exists BLOCK_BITS; by left]|].
    + intros x Hx. case_decide; [apply Z.leb_gt; lia|]. zcases; lia.
    + intros [] t2 [I2 Hj2]. by apply (cleared_to_putblk _ t2 j fu _ I2).
  - intros t It. apply HQ. rewrite length_seqZ in It. eapply cleared_to_ext; [done|]. intros x Hx. by rewrite Z2Nat.id by lia.
Qed.

(** What the bitmap says in the end. *)
Definition unused (x : Z) : bool := (f_nextb s <=? x) && (x <? nb).

(** The bits past the end of the disk. *)
Lemma wp_clear_beyond t fu (Q : unit -> fmt -> Prop) : cleared_to (fun x => f_nextb s <=? x) [] t ->
  (forall t', cleared_to unused [] t' -> Q tt t') ->
  wp (if f_nblocks t =? u32 (f_nbitblock t * OSPFS_BLKBITSIZE) then mret tt
   else
     b ← getblk (u32 (OSPFS_FREEMAP_BLK + f_nbitblock t - 1)) false BLOCK_BITS;
     let first := f_nblocks t mod OSPFS_BLKBITSIZE in
     for_each (seqZ first (OSPFS_BLKBITSIZE - first)) (clear_bit b);;
     putblk b) fu t Q.
Proof.
  intros It HQ. pose proof (ca_nblocks _ _ _ C). pose proof It as (_ & _ & Hio & _).
  destruct (io_only_globals _ _ _ Hio) as (E1 & _ & E3 & _). rewrite E1, E3, Hbit, Hnb.
  change (u32 (1 * OSPFS_BLKBITSIZE)) with 8192. change (u32 (OSPFS_FREEMAP_BLK + 1 - 1)) with 2.
  change OSPFS_BLKBITSIZE with 8192. destruct (Z.eqb_spec nb 8192) as [He|Hne].
  - apply wp_ret, HQ. eapply cleared_to_ext; [done|]. intros x Hx. unfold unused.
    rewrite (proj2 (Z.ltb_lt x nb)) by lia. by rewrite andb_true_r.
  - apply wp_bind, (cleared_to_getblk _ t fu _ It). intros j t1 I1 Hj1. cbv zeta. replace (nb mod 8192) with nb by divlia.
    apply wp_bind, (wp_for_each (fun k t => cleared_to (fun x => (f_nextb s <=? x) && ((x <? nb) || (nb + Z.of_nat k <=? x))) [(2, BLOCK_BITS)] t /\ in_slot t j 2)).
    + split; [|done]. eapply cleared_to_ext; [done|]. intros x Hx. cbv beta. zcases; cbn; try done; lia.
    + intros k i t2 Hk [I2 Hj2]. apply lookup_seqZ in Hk as [-> Hk].
      apply (wp_clear_one _ _ _ t2 j (nb + Z.of_nat k) fu I2 Hj2); [lia| |exists BLOCK_BITS; by left].
      intros x Hx. cbv beta. case_decide; zcases; cbn; try done; lia.
    + intros t2 [I2 Hj2]. rewrite length_seqZ in I2. apply (cleared_to_putblk _ t2 j fu _ I2 Hj2). intros t3 I3. apply HQ.
      eapply cleared_to_ext; [done|]. intros x Hx. unfold unused. cbv beta. zcases; cbn; try done; lia.
Qed.

(** The finished image. *)
Record finished (m' : mem) : Prop := Finished {
  fi_super : load_super m' = OspfsSuper OSPFS_MAGIC nb nn 3;
  fi_free : forall x, 0 <= x < 8192 -> is_free m' x = unused x;
  fi_changes : changes (fun a => in_block 1 a \/ in_block 2 a) m m'
}.

(** The superblock, whose block is new ([m1] is zeroed there). *)
Lemma super_written m1 : 0 <= nb < 2 ^ 32 -> 0 <= nn < 2 ^ 32 ->
  changes (fun a => in_block 1 a \/ in_block 2 a) m m1 -> (forall x, 0 <= x < 8192 -> bit m1 2048 x = unused x) ->
  finished (st32 (st32 (st32 (st32 m1 1024 OSPFS_MAGIC) 1028 nb) 1032 nn) 1036 3).
Proof.
  intros Hb Hn Hch Hbits. split.
  - unfold load_super, os_magic, os_nblocks, os_ninodes, os_firstinob, ospfs_super, OSPFS_BLKSIZE.
    change (1024 + 4) with 1028. change (1024 + 8) with 1032. change (1024 + 12) with 1036.
    f_equal; repeat first [rewrite ld32_st32_eq|rewrite ld32_st32_ne by lia]; by apply u32_small.
  - intros x Hx. rewrite <- Hbits by done. unfold is_free. rewrite ospfs_block_small by (unfold OSPFS_FREEMAP_BLK; lia).
    change (1024 * OSPFS_FREEMAP_BLK) with 2048. unfold bit. by rewrite !ld32_st32_ne by divlia.
  - eapply changes_trans; [done|]. intros a Ha. rewrite !ld8_st32_ne; [done|..]; unfold in_block, within in Ha; lia.
Qed.

(** The rule of [finishfs]. *)
Lemma wp_finishfs fu (Q : unit -> fmt -> Prop) : 0 <= nn < 2 ^ 32 ->
  (forall s' m', cached s' m' [] -> io_only [] s s' -> finished m' -> Q tt s') -> wp finishfs fu s Q.
Proof.
  intros Hnn HQ. pose proof (ca_nblocks _ _ _ C). unfold finishfs.
  apply wp_bind, wp_get, wp_bind, wp_clear_used. intros t1 I1. apply wp_bind, wp_get, wp_bind, (wp_clear_beyond t1); [done|].
  intros t (m1 & C1 & Hio1 & Hch1 & Hb1). destruct (io_only_globals _ _ _ Hio1) as (E1 & _ & _ & _ & _ & E6 & _).
  apply wp_bind, wp_get, wp_bind, (wp_getblk t m1 [] C1); [cbn; lia|lia|by intros ty Hn%not_elem_of_nil|].
  intros j t2 C2 Hj2 Hio2. cbn [cleared] in C2. rewrite E6, Hsuper. cbn [s_magic s_nblocks s_ninodes s_firstinob].
  set (m2 := memset m1 (1024 * 1) 0 1024) in *.
  assert (Hch2 : changes (fun a => in_block 1 a \/ in_block 2 a) m m2).
  { eapply changes_trans; [eapply changes_weaken; [exact Hch1|by right]|]. intros a Ha. apply ld8_memset_out.
    unfold in_block, within in Ha. lia. }
  assert (Hb2 : forall x, 0 <= x < 8192 -> bit m2 2048 x = unused x).
  { intros x Hx. rewrite <- Hb1 by done. unfold bit, ld32, m2. by rewrite !ld8_memset_out by divlia. }
  clearbody m2. unfold os_magic, os_nblocks, os_ninodes, os_firstinob.
  apply wp_bind, (wp_u_store32 t2 m2 _ C2 j 1); [done|lia|lia|]. intros t3 C3 Hio3 Hj3.
  apply wp_bind, (wp_u_store32 t3 _ _ C3 j 1); [done|lia|lia|]. intros t4 C4 Hio4 Hj4.
  apply wp_bind, (wp_u_store32 t4 _ _ C4 j 1); [done|lia|lia|]. intros t5 C5 Hio5 Hj5.
  apply wp_bind, (wp_u_store32 t5 _ _ C5 j 1); [done|lia|lia|]. intros t6 C6 Hio6 Hj6.
  apply (wp_putblk t6 _ [] j 1 BLOCK_SUPER fu Q C6 Hj6). intros t7 C7 Hio7.
  apply (HQ t7 _ C7); [|by apply (super_written m2 ltac:(lia) Hnn)].
  eapply io_only_trans; [exact Hio1|]. io_chain.
Qed.
End Finish.
