(* ===== verification/FmtMain.v ===== *)
(** * ospfsformat: the whole program

    [opendisk] and [make_root] set up an empty file system; with [writefile]'s
    rule, [finishfs] and [flushdisk] this gives what [main] leaves in the file. *)

From S2P Require Import Prelude CMemory OspfsLayout OspfsAlloc OspfsTree OspfsWork OspfsGrow OspfsShrink OspfsSize OspfsIo OspfsDirSpec FmtCache Fmt FmtCacheSpec FmtStore FmtFile FmtBuild FmtDir FmtWrite FmtFinish.

(** ** opendisk *)

(** The state in which the program calls [opendisk]: its globals are as C
    initialises them, but for the two numbers on the command line. *)
Definition blank (nb nn : Z) : fmt := set_geometry nb nn init.

Lemma ld8_none a : ld8 ∅ a = 0.
Proof. done. Qed.

Lemma blank_cached nb nn : nb <= 8192 -> cached (blank nb nn) ∅ [].
Proof.
  intros Hnb. assert (Hz : forall i b, cache (blank nb nn) !! i = Some b -> b = zero_block).
  { intros i b Hb. by apply lookup_replicate in Hb as [-> _]. }
  assert (Hno : forall i n, ~ in_slot (blank nb nn) i n).
  { intros i n (b & Hb & Hu & _). apply Hz in Hb as ->. by apply Hu. }
  split; try done.
  - cbn; lia.
  - intros i b Hb _. by apply Hz in Hb as ->.
  - intros i b Hb Hu. apply Hz in Hb as ->. by destruct Hu.
  - intros i j n Hi. by destruct (Hno i n).
  - intros i b x Hb Hu. apply Hz in Hb as ->. by destruct Hu.
  - intros i b Hb Hu. apply Hz in Hb as ->. by destruct Hu.
  - intros n ty Hn. by apply not_elem_of_nil in Hn.
Qed.

(** The counters after [opendisk], with [j] the next inode. *)
Record ready (nb nn j : Z) (s : fmt) : Prop := Ready {
  re_nblocks : f_nblocks s = nb;
  re_ninodes : f_ninodes s = nn;
  re_nbitblock : f_nbitblock s = 1;
  re_nextb : f_nextb s = 3 + (nn + 15) / 16;
  re_nextinode : f_nextinode s = j;
  re_super : f_super s = OspfsSuper OSPFS_MAGIC nb nn 3;
  re_plain : link_contents s = false
}.

Lemma ready_io nb nn j H s s' : ready nb nn j s -> io_only H s s' -> ready nb nn j s'.
Proof.
  intros R Hio. destruct (io_only_globals _ _ _ Hio) as (E1 & E2 & E3 & E4 & E5 & E6 & E7 & _).
  destruct R. split; congruence.
Qed.

(** The numbers that [geometry] accepts. *)
Definition accepted (nb nn : Z) : Prop := 2 <= nn /\ nn < nb - 2 - nb / 8192 /\ nb <= 8192.

Lemma accepted_room nb nn : accepted nb nn -> 3 + (nn + 15) / 16 <= nb /\ 4 < nb.
Proof. intros (H1 & H2 & H3). divlia. Qed.

Lemma wp_opendisk nb nn fu (Q : unit -> fmt -> Prop) : accepted nb nn ->
  (forall s m, ready nb nn 0 s -> cached s m [] -> (forall a, ld8 m a = if decide (2048 <= a < 3072) then 255 else 0) -> Q tt s) ->
  wp opendisk fu (blank nb nn) Q.
Proof.
  intros A HQ. destruct (accepted_room nb nn A) as [Hroom H4]. destruct A as (Hn2 & Hn3 & Hn4).
  assert (0 <= nb / 8192) by divlia. unfold opendisk.
  apply wp_bind, wp_get, wp_bind, wp_put. change (set_diskfd ∅ (blank nb nn)) with (blank nb nn). cbn [f_nblocks f_ninodes blank set_geometry].
  change OSPFS_BLKBITSIZE with 8192. change OSPFS_BLKINODES with 16. change OSPFS_FREEMAP_BLK with 2.
  replace (u32 (nb + 8192 - 1) / 8192) with 1 by (rewrite u32_small by lia; divlia).
  replace (u32 (nn + 16 - 1) / 16) with ((nn + 15) / 16) by (rewrite u32_small by lia; f_equal; lia).
  apply wp_bind. change (seqZ 0 1) with [0]. cbn [for_each]. apply wp_bind. change (2 + 0) with 2.
  apply wp_bind, (wp_getblk (blank nb nn) ∅ [] (blank_cached nb nn Hn4)); [cbn; lia|cbn; lia|by intros ty Hn%not_elem_of_nil|].
  intros j s1 C1 Hj1 Hio1. cbn [cleared] in C1. apply wp_bind, (wp_b_memset s1 ∅ _ C1 j 2); [done|]. intros s2 C2 Hio2 Hj2.
  set (m2 := memset ∅ (1024 * 2) 0xFF 1024) in *.
  assert (Hm2 : forall a, ld8 m2 a = if decide (2048 <= a < 3072) then 255 else 0).
  { intros a. unfold m2. case_decide; [by rewrite ld8_memset_in by lia|]. by rewrite ld8_memset_out by lia. }
  clearbody m2. apply (wp_putblk s2 m2 [] j 2 BLOCK_BITS fu _ C2 Hj2). intros s3 C3 Hio3. apply wp_ret, wp_bind.
  assert (Hio : io_only [] (blank nb nn) s3) by io_chain.
  apply (wp_for_each (fun _ t => exists m, cached t m [] /\ io_only [] (blank nb nn) t /\
    forall a, ld8 m a = if decide (2048 <= a < 3072) then 255 else 0)); [by exists m2| |].
  - intros k i t [-> Hi]%lookup_seqZ (m & Ct & Hiot & Hm). destruct (io_only_globals _ _ _ Hiot) as (E1 & _). cbn in E1.
    apply wp_bind, (wp_getblk t m [] Ct); [cbn; lia|lia|by intros ty Hn%not_elem_of_nil|].
    intros j' t1 D1 Hj1' Hio1'. cbn [cleared] in D1. set (b := 2 + 1 + (0 + Z.of_nat k)) in *.
    apply (wp_putblk t1 _ [] j' b BLOCK_INODES fu _ D1 Hj1'). intros t2 D2 Hio2'.
    eexists. split; [exact D2|]. split; [io_chain|]. intros a. destruct (decide (1024 * b <= a < 1024 * b + 1024)) as [Hin|Hout].
    + rewrite ld8_memset_in by lia. by rewrite decide_False by lia.
    + by rewrite ld8_memset_out by lia.
  - intros t (m & Ct & Hiot & Hm). destruct (io_only_globals _ _ _ Hiot) as (E1 & E2 & E3 & E4 & E5 & E6 & E7 & _).
    apply wp_bind, wp_get, wp_put. apply (HQ _ m); [|by apply (cached_globals t)|done].
    split; cbn; rewrite ?E1, ?E2, ?E7; try done.
Qed.

(** ** The first inodes *)

(** One round of a loop. *)
Lemma wp_loop_round {S X R} (body : X -> prog S (X + R)) n x fu s (Q : R -> S -> Prop) :
  wp (body x) fu s (fun r t => match r with inl y => wp (loop_n n body y) fu t Q | inr b => Q b t end) ->
  wp (loop_n (Datatypes.S n) body x) fu s Q.
Proof. unfold wp. cbn. by destruct (body x fu s) as [[y|b] t| |]. Qed.

Section MakeRoot.
Context (nb nn : Z) (A : accepted nb nn).

(** The next inode is in a block of the table, which is held afterwards. *)
Lemma wp_plain_inode j s m H fu (Q : Z * (nat * Z) -> fmt -> Prop) : ready nb nn j s -> 0 <= j < nn ->
  cached s m H -> (length H < 16)%nat -> (forall n ty, (n, ty) ∈ H -> ty = BLOCK_INODES) ->
  (forall i s', cached s' m ((3 + j / 16, BLOCK_INODES) :: H) -> in_slot s' i (3 + j / 16) -> ready nb nn (j + 1) s' ->
     Q (j, (i, 64 * (j mod 16))) s') ->
  wp (allocinode (fun _ => mret tt)) fu s Q.
Proof.
  intros R Hj C Hl HH HQ. destruct (accepted_room nb nn A). pose proof A as (_ & Hn & Hb).
  assert (0 <= nb / 8192) by divlia.
  unfold allocinode. apply wp_bind, wp_get. rewrite (re_ninodes _ _ _ _ R), (re_nextinode _ _ _ _ R), (re_super _ _ _ _ R).
  rewrite (proj2 (Z.eqb_neq _ _)) by lia. apply wp_bind, wp_put, wp_bind, wp_ret, wp_bind. cbn [s_firstinob].
  change OSPFS_BLKINODES with 16. rewrite !u32_small by divlia. set (s1 := set_counters _ _ _ s).
  assert (C1 : cached s1 m H) by by apply (cached_globals s).
  apply (wp_getblk s1 m H C1); [done|cbn; rewrite (re_nblocks _ _ _ _ R); divlia|by apply HH|].
  intros i s2 C2 Hi Hio. apply wp_ret, HQ; [done|done|]. eapply (ready_io _ _ _ H s1); [|done].
  destruct R. by split.
Qed.

(** The image with the first two inodes is a layout without files. *)
Definition with_root (m : mem) : mem :=
  st32 (st32 (st32 (st32 m 3080 1) 3140 OSPFS_FTYPE_DIR) 3144 1) 3148 0x1FF.

Lemma root_built s m ri : ready nb nn 2 s -> cached s (with_root m) [(3, BLOCK_INODES)] -> in_slot s ri 3 ->
  (forall a, ld8 m a = if decide (2048 <= a < 3072) then 255 else 0) ->
  built nb nn 0 [] s (with_root m) [(3, BLOCK_INODES)] ri 0 2.
Proof.
  intros R C Hri Hm. destruct (accepted_room nb nn A) as [Hroom H4]. pose proof A as (Hn2 & Hn3 & Hn4).
  assert (0 <= nb / 8192) by divlia. assert (Hlo : 4 <= 3 + (nn + 15) / 16) by divlia.
  assert (Hout : forall a, a < 3072 \/ 3152 <= a \/ 3136 <= a < 3140 -> ld8 (with_root m) a = ld8 m a).
  { intros a Ha. unfold with_root. by rewrite !ld8_st32_ne by lia. }
  assert (Hzero : forall a, 3152 <= a \/ 3136 <= a < 3140 -> ld8 (with_root m) a = 0).
  { intros a Ha. rewrite Hout, Hm by lia. by rewrite decide_False by lia. }
  split; try apply R; try done.
  - split; try done; try lia.
    + apply empty_inode; [unfold inode_at; lia|unfold inode_at; lia|]. intros a Ha. apply Hzero.
      unfold inode_slots, inode_at, within in Ha. lia.
    + intros r Hr. by destruct (no_blocks r).
    + change (oi_ftype root) with 3140. unfold with_root. rewrite !ld32_st32_ne by lia. by rewrite ld32_st32_eq.
    + change (oi_size root) with 3136. unfold ld32. by rewrite !Hzero by lia.
    + intros a Ha. apply Hzero. unfold inode_at in Ha. lia.
  - intros a Ha. unfold in_block, within in Ha. rewrite Hout, Hm by lia. by rewrite decide_True by lia.
  - split; [done|by left].
  - intros n ty [[= -> ->]|Hn%not_elem_of_nil]%elem_of_cons; [|done]. rewrite (re_nextb _ _ _ _ R). lia.
  - intros n ty [[= -> ->]|Hn%not_elem_of_nil]%elem_of_cons; done.
  - intros r ty Hr. by destruct (no_blocks r).
  - lia.
  - rewrite (re_nextb _ _ _ _ R), (re_nblocks _ _ _ _ R). lia.
  - split; [apply R|lia].
Qed.

(** The rule of [make_root]: inode 1 is an empty directory, and everything else
    in the table is zero but the link count of inode 0. *)
Lemma wp_make_root s m fu (Q : nat * Z -> fmt -> Prop) : ready nb nn 0 s -> cached s m [] ->
  (forall a, ld8 m a = if decide (2048 <= a < 3072) then 255 else 0) -> (2 < fu)%nat ->
  (forall ri s' m', built nb nn 0 [] s' m' [(3, BLOCK_INODES)] ri 0 2 -> f_nextb s' = 3 + (nn + 15) / 16 -> Q (ri, 64) s') ->
  wp make_root fu s Q.
Proof.
  intros R C Hm Hfu HQ. pose proof A as (Hn2 & _). unfold make_root. do 3 (destruct fu as [|fu]; [lia|]).
  apply wp_bind. unfold loop at 1. apply wp_loop_round.
  apply wp_bind, wp_get. rewrite (re_nextinode _ _ _ _ R). change (0 =? OSPFS_ROOT_INO) with false. cbv iota.
  apply wp_bind, (wp_plain_inode 0 s m []); [done|lia|done|cbn; lia|by intros n ty Hn%not_elem_of_nil|].
  intros i s1 C1 Hi R1. change (0 / 16) with 0 in *. change (0 mod 16) with 0. change (3 + 0) with 3 in *. cbv beta iota. cbn [fst snd].
  apply wp_bind, (wp_u_store32 s1 m _ C1 i 3); [done|unfold oi_nlink; lia..|]. intros s2 C2 Hio2 Hi2.
  apply wp_bind, (wp_putblk s2 _ [] i 3 BLOCK_INODES _ _ C2 Hi2). intros s3 C3 Hio3. apply wp_ret.
  assert (R3 : ready nb nn 1 s3) by (eapply ready_io; [eapply ready_io; [exact R1|exact Hio2]|exact Hio3]).
  set (m3 := st32 _ _ _) in *. apply wp_loop_round.
  apply wp_bind, wp_get. rewrite (re_nextinode _ _ _ _ R3). change (1 =? OSPFS_ROOT_INO) with true. cbv iota. apply wp_ret.
  apply wp_bind, (wp_plain_inode 1 s3 m3 []); [done|lia|done|cbn; lia|by intros n ty Hn%not_elem_of_nil|].
  intros ri s4 C4 Hr R4. change (1 / 16) with 0 in *. change (1 mod 16) with 1. change (3 + 0) with 3 in *. cbv beta iota. cbn [fst snd].
  change (1 =? OSPFS_ROOT_INO) with true. cbv iota. change (64 * 1) with 64.
  apply wp_bind, (wp_u_store32 s4 m3 _ C4 ri 3); [done|unfold oi_ftype; lia..|]. intros s5 C5 Hio5 Hr5.
  apply wp_bind, (wp_u_store32 s5 _ _ C5 ri 3); [done|unfold oi_nlink; lia..|]. intros s6 C6 Hio6 Hr6.
  apply wp_bind, (wp_u_store32 s6 _ _ C6 ri 3); [done|unfold oi_mode; lia..|]. intros s7 C7 Hio7 Hr7. apply wp_ret.
  assert (R7 : ready nb nn 2 s7) by (eapply ready_io; [|exact Hio7]; eapply ready_io; [|exact Hio6]; by eapply ready_io).
  change (cached s7 (with_root m) [(3, BLOCK_INODES)]) in C7.
  apply (HQ ri s7 (with_root m)); [by apply root_built|apply R7].
Qed.
End MakeRoot.

(** ** The files *)

(** Whether the disk has room for files of the lengths [lens], when the root has
    [u] entries in [k] blocks and [nxt] is the next block. *)
Fixpoint fits (nb u k nxt : Z) (lens : list Z) : bool :=
  match lens with
  | [] => true
  | len :: lens' =>
      let k' := if u =? 8 * k then k + 1 else k in
      let nxt' := if u =? 8 * k then nxt + 1 + index_blocks k else nxt in
      (nxt' + blocks_needed len <=? nb) && fits nb (u + 1) k' (nxt' + tree_size (blocks_of len)) lens'
  end.

(** The blocks in use when files of the lengths [lens] are in place, with the boot
    block, the superblock, the bitmap, the inodes and the root directory. *)
Definition file_blocks_used (lens : list Z) : Z := foldr (fun len z => tree_size (blocks_of len) + z) 0 lens.
Definition blocks_used (nn : Z) (lens : list Z) : Z :=
  3 + (nn + 15) / 16 + tree_size ((Z.of_nat (length lens) + 7) / 8) + file_blocks_used lens.

Lemma file_blocks_used_app l1 l2 : file_blocks_used (l1 ++ l2) = file_blocks_used l1 + file_blocks_used l2.
Proof. induction l1 as [|len l1 IH]; [done|]. cbn [app foldr file_blocks_used] in *. unfold file_blocks_used in *. cbn [app foldr]. lia. Qed.

(** One file more *)
Lemma blocks_used_snoc nn lens len :
  let u := Z.of_nat (length lens) in
  let k := (u + 7) / 8 in
  blocks_used nn (lens ++ [len]) =
    blocks_used nn lens + (if u =? 8 * k then 1 + index_blocks k else 0) + tree_size (blocks_of len) /\
  (Z.of_nat (length (lens ++ [len])) + 7) / 8 = if u =? 8 * k then k + 1 else k.
Proof.
  intros u k. unfold blocks_used. rewrite file_blocks_used_app, length_app. cbn [length file_blocks_used foldr].
  fold u. replace (Z.of_nat (length lens + 1) + 7) with (u + 8) by lia. fold k.
  assert (E : (u + 8) / 8 = if u =? 8 * k then k + 1 else k) by (unfold k; destruct (Z.eqb_spec u (8 * ((u + 7) / 8))); divlia).
  rewrite E. split; [|done]. destruct (u =? 8 * k); [|lia]. rewrite tree_size_succ by (unfold k; divlia). lia.
Qed.

(** A file named on the command line, with its bytes on the host. *)
Definition len_of (f : list Z * list Z) : Z := Z.of_nat (length f.2).
Definition placed_as (p : placed) (f : list Z * list Z) : Prop := pl_name p = basename f.1 /\ pl_data p = f.2.

Section Files.
Context (hfs : host_fs) (nb nn : Z) (H : holds) (ri : nat) (fu : nat).
Context (Hfuel : 10000 <= Z.of_nat fu).

(** The file can be opened and read, and its name fits an entry. *)
Record readable_file (f : list Z * list Z) : Prop := ReadableFile {
  rf_open : exists sizes, open_file hfs f.1 = Some (f.2, sizes) /\ Forall (fun c => 0 <= c) sizes;
  rf_name : name_ok (basename f.1);
  rf_bytes : bytes f.2
}.

(** The state between two files. *)
Definition stage (P : list placed) (k : Z) (s : fmt) : Prop :=
  exists m, built nb nn k P s m H ri (Z.of_nat (length P)) (2 + Z.of_nat (length P)) /\
    k = (Z.of_nat (length P) + 7) / 8 /\ f_nextb s = blocks_used nn (map pl_len P).

Lemma wp_write_files files P k s (Q : unit -> fmt -> Prop) : (length H < 11)%nat -> stage P k s ->
  Forall readable_file files -> 2 + Z.of_nat (length P + length files) <= nn ->
  fits nb (Z.of_nat (length P)) k (f_nextb s) (map len_of files) = true ->
  (forall P' k' s', stage (P ++ P') k' s' -> Forall2 placed_as P' files -> Q tt s') ->
  wp (for_each (map fst files) (fun name =>
    writefile (ri, 64) name (fst <$> open_file hfs name) (from_option snd [] (open_file hfs name)) 0 0x1B6)) fu s Q.
Proof.
  intros Hfew. revert P k s. induction files as [|[name data] files IH]; intros P k s (m & B & Hk & Hnxt) Hok Hn Hfit HQ.
  { apply wp_ret, (HQ [] k); [rewrite app_nil_r; by exists m|constructor]. }
  assert (Hk0 : 0 <= k) by (rewrite Hk; divlia). assert (Hf : 8 * k <= Z.of_nat (length P) + 8) by (rewrite Hk; divlia).
  apply Forall_cons in Hok as [[(sizes & Ho & Hs) Hname Hby] Hok]. cbn [fits map fst snd] in *.
  apply andb_prop in Hfit as [Hroom Hfit]. apply Z.leb_le in Hroom. cbn [length] in Hn. unfold len_of in *. cbn [snd] in *.
  assert (Hfu : (Z.to_nat (blocks_of (Z.of_nat (length data))) + 1026 < fu)%nat).
  { pose proof (bu_next _ _ _ _ _ _ _ _ _ _ B). pose proof (ca_nblocks _ _ _ (bu_cached _ _ _ _ _ _ _ _ _ _ B)).
    rewrite (bu_nblocks _ _ _ _ _ _ _ _ _ _ B) in *. destruct (bu_ninodes _ _ _ _ _ _ _ _ _ _ B) as [_ Hnn].
    assert (0 <= (nn + 15) / 16) by divlia. pose proof (index_blocks_nonneg k). clear - Hroom Hfuel H0 H1 H2 H3. revert Hroom.
    assert (Hb : 0 <= blocks_of (Z.of_nat (length data))) by (unfold blocks_of; divlia). pose proof (tree_size_ge _ Hb).
    unfold blocks_needed. destruct (_ mod _ =? 0), (_ =? _); lia. }
  cbn [for_each]. rewrite Ho. cbn [fmap option_fmap option_map from_option fst snd]. apply wp_bind.
  apply (wp_writefile nb nn k P s m H ri name data B Hfew Hk0 Hf Hname Hby); [lia|done|done|done|].
  intros s' m' B' En. set (p := written k P s name data) in *.
  assert (Hl : Z.of_nat (length (P ++ [p])) = Z.of_nat (length P) + 1) by (rewrite length_app; cbn; lia).
  apply (IH (P ++ [p]) (root_blocks_after k P) s').
  - exists m'. rewrite Hl. replace (2 + (Z.of_nat (length P) + 1)) with (2 + Z.of_nat (length P) + 1) by lia.
    split; [done|]. destruct (blocks_used_snoc nn (map pl_len P) (Z.of_nat (length data))) as [Hu Hk'].
    rewrite length_map, <- Hk in Hu, Hk'. rewrite length_app, length_map in Hk'. cbn [length] in Hk'. split.
    + unfold root_blocks_after. rewrite <- Hk'. f_equal. lia.
    + rewrite map_app. cbn [map]. change (pl_len p) with (Z.of_nat (length data)). rewrite Hu, En, <- Hnxt.
      cbn [p written new_file pl_hi]. unfold next_after. destruct (_ =? _); lia.
  - done.
  - rewrite length_app. cbn [length]. lia.
  - rewrite Hl, En. exact Hfit.
  - intros P' k' t Ht HP. rewrite <- app_assoc in Ht. apply (HQ (p :: P') k' t Ht). constructor; [done|done].
Qed.
End Files.

(** ** The image *)

Lemma kept_above nn k P u ni nxt m a : layout nn k P u ni nxt m -> kept nn k P u ni m a -> 3072 <= a.
Proof.
  intros Y. pose proof (ly_root _ _ _ _ _ _ _ Y) as T. pose proof (ly_inodes _ _ _ _ _ _ _ Y).
  pose proof (ly_count _ _ _ _ _ _ _ Y) as Hct.
  assert (Hlo : 3200 <= 1024 * (3 + (nn + 15) / 16)) by apply (tr_inode _ _ _ T).
  assert (Hent : forall e, 0 <= e < 8 * k -> entry_area m root e a -> 3072 <= a).
  { intros e He Ha%entry_in_block. pose proof (tr_range _ _ _ T (RData (e / 8)) ltac:(cbn; divlia)).
    unfold in_block, within in Ha. lia. }
  intros [Hp|[Hp|[(e & He & [[_ Hp]|[_ Hp]])|[(i & p & Hi & [Hp|Hp])|Hp]]]].
  - unfold inode_bytes, inode_at, within in Hp. lia.
  - destruct (root_area_apart _ _ _ _ _ _ _ a Y Hp) as [Hr _]. unfold inode_at in Hr. lia.
  - by apply (Hent e).
  - apply (Hent e); [lia|]. unfold word_at, od_ino, entry_area, within in *. lia.
  - unfold inode_bytes, inode_at, within in Hp. lia.
  - destruct (ly_file _ _ _ _ _ _ _ Y i p Hi) as (_ & Hpl & _). unfold blocks_between, within in Hp. lia.
  - unfold inode_at in Hp. lia.
Qed.

(** What the program leaves in the file: the files [P], a root directory of [k]
    blocks, the blocks from [nxt] on free, and the superblock. *)
Record formatted (nb nn k nxt : Z) (P : list placed) (d : mem) : Prop := Formatted {
  fo_layout : layout nn k P (Z.of_nat (length P)) (2 + Z.of_nat (length P)) nxt d;
  fo_names : short_names P;
  fo_super : load_super d = OspfsSuper OSPFS_MAGIC nb nn 3;
  fo_free : forall x, 0 <= x < 8192 -> is_free d x = (nxt <=? x) && (x <? nb);
  fo_next : nxt = blocks_used nn (map pl_len P) /\ 3 + (nn + 15) / 16 <= nxt <= nb;
  fo_root : k = (Z.of_nat (length P) + 7) / 8
}.

Lemma formatted_written nb nn k P s m m' d : layout nn k P (Z.of_nat (length P)) (2 + Z.of_nat (length P)) (f_nextb s) m ->
  short_names P -> finished nb nn s m m' -> d ≡ m' -> f_nextb s = blocks_used nn (map pl_len P) /\ 3 + (nn + 15) / 16 <= f_nextb s <= nb ->
  k = (Z.of_nat (length P) + 7) / 8 -> formatted nb nn k (f_nextb s) P d.
Proof.
  intros Y Hn F Hd Hx Hk. split; try done.
  - apply (layout_frame _ _ _ _ _ _ (fun a => in_block 1 a \/ in_block 2 a) m d Y Hn).
    + intros a Ha. rewrite (Hd a). by apply (fi_changes _ _ _ _ _ F).
    + intros a Ha Hp%(kept_above _ _ _ _ _ _ _ _ Y). unfold in_block, within in Ha. lia.
  - rewrite <- (fi_super _ _ _ _ _ F). unfold load_super. by rewrite Hd.
  - intros x Hx'. change (is_free d x = unused nb s x). rewrite <- (fi_free _ _ _ _ _ F x Hx'). unfold is_free, bit. by rewrite Hd.
Qed.

(** [putblk] of the root, [finishfs] and [flushdisk]. *)
Lemma wp_finish_image nb nn P k s ri fu (Q : unit -> fmt -> Prop) : accepted nb nn ->
  stage nb nn [(3, BLOCK_INODES)] ri P k s ->
  (forall s', formatted nb nn k (f_nextb s) P (diskfd s') -> Q tt s') ->
  wp (putblk ri;; finishfs;; flushdisk) fu s Q.
Proof.
  intros A (m & B & Hk & Hnxt) HQ. destruct (accepted_room nb nn A) as [Hroom H4]. pose proof A as (_ & _ & Hnb).
  pose proof (bu_next _ _ _ _ _ _ _ _ _ _ B) as Hnx. rewrite (bu_nblocks _ _ _ _ _ _ _ _ _ _ B) in Hnx.
  destruct (bu_ninodes _ _ _ _ _ _ _ _ _ _ B) as [_ Hnn]. assert (Hlo : 3 < 3 + (nn + 15) / 16) by divlia.
  apply wp_bind, (wp_putblk s m [] ri 3 BLOCK_INODES); [apply B|apply B|]. intros s1 C1 Hio1.
  destruct (io_only_globals _ _ _ Hio1) as (E1 & _ & E3 & E4 & _ & E6 & _).
  apply wp_bind, (wp_finishfs nb nn s1 m C1); rewrite ?E1, ?E3, ?E4, ?E6; try apply B; try lia.
  intros s2 m2 C2 Hio2 F. apply (wp_flushdisk s2 m2 [] fu _ C2). intros s3 Hd. apply HQ. rewrite <- E4 in *.
  eapply formatted_written; [rewrite E4; apply B|apply B|done|done|split; [congruence|lia]|done].
Qed.

(** ** main *)

Definition no_option (a : list Z) : Prop := a <> [45; 86] /\ a <> [45; 99] /\ a <> [45; 108].

Lemma wp_no_options a l s fu (Q : list (list Z * list Z) * list (list Z) -> fmt -> Prop) : no_option a ->
  Q ([], a :: l) s -> wp (options (a :: l) []) fu s Q.
Proof. intros (H1 & H2 & H3) HQ. cbn [options]. rewrite !bool_decide_eq_false_2 by done. by apply wp_ret. Qed.

Lemma wp_number text v s fu (Q : Z -> fmt -> Prop) : strtol text = Some (v, []) -> 0 <= v < 2 ^ 32 -> Q v s ->
  wp (number_arg text) fu s Q.
Proof. intros H Hv HQ. unfold number_arg. rewrite H. apply wp_ret. by rewrite u32_small. Qed.

Lemma wp_geometry nb nn fu (Q : unit -> fmt -> Prop) : accepted nb nn -> Q tt (blank nb nn) -> wp (geometry nb nn) fu init Q.
Proof.
  intros (H1 & H2 & H3) HQ. assert (0 <= nb / 8192) by divlia. unfold geometry. change OSPFS_BLKBITSIZE with 8192.
  rewrite (proj2 (Z.ltb_ge nb 2)), (proj2 (Z.ltb_ge 8192 nb)), (proj2 (Z.ltb_ge nn 2)) by lia. cbn [orb].
  rewrite u32_small by lia. rewrite (proj2 (Z.leb_gt _ _)) by lia. by apply wp_bind, wp_get, wp_put.
Qed.

(** The rule of [main] for files named on the command line. *)
Lemma wp_format_main hfs img nbt nnt nb nn f files fu (Q : unit -> fmt -> Prop) : no_option img ->
  strtol nbt = Some (nb, []) -> strtol nnt = Some (nn, []) -> accepted nb nn -> f.1 <> [45; 114] -> 10000 <= Z.of_nat fu ->
  Forall (readable_file hfs) (f :: files) -> 2 + Z.of_nat (length (f :: files)) <= nn ->
  fits nb 0 0 (3 + (nn + 15) / 16) (map len_of (f :: files)) = true ->
  (forall P k nxt s', formatted nb nn k nxt P (diskfd s') -> Forall2 placed_as P (f :: files) -> Q tt s') ->
  wp (format_main hfs (img :: nbt :: nnt :: f.1 :: map fst files)) fu init Q.
Proof.
  intros Hopt Hnb Hnn A Hr Hfuel Hok Hn Hfit HQ. pose proof A as (H1 & H2 & H3). assert (0 <= nb / 8192) by divlia.
  assert (Hfu : (2 < fu)%nat) by lia.
  unfold format_main. apply wp_bind, wp_no_options; [done|]. cbv beta iota.
  apply wp_bind, (wp_number nbt nb); [done|lia|]. apply wp_bind, (wp_number nnt nn); [done|lia|].
  apply wp_bind, wp_geometry; [done|]. apply wp_bind, wp_opendisk; [done|]. intros s m R C Hm.
  apply wp_bind, (wp_make_root nb nn A s m); [done..|]. intros ri s1 m1 B En.
  rewrite bool_decide_eq_false_2 by done. apply wp_bind.
  change (f.1 :: map fst files) with (map fst (f :: files)).
  apply (wp_write_files hfs nb nn [(3, BLOCK_INODES)] ri fu Hfuel (f :: files) [] 0 s1); [cbn; lia| |done|done|by rewrite En|].
  { exists m1. split; [exact B|]. split; [done|]. rewrite En. unfold blocks_used. cbn [map length file_blocks_used foldr]. change (tree_size ((Z.of_nat 0 + 7) / 8)) with 0. lia. }
  intros P k s2 Hst HP. cbn [for_each]. apply wp_bind, wp_ret. cbn [fst snd].
  apply (wp_finish_image nb nn P k s2 ri fu Q A Hst). intros s3 F. by apply (HQ P k (f_nextb s2) s3).
Qed.
