(* ===== verification/FmtUsed.v ===== *)
(** * ospfsformat: the blocks in use

    The trees of the root and of the files hold distinct blocks, and as many as
    there are below the next block: so every block below it is in use, and the
    bitmap frees exactly the others. *)

From S2P Require Import Prelude CMemory OspfsLayout OspfsAlloc OspfsTree OspfsWork OspfsDirSpec FmtCache Fmt FmtCacheSpec FmtStore FmtFile FmtBuild FmtDir FmtWrite FmtFinish FmtMain.

(** Block [b] belongs to the root directory or to a file, as data or index block. *)
Definition in_use (d : mem) (k : Z) (P : list placed) (b : Z) : Prop :=
  (exists r, live k r /\ blk d root r = b) \/
  (exists j p r, P !! j = Some p /\ live (blocks_of (pl_len p)) r /\ blk d (inode_at (2 + Z.of_nat j)) r = b).

(** ** The roles of a tree, listed *)

Definition roles (n : Z) : list role :=
  map RData (seqZ 0 n) ++ (if 10 <? n then [RInd] else []) ++ (if 266 <? n then RInd2 :: map RL1 (seqZ 0 ((n - 266 + 255) / 256)) else []).

Lemma roles_length n : 0 <= n -> Z.of_nat (length (roles n)) = tree_size n.
Proof.
  intros Hn. unfold roles, tree_size. rewrite !length_app, length_map, length_seqZ.
  assert (0 <= (n - 266 + 255) / 256 \/ n <= 266) by (destruct (decide (n <= 266)); [by right|left; divlia]).
  destruct (10 <? n); destruct (Z.ltb_spec 266 n); cbn [length]; rewrite ?length_map, ?length_seqZ; lia.
Qed.

Lemma roles_live n r : r ∈ roles n -> live n r.
Proof.
  unfold roles. rewrite !elem_of_app. intros [H|[H|H]].
  - apply list_elem_of_In, in_map_iff in H as (i & <- & Hi%list_elem_of_In%elem_of_seqZ). cbn. lia.
  - destruct (Z.ltb_spec 10 n) as [Hn|]; [|by apply not_elem_of_nil in H]. by apply list_elem_of_singleton in H as ->.
  - destruct (Z.ltb_spec 266 n) as [Hn|]; [|by apply not_elem_of_nil in H]. apply elem_of_cons in H as [->|H]; [done|].
    apply list_elem_of_In, in_map_iff in H as (i & <- & Hi%list_elem_of_In%elem_of_seqZ). cbn. divlia.
Qed.

Lemma NoDup_roles n : NoDup (roles n).
Proof.
  unfold roles. apply NoDup_app. split; [apply NoDup_fmap_2; [by intros ? ? [=]|apply NoDup_seqZ]|].
  split; [|apply NoDup_app; split; [|split]].
  - intros r Hr. apply list_elem_of_In, in_map_iff in Hr as (i & <- & _). rewrite elem_of_app.
    intros [H|H]; [destruct (10 <? n)|destruct (266 <? n)]; set_unfold in H; naive_solver.
  - destruct (10 <? n); [apply NoDup_singleton|constructor].
  - intros r Hr H. destruct (10 <? n), (266 <? n); set_unfold in Hr; set_unfold in H; naive_solver.
  - destruct (266 <? n); [|constructor]. apply NoDup_cons. split; [set_unfold; naive_solver|].
    apply NoDup_fmap_2; [by intros ? ? [=]|apply NoDup_seqZ].
Qed.

(** The blocks of one tree *)
Definition tree_blocks (d : mem) (oi n : Z) : list Z := map (blk d oi) (roles n).

Lemma NoDup_tree_blocks lo d oi n : tree_in lo d oi (live n) -> NoDup (tree_blocks d oi n).
Proof.
  intros T. unfold tree_blocks. pose proof (NoDup_roles n) as Hn. pose proof (roles_live n) as Hl. revert Hl.
  induction Hn as [|r l Hr _ IH]; intros Hl; cbn; [constructor|]. apply NoDup_cons. split.
  - intros (r' & E & Hr')%list_elem_of_In%in_map_iff. apply list_elem_of_In in Hr'.
    apply (tr_inj _ _ _ T) in E; [|by apply Hl; right|by apply Hl; left]. by subst.
  - apply IH. intros r' Hr'. apply Hl. by right.
Qed.

Lemma tree_blocks_live d oi n b : b ∈ tree_blocks d oi n -> exists r, live n r /\ blk d oi r = b.
Proof. intros (r & <- & Hr%list_elem_of_In%roles_live)%list_elem_of_In%in_map_iff. by exists r. Qed.

(** The blocks of the files from inode [2 + j] on *)
Fixpoint files_blocks (d : mem) (j : nat) (P : list placed) : list Z :=
  match P with
  | [] => []
  | p :: P' => tree_blocks d (inode_at (2 + Z.of_nat j)) (blocks_of (pl_len p)) ++ files_blocks d (S j) P'
  end.

Lemma files_blocks_in d P : forall j b, b ∈ files_blocks d j P ->
  exists i p r, P !! i = Some p /\ live (blocks_of (pl_len p)) r /\ blk d (inode_at (2 + Z.of_nat (j + i))) r = b.
Proof.
  induction P as [|p P IH]; intros j b; cbn; [by intros H%not_elem_of_nil|]. intros [H|H]%elem_of_app.
  - destruct (tree_blocks_live _ _ _ _ H) as (r & Hr & <-). exists 0%nat, p, r. by rewrite Nat.add_0_r.
  - destruct (IH _ _ H) as (i & q & r & Hq & Hr & <-). exists (S i), q, r. by rewrite Nat.add_succ_r.
Qed.

Lemma files_blocks_length d P : forall j, Z.of_nat (length (files_blocks d j P)) = file_blocks_used (map pl_len P).
Proof.
  induction P as [|p P IH]; intros j; cbn; [done|]. rewrite length_app, Nat2Z.inj_add, IH. unfold tree_blocks. rewrite length_map, roles_length; [done|].
  unfold blocks_of, pl_len. divlia.
Qed.

Section Formatted.
Context (nb nn k nxt : Z) (P : list placed) (d : mem) (F : formatted nb nn k nxt P d).
Let Y := fo_layout _ _ _ _ _ _ F.

Lemma NoDup_files_blocks P' : forall j, (forall i p, P' !! i = Some p -> P !! (j + i)%nat = Some p) -> NoDup (files_blocks d j P').
Proof.
  induction P' as [|p P' IH]; intros j HP; cbn; [constructor|].
  assert (Hp : P !! j = Some p) by (rewrite <- (Nat.add_0_r j); by apply (HP 0%nat)).
  assert (HP' : forall i q, P' !! i = Some q -> P !! (S j + i)%nat = Some q) by (intros i q Hq; rewrite Nat.add_succ_comm; by apply (HP (S i))).
  destruct (ly_file _ _ _ _ _ _ _ Y j p Hp) as (A & _).
  apply NoDup_app. split; [eapply NoDup_tree_blocks, A|]. split; [|by apply IH].
  intros b (r & Hr & <-)%tree_blocks_live (i & q & r' & Hq & Hr' & E)%files_blocks_in. specialize (HP' i q Hq).
  destruct (ly_file _ _ _ _ _ _ _ Y _ q HP') as (A' & _). pose proof (ly_apart _ _ _ _ _ _ _ Y j (S j + i) p q ltac:(lia) Hp HP').
  pose proof (fa_hi _ _ _ A r Hr). pose proof (tr_range _ _ _ (fa_tree _ _ _ A') r' Hr') as Hrg. rewrite E in Hrg. lia.
Qed.

Definition all_blocks : list Z := tree_blocks d root k ++ files_blocks d 0 P.

Lemma all_blocks_in_use b : b ∈ all_blocks -> in_use d k P b.
Proof.
  intros [H|H]%elem_of_app; [left; by apply tree_blocks_live|right].
  destruct (files_blocks_in _ _ _ _ H) as (j & p & r & Hp & Hr & E). by exists j, p, r.
Qed.

Lemma in_use_below b : in_use d k P b -> 3 + (nn + 15) / 16 <= b < nxt.
Proof.
  intros [(r & Hr & <-)|(j & p & r & Hp & Hr & <-)].
  - pose proof (tr_range _ _ _ (ly_root _ _ _ _ _ _ _ Y) r Hr). pose proof (ly_below _ _ _ _ _ _ _ Y r Hr). lia.
  - destruct (ly_file _ _ _ _ _ _ _ Y j p Hp) as (A & H1 & H2 & _). pose proof (fa_hi _ _ _ A r Hr).
    pose proof (tr_range _ _ _ (fa_tree _ _ _ A) r Hr). lia.
Qed.

Lemma NoDup_all_blocks : NoDup all_blocks.
Proof.
  apply NoDup_app. split; [eapply NoDup_tree_blocks, (ly_root _ _ _ _ _ _ _ Y)|]. split; [|apply NoDup_files_blocks; by intros].
  intros b (r & Hr & <-)%tree_blocks_live (j & p & r' & Hp & Hr' & E)%files_blocks_in. cbn [Nat.add] in E.
  destruct (ly_file _ _ _ _ _ _ _ Y j p Hp) as (A & _ & _ & Ha). specialize (Ha r Hr).
  pose proof (fa_hi _ _ _ A r' Hr'). pose proof (tr_range _ _ _ (fa_tree _ _ _ A) r' Hr') as Hrg. rewrite E in *. lia.
Qed.

Lemma all_blocks_length : Z.of_nat (length all_blocks) = nxt - (3 + (nn + 15) / 16).
Proof.
  unfold all_blocks. rewrite length_app, Nat2Z.inj_add, files_blocks_length. unfold tree_blocks. rewrite length_map, roles_length.
  - rewrite (proj1 (fo_next _ _ _ _ _ _ F)), (fo_root _ _ _ _ _ _ F). unfold blocks_used. rewrite length_map. lia.
  - rewrite (fo_root _ _ _ _ _ _ F). divlia.
Qed.

(** No block below the next one is left out. *)
Lemma below_in_use b : 3 + (nn + 15) / 16 <= b < nxt -> in_use d k P b.
Proof.
  intros Hb. set (lo := 3 + (nn + 15) / 16) in *. apply all_blocks_in_use.
  assert (Hp : all_blocks ≡ₚ seqZ lo (nxt - lo)).
  { apply submseteq_length_Permutation.
    - apply NoDup_submseteq; [apply NoDup_all_blocks|]. intros x Hx%all_blocks_in_use%in_use_below. apply elem_of_seqZ. lia.
    - rewrite length_seqZ. pose proof all_blocks_length. lia. }
  rewrite Hp. apply elem_of_seqZ. lia.
Qed.

(** The bitmap *)
Lemma free_not_in_use x : 0 <= x < 8192 -> is_free d x = true <-> 3 + (nn + 15) / 16 <= x < nb /\ ~ in_use d k P x.
Proof.
  intros Hx. rewrite (fo_free _ _ _ _ _ _ F) by done. rewrite andb_true_iff, Z.leb_le, Z.ltb_lt.
  pose proof (fo_next _ _ _ _ _ _ F) as [_ Hn]. split.
  - intros [H1 H2]. split; [lia|]. intros Hu%in_use_below. lia.
  - intros [H1 H2]. split; [|lia]. destruct (decide (nxt <= x)) as [|Hlt]; [done|]. destruct H2. apply below_in_use. lia.
Qed.
End Formatted.
