(* ===== verification/FmtMount.v ===== *)
(** * ospfsformat: the image is a file system of the driver

    A formatted image whose blocks in use are among the first 1024 (one bitmap scan
    of [ospfsmod.c]) satisfies the invariants that the theorems about the driver
    start from. *)

From S2P Require Import Prelude CMemory OspfsLayout OspfsAlloc OspfsTree OspfsWork OspfsGrow OspfsShrink OspfsSize OspfsIo OspfsDir OspfsDirSpec FmtCache Fmt FmtCacheSpec FmtStore FmtFile FmtBuild FmtDir FmtWrite FmtFinish FmtMain.

(** A name as an entry stores it. *)
Lemma name_in_entry m a name : name_ok name ->
  (forall i x, (name ++ [0]) !! i = Some x -> ld8 m (a + Z.of_nat i) = x) -> exists l, ld_bytes m a 124 = name ++ 0 :: l.
Proof.
  intros [_ Hl] Hn. assert (Hlen : length (name ++ [0]) = S (length name)) by (rewrite length_app; cbn; lia).
  exists (ld_bytes m (a + Z.of_nat (S (length name))) (124 - S (length name))).
  replace 124%nat with (S (length name) + (124 - S (length name)))%nat at 1 by lia. rewrite ld_bytes_add.
  change (0 :: ?l) with ([0] ++ l). rewrite app_assoc. f_equal. apply list_eq. intros i.
  destruct (decide (i < S (length name))%nat) as [Hi|Hi].
  - destruct (lookup_lt_is_Some_2 (name ++ [0]) i) as [x Hx]; [lia|]. rewrite Hx, ld_bytes_lookup by done. f_equal. by apply Hn.
  - rewrite !lookup_ge_None_2; [done|lia|rewrite length_ld_bytes; lia].
Qed.

Section Mount.
Context (nb nn k nxt : Z) (P : list placed) (d : mem) (F : formatted nb nn k nxt P d).
Context (Hnx : nxt <= 1024) (Hnn : 0 <= nn < 2 ^ 32).

Lemma mounted_super : ld32 d (os_ninodes ospfs_super) = nn /\ ld32 d (os_firstinob ospfs_super) = 3.
Proof. pose proof (fo_super _ _ _ _ _ _ F) as Hs. by injection Hs. Qed.

Lemma mounted_data_start : data_start d = 3 + (nn + 15) / 16.
Proof. unfold data_start. by rewrite (proj1 mounted_super). Qed.

(** The blocks that the driver may take are those that the program did not use. *)
Lemma mounted_free b : b ∈ free_list d <-> nxt <= b < Z.min nb 1024.
Proof.
  rewrite elem_of_free_list. pose proof (proj2 (fo_next _ _ _ _ _ _ F)).
  assert (0 <= (nn + 15) / 16) by divlia. split.
  - intros [Hf Hb]. rewrite (fo_free _ _ _ _ _ _ F) in Hf by lia. apply andb_prop in Hf as [H1 H2]. lia.
  - intros Hb. split; [|lia]. rewrite (fo_free _ _ _ _ _ _ F) by lia. apply andb_true_intro. lia.
Qed.

Lemma mounted_fs_ok : fs_ok d.
Proof.
  pose proof (proj2 (fo_next _ _ _ _ _ _ F)). split.
  - apply mounted_super.
  - rewrite mounted_data_start. lia.
  - intros b Hb%mounted_free. rewrite mounted_data_start. lia.
Qed.

(** A tree of blocks below [nxt] is a file of the driver. *)
Lemma mounted_tree oi lo n : tree_in lo d oi (live n) -> 3 + (nn + 15) / 16 <= lo <= nxt -> 3072 <= oi ->
  oi + 64 <= 1024 * (3 + (nn + 15) / 16) -> 0 <= n -> (forall r, live n r -> blk d oi r < nxt) -> file_ok d oi n.
Proof.
  intros T Hlo H1 H2 Hn Hr. pose proof (proj2 (fo_next _ _ _ _ _ _ F)). split.
  - pose proof (tree_bound lo nxt d oi n Hn ltac:(lia) T ltac:(intros i Hi; apply Hr; cbn; lia)) as Hb.
    assert (0 <= (nn + 15) / 16) by divlia. ospfs_consts. lia.
  - split.
    + split; try apply T. { rewrite mounted_data_start. done. }
      intros r Hl. pose proof (tr_range _ _ _ T r Hl). rewrite mounted_data_start. lia.
    + intros r Hl. pose proof (tr_range _ _ _ T r Hl). pose proof (Hr r Hl). rewrite mounted_data_start, mounted_free. lia.
Qed.

Lemma mounted_root : dir_ok d root k.
Proof.
  pose proof (fo_layout _ _ _ _ _ _ F) as Y. pose proof (proj2 (fo_next _ _ _ _ _ _ F)) as Hx. assert (Hk : 0 <= k /\ 8 * k <= Z.of_nat (length P) + 8) by (rewrite (fo_root _ _ _ _ _ _ F); divlia).
  destruct (tr_inode _ _ _ (ly_root _ _ _ _ _ _ _ Y)). pose proof (ly_size _ _ _ _ _ _ _ Y) as Hs. split; [split| |].
  - eapply mounted_tree; [apply Y|lia|done|done|lia|apply Y].
  - lia.
  - rewrite (ly_type _ _ _ _ _ _ _ Y). done.
  - done.
  - intros e He Hi. destruct (decide (e < Z.of_nat (length P))) as [Hlt|Hge]; [|destruct Hi; apply (ly_blank _ _ _ _ _ _ _ Y); lia].
    destruct (lookup_lt_is_Some_2 P (Z.to_nat e)) as [p Hp]; [lia|].
    pose proof (en_name _ _ _ _ (ly_entry _ _ _ _ _ _ _ Y _ _ Hp)) as Hn. rewrite Z2Nat.id in Hn by lia.
    destruct (name_in_entry _ _ _ (fo_names _ _ _ _ _ _ F _ _ Hp) Hn) as [l ->]. apply elem_of_app. right. by left.
Qed.

Lemma mounted_file j p : P !! j = Some p -> sized d (inode_at (2 + Z.of_nat j)) (blocks_of (pl_len p)).
Proof.
  intros Hp. pose proof (fo_layout _ _ _ _ _ _ F) as Y. pose proof (lookup_lt_Some _ _ _ Hp).
  pose proof (ly_inodes _ _ _ _ _ _ _ Y). destruct (ly_file _ _ _ _ _ _ _ Y j p Hp) as (A & H1 & H2 & _).
  assert (0 <= pl_len p) by (unfold pl_len; lia). split.
  - eapply mounted_tree; [apply A|lia|unfold inode_at; lia|unfold inode_at; divlia|unfold blocks_of; divlia|].
    intros r Hr. pose proof (fa_hi _ _ _ A r Hr). lia.
  - rewrite (fa_size _ _ _ A). unfold blocks_of. divlia.
  - rewrite (fa_type _ _ _ A). done.
Qed.

(** The entries of the root, and no others, name the files. *)
Lemma mounted_entry e : 0 <= e < 8 * k ->
  (forall p, P !! Z.to_nat e = Some p -> entry d root e = (2 + e, pl_name p)) /\
  (Z.of_nat (length P) <= e -> entry_ino d root e = 0).
Proof.
  intros He. pose proof (fo_layout _ _ _ _ _ _ F) as Y. split; [|intros Hl; apply (ly_blank _ _ _ _ _ _ _ Y); lia].
  intros p Hp. pose proof (ly_entry _ _ _ _ _ _ _ Y _ _ Hp) as [Hi Hn]. rewrite Z2Nat.id in * by lia.
  unfold entry. rewrite Hi. f_equal. unfold entry_name. pose proof (fo_names _ _ _ _ _ _ F _ _ Hp) as Hok.
  destruct (name_in_entry _ _ _ Hok Hn) as [l ->]. by apply cname_stored.
Qed.

Lemma mounted_matches e name : 0 <= e < 8 * k -> matches name (entry d root e) ->
  exists p, P !! Z.to_nat e = Some p /\ pl_name p = name /\ entry_ino d root e = 2 + e.
Proof.
  intros He [Hi Hn]. destruct (mounted_entry e He) as [Hp Hb]. destruct (P !! Z.to_nat e) as [p|] eqn:E.
  - exists p. pose proof (Hp p eq_refl) as Hent. rewrite Hent in Hn. unfold entry in Hent. injection Hent as Hent _. done.
  - destruct Hi. apply Hb. apply lookup_ge_None in E. lia.
Qed.
End Mount.
