(* ===== verification/FmtSpec.v ===== *)
(** * ospfsformat: what the program promises

    The theorems about the program: what it leaves on the disk, that the driver
    reads the files back, and that the cache is transparent. *)

From S2P Require Import Prelude CMemory OspfsLayout OspfsAlloc OspfsFile OspfsTree OspfsWork OspfsGrow OspfsShrink OspfsSize OspfsIo OspfsSpec OspfsDir OspfsDirSpec OspfsNames FmtCache Fmt FmtCacheSpec FmtStore FmtFile FmtBuild FmtDir FmtWrite FmtFinish FmtMain FmtUsed FmtMount.

(** ** A call of the program *)

(** The command line [ospfsformat img nblocks ninodes file...], and the files on
    the host, each with its bytes. *)
Record call (hfs : host_fs) (nb nn : Z) (argv : list (list Z)) (files : list (list Z * list Z)) : Prop := Call {
  cl_argv : exists img nbt nnt, argv = img :: nbt :: nnt :: map fst files /\ no_option img /\
    strtol nbt = Some (nb, []) /\ strtol nnt = Some (nn, []);
  cl_accepted : accepted nb nn;
  cl_files : exists f rest, files = f :: rest /\ f.1 <> [45; 114];
  cl_readable : Forall (readable_file hfs) files;
  cl_inodes : 2 + Z.of_nat (length files) <= nn;
  cl_fits : fits nb 0 0 (3 + (nn + 15) / 16) (map len_of files) = true
}.

Lemma run_format hfs nb nn argv files fu : call hfs nb nn argv files -> 10000 <= Z.of_nat fu ->
  exists s P k nxt, format_main hfs argv fu init = Ret tt s /\
    formatted nb nn k nxt P (diskfd s) /\ Forall2 placed_as P files.
Proof.
  intros [(img & nbt & nnt & -> & Ho & Hnb & Hnn) A (f & rest & -> & Hr) Hok Hn Hfit] Hfu.
  destruct (wp_run (format_main hfs (img :: nbt :: nnt :: map fst (f :: rest))) fu init
    (fun _ s => exists P k nxt, formatted nb nn k nxt P (diskfd s) /\ Forall2 placed_as P (f :: rest)))
    as ([] & s & Hrun & P & k & nxt & F & HP); [|by exists s, P, k, nxt].
  apply (wp_format_main hfs img nbt nnt nb nn f rest fu _ Ho Hnb Hnn A Hr Hfu Hok Hn Hfit).
  intros P k nxt s F HP. by exists P, k, nxt.
Qed.

(** C10. For regular files named on the command line, which can be opened and read,
    and for which the disk has room, the program returns, whatever sizes the host's
    [read]s have, and the file then holds an image with the superblock that was
    asked for, the files in order from inode 2 on, each with its name in the root
    directory and its bytes in blocks of its own; and its bitmap says that exactly
    those blocks after the inode table and before the end of the disk are free that
    do not belong to the root directory or to a file. *)
Theorem format_writes_files hfs nb nn argv files fu : call hfs nb nn argv files -> 10000 <= Z.of_nat fu ->
  exists s P k nxt, format_main hfs argv fu init = Ret tt s /\ map pl_data P = map snd files /\
    map pl_name P = map (fun f => basename f.1) files /\ formatted nb nn k nxt P (diskfd s) /\
    forall x, 0 <= x < 8192 -> is_free (diskfd s) x = true <-> 3 + (nn + 15) / 16 <= x < nb /\ ~ in_use (diskfd s) k P x.
Proof.
  intros C Hfu. destruct (run_format hfs nb nn argv files fu C Hfu) as (s & P & k & nxt & Hrun & F & HP).
  exists s, P, k, nxt. split; [done|]. split; [|split; [|split; [done|exact (free_not_in_use nb nn k nxt P (diskfd s) F)]]]; clear - HP.
  - induction HP as [|p f P' l [_ Hd] _ IH]; cbn; [done|]. by rewrite Hd, IH.
  - induction HP as [|p f P' l [Hn _] _ IH]; cbn; [done|]. by rewrite Hn, IH.
Qed.

(** ** The driver on the image *)

Section Driver.
Context {accessible : Z -> Prop} {copy_to_user : mem -> Z -> list Z -> mem * Z}.
Context {copy_from_user : mem -> Z -> nat -> list Z * Z} {UA : UserAccess accessible copy_to_user copy_from_user}.
Context (nb nn k nxt : Z) (P : list placed) (d : mem) (F : formatted nb nn k nxt P d).
Context (Hnx : nxt <= 1024) (Hnn : 0 <= nn < 2 ^ 32) (Hunique : NoDup (map pl_name P)).

Lemma mounted_contents j p : P !! j = Some p -> contents d (inode_at (2 + Z.of_nat j)) = pl_data p.
Proof.
  intros Hp. destruct (ly_file _ _ _ _ _ _ _ (fo_layout _ _ _ _ _ _ F) j p Hp) as (A & _).
  pose proof (fa_size _ _ _ A) as Hs. unfold pl_len in *. apply (list_eq_bytes _ _ (Z.of_nat (length (pl_data p)))).
  - rewrite length_contents, Hs. lia.
  - lia.
  - intros i Hi. rewrite contents_lookup by lia. symmetry. by apply (fa_bytes _ _ _ A).
Qed.

(** Looking up a name finds its file. *)
Lemma mounted_lookup j p fu : P !! j = Some p -> 10000 <= Z.of_nat fu -> 1 < nn ->
  exists mode, ospfs_dir_lookup true 1 (pl_name p) fu d =
    Ret (inr (Some (LinuxInode (2 + Z.of_nat j) (pl_len p) mode RegOps 1))) d.
Proof.
  intros Hp Hfu H1. pose proof (fo_layout _ _ _ _ _ _ F) as Y. pose proof (lookup_lt_Some _ _ _ Hp) as Hj.
  pose proof (ly_inodes _ _ _ _ _ _ _ Y) as Hni. pose proof (ly_count _ _ _ _ _ _ _ Y) as Hct.
  pose proof (mounted_root nb nn k nxt P d F Hnx Hnn) as D. pose proof (mounted_fs_ok nb nn k nxt P d F Hnx Hnn) as Hfs.
  destruct (mounted_super nb nn k nxt P d F) as [Hsn _]. destruct (ly_file _ _ _ _ _ _ _ Y j p Hp) as (A & _).
  exists (Z.lor (ld32 d (oi_mode (inode_at (2 + Z.of_nat j)))) S_IFREG).
  destruct (wp_run (ospfs_dir_lookup true 1 (pl_name p)) fu d (fun r t => t = d /\
    r = inr (Some (LinuxInode (2 + Z.of_nat j) (pl_len p) (Z.lor (ld32 d (oi_mode (inode_at (2 + Z.of_nat j)))) S_IFREG) RegOps 1))))
    as (r & t & Hrun & -> & ->); [|exact Hrun].
  apply (wp_dir_lookup d 1 k); [done|unfold ninodes; lia|done|by apply (fo_names _ _ _ _ _ _ F j p)|lia| |].
  - intros e He Hm _. destruct (mounted_matches nb nn k nxt P d F e _ He Hm) as (q & Hq & Hn & ->).
    assert (Z.to_nat e = j) as He'.
    { apply (NoDup_lookup (map pl_name P) _ _ (pl_name p) Hunique); rewrite list_lookup_fmap; [rewrite Hq|rewrite Hp]; cbn; by rewrite ?Hn. }
    replace (2 + e) with (2 + Z.of_nat j) by lia.
    apply wp_mk_linux_inode; [done|unfold ninodes; lia| |rewrite (fa_type _ _ _ A); unfold OSPFS_FTYPE_REG; lia].
    intros t op Hop Hty. rewrite (fa_type _ _ _ A) in Hty. assert (op = RegOps) as ->.
    { unfold OSPFS_FTYPE_REG, OSPFS_FTYPE_DIR, OSPFS_FTYPE_SYMLINK in *. naive_solver. }
    by rewrite (fa_size _ _ _ A), (fa_nlink _ _ _ A).
  - intros Hno. destruct (Hno (Z.of_nat j)); [lia|].
    destruct (mounted_entry nb nn k nxt P d F (Z.of_nat j) ltac:(lia)) as [He _]. rewrite (He p) by by rewrite Nat2Z.id.
    split; [cbn; lia|done].
Qed.
End Driver.

(** ** From the host to the driver *)

Section Roundtrip.
Context {accessible : Z -> Prop} {copy_to_user : mem -> Z -> list Z -> mem * Z}.
Context {copy_from_user : mem -> Z -> nat -> list Z * Z} {UA : UserAccess accessible copy_to_user copy_from_user}.

(** A read, as the driver's invariant gives it. *)
Lemma ospfs_read_run ino n buffer count s fu :
  let oi := 3072 + 64 * ino in
  let k := Z.min count (ld32 (disk s) (oi_size oi) - f_pos s) in
  fs_ok (disk s) -> 0 <= ino < ld32 (disk s) (os_ninodes ospfs_super) -> sized (disk s) oi n ->
  0 <= f_pos s <= ld32 (disk s) (oi_size oi) -> 0 <= count < 2 ^ 32 ->
  0 <= buffer /\ buffer + k < 2 ^ 32 -> (forall b, within buffer (buffer + k) b -> accessible b) ->
  (1024 <= fu)%nat ->
  exists t, ospfs_read copy_to_user ino buffer count fu s = Ret k t /\
    ld_bytes (user t) buffer (Z.to_nat k) = take (Z.to_nat k) (drop (Z.to_nat (f_pos s)) (contents (disk s) oi)).
Proof.
  intros oi k F Hino S Hp Hc Hbuf Hacc Hfu.
  destruct (wp_run _ fu s _ (wp_ospfs_read ino n buffer count s fu
    (fun r t => r = k /\ delivered s oi buffer (f_pos s) k t) F Hino S Hp Hc Hbuf Hacc Hfu
    (fun t D => conj eq_refl D))) as (r & t & Hrun & -> & D).
  exists t. split; [done|]. apply (delivered_bytes s oi); [lia|lia|lia|done].
Qed.

(** C18. An image that is formatted with regular files, named on the command line,
    no two of which have the same name, and whose blocks in use are among the first
    1024, is a file system of the driver: looking up the name of a file in the
    root directory finds the file's inode, a regular file of the right size with
    one link, and reading it from its start delivers the bytes of the file on the
    host. *)
Theorem format_then_read hfs nb nn argv files fu : call hfs nb nn argv files -> blocks_used nn (map len_of files) <= 1024 ->
  NoDup (map (fun f => basename f.1) files) -> 10000 <= Z.of_nat fu ->
  exists s, format_main hfs argv fu init = Ret tt s /\ fs_ok (diskfd s) /\
    forall j name data, files !! j = Some (name, data) ->
      let ino := 2 + Z.of_nat j in
      let len := Z.of_nat (length data) in
      (exists mode, ospfs_dir_lookup true 1 (basename name) fu (diskfd s) =
         Ret (inr (Some (LinuxInode ino len mode RegOps 1))) (diskfd s)) /\
      forall us buffer count, 0 <= count < 2 ^ 32 -> 0 <= buffer /\ buffer + count < 2 ^ 32 ->
        (forall b, within buffer (buffer + count) b -> accessible b) ->
        exists t, ospfs_read copy_to_user ino buffer count fu (Io (diskfd s) us 0) = Ret (Z.min count len) t /\
          ld_bytes (user t) buffer (Z.to_nat (Z.min count len)) = take (Z.to_nat count) data.
Proof.
  intros C Hused Hu Hfu. destruct (run_format hfs nb nn argv files fu C Hfu) as (s & P & k & nxt & Hrun & F & HP).
  destruct (cl_accepted _ _ _ _ _ C) as (Hn2 & Hn3 & Hn4). assert (Hnn : 0 <= nn < 2 ^ 32) by divlia.
  assert (Hnx : nxt <= 1024).
  { rewrite (proj1 (fo_next _ _ _ _ _ _ F)). replace (map pl_len P) with (map len_of files); [done|].
    clear - HP. induction HP as [|p f P' l [_ Hd] _ IH]; cbn; [done|]. rewrite IH. f_equal. unfold pl_len, len_of. by rewrite Hd. }
  pose proof (mounted_fs_ok nb nn k nxt P (diskfd s) F Hnx Hnn) as Hfs. exists s. split; [done|]. split; [done|].
  assert (Hnames : map pl_name P = map (fun f => basename f.1) files).
  { clear - HP. induction HP as [|p f P' l [Hn _] _ IH]; cbn; [done|]. by rewrite Hn, IH. }
  rewrite <- Hnames in Hu. intros j name data Hf ino len.
  destruct (Forall2_lookup_r _ _ _ _ _ HP Hf) as (p & Hp & Hpn & Hpd). cbn [fst snd] in Hpn, Hpd.
  rewrite <- Hpn. split.
  { unfold len. rewrite <- Hpd. apply (mounted_lookup nb nn k nxt P (diskfd s) F Hnx Hnn Hu j p fu Hp Hfu). lia. }
  intros us buffer count Hc Hb Hacc.
  pose proof (mounted_contents nb nn k nxt P (diskfd s) F j p Hp) as Hct.
  destruct (ly_file _ _ _ _ _ _ _ (fo_layout _ _ _ _ _ _ F) j p Hp) as (A & _).
  pose proof (fa_size _ _ _ A) as Hs. unfold pl_len in Hs. rewrite Hpd in Hs, Hct. fold ino len in Hs. fold ino in Hct.
  pose proof (lookup_lt_Some _ _ _ Hp). pose proof (ly_inodes _ _ _ _ _ _ _ (fo_layout _ _ _ _ _ _ F)).
  set (s0 := Io (diskfd s) us 0). assert (Hk : Z.min count (ld32 (disk s0) (oi_size (3072 + 64 * ino)) - f_pos s0) = Z.min count len).
  { cbn [disk s0 f_pos]. change (3072 + 64 * ino) with (inode_at ino). rewrite Hs. lia. }
  destruct (ospfs_read_run ino (blocks_of (pl_len p)) buffer count s0 fu) as (t & Hrd & Hby); rewrite ?Hk; try done.
  - cbn [disk s0]. rewrite (proj1 (mounted_super nb nn k nxt P (diskfd s) F)). unfold ino. lia.
  - apply (mounted_file nb nn k nxt P (diskfd s) F Hnx Hnn j p Hp).
  - cbn [disk s0 f_pos]. change (3072 + 64 * ino) with (inode_at ino). rewrite Hs. lia.
  - lia.
  - intros b Hb2. apply Hacc. unfold within in *. lia.
  - lia.
  - rewrite Hk in Hrd, Hby. exists t. split; [done|]. rewrite Hby. cbn [disk s0 f_pos]. change (3072 + 64 * ino) with (inode_at ino).
    rewrite Hct. change (Z.to_nat 0) with 0%nat. rewrite drop_0. unfold len. destruct (decide (count <= len)).
    + f_equal. lia.
    + rewrite !take_ge by (unfold len in *; lia). done.
Qed.
End Roundtrip.

(** ** The cache *)

(** C35. The cache is transparent: seen through it, the image is a plain memory.
    [getblk] of a block below [nblocks], with fewer than 16 blocks in use, finds
    the block or makes room by writing another one back, and changes nothing in
    the image (or clears the block that was asked for); the blocks in use stay
    where they are.  Reading and storing a word in a block in use reads and
    changes that word of the image, [putblk] changes nothing, and after
    [flushdisk] the file is the image. *)
Theorem cache_is_transparent s m H fu : cached s m H ->
  (forall n clr ty, (length H < 16)%nat -> 0 < n < f_nblocks s -> (forall ty', (n, ty') ∈ H -> ty' = ty) ->
     exists i s', getblk n clr ty fu s = Ret i s' /\ cached s' (cleared clr m n) ((n, ty) :: H) /\ in_slot s' i n /\
       forall j n' ty', (n', ty') ∈ H -> in_slot s j n' -> in_slot s' j n') /\
  (forall i n off v, in_slot s i n -> 0 <= off -> off + 4 <= 1024 ->
     u_load32 i off fu s = Ret (ld32 m (1024 * n + off)) s /\
     exists s', u_store32 i off v fu s = Ret tt s' /\ cached s' (st32 m (1024 * n + off) v) H) /\
  (forall i n ty H', H = (n, ty) :: H' -> in_slot s i n -> exists s', putblk i fu s = Ret tt s' /\ cached s' m H') /\
  (exists s', flushdisk fu s = Ret tt s' /\ diskfd s' ≡ m).
Proof.
  intros C. split; [|split; [|split]].
  - intros n clr ty Hl Hn Hty. destruct (wp_run (getblk n clr ty) fu s (fun i s' =>
      cached s' (cleared clr m n) ((n, ty) :: H) /\ in_slot s' i n /\ io_only H s s')) as (i & s' & Hrun & C' & Hi & Hio).
    { apply (wp_getblk s m H C n clr ty Hl Hn Hty). done. }
    exists i, s'. split; [done|]. split; [done|]. split; [done|]. exact (io_slots _ _ _ Hio).
  - intros i n off v Hi H1 H2. split.
    + destruct (wp_run (u_load32 i off) fu s (fun v s' => v = ld32 m (1024 * n + off) /\ s' = s)) as (v' & s' & Hrun & -> & ->); [|done].
      by apply (wp_u_load32 s m H C i n).
    + destruct (wp_run (u_store32 i off v) fu s (fun _ s' => cached s' (st32 m (1024 * n + off) v) H)) as ([] & s' & Hrun & C'); [|by exists s'].
      apply (wp_u_store32 s m H C i n); [done..|]. done.
  - intros i n ty H' -> Hi. destruct (wp_run (putblk i) fu s (fun _ s' => cached s' m H')) as ([] & s' & Hrun & C'); [|by exists s'].
    apply (wp_putblk s m H' i n ty); [done..|]. done.
  - destruct (wp_run flushdisk fu s (fun _ s' => diskfd s' ≡ m)) as ([] & s' & Hrun & Hd); [|by exists s'].
    by apply (wp_flushdisk s m H).
Qed.

Lemma cache_is_transparent_witness :
  exists i s', getblk 5 true BLOCK_FILE 1%nat (blank 32 16) = Ret i s' /\
    cached s' (cleared true ∅ 5) [(5, BLOCK_FILE)] /\ in_slot s' i 5.
Proof.
  destruct (cache_is_transparent (blank 32 16) ∅ [] 1%nat (blank_cached 32 16 ltac:(lia))) as (Hget & _).
  destruct (Hget 5 true BLOCK_FILE) as (i & s' & Hrun & C & Hi & _); [cbn; lia|cbn; lia| |].
  - intros ty' Hin. by apply not_elem_of_nil in Hin.
  - by exists i, s'.
Defined.

(** ** Errors of the host's reads *)

Abbreviation readn_body i n := (fun '(t, f) =>
  if t <? n then
    let '(r, data, f) := read (n - t) f in
    u_store_bytes i t data;;
    let m := u32 r in
    mret (if m =? 0 then inr (if t =? 0 then s32 m else s32 t, f) else inl (u32 (t + m), f))
  else mret (inr (s32 t, f))).

(** One round of [readn]. *)
Lemma wp_readn_round s m H i nb k t f r l f' fu (Q : Z * hostfd -> fmt -> Prop) :
  cached s m H -> in_slot s i nb -> 0 <= t < 1024 -> read (1024 - t) f = (r, l, f') -> t + Z.of_nat (length l) <= 1024 ->
  (forall s', cached s' (st_bytes m (1024 * nb + t) l) H -> in_slot s' i nb ->
     if u32 r =? 0 then Q (if t =? 0 then s32 (u32 r) else s32 t, f') s'
     else wp (loop_n k (readn_body i 1024) (u32 (t + u32 r), f')) fu s' Q) ->
  wp (loop_n (S k) (readn_body i 1024) (t, f)) fu s Q.
Proof.
  intros C Hi Ht E Hl HQ. apply wp_loop_round. cbv beta iota. rewrite (proj2 (Z.ltb_lt t 1024)), E by lia. cbv beta iota.
  apply wp_bind, (wp_u_store_bytes s m H C i nb); [done|lia|lia|]. intros s' C' _ Hi'. apply wp_ret. cbv zeta.
  specialize (HQ s' C' Hi'). by destruct (u32 r =? 0).
Qed.

(** When the host reports an error after [c] bytes were read, [readn] takes
    the error for the largest [size_t], goes back one byte and reads on: the last
    of the [c] bytes is overwritten by the next one, and the result is one byte
    short. *)
Theorem readn_error_loses_byte s m H i nb ty data c fu :
  cached s m H -> in_slot s i nb -> (nb, ty) ∈ H -> 0 < c < Z.of_nat (length data) -> (length data <= 1024)%nat -> (4 <= fu)%nat ->
  exists s' f, readn i 1024 (HostFd data [c; -1]) fu s = Ret (Z.of_nat (length data) - 1, f) s' /\
    cached s' (st_bytes (st_bytes m (1024 * nb) (take (Z.to_nat c) data)) (1024 * nb + (c - 1)) (drop (Z.to_nat c) data)) H.
Proof.
  intros C Hi Hty Hc Hd Hfu. do 4 (destruct fu as [|fu]; [lia|]). set (k := Z.to_nat c). set (len := Z.of_nat (length data)).
  assert (Hk : c = Z.of_nat k) by lia.
  assert (Hl1 : length (take k data) = k) by (rewrite length_take; lia).
  assert (Hl2 : length (drop k data) = (length data - k)%nat) by apply length_drop.
  match goal with |- exists s' f, _ = Ret (?r, f) s' /\ cached s' ?m' H =>
    destruct (wp_run (readn i 1024 (HostFd data [c; -1])) (S (S (S (S fu)))) s (fun p s' => p.1 = r /\ cached s' m' H))
      as ([r' f] & s' & Hrun & Hr & C'); [|cbn in Hr; subst r'; by exists s', f] end.
  assert (E1 : read (1024 - 0) (HostFd data [c; -1]) = (c, take k data, HostFd (drop k data) [-1])).
  { unfold read. cbn [left chunks]. rewrite (proj2 (Z.ltb_ge c 0)) by lia. by replace (Z.min _ _) with c by lia. }
  assert (E2 : read (1024 - c) (HostFd (drop k data) [-1]) = (-1, [], HostFd (drop k data) [])) by done.
  assert (E3 : read (1024 - (c - 1)) (HostFd (drop k data) []) = (len - c, drop k data, HostFd [] [])).
  { unfold read, len. cbn [left chunks]. rewrite Hl2. replace (Z.min _ _) with (Z.of_nat (length data) - c) by lia.
    rewrite take_ge, (drop_ge (drop k data)) by lia. done. }
  assert (E4 : read (1024 - (len - 1)) (HostFd [] []) = (0, [], HostFd [] [])).
  { unfold read. cbn [left chunks length]. by rewrite Z.min_r by (unfold len; lia). }
  unfold readn, loop. apply (wp_readn_round s m H i nb _ 0 _ _ _ _ _ _ C Hi ltac:(lia) E1); [lia|]. intros s1 C1 Hi1.
  rewrite Z.add_0_r in C1. rewrite (u32_small c), (proj2 (Z.eqb_neq c 0)), Z.add_0_l, u32_small by lia.
  apply (wp_readn_round s1 _ H i nb _ c _ _ _ _ _ _ C1 Hi1 ltac:(lia) E2); [cbn; lia|]. intros s2 C2 Hi2. cbn [st_bytes] in C2.
  change (u32 (-1)) with (2 ^ 32 - 1). rewrite (proj2 (Z.eqb_neq (2 ^ 32 - 1) 0)) by lia.
  replace (u32 (c + (2 ^ 32 - 1))) with (c - 1) by (unfold u32; divlia).
  apply (wp_readn_round s2 _ H i nb _ (c - 1) _ _ _ _ _ _ C2 Hi2 ltac:(lia) E3); [lia|]. intros s3 C3 Hi3.
  rewrite (u32_small (len - c)), (proj2 (Z.eqb_neq (len - c) 0)) by (unfold len; lia).
  replace (c - 1 + (len - c)) with (len - 1) by lia. rewrite u32_small by (unfold len; lia).
  apply (wp_readn_round s3 _ H i nb _ (len - 1) _ _ _ _ _ _ C3 Hi3 ltac:(unfold len; lia) E4); [cbn; unfold len; lia|].
  intros s4 C4 Hi4. change (u32 0 =? 0) with true. cbv iota. rewrite (proj2 (Z.eqb_neq (len - 1) 0)) by (unfold len; lia).
  cbn [fst]. rewrite s32_small by (unfold len; lia). done.
Qed.

(** "hello", with an error after two bytes, is read as "hllo". *)
Lemma readn_error_loses_byte_witness : exists i s m s' f,
  readn i 1024 (HostFd [104; 101; 108; 108; 111] [2; -1]) 4%nat s = Ret (4, f) s' /\
  cached s' (st_bytes (st_bytes m (1024 * 5) [104; 101]) (1024 * 5 + 1) [108; 108; 111]) [(5, BLOCK_FILE)].
Proof.
  destruct (wp_run (getblk 5 true BLOCK_FILE) 1%nat (blank 32 16) (fun i s =>
    cached s (cleared true ∅ 5) [(5, BLOCK_FILE)] /\ in_slot s i 5)) as (i & s & _ & C & Hi).
  { apply (wp_getblk (blank 32 16) ∅ [] (blank_cached 32 16 ltac:(lia))); [cbn; lia|cbn; lia|by intros ty' Hin%not_elem_of_nil|done]. }
  destruct (readn_error_loses_byte s (cleared true ∅ 5) [(5, BLOCK_FILE)] i 5 BLOCK_FILE [104; 101; 108; 108; 111] 2 4%nat C Hi)
    as (s' & f & Hrun & C'); [by left|cbn; lia|cbn; lia|lia|].
  by exists i, s, (cleared true ∅ 5), s', f.
Defined.

(** ** A concrete call *)

(** [ospfsformat img 32 16 d/a b], where "d/a" has the bytes "hello" and comes in
    pieces of two bytes, and "b" is empty. *)
Definition two_files : host_fs :=
  HostFs (fun name =>
    if bool_decide (name = [100; 47; 97]) then Some ([104; 101; 108; 108; 111], [2; 2; 2])
    else if bool_decide (name = [98]) then Some ([], []) else None) (fun _ => None).

Lemma two_files_call :
  call two_files 32 16 [[105; 109; 103]; [51; 50]; [49; 54]; [100; 47; 97]; [98]]
    [([100; 47; 97], [104; 101; 108; 108; 111]); ([98], [])].
Proof.
  split.
  - exists [105; 109; 103], [51; 50], [49; 54]. split; [done|]. split; [done|]. by split; vm_compute.
  - unfold accepted. change (32 / 8192) with 0. lia.
  - eexists _, _. by split.
  - repeat constructor; cbn; try lia; [by exists [2; 2; 2]; split; [|repeat constructor; lia]|by exists []; split].
  - cbn; lia.
  - by vm_compute.
Qed.

Lemma format_writes_files_witness : exists s P k nxt,
  format_main two_files [[105; 109; 103]; [51; 50]; [49; 54]; [100; 47; 97]; [98]] (Z.to_nat 10000) init = Ret tt s /\
  map pl_data P = [[104; 101; 108; 108; 111]; []] /\ map pl_name P = [[97]; [98]] /\ formatted 32 16 k nxt P (diskfd s) /\
  forall x, 0 <= x < 8192 -> is_free (diskfd s) x = true <-> 3 + (16 + 15) / 16 <= x < 32 /\ ~ in_use (diskfd s) k P x.
Proof. apply (format_writes_files _ _ _ _ _ _ two_files_call). lia. Defined.

Lemma format_then_read_witness : exists s,
  format_main two_files [[105; 109; 103]; [51; 50]; [49; 54]; [100; 47; 97]; [98]] (Z.to_nat 10000) init = Ret tt s /\
  forall us, exists t, ospfs_read flat_copy_to_user 2 100 80 (Z.to_nat 10000) (Io (diskfd s) us 0) = Ret 5 t /\
    ld_bytes (user t) 100 5 = [104; 101; 108; 108; 111].
Proof.
  destruct (format_then_read (UA := flat_access) _ _ _ _ _ (Z.to_nat 10000) two_files_call) as (s & Hrun & _ & Hf).
  - vm_compute. discriminate.
  - cbn. apply NoDup_cons. split; [by intros [?|?%not_elem_of_nil]%elem_of_cons|apply NoDup_singleton].
  - lia.
  - exists s. split; [exact Hrun|]. intros us. destruct (Hf 0%nat _ _ eq_refl) as [_ Hr].
    destruct (Hr us 100 80) as (t & Ht & Hb); [lia|lia|done|]. exists t. change (2 + Z.of_nat 0) with 2 in Ht.
    change (Z.min 80 (Z.of_nat (length [104; 101; 108; 108; 111]))) with 5 in Ht, Hb. split; [exact Ht|exact Hb].
Defined.
