(* ===== verification/Osprd.v ===== *)
(** * OSPRD: the RAM disk's lock, passwords and encryption (Lab2-Encrypted-Ramdisk)

    osprd.c and spinlock.h.  The state of a device is the record [osprd_info];
    its linked lists are the lists of their [ticket] fields.  The parts of an
    ioctl between two suspensions, each under the device's mutex, are one
    program each; OsprdLock gives the steps of several processes. *)

From S2P Require Import Prelude CMemory.

(** ** osprd.h and the device's record *)

Definition OSPRDIOCACQUIRE : Z := 42.
Definition OSPRDIOCTRYACQUIRE : Z := 43.
Definition OSPRDIOCRELEASE : Z := 44.
Definition OSPRDSETPASS : Z := 45.
Definition OSPRDAUTHORIZE : Z := 46.
Definition OSPRDDEAUTHORIZE : Z := 47.
Definition OSPRDPASSEXISTS : Z := 48.
Definition MAX_PASS_LEN : Z := 17.
Definition KEY_LENGTH : Z := 64.
Definition SECTOR_SIZE : Z := 512.

(** Linux's error codes. *)
Definition EFAULT : Z := 14.
Definition EBUSY : Z := 16.
Definition EINVAL : Z := 22.
Definition ENOTTY : Z := 25.
Definition EDEADLK : Z := 35.
Definition EBADE : Z := 52.
Definition ENOMEM : Z := 12.
Definition ERESTARTSYS : Z := 512.

Record osprd_info := OsprdInfo {
  ticket_head : Z;
  ticket_tail : Z;
  num_read : Z;
  num_write : Z;
  write_pid : Z;
  killed_list : list Z;
  pid_list : list Z;
  auth_list : list Z;
  passwd : list Z;
  key : list Z;
  written_sectors : list Z
}.

(** Assignments to the fields of the lock. *)
Definition set_tickets (h t : Z) (d : osprd_info) : osprd_info :=
  OsprdInfo (u32 h) (u32 t) (num_read d) (num_write d) (write_pid d) (killed_list d) (pid_list d) (auth_list d)
    (passwd d) (key d) (written_sectors d).
Definition set_counts (r w pid : Z) (d : osprd_info) : osprd_info :=
  OsprdInfo (ticket_head d) (ticket_tail d) (u32 r) (u32 w) pid (killed_list d) (pid_list d) (auth_list d)
    (passwd d) (key d) (written_sectors d).
Definition set_killed (l : list Z) (d : osprd_info) : osprd_info :=
  OsprdInfo (ticket_head d) (ticket_tail d) (num_read d) (num_write d) (write_pid d) l (pid_list d) (auth_list d)
    (passwd d) (key d) (written_sectors d).
Definition set_pids (l : list Z) (d : osprd_info) : osprd_info :=
  OsprdInfo (ticket_head d) (ticket_tail d) (num_read d) (num_write d) (write_pid d) (killed_list d) l (auth_list d)
    (passwd d) (key d) (written_sectors d).
Definition set_auth (l : list Z) (d : osprd_info) : osprd_info :=
  OsprdInfo (ticket_head d) (ticket_tail d) (num_read d) (num_write d) (write_pid d) (killed_list d) (pid_list d) l
    (passwd d) (key d) (written_sectors d).
Definition set_passwd (p : list Z) (d : osprd_info) : osprd_info :=
  OsprdInfo (ticket_head d) (ticket_tail d) (num_read d) (num_write d) (write_pid d) (killed_list d) (pid_list d) (auth_list d)
    p (key d) (written_sectors d).
Definition set_crypt (k w : list Z) (d : osprd_info) : osprd_info :=
  OsprdInfo (ticket_head d) (ticket_tail d) (num_read d) (num_write d) (write_pid d) (killed_list d) (pid_list d) (auth_list d)
    (passwd d) k w.

(** An open file: whether it is open for writing, and the flag F_OSPRD_LOCKED. *)
Record file := File { f_writable : bool; f_locked : bool }.

Definition osprd_setup (random_key old_passwd : list Z) : osprd_info :=
  OsprdInfo 0 0 0 0 (-1) [] [] [] (0 :: tail old_passwd) random_key (replicate 32 0).

(** ** The ticket lists *)

(** Where a ticket whose process was interrupted goes: the code starts to look
    behind the first node. *)
Fixpoint insert_after (prev ticket : Z) (l : list Z) : list Z :=
  match l with
  | a :: l' => if a <? ticket then prev :: insert_after a ticket l' else prev :: ticket :: a :: l'
  | [] => if ticket <? prev then [ticket; prev] else [prev; ticket]
  end.

(** At the end of the list the code that finds the new ticket below the last one
    makes it the head of a list of the two. *)
Fixpoint last_before (prev ticket : Z) (l : list Z) : Z * bool :=
  match l with
  | a :: l' => if a <? ticket then last_before a ticket l' else (prev, false)
  | [] => (prev, ticket <? prev)
  end.

Definition insert_killed (ticket : Z) (l : list Z) : list Z :=
  match l with
  | [] => [ticket]
  | first :: rest =>
      let '(prev, drops) := last_before first ticket rest in
      if drops then [ticket; prev] else insert_after first ticket rest
  end.

(** The loop that skips the tickets of interrupted processes: [a] runs through
    the list, and when it meets a ticket that is not ahead of [tail] the list is
    cut behind it. *)
Fixpoint skip_killed (a killed : list Z) (tail : Z) : list Z * Z :=
  match a with
  | [] => (killed, tail)
  | t :: a' =>
      if t =? tail then skip_killed a' a' (u32 (tail + 1))
      else if t <? tail then skip_killed a' a' tail
      else skip_killed a' killed tail
  end.

(** The new node goes behind the first node of this process, or the last node;
    what followed that node is lost. *)
Fixpoint add_reader (pid : Z) (l : list Z) : list Z :=
  match l with
  | [] => [pid]
  | [a] => [a; pid]
  | a :: l' => if a =? pid then [a; pid] else a :: add_reader pid l'
  end.

(** Removing the first node of this process. *)
Fixpoint remove_first (pid : Z) (l : list Z) : list Z :=
  match l with
  | [] => []
  | a :: l' => if a =? pid then l' else a :: remove_first pid l'
  end.

(** ** OSPRDIOCACQUIRE *)

Inductive acquire_result := Deadlock | Granted (ticket : Z) | Sleeps (ticket : Z).

(** Up to [wait_event_interruptible]: the ticket, and whether to wait. *)
Definition acquire_begin (filp_writable : bool) (pid : Z) (d : osprd_info) : osprd_info * acquire_result :=
  let cur_ticket := ticket_head d in
  let d1 := set_tickets (ticket_head d + 1) (ticket_tail d) d in
  if write_pid d1 =? pid then (set_tickets (ticket_head d1 - 1) (ticket_tail d1) d1, Deadlock)
  else if filp_writable then
    if bool_decide (pid ∈ pid_list d1) then (set_tickets (ticket_head d1 - 1) (ticket_tail d1) d1, Deadlock)
    else if negb (num_write d1 =? 0) || negb (num_read d1 =? 0) || negb (cur_ticket =? ticket_tail d1) then (d1, Sleeps cur_ticket)
    else (d1, Granted cur_ticket)
  else
    if negb (num_write d1 =? 0) || negb (cur_ticket =? ticket_tail d1) then (d1, Sleeps cur_ticket)
    else (d1, Granted cur_ticket).

(** The condition that is waited for. *)
Definition acquire_ready (filp_writable : bool) (cur_ticket : Z) (d : osprd_info) : bool :=
  (num_write d =? 0) && (negb filp_writable || (num_read d =? 0)) && (ticket_tail d =? cur_ticket).

(** After the wait, or without it: [r] is what [wait_event_interruptible] returned. *)
Definition acquire_end (filp : file) (pid cur_ticket r : Z) (d : osprd_info) : osprd_info * file * Z :=
  if r <? 0 then
    if cur_ticket =? ticket_tail d then (set_tickets (ticket_head d) (ticket_tail d + 1) d, filp, r)
    else (set_killed (insert_killed cur_ticket (killed_list d)) d, filp, r)
  else
    let d1 :=
      if f_writable filp then set_counts (num_read d) (num_write d + 1) pid (set_tickets (ticket_head d) (ticket_tail d + 1) d)
      else set_counts (num_read d + 1) (num_write d) (write_pid d)
             (set_tickets (ticket_head d) (ticket_tail d + 1) (set_pids (add_reader pid (pid_list d)) d)) in
    let '(killed, tail) := skip_killed (killed_list d1) (killed_list d1) (ticket_tail d1) in
    (set_tickets (ticket_head d1) tail (set_killed killed d1), File (f_writable filp) true, 0).

(** ** OSPRDIOCTRYACQUIRE *)

(** The test is made without the mutex, and the counting under it. *)
Definition try_busy (filp_writable : bool) (d : osprd_info) : bool :=
  negb (num_write d =? 0) || (filp_writable && negb (num_read d =? 0)).

Definition try_end (filp : file) (d : osprd_info) : osprd_info * file :=
  (if f_writable filp then set_counts (num_read d) (num_write d + 1) (write_pid d) d
   else set_counts (num_read d + 1) (num_write d) (write_pid d) d,
   File (f_writable filp) true).

(** ** OSPRDIOCRELEASE *)

Definition release (filp : file) (pid : Z) (d : osprd_info) : osprd_info * file * Z :=
  if negb (f_locked filp) then (d, filp, - EINVAL)
  else if f_writable filp then
    let d := set_counts (num_read d) 0 (-1) d in
    (d, File true (if num_read d =? 0 then false else true), 0)
  else
    let d := if negb (num_read d =? 0) then set_counts (num_read d - 1) (num_write d) (write_pid d) d else d in
    let locked := if (num_read d =? 0) && (num_write d =? 0) then false else true in
    (set_pids (remove_first pid (pid_list d)) d, File false locked, 0).

(** ** The ioctls of the passwords

    What the user passes by its address: whether the address is null, whether
    the process may read and write there, and the bytes. *)
Record user_buf := UserBuf { u_null : bool; u_readable : bool; u_writable : bool; u_bytes : list Z }.

Definition copy_from_user (u : user_buf) (n : Z) : option (list Z) :=
  if u_null u || negb (u_readable u) then None else Some (take (Z.to_nat n) (u_bytes u)).
Definition copy_to_user (u : user_buf) (l : list Z) : option user_buf :=
  if u_null u || negb (u_writable u) then None
  else Some (UserBuf (u_null u) (u_readable u) (u_writable u) (l ++ drop (length l) (u_bytes u))).

(** [strcmp(a, b) == 0] and [strlen(a)]; [None] when they run off the arrays. *)
Fixpoint strcmp_eq (a b : list Z) : option bool :=
  match a, b with
  | x :: a', y :: b' => if x =? y then if x =? 0 then Some true else strcmp_eq a' b' else Some false
  | _, _ => None
  end.
Fixpoint strlen_of (a : list Z) : option Z :=
  match a with
  | x :: a' => if x =? 0 then Some 0 else n ← strlen_of a'; Some (n + 1)
  | [] => None
  end.

(** The value an ioctl returns, or that it sleeps with a ticket. *)
Inductive ioctl_result := Returns (r : Z) | Waits (ticket : Z).

(** [mem_ok] says whether [kmalloc] gives memory. *)
Definition set_pass (arg : user_buf) (mem_ok : bool) (d : osprd_info) : option (osprd_info * Z) :=
  if u_null arg then Some (d, - ENOTTY)
  else if negb mem_ok then None
  else match copy_from_user arg MAX_PASS_LEN with
  | None => Some (d, - EFAULT)
  | Some buf =>
      last ← buf !! Z.to_nat (MAX_PASS_LEN - 1);
      Some (if last =? 0 then set_passwd buf d else d, 0)
  end.

(** The process goes on the list unless it is there. *)
Fixpoint authorize_pid (pid : Z) (l : list Z) : list Z :=
  match l with
  | [] => [pid]
  | [a] => if a =? pid then [a] else [a; pid]
  | a :: l' => if a =? pid then l else a :: authorize_pid pid l'
  end.

(** A wrong password is reported in the last byte of the caller's buffer. *)
Definition authorize (arg : user_buf) (mem_ok : bool) (pid : Z) (d : osprd_info) : option (osprd_info * user_buf * Z) :=
  if negb mem_ok then Some (d, arg, - ENOMEM)
  else match copy_from_user arg MAX_PASS_LEN with
  | None => Some (d, arg, - EFAULT)
  | Some buf =>
      same ← strcmp_eq buf (passwd d);
      Some (if same : bool then (set_auth (authorize_pid pid (auth_list d)) d, arg, 0)
            else match copy_to_user arg (<[Z.to_nat (MAX_PASS_LEN - 1) := 56]> buf) with
                 | None => (d, arg, - EFAULT)
                 | Some arg' => (d, arg', 0)
                 end)
  end.

Definition deauthorize (pid : Z) (d : osprd_info) : osprd_info := set_auth (remove_first pid (auth_list d)) d.

Definition pass_exists (arg : user_buf) (d : osprd_info) : option (user_buf * Z) :=
  r ← strlen_of (passwd d);
  Some match copy_to_user arg [r mod 256; 0; 0; 0] with
       | Some arg' => (arg', 0)
       | None => (arg, - EBADE)
       end.

(** ** osprd_ioctl, run without another process in between *)

Definition osprd_ioctl (filp : file) (cmd : Z) (arg : user_buf) (mem_ok : bool) (pid : Z) (d : osprd_info) :
    option (osprd_info * file * user_buf * ioctl_result) :=
  if cmd =? OSPRDIOCACQUIRE then
    match acquire_begin (f_writable filp) pid d with
    | (d, Deadlock) => Some (d, filp, arg, Returns (- EDEADLK))
    | (d, Sleeps t) => Some (d, filp, arg, Waits t)
    | (d, Granted t) => let '(d, filp, r) := acquire_end filp pid t 0 d in Some (d, filp, arg, Returns r)
    end
  else if cmd =? OSPRDIOCTRYACQUIRE then
    if try_busy (f_writable filp) d then Some (d, filp, arg, Returns (- EBUSY))
    else let '(d, filp) := try_end filp d in Some (d, filp, arg, Returns 0)
  else if cmd =? OSPRDIOCRELEASE then
    let '(d, filp, r) := release filp pid d in Some (d, filp, arg, Returns r)
  else if cmd =? OSPRDSETPASS then
    '(d, r) ← set_pass arg mem_ok d; Some (d, filp, arg, Returns r)
  else if cmd =? OSPRDAUTHORIZE then
    '(d, arg, r) ← authorize arg mem_ok pid d; Some (d, filp, arg, Returns r)
  else if cmd =? OSPRDDEAUTHORIZE then Some (deauthorize pid d, filp, arg, Returns 0)
  else if cmd =? OSPRDPASSEXISTS then
    '(arg, r) ← pass_exists arg d; Some (d, filp, arg, Returns r)
  else Some (d, filp, arg, Returns (- ENOTTY)).

(** The last close of a file. *)
Definition osprd_close_last (filp : file) (pid : Z) (d : osprd_info) : option (osprd_info * file * Z) :=
  '(d, filp, _, _) ← osprd_ioctl filp OSPRDIOCRELEASE (UserBuf true false false []) true pid d;
  Some (d, filp, 0).

(** ** spinlock.h, on a machine with one processor

    The lock's counter, and whether the call complains (and, for
    [osp_spin_lock], kills the process). *)
Definition osp_spin_lock_init : Z := 0.
Definition osp_spin_lock (lock : Z) : Z * bool := (lock - 1, lock <? 0).
Definition osp_spin_unlock (lock : Z) : Z * bool := (lock + 1, 0 <? lock + 1).

(** ** What the lists come to *)

Lemma insert_after_incl prev ticket l x : x ∈ insert_after prev ticket l -> x = ticket \/ x = prev \/ x ∈ l.
Proof. revert prev. induction l as [|a l IH]; intros prev; cbn; case_match; set_solver. Qed.

Lemma last_before_incl prev ticket l : (last_before prev ticket l).1 ∈ prev :: l.
Proof. revert prev. induction l as [|a l IH]; intros prev; cbn; [|case_match]; cbn; set_solver. Qed.

Lemma insert_killed_incl ticket l x : x ∈ insert_killed ticket l -> x = ticket \/ x ∈ l.
Proof.
  unfold insert_killed. destruct l as [|a l]; [set_solver|].
  pose proof (last_before_incl a ticket l). destruct (last_before a ticket l) as [prev [|]]; cbn in *.
  - set_solver.
  - intros ?%insert_after_incl. set_solver.
Qed.

Lemma authorize_pid_spec pid l : authorize_pid pid l = if bool_decide (pid ∈ l) then l else l ++ [pid].
Proof.
  induction l as [|a l IH]; [done|]. cbn. destruct (Z.eqb_spec a pid) as [->|Hne].
  - rewrite bool_decide_true by set_solver. by destruct l.
  - destruct l as [|b l].
    + rewrite bool_decide_false by set_solver. done.
    + rewrite IH. case_bool_decide; case_bool_decide; set_solver.
Qed.

(** The password test on buffers that hold C strings is equality of the strings. *)
Definition c_string (a s : list Z) : Prop := exists r, a = s ++ 0 :: r /\ Forall (fun b => b <> 0) s.

Lemma strcmp_eq_spec a b t : c_string b t -> (length b <= length a)%nat ->
  exists r, strcmp_eq a b = Some r /\ (r = true <-> c_string a t).
Proof.
  intros (rb & -> & Hb). revert a. induction Hb as [|y t Hy Hb IH]; intros [|x a] Hl; cbn in Hl |- *; try lia.
  - destruct (Z.eqb_spec x 0) as [->|Hx].
    + exists true. split; [done|]. split; [|done]. intros _. exists a. by split.
    + exists false. split; [done|]. split; [done|]. intros (r & [= ? _] & _). lia.
  - destruct (Z.eqb_spec x y) as [->|Hxy].
    + destruct (Z.eqb_spec y 0); [done|]. destruct (IH a) as (r & -> & Hr); [lia|]. exists r. split; [done|]. rewrite Hr. split.
      * intros (ra & -> & Ha). exists ra. split; [done|by constructor].
      * intros (ra & [= ->] & Ha). exists ra. split; [done|by inversion Ha].
    + eexists. split; [done|]. split; [done|]. intros (r & [= ? _] & _). lia.
Qed.

Lemma strlen_of_spec a s : c_string a s -> strlen_of a = Some (Z.of_nat (length s)).
Proof.
  intros (r & -> & Hs). induction Hs as [|x s Hx Hs IH]; [done|]. cbn [strlen_of app]. destruct (Z.eqb_spec x 0); [done|].
  rewrite IH. cbn. f_equal. lia.
Qed.

(** Bytes that end with a zero hold a C string. *)
Lemma c_string_exists a n : a !! n = Some 0 -> exists s, c_string a s.
Proof.
  revert n. induction a as [|x a IH]; intros n Hn; [done|]. destruct (decide (x = 0)) as [->|Hx]; [by exists [], a|].
  destruct n as [|n]; [by injection Hn|]. destruct (IH n Hn) as (s & r & -> & Hs). exists (x :: s), r. split; [done|by constructor].
Qed.

Lemma remove_first_incl pid l x : x ∈ remove_first pid l -> x ∈ l.
Proof. induction l as [|a l IH]; cbn; [done|]. case_match; set_solver. Qed.

(** ** The password *)

(** The device's password is a C string of the array's length. *)
Definition password (d : osprd_info) (s : list Z) : Prop := length (passwd d) = 17%nat /\ c_string (passwd d) s.

(** What an ioctl leaves of the password and of the list of authorized processes. *)
Definition same_auth (d d' : osprd_info) : Prop := passwd d' = passwd d /\ auth_list d' = auth_list d.

Lemma acquire_begin_auth w pid d : same_auth d (acquire_begin w pid d).1.
Proof. unfold acquire_begin. repeat case_match; done. Qed.

Lemma acquire_end_auth f pid t r d : same_auth d (acquire_end f pid t r d).1.1.
Proof. unfold acquire_end. repeat case_match; cbn; simplify_eq; done. Qed.

Lemma release_auth f pid d : same_auth d (release f pid d).1.1.
Proof. unfold release. repeat case_match; cbn; simplify_eq; done. Qed.

(** SETPASS leaves a password, and AUTHORIZE authorizes the caller when it has
    the password. *)
Lemma set_pass_run arg d p : password d p -> (17 <= length (u_bytes arg))%nat ->
  exists d' r, set_pass arg true d = Some (d', r) /\ (exists p', password d' p') /\ auth_list d' = auth_list d.
Proof.
  intros Hp Ha. unfold set_pass. destruct (u_null arg); [by eexists _, _; split; [done|eauto]|]. cbn [negb].
  destruct (copy_from_user arg MAX_PASS_LEN) as [buf|] eqn:Ec; [|by eexists _, _; split; [done|eauto]].
  unfold copy_from_user in Ec. destruct (u_null arg || negb (u_readable arg)); [done|]. injection Ec as Ec.
  assert (Hb : length buf = 17%nat) by (rewrite <- Ec, length_take; change (Z.to_nat MAX_PASS_LEN) with 17%nat; lia).
  destruct (lookup_lt_is_Some_2 buf (Z.to_nat (MAX_PASS_LEN - 1))) as [b Hlast]; [rewrite Hb; apply Nat.lt_succ_diag_r|].
  rewrite Hlast. cbn [mbind option_bind]. eexists _, _. split; [done|]. destruct (Z.eqb_spec b 0) as [->|]; [|by eauto].
  split; [|done]. destruct (c_string_exists _ _ Hlast) as [s Hs]. by exists s.
Qed.

Lemma authorize_run arg pid d p : password d p -> (17 <= length (u_bytes arg))%nat ->
  exists d' arg' r, authorize arg true pid d = Some (d', arg', r) /\ passwd d' = passwd d /\
    (auth_list d' = auth_list d \/
     (auth_list d' = authorize_pid pid (auth_list d) /\ u_readable arg = true /\ c_string (take 17 (u_bytes arg)) p)).
Proof.
  intros [Hl Hp] Ha. unfold authorize. cbn [negb].
  destruct (copy_from_user arg MAX_PASS_LEN) as [buf|] eqn:Ec; [|by eexists _, _, _; split; [done|]; split; [done|left]].
  unfold copy_from_user in Ec. destruct (u_null arg || negb (u_readable arg)) eqn:Er; [done|]. apply orb_false_elim in Er as [_ Er].
  change (Z.to_nat MAX_PASS_LEN) with 17%nat in Ec. injection Ec as <-.
  destruct (strcmp_eq_spec (take 17 (u_bytes arg)) (passwd d) p) as (same & Hs & Hiff); [done|rewrite length_take; lia|].
  rewrite Hs. cbn [mbind option_bind].
  destruct same; [|destruct (copy_to_user _ _); (eexists _, _, _; split; [done|]; split; [done|by left])].
  eexists _, _, _. split; [done|]. split; [done|]. right. split; [done|]. split; [by apply negb_false_iff|by apply Hiff].
Qed.

(** C40: only the password authorizes.  While the user's buffers have 17 bytes
    and memory is there, every ioctl returns or waits, without running off the
    password's array, the device keeps having a password, and a process that was
    not authorized before and is after is the calling process, which gave the
    password to OSPRDAUTHORIZE. *)
Theorem only_the_password_authorizes filp cmd arg pid d p : password d p -> (17 <= length (u_bytes arg))%nat ->
  exists d' filp' arg' r, osprd_ioctl filp cmd arg true pid d = Some (d', filp', arg', r) /\ (exists p', password d' p') /\
    forall q, q ∈ auth_list d' -> q ∉ auth_list d ->
      q = pid /\ cmd = OSPRDAUTHORIZE /\ u_readable arg = true /\ c_string (take 17 (u_bytes arg)) p.
Proof.
  intros [Hl Hp] Ha.
  assert (Hsame : forall d', same_auth d d' -> (exists p', password d' p') /\
    forall q, q ∈ auth_list d' -> q ∉ auth_list d -> q = pid /\ cmd = OSPRDAUTHORIZE /\ u_readable arg = true /\ c_string (take 17 (u_bytes arg)) p).
  { intros d' [E1 E2]. split; [exists p; unfold password; by rewrite E1|]. rewrite E2. done. }
  unfold osprd_ioctl.
  destruct (Z.eqb_spec cmd OSPRDIOCACQUIRE).
  { pose proof (acquire_begin_auth (f_writable filp) pid d) as [E1 E2].
    destruct (acquire_begin _ _ _) as [d1 [|t|t]]; cbn [fst] in *.
    - eexists _, _, _, _. split; [done|by apply Hsame].
    - pose proof (acquire_end_auth filp pid t 0 d1) as [E3 E4]. destruct (acquire_end _ _ _ _ _) as [[d2 f2] r2]; cbn [fst] in *.
      eexists _, _, _, _. split; [done|]. apply Hsame. split; congruence.
    - eexists _, _, _, _. split; [done|by apply Hsame]. }
  destruct (Z.eqb_spec cmd OSPRDIOCTRYACQUIRE).
  { destruct (try_busy _ _); [|unfold try_end]; eexists _, _, _, _; (split; [done|]); apply Hsame; [done|by destruct (f_writable filp)]. }
  destruct (Z.eqb_spec cmd OSPRDIOCRELEASE).
  { pose proof (release_auth filp pid d). destruct (release _ _ _) as [[d1 f1] r1]. eexists _, _, _, _. split; [done|by apply Hsame]. }
  destruct (Z.eqb_spec cmd OSPRDSETPASS).
  { destruct (set_pass_run arg d p) as (d1 & r & Hrun & Hp1 & Ea); [done..|]. rewrite Hrun. cbn [mbind option_bind].
    eexists _, _, _, _. split; [done|]. split; [done|]. by rewrite Ea. }
  destruct (Z.eqb_spec cmd OSPRDAUTHORIZE).
  { destruct (authorize_run arg pid d p) as (d1 & arg1 & r & Hrun & Ep & Hauth); [done..|]. rewrite Hrun. cbn [mbind option_bind].
    eexists _, _, _, _. split; [done|]. split; [exists p; unfold password; by rewrite Ep|]. intros q Hq Hn.
    destruct Hauth as [Ea|(Ea & Hr & Hs)]; rewrite Ea in Hq; [done|]. rewrite authorize_pid_spec in Hq. case_bool_decide; [done|].
    apply elem_of_app in Hq as [?|Hin%list_elem_of_singleton]; [done|]. by subst q. }
  destruct (Z.eqb_spec cmd OSPRDDEAUTHORIZE).
  { eexists _, _, _, _. split; [done|]. split; [by exists p|]. cbn. intros q Hq%remove_first_incl Hn. done. }
  destruct (Z.eqb_spec cmd OSPRDPASSEXISTS).
  { unfold pass_exists. rewrite (strlen_of_spec _ p) by done. cbn [mbind option_bind].
    destruct (copy_to_user _ _); (eexists _, _, _, _; split; [done|by apply Hsame]). }
  eexists _, _, _, _. split; [done|by apply Hsame].
Qed.

Lemma only_the_password_authorizes_witness : exists d' f' a' r,
  osprd_ioctl (File true false) OSPRDAUTHORIZE (UserBuf false true true (104 :: replicate 16 0)) true 9
    (set_passwd (104 :: replicate 16 0) (osprd_setup [] [])) = Some (d', f', a', r) /\ 9 ∈ auth_list d' /\
  (9 = 9 /\ OSPRDAUTHORIZE = OSPRDAUTHORIZE /\ true = true /\ c_string (take 17 (104 :: replicate 16 0)) [104]).
Proof.
  destruct (only_the_password_authorizes (File true false) OSPRDAUTHORIZE (UserBuf false true true (104 :: replicate 16 0)) 9
    (set_passwd (104 :: replicate 16 0) (osprd_setup [] [])) [104]) as (d' & f' & a' & r & Hrun & _ & Hq).
  - split; [reflexivity|]. exists (replicate 15 0). split; [reflexivity|]. constructor; [discriminate|constructor].
  - vm_compute. lia.
  - exists d', f', a', r. split; [exact Hrun|]. vm_compute in Hrun. injection Hrun as <- _ _ _.
    split; [by left|]. apply (Hq 9); [by left|]. intros Hin%elem_of_nil. destruct Hin.
Defined.
