(* ===== verification/OsprdLock.v ===== *)
(** * OSPRD: several processes and the lock

    A thread is a process with an open file of the device.  Between two of its
    steps, each of which the mutex of osprd.c makes atomic, the other threads
    run: [act] is one step, [execute] a schedule.  Threads that lock with
    OSPRDIOCACQUIRE and release once what they hold are polite; for them the
    lock excludes ([execute_inv]), and without signals someone can always go on
    ([execute_live]). *)

From S2P Require Import Prelude CMemory Osprd.

(** ** Threads and their steps *)

(** [Waiting t looks]: in [wait_event_interruptible] with ticket [t]; [looks]
    says whether it was woken and looks at its condition again.  [Woken t]: it
    found the condition true and has not yet the mutex.  [Trying]: it passed the
    test of OSPRDIOCTRYACQUIRE and has not yet the mutex. *)
Inductive phase := Idle | Waiting (t : Z) (looks : bool) | Woken (t : Z) | Trying | Holding.

#[export] Instance phase_eq_dec : EqDecision phase.
Proof. solve_decision. Defined.

Record thread := Thread { th_file : file; th_pid : Z; th_phase : phase }.

Definition config : Type := osprd_info * list thread.

Inductive action :=
| Acquire (i : nat)    (* OSPRDIOCACQUIRE up to the wait, or to its end *)
| Look (i : nat)       (* the condition of the wait *)
| Interrupt (i : nat)  (* a signal ends the wait *)
| Finish (i : nat)     (* the rest of OSPRDIOCACQUIRE *)
| Release (i : nat)    (* OSPRDIOCRELEASE by a holder *)
| Close (i : nat)      (* the last close of a file that is not held *)
| TryLook (i : nat)    (* OSPRDIOCTRYACQUIRE's test *)
| TryFinish (i : nat). (* the rest of OSPRDIOCTRYACQUIRE *)

Definition wake (th : thread) : thread :=
  match th_phase th with Waiting t _ => Thread (th_file th) (th_pid th) (Waiting t true) | _ => th end.

(** [wake_up_all(&d->blockq)] *)
Definition wake_up_all (ths : list thread) : list thread := map wake ths.

Definition set_phase (p : phase) (th : thread) : thread := Thread (th_file th) (th_pid th) p.

(** OSPRDIOCACQUIRE from the mutex on, after the wait or without it. *)
Definition granted (i : nat) (th : thread) (t : Z) (c : config) : config :=
  let '(d, f, _) := acquire_end (th_file th) (th_pid th) t 0 (fst c) in
  (d, <[i := Thread f (th_pid th) Holding]> (snd c)).

Definition act_acquire (i : nat) (th : thread) (c : config) : option config :=
  match th_phase th, acquire_begin (f_writable (th_file th)) (th_pid th) (fst c) with
  | Idle, (d, Deadlock) => Some (d, snd c)
  | Idle, (d, Sleeps t) => Some (d, <[i := set_phase (Waiting t true) th]> (snd c))
  | Idle, (d, Granted t) => Some (granted i th t (d, snd c))
  | _, _ => None
  end.

Definition act_look (i : nat) (th : thread) (c : config) : option config :=
  match th_phase th with
  | Waiting t true =>
      Some (fst c, <[i := set_phase (if acquire_ready (f_writable (th_file th)) t (fst c) then Woken t else Waiting t false) th]> (snd c))
  | _ => None
  end.

Definition act_interrupt (i : nat) (th : thread) (c : config) : option config :=
  match th_phase th with
  | Waiting t _ =>
      let '(d, f, _) := acquire_end (th_file th) (th_pid th) t (- ERESTARTSYS) (fst c) in
      Some (d, <[i := Thread f (th_pid th) Idle]> (snd c))
  | _ => None
  end.

Definition act_release (p : phase) (i : nat) (th : thread) (c : config) : option config :=
  let '(d, f, r) := release (th_file th) (th_pid th) (fst c) in
  if decide (th_phase th = p) then
    Some (d, let ths := <[i := Thread f (th_pid th) Idle]> (snd c) in if r =? 0 then wake_up_all ths else ths)
  else None.

Definition act_try_look (i : nat) (th : thread) (c : config) : option config :=
  match th_phase th with
  | Idle => Some (fst c, if try_busy (f_writable (th_file th)) (fst c) then snd c else <[i := set_phase Trying th]> (snd c))
  | _ => None
  end.

Definition act_try_finish (i : nat) (th : thread) (c : config) : option config :=
  match th_phase th with
  | Trying => let '(d, f) := try_end (th_file th) (fst c) in Some (d, <[i := Thread f (th_pid th) Holding]> (snd c))
  | _ => None
  end.

Definition act (a : action) (c : config) : option config :=
  match a with
  | Acquire i => th ← snd c !! i; act_acquire i th c
  | Look i => th ← snd c !! i; act_look i th c
  | Interrupt i => th ← snd c !! i; act_interrupt i th c
  | Finish i => th ← snd c !! i; match th_phase th with Woken t => Some (granted i th t c) | _ => None end
  | Release i => th ← snd c !! i; act_release Holding i th c
  | Close i => th ← snd c !! i; act_release Idle i th c
  | TryLook i => th ← snd c !! i; act_try_look i th c
  | TryFinish i => th ← snd c !! i; act_try_finish i th c
  end.

Fixpoint execute (l : list action) (c : config) : option config :=
  match l with
  | [] => Some c
  | a :: l' => c' ← act a c; execute l' c'
  end.

Definition polite (a : action) : bool :=
  match a with Acquire _ | Look _ | Interrupt _ | Finish _ | Release _ => true | _ => false end.
Definition quiet (a : action) : bool :=
  match a with Interrupt _ => false | _ => polite a end.

(** A device just set up, and threads that do nothing yet: which of them have
    the file open for writing, and their process numbers. *)
Definition initially (k p : list Z) (ths : list (bool * Z)) : config :=
  (osprd_setup k p, map (fun '(w, pid) => Thread (File w false) pid Idle) ths).

(** ** The invariant of polite threads *)

Definition live (th : thread) : option Z :=
  match th_phase th with Waiting t _ | Woken t => Some t | _ => None end.

Definition holds (w : bool) (th : thread) : Prop := th_phase th = Holding /\ f_writable (th_file th) = w.
#[export] Instance holds_dec w th : Decision (holds w th).
Proof. unfold holds. apply _. Defined.

Definition holders (w : bool) (ths : list thread) : Z := Z.of_nat (length (filter (holds w) ths)).

Record lock_inv (c : config) : Prop := {
  li_tail : 0 <= ticket_tail (fst c) <= ticket_head (fst c);
  li_live : forall i th t, snd c !! i = Some th -> live th = Some t -> ticket_tail (fst c) <= t < ticket_head (fst c);
  li_distinct : forall i j th th' t, snd c !! i = Some th -> snd c !! j = Some th' -> live th = Some t -> live th' = Some t -> i = j;
  li_killed : forall t, t ∈ killed_list (fst c) -> t < ticket_head (fst c) /\ forall i th, snd c !! i = Some th -> live th <> Some t;
  li_woken : forall i th t, snd c !! i = Some th -> th_phase th = Woken t -> acquire_ready (f_writable (th_file th)) t (fst c) = true;
  li_polite : forall i th, snd c !! i = Some th -> th_phase th <> Trying;
  li_locked : forall i th, snd c !! i = Some th -> th_phase th = Holding -> f_locked (th_file th) = true;
  li_write : num_write (fst c) = holders true (snd c);
  li_read : num_read (fst c) = holders false (snd c);
  li_one : num_write (fst c) <= 1;
  li_alone : num_write (fst c) = 1 -> num_read (fst c) = 0
}.

(** ** Counting *)

Definition indicator (P : Prop) `{Decision P} : Z := if decide P then 1 else 0.

Lemma holders_insert w ths i th th' : ths !! i = Some th ->
  holders w (<[i := th']> ths) = holders w ths - indicator (holds w th) + indicator (holds w th').
Proof.
  intros Hi. assert (Hlt := lookup_lt_Some _ _ _ Hi). unfold holders, indicator.
  rewrite insert_take_drop by done. rewrite <- (take_drop_middle _ _ _ Hi) at 3.
  rewrite !filter_app, !filter_cons, !length_app. repeat case_decide; cbn [length]; lia.
Qed.

Lemma holders_bound w ths : 0 <= holders w ths <= Z.of_nat (length ths).
Proof. unfold holders. pose proof (length_filter (holds w) ths). lia. Qed.

Lemma holders_pos w ths i th : ths !! i = Some th -> holds w th -> 1 <= holders w ths.
Proof.
  intros Hi Hh. unfold holders. assert (Hin : th ∈ filter (holds w) ths).
  { apply list_elem_of_filter. split; [done|]. by eapply list_elem_of_lookup_2. }
  destruct (filter (holds w) ths); [by apply elem_of_nil in Hin|cbn; lia].
Qed.

Lemma holders_two w ths i j th th' : i <> j -> ths !! i = Some th -> ths !! j = Some th' -> holds w th -> holds w th' ->
  2 <= holders w ths.
Proof.
  intros Hij Hi Hj Hh Hh'. pose (id := set_phase Idle th).
  pose proof (holders_insert w ths i th id Hi) as E. unfold indicator in E.
  rewrite decide_True in E by done. rewrite (decide_False (P := holds w id)) in E by by intros [].
  pose proof (holders_pos w (<[i := id]> ths) j th'). rewrite list_lookup_insert_ne in H by done.
  specialize (H Hj Hh'). lia.
Qed.

Lemma live_wake th : live (wake th) = live th.
Proof. unfold live, wake. by destruct (th_phase th) eqn:E; rewrite ?E. Qed.
Lemma file_wake th : th_file (wake th) = th_file th.
Proof. unfold wake. by destruct (th_phase th). Qed.
Lemma phase_wake th p : (forall t b, p <> Waiting t b) -> th_phase (wake th) = p <-> th_phase th = p.
Proof. unfold wake. intros Hp. destruct (th_phase th) eqn:E; rewrite ?E; cbn; [done| |done..]. naive_solver. Qed.

Lemma holders_wake w ths : holders w (wake_up_all ths) = holders w ths.
Proof.
  unfold holders, wake_up_all. f_equal. induction ths as [|th ths IH]; [done|]. cbn [map].
  rewrite !filter_cons. assert (Hiff : holds w (wake th) <-> holds w th).
  { unfold holds. rewrite file_wake, phase_wake by done. done. }
  repeat case_decide; cbn [length]; [by f_equal|tauto|tauto|done].
Qed.

(** Waking the sleepers keeps the invariant. *)
Lemma lock_inv_wake d ths : lock_inv (d, ths) -> lock_inv (d, wake_up_all ths).
Proof.
  intros []. split; cbn [fst snd] in *; rewrite ?holders_wake; try done; unfold wake_up_all;
    setoid_rewrite list_lookup_fmap_Some.
  - intros i th t (th0 & -> & Hi). rewrite live_wake. eauto.
  - intros i j th th' t (th0 & -> & Hi) (th1 & -> & Hj). rewrite !live_wake. eauto.
  - intros t Ht. destruct (li_killed0 t Ht) as [? Hk]. split; [done|]. intros i th (th0 & -> & Hi). rewrite live_wake. eauto.
  - intros i th t (th0 & -> & Hi). rewrite file_wake, phase_wake by done. eauto.
  - intros i th (th0 & -> & Hi). rewrite phase_wake by done. eauto.
  - intros i th (th0 & -> & Hi). rewrite file_wake, phase_wake by done. eauto.
Qed.

(** ** A step of one thread

    What has to be shown when thread [i] changes the device and itself. *)
Lemma lock_inv_set d ths i th d' th' : lock_inv (d, ths) -> ths !! i = Some th ->
  0 <= ticket_tail d' <= ticket_head d' -> ticket_head d <= ticket_head d' ->
  (forall j thj t, j <> i -> ths !! j = Some thj -> live thj = Some t -> ticket_tail d' <= t) ->
  (forall t, t ∈ killed_list d' ->
     t < ticket_head d' /\ (forall j thj, j <> i -> ths !! j = Some thj -> live thj <> Some t) /\ live th' <> Some t) ->
  (forall t, live th' = Some t ->
     ticket_tail d' <= t < ticket_head d' /\ forall j thj, j <> i -> ths !! j = Some thj -> live thj <> Some t) ->
  (forall j thj t, j <> i -> ths !! j = Some thj -> th_phase thj = Woken t -> acquire_ready (f_writable (th_file thj)) t d' = true) ->
  (forall t, th_phase th' = Woken t -> acquire_ready (f_writable (th_file th')) t d' = true) ->
  th_phase th' <> Trying -> (th_phase th' = Holding -> f_locked (th_file th') = true) ->
  num_write d' = num_write d - indicator (holds true th) + indicator (holds true th') ->
  num_read d' = num_read d - indicator (holds false th) + indicator (holds false th') ->
  num_write d' <= 1 -> (num_write d' = 1 -> num_read d' = 0) ->
  lock_inv (d', <[i := th']> ths).
Proof.
  intros [] Hi Ht Hh Hl Hk Hl' Hw Hw' Hp Hf Hnw Hnr H1 H0. cbn [fst snd] in *.
  assert (Hlt := lookup_lt_Some _ _ _ Hi).
  assert (Hcase : forall j thj, <[i := th']> ths !! j = Some thj -> (j = i /\ thj = th') \/ (j <> i /\ ths !! j = Some thj)).
  { intros j thj. rewrite list_lookup_insert_Some. naive_solver. }
  split; cbn [fst snd]; try done.
  - intros j thj t [[-> ->]|[Hne Hj]]%Hcase Hlive; [by apply Hl'|].
    specialize (li_live0 j thj t Hj Hlive). specialize (Hl j thj t Hne Hj Hlive). lia.
  - intros j k thj thk t [[-> ->]|[Hne Hj]]%Hcase [[-> ->]|[Hne' Hj']]%Hcase L1 L2; try done; [| |by eauto].
    + by destruct (Hl' t L1) as [_ Hno]; destruct (Hno k thk Hne' Hj').
    + by destruct (Hl' t L2) as [_ Hno]; destruct (Hno j thj Hne Hj).
  - intros t Hin. destruct (Hk t Hin) as (H & Hno & Hno'). split; [done|].
    intros j thj [[-> ->]|[Hne Hj]]%Hcase; eauto.
  - intros j thj t [[-> ->]|[Hne Hj]]%Hcase; eauto.
  - intros j thj [[-> ->]|[Hne Hj]]%Hcase; eauto.
  - intros j thj [[-> ->]|[Hne Hj]]%Hcase; eauto.
  - rewrite (holders_insert _ _ _ th) by done. lia.
  - rewrite (holders_insert _ _ _ th) by done. lia.
Qed.

(** The loop over the killed list passes no ticket that somebody has. *)
Lemma skip_killed_spec (L : Z -> Prop) head a killed tail killed' tail' :
  skip_killed a killed tail = (killed', tail') -> head < 2 ^ 32 -> 0 <= tail <= head ->
  (forall t, t ∈ a -> t < head /\ ~ L t) -> (forall t, L t -> tail <= t) ->
  tail <= tail' <= head /\ (forall t, L t -> tail' <= t) /\ (forall t, t ∈ killed' -> t ∈ killed \/ t ∈ a).
Proof.
  revert killed tail. induction a as [|t a IH]; intros killed tail Hs Hh Ht Ha HL; cbn in Hs.
  { simplify_eq. split_and!; [lia..|done|by left]. }
  destruct (Ha t) as [Hth HnL]; [by left|].
  assert (Ha' : forall t, t ∈ a -> t < head /\ ~ L t) by (intros; apply Ha; by right).
  destruct (Z.eqb_spec t tail) as [->|]; [|destruct (Z.ltb_spec t tail)].
  - rewrite u32_small in Hs by lia. destruct (IH _ _ Hs) as (H1 & H2 & H3); [lia|lia|done| |].
    + intros u Hu. specialize (HL u Hu). destruct (decide (u = tail)); [by subst|lia].
    + split_and!; [lia..|done|set_solver].
  - destruct (IH _ _ Hs) as (H1 & H2 & H3); [done..|]. split_and!; [lia..|done|set_solver].
  - destruct (IH _ _ Hs) as (H1 & H2 & H3); [done..|]. split_and!; [lia..|done|set_solver].
Qed.

Ltac osimp :=
  unfold set_tickets, set_counts, set_killed, set_pids;
  cbn [ticket_head ticket_tail num_read num_write write_pid killed_list pid_list fst snd f_writable f_locked th_file th_phase th_pid];
  rewrite ?u32_small by lia.

Lemma lock_inv_counts d ths : lock_inv (d, ths) -> 0 <= num_write d /\ 0 <= num_read d <= Z.of_nat (length ths).
Proof.
  intros []. cbn [fst snd] in *. pose proof (holders_bound true ths). pose proof (holders_bound false ths). lia.
Qed.

Lemma indicator_idle w th : (forall p, th_phase th = p -> p <> Holding) -> indicator (holds w th) = 0.
Proof. intros Hp. unfold indicator. rewrite decide_False; [done|]. intros [H _]. by destruct (Hp Holding). Qed.

Lemma indicator_holding w th : th_phase th = Holding -> indicator (holds w th) = if Bool.eqb (f_writable (th_file th)) w then 1 else 0.
Proof.
  intros Hp. unfold indicator. case_decide as H; unfold holds in H; destruct (f_writable (th_file th)), w; cbn; naive_solver.
Qed.

(** Taking a ticket. *)
Lemma inv_take d ths i th b : lock_inv (d, ths) -> ths !! i = Some th -> th_phase th = Idle -> ticket_head d + 1 < 2 ^ 32 ->
  lock_inv (set_tickets (ticket_head d + 1) (ticket_tail d) d, <[i := set_phase (Waiting (ticket_head d) b) th]> ths).
Proof.
  intros Hinv Hi Hp Hh. pose proof (lock_inv_counts _ _ Hinv). pose proof Hinv as []. cbn [fst snd] in *.
  eapply lock_inv_set; [done|done|..]; osimp; try done; try lia.
  - intros j thj t _ Hj Hl. by eapply li_live0.
  - intros t Hk. destruct (li_killed0 t Hk) as [? Hno]. split_and!; [lia|eauto|]. cbn. intros [= Heq]. lia.
  - intros t [= <-]. split; [lia|]. intros j thj _ Hj Hl. specialize (li_live0 j thj _ Hj Hl). lia.
  - intros j thj t _ Hj Hw. specialize (li_woken0 j thj t Hj Hw). unfold acquire_ready in *. by osimp.
  - rewrite !indicator_idle by (cbn; rewrite ?Hp; by intros ? <-). lia.
  - rewrite !indicator_idle by (cbn; rewrite ?Hp; by intros ? <-). lia.
Qed.

(** Looking at the condition. *)
Lemma inv_look d ths i th t b p : lock_inv (d, ths) -> ths !! i = Some th -> th_phase th = Waiting t b ->
  p = Waiting t false \/ (p = Woken t /\ acquire_ready (f_writable (th_file th)) t d = true) ->
  lock_inv (d, <[i := set_phase p th]> ths).
Proof.
  intros Hinv Hi Hp Hlook. pose proof Hinv as []. cbn [fst snd] in *.
  assert (Hlive : live th = Some t) by (unfold live; by rewrite Hp).
  assert (Hlive' : live (set_phase p th) = Some t) by (destruct Hlook as [->|[-> _]]; done).
  eapply lock_inv_set; [done|done|..]; rewrite ?Hlive'; try done; try lia.
  - intros j thj u _ Hj Hl. by eapply li_live0.
  - intros u Hk. destruct (li_killed0 u Hk) as [? Hno]. split_and!; [lia|eauto|]. rewrite <- Hlive. by eapply Hno.
  - intros u [= <-]. split; [by eapply li_live0|]. intros j thj Hne Hj Hl. by destruct Hne; eapply li_distinct0.
  - intros j thj u _ Hj Hw. by eapply li_woken0.
  - intros u Hu. destruct Hlook as [->|[-> ?]]; cbn in Hu; by simplify_eq.
  - by destruct Hlook as [->|[-> _]].
  - by destruct Hlook as [->|[-> _]].
  - rewrite !indicator_idle; [lia|..]; destruct Hlook as [->|[-> _]]; cbn; rewrite ?Hp; by intros ? <-.
  - rewrite !indicator_idle; [lia|..]; destruct Hlook as [->|[-> _]]; cbn; rewrite ?Hp; by intros ? <-.
Qed.

(** Taking the lock: [acquire_end] after a wait that was not interrupted. *)
Lemma acquire_end_ok f pid t d : exists killed tail,
  skip_killed (killed_list d) (killed_list d) (u32 (ticket_tail d + 1)) = (killed, tail) /\
  ticket_head (acquire_end f pid t 0 d).1.1 = u32 (ticket_head d) /\
  ticket_tail (acquire_end f pid t 0 d).1.1 = u32 tail /\
  killed_list (acquire_end f pid t 0 d).1.1 = killed /\
  num_write (acquire_end f pid t 0 d).1.1 = u32 (num_write d + if f_writable f then 1 else 0) /\
  num_read (acquire_end f pid t 0 d).1.1 = u32 (num_read d + if f_writable f then 0 else 1) /\
  (acquire_end f pid t 0 d).1.2 = File (f_writable f) true.
Proof.
  unfold acquire_end, set_tickets, set_counts, set_killed, set_pids. destruct (f_writable f) eqn:E;
    cbn [Z.ltb Z.compare ticket_head ticket_tail num_read num_write killed_list fst snd];
    destruct (skip_killed _ _ _) as [killed tail] eqn:Es; cbn [ticket_head ticket_tail num_read num_write killed_list fst snd];
    rewrite ?u32_u32, ?Z.add_0_r; exists killed, tail; done.
Qed.

Lemma inv_granted d ths i th t : lock_inv (d, ths) -> ths !! i = Some th -> th_phase th = Woken t ->
  ticket_head d < 2 ^ 32 -> Z.of_nat (length ths) < 2 ^ 32 ->
  lock_inv (granted i th t (d, ths)).
Proof.
  intros Hinv Hi Hp Hh Hlen. pose proof (lock_inv_counts _ _ Hinv) as [Hcw Hcr]. pose proof Hinv as []. cbn [fst snd] in *.
  assert (Hlive : live th = Some t) by (unfold live; by rewrite Hp).
  pose proof (li_live0 _ _ _ Hi Hlive) as Ht.
  pose proof (li_woken0 _ _ _ Hi Hp) as Hr. unfold acquire_ready in Hr.
  apply andb_prop in Hr as [[Hnw Hnr]%andb_prop Htt%Z.eqb_eq]. apply Z.eqb_eq in Hnw.
  destruct (acquire_end_ok (th_file th) (th_pid th) t d) as (killed & tail & Hs & E1 & E2 & E3 & E4 & E5 & E6).
  unfold granted. cbn [fst snd]. destruct (acquire_end _ _ _ _ _) as [[d' f] r]. cbn [fst snd] in *. subst f.
  rewrite u32_small in E1, Hs by lia.
  (* nobody else has the ticket *)
  assert (Hother : forall j thj u, j <> i -> ths !! j = Some thj -> live thj = Some u -> ticket_tail d + 1 <= u).
  { intros j thj u Hne Hj Hl. pose proof (li_live0 _ _ _ Hj Hl). destruct (decide (u = t)) as [->|]; [|lia].
    by destruct Hne; eapply li_distinct0. }
  destruct (skip_killed_spec (fun u => exists j thj, j <> i /\ ths !! j = Some thj /\ live thj = Some u) (ticket_head d) _ _ _ _ _ Hs)
    as (Hs1 & Hs2 & Hs3); [done|lia| |naive_solver|].
  { intros u Hu. destruct (li_killed0 u Hu) as [? Hno]. split; [done|]. intros (j & thj & _ & Hj & Hl). by eapply Hno. }
  rewrite u32_small in E2 by lia.
  pose proof (holders_bound false (<[i := Thread (File (f_writable (th_file th)) true) (th_pid th) Holding]> ths)) as Hb.
  rewrite length_insert, (holders_insert _ _ _ th) in Hb by done.
  set (th' := Thread (File (f_writable (th_file th)) true) (th_pid th) Holding) in *.
  assert (I0 : forall w, indicator (holds w th) = 0) by (intros w; apply indicator_idle; rewrite Hp; by intros ? <-).
  assert (I1 : forall w, indicator (holds w th') = if Bool.eqb (f_writable (th_file th)) w then 1 else 0) by (intros w; exact (indicator_holding w th' eq_refl)).
  rewrite I0, I1 in Hb.
  eapply lock_inv_set; [done|done|..]; rewrite ?E1, ?E2, ?E3, ?E4, ?E5; try done; try lia; cycle 2.
  - intros j thj u Hne Hj Hw. pose proof (Hother j thj u Hne Hj) as Ho. unfold live in Ho. rewrite Hw in Ho.
    specialize (Ho eq_refl). specialize (li_woken0 _ _ _ Hj Hw). unfold acquire_ready in li_woken0.
    apply andb_prop in li_woken0 as [_ ?%Z.eqb_eq]. lia.
  - rewrite I0, I1, Hnw. by destruct (f_writable (th_file th)).
  - rewrite I0, I1. destruct (f_writable (th_file th)); cbn in *; rewrite u32_small; lia.
  - rewrite Hnw. by destruct (f_writable (th_file th)).
  - rewrite Hnw. destruct (f_writable (th_file th)); cbn in *; [|done]. apply Z.eqb_eq in Hnr. by rewrite Hnr.
  - intros j thj u Hne Hj Hl. apply Hs2. eauto.
  - intros u Hu. destruct (li_killed0 u) as [? Hno]; [by destruct (Hs3 _ Hu)|]. split_and!; [lia|eauto|done].
Qed.

(** A signal ends a wait. *)
Lemma inv_interrupt d ths i th t b c' : lock_inv (d, ths) -> ths !! i = Some th -> th_phase th = Waiting t b ->
  ticket_head d < 2 ^ 32 -> act_interrupt i th (d, ths) = Some c' -> lock_inv c' /\ ticket_head (fst c') = ticket_head d.
Proof.
  intros Hinv Hi Hp Hh. pose proof (lock_inv_counts _ _ Hinv). pose proof Hinv as []. cbn [fst snd] in *.
  assert (Hlive : live th = Some t) by (unfold live; by rewrite Hp).
  pose proof (li_live0 _ _ _ Hi Hlive) as Ht.
  assert (I0 : forall w, indicator (holds w th) = 0) by (intros w; apply indicator_idle; rewrite Hp; by intros ? <-).
  assert (Hready : forall j thj u, j <> i -> ths !! j = Some thj -> th_phase thj = Woken u -> u = ticket_tail d /\ t <> u).
  { intros j thj u Hne Hj Hw. specialize (li_woken0 _ _ _ Hj Hw). unfold acquire_ready in li_woken0.
    apply andb_prop in li_woken0 as [_ ?%Z.eqb_eq]. split; [done|]. intros <-.
    destruct Hne. eapply li_distinct0; eauto. unfold live. by rewrite Hw. }
  unfold act_interrupt, acquire_end. rewrite Hp. cbn [fst snd]. change (- ERESTARTSYS <? 0) with true. cbv iota.
  destruct (Z.eqb_spec t (ticket_tail d)) as [->|Hne]; intros [= <-]; (split; [|cbn; osimp; done]);
    (eapply lock_inv_set; [done|done|..]); osimp; try done; try lia;
    try (rewrite I0; rewrite indicator_idle by (intros ? <-; done); lia).
  - intros j thj u Hne Hj Hl. pose proof (li_live0 _ _ _ Hj Hl). destruct (decide (u = ticket_tail d)) as [->|]; [|lia].
    destruct Hne. by eapply li_distinct0.
  - intros u Hk. destruct (li_killed0 u Hk) as [? Hno]. split_and!; [lia|eauto|done].
  - intros j thj u Hne Hj Hw. destruct (Hready _ _ _ Hne Hj Hw). lia.
  - intros j thj u Hj' Hj Hl. by eapply li_live0.
  - intros u [->|Hk]%insert_killed_incl.
    + split_and!; [lia| |done]. intros j thj Hj' Hj Hl. destruct Hj'. by eapply li_distinct0.
    + destruct (li_killed0 u Hk) as [? Hno]. split_and!; [lia|eauto|done].
  - intros j thj u Hj' Hj Hw. by eapply li_woken0.
Qed.

(** Giving the lock back. *)
Lemma inv_release d ths i th c' : lock_inv (d, ths) -> ths !! i = Some th -> Z.of_nat (length ths) < 2 ^ 32 ->
  act_release Holding i th (d, ths) = Some c' -> lock_inv c' /\ ticket_head (fst c') = ticket_head d.
Proof.
  intros Hinv Hi Hlen. pose proof (lock_inv_counts _ _ Hinv) as [Hcw Hcr]. pose proof Hinv as []. cbn [fst snd] in *.
  unfold act_release. cbn [fst snd]. destruct (release _ _ _) as [[d' f] r] eqn:Er. case_decide as Hp; [|done]. intros [= <-].
  pose proof (li_locked0 _ _ Hi Hp) as Hf. unfold release in Er. rewrite Hf in Er. cbn [negb] in Er.
  assert (Hpos : forall w, f_writable (th_file th) = w -> 1 <= holders w ths) by (intros; by eapply holders_pos).
  assert (I1 := fun w => indicator_holding w th Hp).
  assert (I0 : forall w, indicator (holds w (Thread f (th_pid th) Idle)) = 0) by (intros w; apply indicator_idle; by intros ? <-).
  assert (Hd : ticket_head d' = ticket_head d /\ ticket_tail d' = ticket_tail d /\ killed_list d' = killed_list d /\ r = 0 /\
    num_write d' = num_write d - indicator (holds true th) /\ num_read d' = num_read d - indicator (holds false th)).
  { rewrite !I1. destruct (f_writable (th_file th)) eqn:Ew; cbn [Bool.eqb].
    - specialize (Hpos true eq_refl). simplify_eq. osimp. split_and!; try done; lia.
    - specialize (Hpos false eq_refl). destruct (Z.eqb_spec (num_read d) 0); [lia|]. cbn [negb] in Er. simplify_eq. osimp. split_and!; try done; lia. }
  destruct Hd as (E1 & E2 & E3 & -> & E4 & E5). cbn [Z.eqb fst]. split; [|done]. apply lock_inv_wake.
  eapply lock_inv_set; [done|done|..]; rewrite ?E1, ?E2, ?E3, ?E4, ?E5, ?I0; try done; try lia; cycle -2.
  - rewrite I1. destruct (f_writable (th_file th)); cbn; lia.
  - rewrite !I1. destruct (f_writable (th_file th)); cbn; [lia|]. intros Hw. specialize (Hpos false eq_refl). lia.
  - intros j thj u _ Hj Hl. by eapply li_live0.
  - intros u Hk. destruct (li_killed0 u Hk) as [? Hno]. split_and!; [lia|eauto|done].
  - intros j thj u _ Hj Hw. specialize (li_woken0 _ _ _ Hj Hw). unfold acquire_ready in *. rewrite E2, E4, E5, !I1.
    apply andb_prop in li_woken0 as [[Hnw%Z.eqb_eq Hnr]%andb_prop Htt]. rewrite Htt, Hnw.
    destruct (f_writable (th_file th)); cbn [Bool.eqb]; [specialize (Hpos true eq_refl); lia|].
    destruct (f_writable (th_file thj)); cbn in *; [|done]. apply Z.eqb_eq in Hnr. specialize (Hpos false eq_refl). lia.
Qed.

(** ** Every step, and every schedule *)

Inductive begin_spec (w : bool) (d : osprd_info) : osprd_info * acquire_result -> Prop :=
| Begin_deadlock : begin_spec w d (d, Deadlock)
| Begin_sleeps : begin_spec w d (set_tickets (ticket_head d + 1) (ticket_tail d) d, Sleeps (ticket_head d))
| Begin_granted : acquire_ready w (ticket_head d) d = true ->
    begin_spec w d (set_tickets (ticket_head d + 1) (ticket_tail d) d, Granted (ticket_head d)).

Lemma acquire_begin_cases w pid d : 0 <= ticket_tail d <= ticket_head d -> ticket_head d + 1 < 2 ^ 32 ->
  begin_spec w d (acquire_begin w pid d).
Proof.
  intros Ht Hh. unfold acquire_begin.
  assert (Hback : set_tickets (ticket_head (set_tickets (ticket_head d + 1) (ticket_tail d) d) - 1)
    (ticket_tail (set_tickets (ticket_head d + 1) (ticket_tail d) d)) (set_tickets (ticket_head d + 1) (ticket_tail d) d) = d).
  { unfold set_tickets; cbn. rewrite (u32_small (ticket_head d + 1)), (u32_small (ticket_tail d)) by lia.
    replace (ticket_head d + 1 - 1) with (ticket_head d) by lia. rewrite !u32_small by lia. by destruct d. }
  case_match; [rewrite Hback; constructor|]. destruct w.
  - case_bool_decide; [rewrite Hback; constructor|]. case_match eqn:E; constructor.
    apply orb_false_elim in E as [[E1%negb_false_iff E2%negb_false_iff]%orb_false_elim E3%negb_false_iff].
    unfold acquire_ready, set_tickets in *. cbn in *. rewrite E1, E2. rewrite u32_small in E3 by lia. cbn. lia.
  - case_match eqn:E; constructor.
    apply orb_false_elim in E as [E1%negb_false_iff E3%negb_false_iff].
    unfold acquire_ready, set_tickets in *. cbn in *. rewrite E1. rewrite u32_small in E3 by lia. cbn. lia.
Qed.

Lemma granted_insert i th p t d ths : (i < length ths)%nat ->
  granted i (set_phase p th) t (d, <[i := set_phase p th]> ths) = granted i th t (d, ths).
Proof.
  intros Hi. unfold granted. cbn [fst snd set_phase th_file th_pid]. destruct (acquire_end _ _ _ _ _) as [[d' f] r].
  by rewrite list_insert_insert_eq.
Qed.

Lemma granted_head i th t d ths : ticket_head (fst (granted i th t (d, ths))) = u32 (ticket_head d).
Proof.
  destruct (acquire_end_ok (th_file th) (th_pid th) t d) as (? & ? & _ & E & _).
  unfold granted. cbn [fst snd]. by destruct (acquire_end _ _ _ _ _) as [[d' f] r].
Qed.

Lemma act_length a c c' : act a c = Some c' -> length (snd c') = length (snd c).
Proof.
  unfold act, act_acquire, act_look, act_interrupt, act_release, act_try_look, act_try_finish, granted, wake_up_all.
  destruct a; cbn; (destruct (snd c !! i) as [th|]; cbn; [|done]); intros H; repeat case_match; simplify_eq; cbn;
    rewrite ?length_map, ?length_insert; done.
Qed.

(** In a begin that grants at once the thread can be thought of as having slept
    and woken. *)
Lemma act_inv a c c' : lock_inv c -> polite a = true -> ticket_head (fst c) + 1 < 2 ^ 32 ->
  Z.of_nat (length (snd c)) < 2 ^ 32 -> act a c = Some c' ->
  lock_inv c' /\ ticket_head (fst c') <= ticket_head (fst c) + 1.
Proof.
  destruct c as [d ths]. cbn [fst snd]. intros Hinv Hp Hh Hlen Hact. pose proof (li_tail _ Hinv) as Ht. cbn [fst] in Ht.
  destruct a as [i|i|i|i|i|i|i|i]; try done; cbn [act snd] in Hact; apply bind_Some in Hact as (th & Hi & Hact);
    pose proof (lookup_lt_Some _ _ _ Hi) as Hlt.
  - unfold act_acquire in Hact. destruct (th_phase th) eqn:Eph; try done. cbn [fst snd] in Hact.
    destruct (acquire_begin_cases (f_writable (th_file th)) (th_pid th) d Ht Hh) as [| |Hready]; simplify_eq; cbn [fst].
    + split; [done|lia].
    + split; [by apply inv_take|]. osimp. lia.
    + pose proof (inv_take d ths i th true Hinv Hi Eph Hh) as H1.
      set (d1 := set_tickets (ticket_head d + 1) (ticket_tail d) d) in *.
      assert (Hd1 : ticket_head d1 = ticket_head d + 1) by (unfold d1; osimp; done).
      pose proof (inv_look d1 _ i _ (ticket_head d) true (Woken (ticket_head d)) H1 (list_lookup_insert_eq _ _ _ Hlt) eq_refl) as H2.
      rewrite list_insert_insert_eq in H2. cbn [set_phase th_file] in H2.
      specialize (H2 ltac:(right; split; [done|]; unfold acquire_ready, d1 in *; by osimp)).
      change (set_phase (Woken (ticket_head d)) (set_phase (Waiting (ticket_head d) true) th)) with (set_phase (Woken (ticket_head d)) th) in H2.
      rewrite <- (granted_insert i th (Woken (ticket_head d))) by done.
      split; [|rewrite granted_head, u32_small; lia].
      apply inv_granted; [done|by apply list_lookup_insert_eq|done|lia|by rewrite length_insert].
  - unfold act_look in Hact. destruct (th_phase th) as [|t [|]| | |] eqn:Eph; try done. cbn [fst snd] in Hact. simplify_eq.
    split; [|cbn; lia]. eapply inv_look; [done|done|done|]. case_match; [right|left]; done.
  - destruct (th_phase th) as [|t b| | |] eqn:Eph; try (unfold act_interrupt in Hact; by rewrite Eph in Hact).
    destruct (inv_interrupt d ths i th t b c' Hinv Hi Eph ltac:(lia) Hact). split; [done|lia].
  - destruct (th_phase th) as [| |t| |] eqn:Eph; try done. simplify_eq. split; [|rewrite granted_head, u32_small; lia].
    apply inv_granted; [done|done|done|lia|done].
  - destruct (inv_release d ths i th c' Hinv Hi Hlen Hact). split; [done|lia].
Qed.

Lemma execute_inv l c c' : lock_inv c -> forallb polite l = true -> ticket_head (fst c) + Z.of_nat (length l) < 2 ^ 32 ->
  Z.of_nat (length (snd c)) < 2 ^ 32 -> execute l c = Some c' -> lock_inv c'.
Proof.
  revert c. induction l as [|a l IH]; intros c Hinv Hp Hh Hlen Hrun; cbn in *; [by simplify_eq|].
  apply andb_prop in Hp as [Ha Hl]. apply bind_Some in Hrun as (c1 & Hact & Hrun).
  destruct (act_inv a c c1 Hinv Ha ltac:(lia) Hlen Hact) as [H1 H2].
  apply (IH c1); [done|done|lia|by rewrite (act_length _ _ _ Hact)|done].
Qed.

Lemma initially_threads k p ths i th : snd (initially k p ths) !! i = Some th -> th_phase th = Idle.
Proof. cbn. rewrite list_lookup_fmap_Some. by intros ([w pid] & -> & _). Qed.

Lemma initially_inv k p ths : lock_inv (initially k p ths).
Proof.
  pose proof (initially_threads k p ths) as Hidle.
  assert (H0 : forall w, holders w (snd (initially k p ths)) = 0).
  { intros w. unfold holders. rewrite filter_none; [done|]. intros th (i & Hi)%list_elem_of_lookup_1 [Hh _].
    by rewrite (Hidle _ _ Hi) in Hh. }
  assert (Hlive : forall i th, snd (initially k p ths) !! i = Some th -> live th = None).
  { intros i th Hi. unfold live. by rewrite (Hidle _ _ Hi). }
  split; try rewrite H0; try done.
  - intros i th t Hi. by rewrite (Hlive _ _ Hi).
  - intros i j th th' t Hi. by rewrite (Hlive _ _ Hi).
  - intros t Ht. by apply elem_of_nil in Ht.
  - intros i th t Hi. by rewrite (Hidle _ _ Hi).
  - intros i th Hi. by rewrite (Hidle _ _ Hi).
  - intros i th Hi. by rewrite (Hidle _ _ Hi).
Qed.

(** Threads that hold: a writer is alone. *)
Lemma lock_inv_exclusive d ths i j th th' : lock_inv (d, ths) -> ths !! i = Some th -> ths !! j = Some th' -> i <> j ->
  th_phase th = Holding -> f_writable (th_file th) = true -> th_phase th' <> Holding.
Proof.
  intros [] Hi Hj Hij Hp Hw Hp'. cbn [fst snd] in *. assert (Hh : holds true th) by done.
  pose proof (holders_pos _ _ _ _ Hi Hh).
  destruct (f_writable (th_file th')) eqn:E.
  - pose proof (holders_two true ths i j th th' Hij Hi Hj Hh ltac:(done)). lia.
  - pose proof (holders_pos false _ _ _ Hj ltac:(done)). lia.
Qed.

(** ** Without signals nobody is stuck

    Every ticket between [ticket_tail] and [ticket_head] belongs to a thread,
    and when the lock is free the thread with the first ticket is not asleep. *)
Record live_inv (c : config) : Prop := {
  lv_killed : killed_list (fst c) = [];
  lv_cover : forall t, ticket_tail (fst c) <= t < ticket_head (fst c) -> exists i th, snd c !! i = Some th /\ live th = Some t;
  lv_awake : num_write (fst c) = 0 -> num_read (fst c) = 0 ->
    forall i th b, snd c !! i = Some th -> th_phase th = Waiting (ticket_tail (fst c)) b -> b = true
}.

Lemma cover_insert (ths : list thread) (i : nat) th th' t : ths !! i = Some th -> live th <> Some t ->
  (exists j thj, ths !! j = Some thj /\ live thj = Some t) ->
  exists j thj, <[i := th']> ths !! j = Some thj /\ live thj = Some t.
Proof.
  intros Hi Hne (j & thj & Hj & Hl). exists j, thj. split; [|done].
  rewrite list_lookup_insert_ne; [done|]. intros ->. by simplify_eq.
Qed.

Lemma live_take d ths i th : lock_inv (d, ths) -> live_inv (d, ths) -> ths !! i = Some th -> th_phase th = Idle ->
  ticket_head d + 1 < 2 ^ 32 ->
  live_inv (set_tickets (ticket_head d + 1) (ticket_tail d) d, <[i := set_phase (Waiting (ticket_head d) true) th]> ths).
Proof.
  intros Hinv [Hk Hc Ha] Hi Hp Hh. pose proof (li_tail _ Hinv). cbn [fst snd] in *.
  assert (Hlt := lookup_lt_Some _ _ _ Hi).
  split; cbn [fst snd]; osimp; [done| |].
  - intros t Ht. destruct (decide (t = ticket_head d)) as [->|].
    + eexists i, _. by rewrite list_lookup_insert_eq.
    + eapply cover_insert; [done| |apply Hc; lia]. unfold live. by rewrite Hp.
  - intros Hw Hr j thj b. rewrite list_lookup_insert_Some. intros [(<- & <- & _)|[_ Hj]]; [cbn; congruence|by apply (Ha Hw Hr j thj)].
Qed.

Lemma live_look d ths i th t : live_inv (d, ths) -> ths !! i = Some th -> th_phase th = Waiting t true ->
  live_inv (d, <[i := set_phase (if acquire_ready (f_writable (th_file th)) t d then Woken t else Waiting t false) th]> ths).
Proof.
  intros [Hk Hc Ha] Hi Hp. cbn [fst snd] in *. assert (Hlt := lookup_lt_Some _ _ _ Hi).
  set (p := if acquire_ready _ _ _ then _ else _). split; cbn [fst snd]; [done| |].
  - intros u Hu. destruct (decide (u = t)) as [->|Hne].
    + eexists i, _. rewrite list_lookup_insert_eq by done. split; [done|]. unfold p. by case_match.
    + eapply cover_insert; [done| |by apply Hc]. unfold live. rewrite Hp. congruence.
  - intros Hw Hr j thj b. rewrite list_lookup_insert_Some. intros [(<- & <- & _)|[_ Hj]]; [|by apply (Ha Hw Hr j thj)].
    cbn. unfold p, acquire_ready. rewrite Hw, Hr. case_match eqn:E; [done|]. intros [= -> <-].
    cbn in E. rewrite Z.eqb_refl, orb_true_r in E. done.
Qed.

Lemma live_granted d ths i th t : lock_inv (d, ths) -> live_inv (d, ths) -> ths !! i = Some th -> th_phase th = Woken t ->
  ticket_head d < 2 ^ 32 -> Z.of_nat (length ths) < 2 ^ 32 -> live_inv (granted i th t (d, ths)).
Proof.
  intros Hinv [Hk Hc Ha] Hi Hp Hh Hlen. pose proof (inv_granted _ _ _ _ _ Hinv Hi Hp Hh Hlen) as Hinv'.
  assert (Hlive : live th = Some t) by (unfold live; by rewrite Hp).
  pose proof (li_live _ Hinv _ _ _ Hi Hlive) as Ht. pose proof (li_tail _ Hinv) as Htail.
  pose proof (li_woken _ Hinv _ _ _ Hi Hp) as Hr. apply andb_prop in Hr as [_ Htt%Z.eqb_eq].
  destruct (acquire_end_ok (th_file th) (th_pid th) t d) as (killed & tail & Hs & E1 & E2 & E3 & E4 & E5 & E6).
  assert (Hlt := lookup_lt_Some _ _ _ Hi). cbn [fst snd] in *.
  unfold granted in *. cbn [fst snd] in *. destruct (acquire_end _ _ _ _ _) as [[d' f] r]. cbn [fst snd] in *.
  rewrite Hk, u32_small in Hs by lia. injection Hs as <- <-.
  rewrite u32_small in E1, E2 by lia. set (th' := Thread f (th_pid th) Holding) in *.
  split; cbn [fst snd]; [done| |].
  - intros u Hu. rewrite E1, E2 in Hu. eapply cover_insert; [done| |apply Hc; lia]. rewrite Hlive. intros [= ->]. lia.
  - intros Hw Hrd. exfalso. pose proof (li_write _ Hinv') as Ew. pose proof (li_read _ Hinv') as Er. cbn [fst snd] in *.
    pose proof (holders_pos (f_writable f) _ i th' (list_lookup_insert_eq ths i th' Hlt) ltac:(done)).
    destruct (f_writable f); lia.
Qed.

Lemma live_release d ths i th c' : live_inv (d, ths) -> lock_inv (d, ths) -> ths !! i = Some th ->
  act_release Holding i th (d, ths) = Some c' -> live_inv c'.
Proof.
  intros [Hk Hc Ha] Hinv Hi. unfold act_release. cbn [fst snd] in *. destruct (release _ _ _) as [[d' f] r] eqn:Er.
  case_decide as Hp; [|done]. intros [= <-]. pose proof (li_tail _ Hinv) as Ht. pose proof (li_locked _ Hinv _ _ Hi Hp) as Hf.
  unfold release in Er. rewrite Hf in Er. cbn [negb fst] in *.
  assert (Hd : ticket_head d' = ticket_head d /\ ticket_tail d' = ticket_tail d /\ killed_list d' = killed_list d /\ r = 0).
  { destruct (f_writable _); [|destruct (Z.eqb_spec (num_read d) 0); cbn [negb] in Er]; simplify_eq; done. }
  destruct Hd as (E1 & E2 & E3 & ->). split; cbn [fst snd Z.eqb]; rewrite ?E1, ?E2, ?E3; [done| |].
  - intros t Htt. destruct (cover_insert ths i th (Thread f (th_pid th) Idle) t Hi) as (j & thj & Hj & Hl).
    + unfold live. by rewrite Hp.
    + by apply Hc.
    + exists j, (wake thj). rewrite live_wake. split; [|done]. unfold wake_up_all. by rewrite list_lookup_fmap, Hj.
  - intros _ _ j thj b. unfold wake_up_all. rewrite list_lookup_fmap_Some. intros (th0 & -> & _).
    unfold wake. destruct (th_phase th0) eqn:E; rewrite ?E; cbn; congruence.
Qed.

Lemma quiet_polite a : quiet a = true -> polite a = true.
Proof. by destruct a. Qed.

Lemma act_live a c c' : lock_inv c -> live_inv c -> quiet a = true -> ticket_head (fst c) + 1 < 2 ^ 32 ->
  Z.of_nat (length (snd c)) < 2 ^ 32 -> act a c = Some c' -> live_inv c'.
Proof.
  destruct c as [d ths]. cbn [fst snd]. intros Hinv Hlv Hq Hh Hlen Hact. pose proof (li_tail _ Hinv) as Ht. cbn [fst] in Ht.
  destruct a as [i|i|i|i|i|i|i|i]; try done; cbn [act snd] in Hact; apply bind_Some in Hact as (th & Hi & Hact);
    pose proof (lookup_lt_Some _ _ _ Hi) as Hlt.
  - unfold act_acquire in Hact. destruct (th_phase th) eqn:Eph; try done. cbn [fst snd] in Hact.
    destruct (acquire_begin_cases (f_writable (th_file th)) (th_pid th) d Ht Hh) as [| |Hready]; simplify_eq; [done|by apply live_take|].
    pose proof (live_take d ths i th Hinv Hlv Hi Eph Hh) as H1. pose proof (inv_take d ths i th true Hinv Hi Eph Hh) as K1.
    set (d1 := set_tickets (ticket_head d + 1) (ticket_tail d) d) in *.
    assert (Hd1 : ticket_head d1 = ticket_head d + 1) by (unfold d1; osimp; done).
    assert (Hr1 : acquire_ready (f_writable (th_file th)) (ticket_head d) d1 = true) by (unfold acquire_ready, d1 in *; by osimp).
    pose proof (live_look d1 _ i _ (ticket_head d) H1 (list_lookup_insert_eq _ _ _ Hlt) eq_refl) as H2.
    pose proof (inv_look d1 _ i _ (ticket_head d) true (Woken (ticket_head d)) K1 (list_lookup_insert_eq _ _ _ Hlt) eq_refl
      ltac:(right; split; [done|exact Hr1])) as K2.
    cbn [set_phase th_file] in H2. rewrite Hr1 in H2. rewrite list_insert_insert_eq in H2, K2.
    change (set_phase (Woken (ticket_head d)) (set_phase (Waiting (ticket_head d) true) th)) with (set_phase (Woken (ticket_head d)) th) in H2, K2.
    rewrite <- (granted_insert i th (Woken (ticket_head d))) by done.
    apply live_granted; [done|done|by apply list_lookup_insert_eq|done|lia|by rewrite length_insert].
  - unfold act_look in Hact. destruct (th_phase th) as [|t [|]| | |] eqn:Eph; try done. cbn [fst snd] in Hact. simplify_eq.
    by apply live_look.
  - destruct (th_phase th) as [| |t| |] eqn:Eph; try done. simplify_eq. apply live_granted; [done|done|done|done|lia|done].
  - by eapply live_release.
Qed.

Lemma execute_live l c c' : lock_inv c -> live_inv c -> forallb quiet l = true -> ticket_head (fst c) + Z.of_nat (length l) < 2 ^ 32 ->
  Z.of_nat (length (snd c)) < 2 ^ 32 -> execute l c = Some c' -> lock_inv c' /\ live_inv c'.
Proof.
  revert c. induction l as [|a l IH]; intros c Hinv Hlv Hp Hh Hlen Hrun; cbn in *; [by simplify_eq|].
  apply andb_prop in Hp as [Ha Hl]. apply bind_Some in Hrun as (c1 & Hact & Hrun).
  destruct (act_inv a c c1 Hinv (quiet_polite _ Ha) ltac:(lia) Hlen Hact) as [H1 H2].
  apply (IH c1); [done|by eapply act_live; [..|done]; [done|done|done|lia|done]|done|lia|by rewrite (act_length _ _ _ Hact)|done].
Qed.

Lemma initially_live k p ths : live_inv (initially k p ths).
Proof.
  split; [done|cbn; lia|]. intros _ _ i th b Hi. by rewrite (initially_threads _ _ _ _ _ Hi).
Qed.

(** When somebody waits, somebody can go on. *)
Lemma live_progress d ths i th t b : lock_inv (d, ths) -> live_inv (d, ths) -> ths !! i = Some th -> th_phase th = Waiting t b ->
  exists j thj, ths !! j = Some thj /\
    (th_phase thj = Holding \/ exists t, th_phase thj = Woken t \/ (th_phase thj = Waiting t true /\ acquire_ready (f_writable (th_file thj)) t d = true)).
Proof.
  intros Hinv [Hk Hc Ha] Hi Hp. pose proof (li_live _ Hinv i th t Hi) as Ht. unfold live in Ht. rewrite Hp in Ht.
  specialize (Ht eq_refl). cbn [fst snd] in *.
  destruct (filter (holds true) ths) as [|thw l] eqn:Ew; [destruct (filter (holds false) ths) as [|thr l] eqn:Er|].
  - assert (Hnw : num_write d = 0) by (pose proof (li_write _ Hinv) as E; cbn in E; rewrite E; unfold holders; by rewrite Ew).
    assert (Hnr : num_read d = 0) by (pose proof (li_read _ Hinv) as E; cbn in E; rewrite E; unfold holders; by rewrite Er).
    destruct (Hc (ticket_tail d)) as (j & thj & Hj & Hl); [lia|]. exists j, thj. split; [done|]. right. exists (ticket_tail d).
    unfold live in Hl. destruct (th_phase thj) as [|t' b'|t'| |] eqn:E; try done; injection Hl as ->; [right|by left].
    rewrite (Ha Hnw Hnr j thj b' Hj E). split; [done|]. unfold acquire_ready. rewrite Hnw, Hnr, !Z.eqb_refl. cbn.
    by destruct (f_writable (th_file thj)).
  - assert (Hin : thr ∈ filter (holds false) ths) by (rewrite Er; by left).
    apply list_elem_of_filter in Hin as [[? _] (j & Hj)%list_elem_of_lookup_1]. eauto.
  - assert (Hin : thw ∈ filter (holds true) ths) by (rewrite Ew; by left).
    apply list_elem_of_filter in Hin as [[? _] (j & Hj)%list_elem_of_lookup_1]. eauto.
Qed.

(** ** The properties *)

(** C36: the lock excludes.  However any number of processes with files of the
    device are scheduled and interrupted, as long as they lock with
    OSPRDIOCACQUIRE and release once what they hold, and fewer than 2^32 steps
    are taken, a process that holds the lock for writing is the only holder; the
    counters of the device are the numbers of holders; and a process that has
    found its condition true has the smallest ticket of those that wait. *)
Theorem lock_excludes k p ths l d ths' : forallb polite l = true ->
  Z.of_nat (length l) < 2 ^ 32 -> Z.of_nat (length ths) < 2 ^ 32 -> execute l (initially k p ths) = Some (d, ths') ->
  (forall i j th th', ths' !! i = Some th -> ths' !! j = Some th' -> i <> j ->
     th_phase th = Holding -> f_writable (th_file th) = true -> th_phase th' <> Holding) /\
  num_write d = holders true ths' /\ num_read d = holders false ths' /\
  (forall i j th th' t u b, ths' !! i = Some th -> ths' !! j = Some th' -> th_phase th = Woken t -> th_phase th' = Waiting u b -> t < u).
Proof.
  intros Hp Hl Hlen Hrun. assert (Hinv : lock_inv (d, ths')).
  { eapply execute_inv; [apply initially_inv|done|cbn; lia|cbn; by rewrite length_map|done]. }
  split_and!; [|apply Hinv|apply Hinv|].
  - intros i j th th' Hi Hj Hij. by apply (lock_inv_exclusive d ths' i j).
  - intros i j th th' t u b Hi Hj Hw Hw'. destruct Hinv as [_ Hlive Hdist _ Hwok _ _ _ _ _ _]. cbn [fst snd] in *.
    specialize (Hwok _ _ _ Hi Hw). apply andb_prop in Hwok as [_ ?%Z.eqb_eq].
    assert (L1 : live th = Some t) by (unfold live; by rewrite Hw). assert (L2 : live th' = Some u) by (unfold live; by rewrite Hw').
    pose proof (Hlive _ _ _ Hj L2). destruct (decide (t = u)) as [->|]; [|lia].
    assert (i = j) as -> by (by eapply Hdist). congruence.
Qed.

(** C37: without signals nobody waits for ever because all do.  In every
    schedule of OSPRDIOCACQUIRE and OSPRDIOCRELEASE without signals, when a
    process waits, some process holds the lock, or has been granted it, or is
    awake and will find its condition true. *)
Theorem lock_progress k p ths l d ths' i th t b : forallb quiet l = true ->
  Z.of_nat (length l) < 2 ^ 32 -> Z.of_nat (length ths) < 2 ^ 32 -> execute l (initially k p ths) = Some (d, ths') ->
  ths' !! i = Some th -> th_phase th = Waiting t b ->
  exists j thj, ths' !! j = Some thj /\
    (th_phase thj = Holding \/ exists t, th_phase thj = Woken t \/ (th_phase thj = Waiting t true /\ acquire_ready (f_writable (th_file thj)) t d = true)).
Proof.
  intros Hp Hl Hlen Hrun Hi Hw.
  destruct (execute_live l (initially k p ths) (d, ths')) as [Hinv Hlv]; [apply initially_inv|apply initially_live|done|cbn; lia|cbn; by rewrite length_map|done|].
  by eapply live_progress.
Qed.

(** A reader's release when the device counts readers. *)
Lemma act_release_reader p i th d ths : th_phase th = p -> f_writable (th_file th) = false -> f_locked (th_file th) = true ->
  1 <= num_read d < 2 ^ 32 /\ 0 <= num_write d < 2 ^ 32 ->
  exists d', num_read d' = num_read d - 1 /\ num_write d' = num_write d /\
    act_release p i th (d, ths) =
      Some (d', wake_up_all (<[i := Thread (File false (negb ((num_read d - 1 =? 0) && (num_write d =? 0)))) (th_pid th) Idle]> ths)).
Proof.
  intros Hp Hw Hf Hr. unfold act_release, release. cbn [fst snd]. rewrite Hw, Hf. destruct (Z.eqb_spec (num_read d) 0); [lia|].
  cbn [negb]. rewrite decide_True by done. cbn [Z.eqb]. eexists. split; [|split]; [| |f_equal; f_equal].
  - osimp. done.
  - osimp. done.
  - osimp. by case_match.
Qed.

(** C38: a release that is followed by the close of the file gives back two
    read locks.  OSPRDIOCRELEASE leaves the file's mark F_OSPRD_LOCKED set when
    another process still reads, so that the release which every last close
    makes counts the other process's lock down as well. *)
Theorem release_then_close_counts_twice k p ths l d ths' i j thi thj : forallb polite l = true ->
  Z.of_nat (length l) < 2 ^ 32 -> Z.of_nat (length ths) < 2 ^ 32 -> execute l (initially k p ths) = Some (d, ths') ->
  ths' !! i = Some thi -> ths' !! j = Some thj -> i <> j ->
  th_phase thi = Holding -> th_phase thj = Holding -> f_writable (th_file thi) = false -> f_writable (th_file thj) = false ->
  exists d2 ths2, execute [Release i; Close i] (d, ths') = Some (d2, ths2) /\
    ths2 !! j = Some thj /\ holders false ths2 = num_read d - 1 /\ num_read d2 = num_read d - 2.
Proof.
  intros Hp Hl Hlen Hrun Hi Hj Hij Pi Pj Wi Wj.
  assert (Hinv : lock_inv (d, ths')) by (eapply execute_inv; [apply initially_inv|done|cbn; lia|cbn; by rewrite length_map|done]).
  assert (Hlen' : Z.of_nat (length ths') < 2 ^ 32).
  { assert (Hn : forall l c c', execute l c = Some c' -> length (snd c') = length (snd c)).
    { clear. induction l as [|a l IH]; intros c c'; cbn; [by intros [= ->]|]. intros (c1 & H1 & H2)%bind_Some.
      rewrite (IH _ _ H2). by apply act_length in H1. }
    apply Hn in Hrun. cbn in Hrun. rewrite length_map in Hrun. lia. }
  pose proof (lock_inv_counts _ _ Hinv) as [Hcw Hcr]. pose proof (li_read _ Hinv) as Er. cbn [fst snd] in Er.
  pose proof (holders_two false ths' i j thi thj Hij Hi Hj ltac:(done) ltac:(done)) as H2.
  assert (Hnw : num_write d = 0).
  { pose proof (li_one _ Hinv). pose proof (li_alone _ Hinv). cbn [fst] in *. lia. }
  assert (Hlt := lookup_lt_Some _ _ _ Hi).
  destruct (act_release_reader Holding i thi d ths') as (d1 & E1 & E1' & A1); [done|done|by eapply li_locked|lia|].
  cbn [execute act snd]. rewrite Hi. cbn [mbind option_bind]. rewrite A1. cbn [mbind option_bind snd].
  replace (num_read d - 1 =? 0) with false by lia. cbn [andb negb].
  set (th1 := Thread (File false true) (th_pid thi) Idle).
  assert (H1 : wake_up_all (<[i := th1]> ths') !! i = Some th1).
  { unfold wake_up_all. by rewrite list_lookup_fmap, list_lookup_insert_eq. }
  rewrite H1. destruct (act_release_reader Idle i th1 d1 (wake_up_all (<[i := th1]> ths'))) as (d2 & E2 & E2' & A2); [done|done|done|lia|].
  cbn [mbind option_bind]. rewrite A2. eexists _, _. split; [done|]. split_and!.
  - unfold wake_up_all. rewrite list_lookup_fmap, list_lookup_insert_ne, list_lookup_fmap, list_lookup_insert_ne, Hj by done.
    cbn. unfold wake. by rewrite !Pj.
  - rewrite holders_wake, (holders_insert _ _ _ _ _ H1), holders_wake, (holders_insert _ _ _ _ _ Hi), (indicator_holding _ thi), Wi by done.
    cbn [Bool.eqb]. rewrite !indicator_idle by (intros ? <-; done). lia.
  - lia.
Qed.

(** ** Schedules *)

(** The writer 0 and the readers 1 and 2, all the same device. *)
Definition trio : list (bool * Z) := [(true, 100); (false, 101); (false, 102)].

(** The three lock in the order of their numbers, and the writer gives the lock
    back: the readers look at their conditions, the first gets in. *)
Definition queue : list action :=
  [Acquire 0; Acquire 1; Look 1; Acquire 2; Look 2; Release 0; Look 1; Look 2; Finish 1].

(** A reader that waits behind a reader is not woken when that one gets in. *)
Example reader_not_woken k p : exists d ths th, execute queue (initially k p trio) = Some (d, ths) /\ ths !! 2%nat = Some th /\
  th_phase th = Waiting (ticket_tail d) false /\ acquire_ready (f_writable (th_file th)) (ticket_tail d) d = true.
Proof. eexists _, _, _. split; [vm_compute; reflexivity|]. by split. Qed.

(** Two writers that try at the same time both get the lock. *)
Example try_acquire_races k p : exists d th1 th2,
  execute [TryLook 0; TryLook 1; TryFinish 0; TryFinish 1] (initially k p [(true, 100); (true, 101)]) = Some (d, [th1; th2]) /\
  th_phase th1 = Holding /\ th_phase th2 = Holding /\ num_write d = 2.
Proof. eexists _, _, _. split; [vm_compute; reflexivity|]. done. Qed.

(** Two readers; one releases and closes; a writer gets in beside the other. *)
Example writer_beside_reader k p : exists d th0 th1 th2,
  execute [Acquire 1; Acquire 2; Release 1; Close 1; Acquire 0] (initially k p trio) = Some (d, [th0; th1; th2]) /\
  th_phase th0 = Holding /\ th_phase th2 = Holding.
Proof. eexists _, _, _, _. split; [vm_compute; reflexivity|]. done. Qed.

(** A waiting thread whose turn comes and that is interrupted passes the turn to
    the next ticket even when that ticket's process is gone. *)
Example turn_lost k p : exists d th0 th1 th2,
  execute [Acquire 0; Acquire 1; Acquire 2; Interrupt 2; Release 0; Interrupt 1; Acquire 1; Look 1] (initially k p trio) = Some (d, [th0; th1; th2]) /\
  th_phase th0 = Idle /\ th_phase th1 = Waiting 3 false /\ th_phase th2 = Idle /\ ticket_tail d = 2.
Proof. eexists _, _, _, _. split; [vm_compute; reflexivity|]. done. Qed.

Lemma lock_excludes_witness : exists d ths, execute queue (initially [] [] trio) = Some (d, ths) /\
  num_write d = holders true ths /\ num_read d = holders false ths /\ num_read d = 1.
Proof.
  destruct (execute queue (initially [] [] trio)) as [[d ths]|] eqn:E; [|vm_compute in E; discriminate].
  exists d, ths. split; [reflexivity|].
  destruct (lock_excludes [] [] trio queue d ths eq_refl eq_refl eq_refl E) as (_ & Hw & Hr & _).
  vm_compute in E. injection E as <- <-. split; [exact Hw|]. split; [exact Hr|]. reflexivity.
Defined.

Lemma lock_progress_witness : exists d ths, execute queue (initially [] [] trio) = Some (d, ths) /\
  exists j thj, ths !! j = Some thj /\
    (th_phase thj = Holding \/ exists t, th_phase thj = Woken t \/ (th_phase thj = Waiting t true /\ acquire_ready (f_writable (th_file thj)) t d = true)).
Proof.
  eexists _, _. split; [vm_compute; reflexivity|].
  eapply (lock_progress [] [] trio queue _ _ 2 _ 2 false); reflexivity.
Defined.

Lemma release_then_close_counts_twice_witness : exists d ths th1 th2,
  execute [Acquire 1; Acquire 2] (initially [] [] trio) = Some (d, ths) /\ ths !! 1%nat = Some th1 /\ ths !! 2%nat = Some th2 /\ num_read d = 2 /\
  exists d2 ths2, execute [Release 1; Close 1] (d, ths) = Some (d2, ths2) /\
    ths2 !! 2%nat = Some th2 /\ holders false ths2 = num_read d - 1 /\ num_read d2 = num_read d - 2.
Proof.
  eexists _, _, _, _. do 4 (split; [vm_compute; reflexivity|]).
  eapply (release_then_close_counts_twice [] [] trio [Acquire 1; Acquire 2] _ _ 1 2); try reflexivity. discriminate.
Defined.
