(* ===== verification/OsprdCrypt.v ===== *)
(** * OSPRD: block requests and encryption

    The rest of osprd.c: the requests of the block layer
    ([osprd_process_request]), and the wrappers of the block device's read and
    write that keep the data encrypted on the disk.  The kernel's own read and
    write of a block device are the class [Blkdev]; what osprd.c relies on is
    [BlkdevLaws]. *)

From S2P Require Import Prelude CMemory Osprd.

(** ** Requests of the block layer *)

Definition READ : Z := 0.
Definition WRITE : Z := 1.

Record request := Request { fs_request : bool; sector : Z; current_nr_sectors : Z; buffer : list Z; rq_data_dir : Z }.

(** [memcpy] of [n] bytes between two arrays; [None] when it leaves one. *)
Definition copy_bytes (from : list Z) (a : Z) (to : list Z) (b n : Z) : option (list Z) :=
  if (0 <=? a) && (0 <=? b) && (0 <=? n) && (a + n <=? Z.of_nat (length from)) && (b + n <=? Z.of_nat (length to)) then
    Some (take (Z.to_nat b) to ++ take (Z.to_nat n) (drop (Z.to_nat a) from) ++ drop (Z.to_nat (b + n)) to)
  else None.

(** The data, the request's buffer, and the second arguments of the calls of
    [end_request]. *)
Definition osprd_process_request (nsectors : Z) (data : list Z) (req : request) : option (list Z * list Z * list Z) :=
  if negb (fs_request req) || (sector req <? 0) || (nsectors <? sector req) then Some (data, buffer req, [0])
  else
    let sector_beg := s32 (sector req * SECTOR_SIZE) in
    let write_size := s32 (SECTOR_SIZE * current_nr_sectors req) in
    if rq_data_dir req =? READ then
      buf ← copy_bytes data sector_beg (buffer req) 0 write_size; Some (data, buf, [1])
    else if rq_data_dir req =? WRITE then
      data ← copy_bytes (buffer req) 0 data sector_beg write_size; Some (data, buffer req, [1])
    else Some (data, buffer req, [0; 1]).

(** The requests that [elv_next_request] gives, one after the other. *)
Fixpoint osprd_process_request_queue (nsectors : Z) (data : list Z) (q : list request) : option (list Z * list (list Z)) :=
  match q with
  | [] => Some (data, [])
  | req :: q' =>
      '(data, buf, _) ← osprd_process_request nsectors data req;
      '(data, bufs) ← osprd_process_request_queue nsectors data q';
      Some (data, buf :: bufs)
  end.

(** ** The kernel's read and write of a block device

    [blk_read dk size off] gives the bytes read and the return value,
    [blk_write dk bs off] the disk and the return value. *)
Class Blkdev (disk : Type) := {
  blk_read : disk -> Z -> Z -> list Z * Z;
  blk_write : disk -> list Z -> Z -> disk * Z
}.

(** How the file's position moves. *)
Definition advance (loff r : Z) : Z := if 0 <? r then loff + r else loff.

(** What happens around a call: whether [kmalloc(size)] gives memory, how many
    bytes [copy_from_user] and [copy_to_user] leave uncopied, the memory that
    [new_key] gets, and its random bytes. *)
Record io_env := IoEnv { e_kmalloc : bool; e_from_left : Z; e_to_left : Z; e_stuff : option (list Z); e_rand : list Z }.

(** The kernel's copies, which fill what was not readable with zeros. *)
Definition from_user (left : Z) (usr : list Z) : list Z :=
  let n := (length usr - Z.to_nat left)%nat in take n usr ++ replicate (length usr - n) 0.
Definition to_user (left : Z) (usr buf : list Z) : list Z :=
  let n := (length usr - Z.to_nat left)%nat in take n buf ++ drop n usr.

(** ** XOR with the key

    [AxorB(a + base, b, offset, size, add)]. *)
Fixpoint AxorB_loop (n : nat) (i : nat) (a : list Z) (base : nat) (b : list Z) (offset : nat) (add : Z) : option (list Z) :=
  match n with
  | O => Some a
  | S n' =>
      x ← a !! (base + i)%nat;
      y ← b !! (i + offset)%nat;
      AxorB_loop n' (S i) (<[(base + i)%nat := u8 (Z.lxor x y + add)]> a) base b offset add
  end.

Definition AxorB (a : list Z) (base : Z) (b : list Z) (offset size add : Z) : option (list Z) :=
  AxorB_loop (Z.to_nat size) 0 a (Z.to_nat base) b (Z.to_nat offset) add.

(** [d->written_sectors[i / 8] & (1 << i % 8)], and setting and clearing it. *)
Definition flag (w : list Z) (i : Z) : bool :=
  match w !! Z.to_nat (i / 8) with Some b => Z.testbit b (i mod 8) | None => false end.
Definition set_flag (w : list Z) (i : Z) : option (list Z) :=
  b ← w !! Z.to_nat (i / 8); Some (<[Z.to_nat (i / 8) := u8 (Z.lor b (Z.shiftl 1 (i mod 8)))]> w).
Definition clear_flag (w : list Z) (i : Z) : option (list Z) :=
  b ← w !! Z.to_nat (i / 8); Some (<[Z.to_nat (i / 8) := u8 (Z.land b (Z.lnot (Z.shiftl 1 (i mod 8))))]> w).

(** [memcmp(buf + base, empty, n) != 0] *)
Definition nonzero (buf : list Z) (base n : Z) : option bool :=
  if (base + n <=? Z.of_nat (length buf)) && (n <=? KEY_LENGTH) then
    Some (negb (forallb (Z.eqb 0) (take (Z.to_nat n) (drop (Z.to_nat base) buf))))
  else None.

Section Device.
Context {disk : Type} `{!Blkdev disk}.

(** ** A new key *)

(** One flagged sector: [stuff] is the buffer; the boolean is the [break]. *)
Definition rekey_sector (key rand_key stuff : list Z) (i : Z) (dk : disk) : option (disk * list Z * bool) :=
  let offset := i * KEY_LENGTH in
  let '(bs, r) := blk_read dk KEY_LENGTH offset in
  let stuff := bs ++ drop (length bs) stuff in
  if 0 <=? r then
    stuff ← AxorB stuff 0 key 0 KEY_LENGTH 0;
    stuff ← AxorB stuff 0 rand_key 0 KEY_LENGTH 0;
    let '(dk, r) := blk_write dk stuff offset in
    Some (dk, stuff, r <? 0)
  else Some (dk, stuff, true).

(** The inner loop, of [n] more bits, and the outer loop, of [n] more bytes. *)
Fixpoint rekey_bits (n : nat) (i j : Z) (w key rand_key stuff : list Z) (dk : disk) : option (disk * list Z) :=
  match n with
  | O => Some (dk, stuff)
  | S n' =>
      if flag w (i * 8 + j) then
        '(dk, stuff, break) ← rekey_sector key rand_key stuff (i * 8 + j) dk;
        if break : bool then Some (dk, stuff) else rekey_bits n' i (j + 1) w key rand_key stuff dk
      else rekey_bits n' i (j + 1) w key rand_key stuff dk
  end.
Fixpoint rekey_bytes (n : nat) (i : Z) (w key rand_key stuff : list Z) (dk : disk) : option (disk * list Z) :=
  match n with
  | O => Some (dk, stuff)
  | S n' =>
      '(dk, stuff) ← rekey_bits 8 i 0 w key rand_key stuff dk;
      rekey_bytes n' (i + 1) w key rand_key stuff dk
  end.

Definition new_key (e : io_env) (d : osprd_info) (dk : disk) : option (osprd_info * disk) :=
  match e_stuff e with
  | None => Some (d, dk)
  | Some stuff =>
      '(dk, _) ← rekey_bytes 32 0 (written_sectors d) (key d) (e_rand e) stuff dk;
      Some (set_crypt (e_rand e) (written_sectors d) d, dk)
  end.

(** ** Reading *)

(** The chunks of a buffer from [size - sec_size] on. *)
Fixpoint decrypt_loop (fuel : nat) (key buf : list Z) (size sec_size sec_offset : Z) : option (list Z) :=
  match fuel with
  | O => None
  | S fuel' =>
      if 0 <? sec_size then
        let to_write := if negb (sec_offset =? 0) then KEY_LENGTH else sec_size in
        buf ← AxorB buf (size - sec_size) key 0 to_write 0;
        decrypt_loop fuel' key buf size (sec_size - to_write) (sec_offset - 1)
      else Some buf
  end.

(** [size / KEY_LENGTH] rounds and a last one for the rest, and the test at the end. *)
Definition rounds (size : Z) : nat := Z.to_nat (size / KEY_LENGTH + 2).

Definition decrypt (key buf : list Z) (old_off : Z) : option (list Z) :=
  let size := Z.of_nat (length buf) in
  let sec_offset := old_off mod KEY_LENGTH in
  let to_write := KEY_LENGTH - sec_offset in
  '(buf, sec_size) ← (if negb (sec_offset =? 0) then
      buf ← AxorB buf 0 key sec_offset to_write 0; Some (buf, size - to_write)
    else Some (buf, size));
  decrypt_loop (rounds size) key buf size sec_size (Z.quot sec_size KEY_LENGTH).

(** The user's buffer [usr] has the [size] bytes asked for; the results are the
    device, the disk, the buffer, the position and the return value. *)
Definition plain_read (usr : list Z) (loff : Z) (dk : disk) : list Z * Z * Z :=
  let '(bs, r) := blk_read dk (Z.of_nat (length usr)) loff in
  (bs ++ drop (length bs) usr, advance loff r, r).

Definition _osprd_read (is_osprd : bool) (e : io_env) (pid : Z) (usr : list Z) (loff : Z) (d : osprd_info) (dk : disk) :
    option (osprd_info * disk * list Z * Z * Z) :=
  if negb is_osprd then let '(usr, loff, r) := plain_read usr loff dk in Some (d, dk, usr, loff, r)
  else if negb (bool_decide (pid ∈ auth_list d)) then
    '(d, dk) ← new_key e d dk;
    let '(usr, loff, r) := plain_read usr loff dk in Some (d, dk, usr, loff, r)
  else if negb (e_kmalloc e) then Some (d, dk, usr, loff, - ENOMEM)
  else
    let '(usr, loff', ret) := plain_read usr loff dk in
    buf ← decrypt (key d) (from_user (e_from_left e) usr) loff;
    let usr := to_user (e_to_left e) usr buf in
    if negb (e_to_left e =? 0) then Some (d, dk, usr, loff', -1)
    else '(d, dk) ← new_key e d dk; Some (d, dk, usr, loff', ret).

(** ** Writing *)

Fixpoint encrypt_loop (fuel : nat) (key buf w : list Z) (size sec_size sec_offset copy_ret : Z) : option (list Z * list Z) :=
  match fuel with
  | O => None
  | S fuel' =>
      if 0 <? sec_size then
        let to_write := if negb (sec_offset =? 0) then KEY_LENGTH else sec_size in
        nz ← nonzero buf (size - sec_size) to_write;
        w ← (if nz : bool then set_flag w copy_ret
             else if negb (sec_offset =? 0) || (to_write =? KEY_LENGTH) then clear_flag w copy_ret
             else Some w);
        buf ← AxorB buf (size - sec_size) key 0 to_write 0;
        encrypt_loop fuel' key buf w size (sec_size - to_write) (sec_offset - 1) (copy_ret + 1)
      else Some (buf, w)
  end.

Definition encrypt (key buf w : list Z) (old_off : Z) : option (list Z * list Z) :=
  let size := Z.of_nat (length buf) in
  let sec_offset := old_off mod KEY_LENGTH in
  let to_write := KEY_LENGTH - sec_offset in
  let copy_ret := s32 (old_off / KEY_LENGTH) in
  '(buf, w, copy_ret, sec_size) ← (if negb (sec_offset =? 0) then
      nz ← nonzero buf 0 to_write;
      '(w, copy_ret) ← (if nz : bool then w ← set_flag w copy_ret; Some (w, copy_ret + 1) else Some (w, copy_ret));
      buf ← AxorB buf 0 key sec_offset to_write 0;
      Some (buf, w, copy_ret, size - to_write)
    else Some (buf, w, copy_ret, size));
  encrypt_loop (rounds size) key buf w size sec_size (Z.quot sec_size KEY_LENGTH) copy_ret.

Definition _osprd_write (is_osprd : bool) (e : io_env) (usr : list Z) (loff : Z) (d : osprd_info) (dk : disk) :
    option (osprd_info * disk * list Z * Z * Z) :=
  if negb is_osprd then let '(dk, r) := blk_write dk usr loff in Some (d, dk, usr, advance loff r, r)
  else if negb (e_kmalloc e) then Some (d, dk, usr, loff, - ENOMEM)
  else if negb (e_from_left e =? 0) then Some (d, dk, usr, loff, -1)
  else
    '(buf, w) ← encrypt (key d) usr (written_sectors d) loff;
    let d := set_crypt (key d) w d in
    let usr := to_user (e_to_left e) usr buf in
    if negb (e_to_left e =? 0) then Some (d, dk, usr, loff, -1)
    else let '(dk, r) := blk_write dk usr loff in Some (d, dk, usr, advance loff r, r).
End Device.
