(* ===== verification/OsprdCryptSpec.v ===== *)
(** * OSPRD: the encrypted disk keeps what was written

    The disk as 256 sectors of 64 bytes: the plain text of a sector is the XOR
    of its bytes with the device's key.  A new key keeps the plain text of the
    flagged sectors ([new_key_keeps]), and what is written can be read back
    after any reads of any processes ([written_is_read]). *)

From S2P Require Import Prelude CMemory Osprd OsprdCrypt.

(** ** What the kernel's calls do *)

Class BlkdevLaws (disk : Type) `{!Blkdev disk} := {
  contents : disk -> list Z;
  blk_read_ok dk size off : 0 <= off -> 0 <= size -> off + size <= Z.of_nat (length (contents dk)) ->
    blk_read dk size off = (take (Z.to_nat size) (drop (Z.to_nat off) (contents dk)), size);
  blk_write_ok dk bs off : 0 <= off -> off + Z.of_nat (length bs) <= Z.of_nat (length (contents dk)) ->
    exists dk', blk_write dk bs off = (dk', Z.of_nat (length bs)) /\
      contents dk' = take (Z.to_nat off) (contents dk) ++ bs ++ drop (Z.to_nat off + length bs) (contents dk)
}.

(** ** XOR *)

Definition xors (k c : list Z) : list Z := zip_with Z.lxor c k.

Lemma lxor_byte x y : 0 <= x < 2 ^ 8 -> 0 <= y < 2 ^ 8 -> 0 <= Z.lxor x y < 2 ^ 8.
Proof.
  intros Hx Hy. assert (H : u8 (Z.lxor x y) = Z.lxor x y); [|rewrite <- H; apply u8_range].
  rewrite <- (u8_small x), <- (u8_small y) by done. unfold u8. apply Z.bits_inj'. intros i Hi.
  destruct (decide (i < 8)).
  - rewrite Z.mod_pow2_bits_low by done. done.
  - rewrite Z.mod_pow2_bits_high, Z.lxor_spec, !Z.mod_pow2_bits_high by lia. done.
Qed.

Lemma xors_bytes k c : bytes k -> bytes c -> bytes (xors k c).
Proof.
  unfold bytes, xors. intros Hk Hc. apply Forall_lookup. intros i x (a & b & -> & Ha & Hb)%lookup_zip_with_Some.
  rewrite Forall_lookup in Hk, Hc. apply lxor_byte; eauto.
Qed.

Lemma length_xors k c : (length c <= length k)%nat -> length (xors k c) = length c.
Proof. intros. unfold xors. rewrite length_zip_with. lia. Qed.

Lemma xors_xors k c : (length c <= length k)%nat -> xors k (xors k c) = c.
Proof.
  revert k. induction c as [|x c IH]; intros [|y k] Hl; cbn in *; [done|done|lia|].
  f_equal; [|apply IH; lia]. by rewrite Z.lxor_assoc, Z.lxor_nilpotent, Z.lxor_0_r.
Qed.

Lemma AxorB_loop_ok n : forall i a base b offset, (base + i + n <= length a)%nat -> (i + offset + n <= length b)%nat -> bytes a -> bytes b ->
  AxorB_loop n i a base b offset 0 =
    Some (take (base + i) a ++ xors (take n (drop (i + offset) b)) (take n (drop (base + i) a)) ++ drop (base + i + n) a).
Proof.
  induction n as [|n IH]; intros i a base b offset Ha Hb Ba Bb; cbn [AxorB_loop].
  { unfold xors. rewrite !take_0, Nat.add_0_r. cbn. by rewrite take_drop. }
  destruct (lookup_lt_is_Some_2 a (base + i)) as [x Hx]; [lia|]. destruct (lookup_lt_is_Some_2 b (i + offset)) as [y Hy]; [lia|].
  pose proof (Forall_lookup_1 _ _ _ _ Ba Hx) as Bx. pose proof (Forall_lookup_1 _ _ _ _ Bb Hy) as By. cbn beta in Bx, By.
  rewrite Hx, Hy. cbn [mbind option_bind]. assert (Hv : u8 (Z.lxor x y + 0) = Z.lxor x y).
  { rewrite Z.add_0_r. by apply u8_small, lxor_byte. }
  rewrite Hv. rewrite IH; rewrite ?length_insert; [|lia|lia| |done].
  2:{ apply Forall_insert; [done|]. by apply lxor_byte. }
  rewrite (drop_S a x (base + i) Hx), (drop_S b y (i + offset) Hy). cbn [take].
  replace (base + S i)%nat with (S (base + i)) by lia. replace (S i + offset)%nat with (S (i + offset)) by lia.
  rewrite (take_S_r _ _ (Z.lxor x y)) by (apply list_lookup_insert_eq; lia).
  rewrite take_insert_ge, !drop_insert_lt by lia. unfold xors. cbn [zip_with].
  rewrite <- app_assoc. cbn [app]. by replace (S (base + i) + n)%nat with (base + i + S n)%nat by lia.
Qed.

(** The use of a whole sector: the bytes at [base] are XORed with the key. *)
Lemma AxorB_chunk pre c rest k : length c = 64%nat -> length k = 64%nat -> bytes (pre ++ c ++ rest) -> bytes k ->
  AxorB (pre ++ c ++ rest) (Z.of_nat (length pre)) k 0 KEY_LENGTH 0 = Some (pre ++ xors k c ++ rest).
Proof.
  intros Hc Hk Hb Hkb. unfold AxorB. rewrite Nat2Z.id. change (Z.to_nat KEY_LENGTH) with 64%nat. change (Z.to_nat 0) with 0%nat.
  rewrite AxorB_loop_ok; [|rewrite !length_app; lia|lia|done|done].
  rewrite !Nat.add_0_r, drop_0. rewrite take_app_length, drop_app_length, <- Hc, take_app_length. rewrite Hc, take_ge by lia.
  by rewrite <- drop_drop, drop_app_length, <- Hc, drop_app_length.
Qed.

(** ** Sectors *)

Definition sector_at (c : list Z) (n : Z) : list Z := take 64 (drop (Z.to_nat (64 * n)) c).

Lemma length_sector_at c n : 0 <= n -> 64 * n + 64 <= Z.of_nat (length c) -> length (sector_at c n) = 64%nat.
Proof. intros. unfold sector_at. rewrite length_take, length_drop. lia. Qed.

Lemma sector_at_bytes c n : bytes c -> bytes (sector_at c n).
Proof. intros. by apply Forall_take, Forall_drop. Qed.

Lemma sector_at_lookup c n j : (j < 64)%nat -> sector_at c n !! j = c !! (Z.to_nat (64 * n) + j)%nat.
Proof. intros. unfold sector_at. rewrite lookup_take_lt by done. by rewrite lookup_drop. Qed.

(** The bytes of [n] sectors from [lo] on. *)
Lemma chunks_concat c lo n : 0 <= lo -> 64 * (lo + Z.of_nat n) <= Z.of_nat (length c) ->
  take (64 * n) (drop (Z.to_nat (64 * lo)) c) = concat (map (sector_at c) (seqZ lo (Z.of_nat n))).
Proof.
  revert lo. induction n as [|n IH]; intros lo Hlo Hc; [by rewrite take_0|].
  rewrite seqZ_cons by lia. replace (Z.pred (Z.of_nat (S n))) with (Z.of_nat n) by lia. cbn [map concat].
  rewrite <- IH by lia. unfold sector_at. replace (64 * S n)%nat with (64 + 64 * n)%nat by lia.
  rewrite <- take_take_drop. f_equal. rewrite drop_drop. do 2 f_equal. lia.
Qed.

(** What is stored in the middle, sector by sector. *)
Definition store (c : list Z) (n : Z) (cs : list (list Z)) : list Z :=
  take (Z.to_nat (64 * n)) c ++ concat cs ++ drop (Z.to_nat (64 * n) + 64 * length cs) c.

Lemma length_concat_64 (cs : list (list Z)) : Forall (fun x => length x = 64%nat) cs -> length (concat cs) = (64 * length cs)%nat.
Proof. induction 1 as [|x cs Hx Hcs IH]; [done|]. cbn [concat]. rewrite length_app, IH, Hx. cbn. lia. Qed.

Lemma length_store c n cs : 0 <= n -> Forall (fun x => length x = 64%nat) cs -> 64 * (n + Z.of_nat (length cs)) <= Z.of_nat (length c) ->
  length (store c n cs) = length c.
Proof.
  intros Hn Hcs Hl. unfold store. rewrite !length_app, length_take, length_drop, length_concat_64 by done. lia.
Qed.

Lemma sector_at_store c n cs m : 0 <= n -> 0 <= m -> Forall (fun x => length x = 64%nat) cs -> 64 * (n + Z.of_nat (length cs)) <= Z.of_nat (length c) ->
  sector_at (store c n cs) m = if (n <=? m) && (m <? n + Z.of_nat (length cs)) then default [] (cs !! Z.to_nat (m - n)) else sector_at c m.
Proof.
  intros Hn Hm Hcs Hl. unfold sector_at, store. pose proof (length_concat_64 cs Hcs) as Hlc.
  destruct (Z.leb_spec n m) as [Hnm|Hnm]; cbn [andb].
  - rewrite drop_app_ge by (rewrite length_take; lia).
    replace (Z.to_nat (64 * m) - length (take (Z.to_nat (64 * n)) c))%nat with (64 * Z.to_nat (m - n))%nat by (rewrite length_take; lia).
    destruct (Z.ltb_spec m (n + Z.of_nat (length cs))) as [Hlt|Hge].
    + assert (Hk : (Z.to_nat (m - n) < length cs)%nat) by lia. clear -Hcs Hk. revert Hk. generalize (Z.to_nat (m - n)).
      generalize (drop (Z.to_nat (64 * n) + 64 * length cs) c). intros rest. induction Hcs as [|x cs Hx Hcs IH]; intros [|k] Hk; cbn [length] in Hk; [lia|lia| |].
      * rewrite Nat.mul_0_r, drop_0. cbn. rewrite <- app_assoc, <- Hx. apply take_app_length.
      * cbn [concat lookup list_lookup]. rewrite <- app_assoc. rewrite drop_app_ge by lia.
        replace (64 * S k - length x)%nat with (64 * k)%nat by lia. apply IH. lia.
    + rewrite drop_app_ge by lia. rewrite drop_drop. do 2 f_equal. lia.
  - rewrite drop_app_le by (rewrite length_take; lia). rewrite take_app_le by (rewrite length_drop, length_take; lia).
    rewrite skipn_firstn_comm, take_take. f_equal. lia.
Qed.

(** ** Flags *)

Lemma testbit_set b k m : 0 <= k < 8 -> 0 <= m < 8 -> Z.testbit (u8 (Z.lor b (Z.shiftl 1 k))) m = (m =? k) || Z.testbit b m.
Proof.
  intros Hk Hm. unfold u8. rewrite Z.mod_pow2_bits_low, Z.lor_spec, Z.shiftl_1_l, Z.pow2_bits_eqb, orb_comm by lia.
  by rewrite (Z.eqb_sym k m).
Qed.

Lemma flag_set w i : length w = 32%nat -> 0 <= i < 256 ->
  exists w', set_flag w i = Some w' /\ length w' = 32%nat /\ forall m, 0 <= m < 256 -> flag w' m = (m =? i) || flag w m.
Proof.
  intros Hw Hi. unfold set_flag. destruct (lookup_lt_is_Some_2 w (Z.to_nat (i / 8))) as [b Hb]; [divlia|].
  rewrite Hb. cbn. eexists. split; [done|]. rewrite length_insert. split; [done|]. intros m Hm. unfold flag.
  destruct (decide (m / 8 = i / 8)) as [E|E].
  - rewrite E, list_lookup_insert_eq by (by eapply lookup_lt_Some). rewrite testbit_set by divlia. rewrite Hb. f_equal.
    destruct (Z.eqb_spec m i) as [->|]; [apply Z.eqb_refl|]. apply Z.eqb_neq. divlia.
  - rewrite list_lookup_insert_ne by divlia. destruct (Z.eqb_spec m i) as [->|]; done.
Qed.

Section Encrypted.
Context {disk : Type} `{BlkdevLaws disk}.

Record disk_ok (dk : disk) : Prop := {
  dk_length : Z.of_nat (length (contents dk)) = 16384;
  dk_bytes : bytes (contents dk)
}.
Definition key_ok (k : list Z) : Prop := length k = 64%nat /\ bytes k.

Lemma sector_at_ok dk n : disk_ok dk -> 0 <= n < 256 -> length (sector_at (contents dk) n) = 64%nat /\ bytes (sector_at (contents dk) n).
Proof. intros [Hl Hb] Hn. split; [apply length_sector_at; lia|by apply sector_at_bytes]. Qed.

Lemma xors_ok k c : key_ok k -> length c = 64%nat -> bytes c -> length (xors k c) = 64%nat /\ bytes (xors k c).
Proof. intros [? ?] ? ?. split; [rewrite length_xors; lia|by apply xors_bytes]. Qed.

Lemma store_bytes_ok c n cs : bytes c -> Forall bytes cs -> bytes (store c n cs).
Proof.
  intros Hc Hcs. unfold store. apply Forall_app. split; [by apply Forall_take|]. apply Forall_app. split; [|by apply Forall_drop].
  induction Hcs; cbn; [constructor|]. by apply Forall_app.
Qed.

(** Writing whole sectors. *)
Lemma disk_write dk n cs : disk_ok dk -> 0 <= n -> n + Z.of_nat (length cs) <= 256 ->
  Forall (fun x => length x = 64%nat /\ bytes x) cs ->
  exists dk', blk_write dk (concat cs) (64 * n) = (dk', 64 * Z.of_nat (length cs)) /\ disk_ok dk' /\
    forall m, 0 <= m < 256 -> sector_at (contents dk') m =
      if (n <=? m) && (m <? n + Z.of_nat (length cs)) then default [] (cs !! Z.to_nat (m - n)) else sector_at (contents dk) m.
Proof.
  intros [Hl Hb] Hn Hnc Hcs. assert (H64 : Forall (fun x : list Z => length x = 64%nat) cs) by (eapply Forall_impl; [done|by intros ? []]).
  pose proof (length_concat_64 cs H64) as Hlc.
  destruct (blk_write_ok dk (concat cs) (64 * n)) as (dk' & Hw & Hc); [lia|lia|]. exists dk'. rewrite Hw, Hlc. split; [f_equal; lia|].
  rewrite Hlc in Hc. change (contents dk' = store (contents dk) n cs) in Hc. split.
  - split; rewrite Hc; [rewrite length_store; [done|done|done|lia]|]. apply store_bytes_ok; [done|].
    eapply Forall_impl; [exact Hcs|]. intros x [_ Hx]. exact Hx.
  - intros m Hm. rewrite Hc. apply sector_at_store; [done|lia|done|lia].
Qed.

Lemma disk_read dk n k : disk_ok dk -> 0 <= n -> n + Z.of_nat k <= 256 ->
  blk_read dk (64 * Z.of_nat k) (64 * n) = (concat (map (sector_at (contents dk)) (seqZ n (Z.of_nat k))), 64 * Z.of_nat k).
Proof.
  intros [Hl Hb] Hn Hk. rewrite blk_read_ok by lia. rewrite <- chunks_concat by lia. do 2 f_equal. lia.
Qed.

(** *** A new key *)

Lemma AxorB_sector k c : key_ok k -> length c = 64%nat -> bytes c -> AxorB c 0 k 0 KEY_LENGTH 0 = Some (xors k c).
Proof.
  intros [Hk Hb] Hc Hcb. pose proof (AxorB_chunk [] c [] k) as H0. cbn [app length Z.of_nat] in H0. rewrite !app_nil_r in H0. by apply H0.
Qed.

Lemma rekey_sector_ok k r stuff n dk : disk_ok dk -> key_ok k -> key_ok r -> length stuff = 64%nat -> 0 <= n < 256 ->
  exists dk' stuff', rekey_sector k r stuff n dk = Some (dk', stuff', false) /\ length stuff' = 64%nat /\ disk_ok dk' /\
    forall m, 0 <= m < 256 -> sector_at (contents dk') m = if m =? n then xors r (xors k (sector_at (contents dk) n)) else sector_at (contents dk) m.
Proof.
  intros Hdk Hk Hr Hs Hn. destruct (sector_at_ok dk n Hdk Hn) as [Hcl Hcb].
  unfold rekey_sector. replace (n * KEY_LENGTH) with (64 * n) by (unfold KEY_LENGTH; lia).
  change KEY_LENGTH with 64 at 1. rewrite blk_read_ok by (destruct Hdk; lia).
  change (take (Z.to_nat 64) (drop (Z.to_nat (64 * n)) (contents dk))) with (sector_at (contents dk) n). cbn [Z.leb Z.compare].
  rewrite drop_ge, app_nil_r by lia. rewrite AxorB_sector by done. cbn [mbind option_bind].
  destruct (xors_ok k _ Hk Hcl Hcb) as [Hl1 Hb1]. rewrite AxorB_sector by done. cbn [mbind option_bind].
  destruct (xors_ok r _ Hr Hl1 Hb1) as [Hl2 Hb2].
  destruct (disk_write dk n [xors r (xors k (sector_at (contents dk) n))]) as (dk' & Hw & Hdk' & Hch); [done|lia|cbn; lia|by repeat constructor|].
  cbn [concat] in Hw. rewrite app_nil_r in Hw. rewrite Hw. eexists _, _. split; [done|]. split; [done|]. split; [done|].
  intros m Hm. rewrite Hch by done. cbn [length]. destruct (Z.eqb_spec m n) as [->|Hne].
  - rewrite Z.leb_refl, (proj2 (Z.ltb_lt n (n + Z.of_nat 1))) by lia. by rewrite Z.sub_diag.
  - zcases; done.
Qed.

(** The flagged sectors of a range have the new key. *)
Definition recrypted (w k r : list Z) (lo hi : Z) (dk dk' : disk) : Prop :=
  forall m, 0 <= m < 256 -> sector_at (contents dk') m =
    if (lo <=? m) && (m <? hi) && flag w m then xors r (xors k (sector_at (contents dk) m)) else sector_at (contents dk) m.

Lemma recrypted_trans w k r lo mid hi dk1 dk2 dk3 : lo <= mid <= hi ->
  recrypted w k r lo mid dk1 dk2 -> recrypted w k r mid hi dk2 dk3 -> recrypted w k r lo hi dk1 dk3.
Proof.
  intros Hr H1 H2 m Hm. rewrite (H2 m Hm), (H1 m Hm). destruct (flag w m); [|by rewrite !andb_false_r].
  rewrite !andb_true_r. repeat (zcase; cbn [andb]; try lia); done.
Qed.

Lemma rekey_bits_ok w k r i n : key_ok k -> key_ok r -> forall j stuff dk, disk_ok dk -> length stuff = 64%nat ->
  0 <= 8 * i + j -> 8 * i + j + Z.of_nat n <= 256 ->
  exists dk' stuff', rekey_bits n i j w k r stuff dk = Some (dk', stuff') /\ length stuff' = 64%nat /\ disk_ok dk' /\
    recrypted w k r (8 * i + j) (8 * i + j + Z.of_nat n) dk dk'.
Proof.
  intros Hk Hr. induction n as [|n IH]; intros j stuff dk Hdk Hs Hlo Hhi.
  { eexists _, _. split; [done|]. split_and!; [done|done|]. intros m Hm. zcases; done. }
  cbn [rekey_bits]. replace (i * 8 + j) with (8 * i + j) by lia. destruct (flag w (8 * i + j)) eqn:Ef.
  - destruct (rekey_sector_ok k r stuff (8 * i + j) dk Hdk Hk Hr Hs ltac:(lia)) as (dk1 & s1 & Hrun & Hs1 & Hdk1 & Hch).
    rewrite Hrun. cbn [mbind option_bind].
    destruct (IH (j + 1) s1 dk1 Hdk1 Hs1 ltac:(lia) ltac:(lia)) as (dk2 & s2 & Hrun2 & Hs2 & Hdk2 & Hch2).
    exists dk2, s2. split_and!; [done..|]. apply (recrypted_trans _ _ _ _ (8 * i + j + 1) _ _ dk1); [lia| |].
    + intros m Hm. rewrite Hch by done. destruct (Z.eqb_spec m (8 * i + j)) as [->|]; [rewrite Ef|]; zcases; done.
    + replace (8 * i + j + 1) with (8 * i + (j + 1)) by lia. by replace (8 * i + j + Z.of_nat (S n)) with (8 * i + (j + 1) + Z.of_nat n) by lia.
  - destruct (IH (j + 1) stuff dk Hdk Hs ltac:(lia) ltac:(lia)) as (dk2 & s2 & Hrun2 & Hs2 & Hdk2 & Hch2).
    exists dk2, s2. split_and!; [done..|]. apply (recrypted_trans _ _ _ _ (8 * i + j + 1) _ _ dk); [lia| |].
    + intros m Hm. destruct (Z.eqb_spec m (8 * i + j)) as [->|]; [by rewrite Ef, andb_false_r|]. zcases; done.
    + replace (8 * i + j + 1) with (8 * i + (j + 1)) by lia. by replace (8 * i + j + Z.of_nat (S n)) with (8 * i + (j + 1) + Z.of_nat n) by lia.
Qed.

Lemma rekey_bytes_ok w k r n : key_ok k -> key_ok r -> forall i stuff dk, disk_ok dk -> length stuff = 64%nat ->
  0 <= i -> i + Z.of_nat n <= 32 ->
  exists dk' stuff', rekey_bytes n i w k r stuff dk = Some (dk', stuff') /\ length stuff' = 64%nat /\ disk_ok dk' /\
    recrypted w k r (8 * i) (8 * (i + Z.of_nat n)) dk dk'.
Proof.
  intros Hk Hr. induction n as [|n IH]; intros i stuff dk Hdk Hs Hlo Hhi.
  { eexists _, _. split; [done|]. split_and!; [done|done|]. intros m Hm. zcases; done. }
  cbn [rekey_bytes]. destruct (rekey_bits_ok w k r i 8 Hk Hr 0 stuff dk Hdk Hs ltac:(lia) ltac:(lia)) as (dk1 & s1 & Hrun & Hs1 & Hdk1 & Hch).
  rewrite Hrun. cbn [mbind option_bind].
  destruct (IH (i + 1) s1 dk1 Hdk1 Hs1 ltac:(lia) ltac:(lia)) as (dk2 & s2 & Hrun2 & Hs2 & Hdk2 & Hch2).
  exists dk2, s2. split_and!; [done..|]. apply (recrypted_trans _ _ _ _ (8 * (i + 1)) _ _ dk1); [lia| |].
  - rewrite Z.add_0_r in Hch. by replace (8 * (i + 1)) with (8 * i + Z.of_nat 8) by lia.
  - by replace (8 * (i + Z.of_nat (S n))) with (8 * (i + 1 + Z.of_nat n)) by lia.
Qed.

(** *** The device *)

Record device_ok (d : osprd_info) (dk : disk) : Prop := {
  dv_disk : disk_ok dk;
  dv_key : key_ok (key d);
  dv_written : length (written_sectors d) = 32%nat
}.
Definition env_ok (e : io_env) : Prop :=
  key_ok (e_rand e) /\ match e_stuff e with Some stuff => length stuff = 64%nat | None => True end.

Definition plain (d : osprd_info) (dk : disk) (n : Z) : list Z := xors (key d) (sector_at (contents dk) n).
Definition written (d : osprd_info) (n : Z) : Prop := flag (written_sectors d) n = true.

(** A state that shows the same plain text in the written sectors. *)
Definition keeps (d d' : osprd_info) (dk dk' : disk) : Prop :=
  written_sectors d' = written_sectors d /\ auth_list d' = auth_list d /\
  forall n, 0 <= n < 256 -> written d n -> plain d' dk' n = plain d dk n.

Lemma keeps_refl d dk : keeps d d dk dk.
Proof. done. Qed.

Lemma keeps_trans d1 d2 d3 dk1 dk2 dk3 : keeps d1 d2 dk1 dk2 -> keeps d2 d3 dk2 dk3 -> keeps d1 d3 dk1 dk3.
Proof.
  intros (W1 & A1 & P1) (W2 & A2 & P2). split_and!; [congruence..|]. intros n Hn Hw.
  rewrite P2, P1; [done|done|done|done|]. unfold written in *. by rewrite W1.
Qed.

Lemma new_key_keeps e d dk : device_ok d dk -> env_ok e ->
  exists d' dk', new_key e d dk = Some (d', dk') /\ device_ok d' dk' /\ keeps d d' dk dk'.
Proof.
  intros [Hdk Hk Hw] [Hr Hst]. unfold new_key. destruct (e_stuff e) as [stuff|].
  - destruct (rekey_bytes_ok (written_sectors d) (key d) (e_rand e) 32 Hk Hr 0 stuff dk Hdk Hst ltac:(lia) ltac:(lia))
      as (dk' & s' & Hrun & Hs' & Hdk' & Hch).
    rewrite Hrun. cbn [mbind option_bind]. eexists _, dk'. split; [done|]. split; [done|]. split_and!; [done..|].
    intros n Hn Hwr. unfold plain. cbn. rewrite (Hch n Hn). replace ((8 * 0 <=? n) && (n <? 8 * (0 + Z.of_nat 32))) with true by zcases.
    unfold written in Hwr. rewrite Hwr. cbn. destruct (sector_at_ok dk n Hdk Hn) as [Hl Hb].
    destruct (xors_ok (key d) _ Hk Hl Hb) as [Hl1 _]. destruct Hr as [Hr _]. apply (xors_xors (e_rand e)). lia.
  - eexists d, dk. split_and!; done.
Qed.

(** *** Whole sectors through the loops *)

Lemma AxorB_middle k pre c rest size left : key_ok k -> length c = 64%nat -> bytes (pre ++ c ++ rest) ->
  size - left = Z.of_nat (length pre) ->
  AxorB (pre ++ c ++ rest) (size - left) k 0 KEY_LENGTH 0 = Some (pre ++ xors k c ++ rest).
Proof. intros [? ?] ? ? ->. by apply AxorB_chunk. Qed.

Definition sector_ok (c : list Z) : Prop := length c = 64%nat /\ bytes c.

Lemma concat_bytes cs : Forall sector_ok cs -> bytes (concat cs).
Proof. induction 1 as [|c cs [_ Hc] Hcs IH]; cbn; [constructor|]. by apply Forall_app. Qed.

Lemma sectors_length cs : Forall sector_ok cs -> length (concat cs) = (64 * length cs)%nat.
Proof. intros Hcs. apply length_concat_64. eapply Forall_impl; [exact Hcs|]. by intros x []. Qed.

Lemma sectors_xors k cs : key_ok k -> Forall sector_ok cs -> Forall sector_ok (map (xors k) cs).
Proof. intros Hk Hcs. apply Forall_fmap. eapply Forall_impl; [exact Hcs|]. intros c [Hl Hb]. by apply xors_ok. Qed.

Lemma decrypt_loop_ok k cs size : key_ok k -> Forall sector_ok cs -> forall pre fuel, bytes pre -> (length cs < fuel)%nat ->
  size = Z.of_nat (length pre) + 64 * Z.of_nat (length cs) ->
  decrypt_loop fuel k (pre ++ concat cs) size (64 * Z.of_nat (length cs)) (Z.of_nat (length cs)) = Some (pre ++ concat (map (xors k) cs)).
Proof.
  intros Hk. induction 1 as [|c cs [Hl Hb] Hcs IH]; intros pre fuel Hp Hf Hs; (destruct fuel as [|fuel]; [lia|]); [done|].
  cbn [decrypt_loop concat map length] in *. rewrite (proj2 (Z.ltb_lt _ _)) by lia.
  rewrite (proj2 (Z.eqb_neq (Z.of_nat (S (length cs))) 0)) by lia. cbn [negb].
  rewrite AxorB_middle; [|done|done| |lia].
  2:{ apply Forall_app. split; [done|]. apply Forall_app. split; [done|by apply concat_bytes]. }
  cbn [mbind option_bind]. replace (64 * Z.of_nat (S (length cs)) - KEY_LENGTH) with (64 * Z.of_nat (length cs)) by (unfold KEY_LENGTH; lia).
  replace (Z.of_nat (S (length cs)) - 1) with (Z.of_nat (length cs)) by lia.
  destruct (xors_ok k c Hk Hl Hb) as [Hl1 Hb1].
  rewrite !app_assoc. rewrite IH; [done|by apply Forall_app|lia|rewrite length_app; lia].
Qed.

(** A sector that is not all zeros. *)
Definition data_sector (c : list Z) : Prop := sector_ok c /\ exists b, b ∈ c /\ b <> 0.

Lemma nonzero_middle pre c rest base : data_sector c -> base = Z.of_nat (length pre) -> nonzero (pre ++ c ++ rest) base KEY_LENGTH = Some true.
Proof.
  intros [[Hl Hb] (b & Hin & Hne)] ->. unfold nonzero. rewrite (proj2 (Z.leb_le _ _)) by (rewrite !length_app; unfold KEY_LENGTH; lia).
  cbn [andb Z.leb]. rewrite Z.leb_refl. rewrite Nat2Z.id, drop_app_length. change (Z.to_nat KEY_LENGTH) with 64%nat. rewrite <- Hl, take_app_length.
  f_equal. apply negb_true_iff, not_true_iff_false. rewrite forallb_forall. intros Hall. apply Hne.
  apply list_elem_of_In in Hin. specialize (Hall b Hin). lia.
Qed.

Lemma encrypt_loop_ok k cs size : key_ok k -> Forall data_sector cs -> forall pre w fuel n, bytes pre -> length w = 32%nat -> 0 <= n ->
  n + Z.of_nat (length cs) <= 256 -> (length cs < fuel)%nat -> size = Z.of_nat (length pre) + 64 * Z.of_nat (length cs) ->
  exists w', encrypt_loop fuel k (pre ++ concat cs) w size (64 * Z.of_nat (length cs)) (Z.of_nat (length cs)) n =
      Some (pre ++ concat (map (xors k) cs), w') /\ length w' = 32%nat /\
    forall m, 0 <= m < 256 -> flag w' m = ((n <=? m) && (m <? n + Z.of_nat (length cs))) || flag w m.
Proof.
  intros Hk. induction 1 as [|c cs Hd Hcs IH]; intros pre w fuel n Hp Hw Hn Hnc Hf Hs; (destruct fuel as [|fuel]; [lia|]).
  { eexists w. split; [done|]. split; [done|]. intros m Hm. cbn. zcases; done. }
  pose proof Hd as [[Hl Hb] _]. assert (Hcs' : Forall sector_ok cs) by (eapply Forall_impl; [exact Hcs|by intros x []]).
  cbn [encrypt_loop concat map length] in *. rewrite (proj2 (Z.ltb_lt _ _)) by lia.
  rewrite (proj2 (Z.eqb_neq (Z.of_nat (S (length cs))) 0)) by lia. cbn [negb].
  rewrite nonzero_middle by (done || lia). cbn [mbind option_bind].
  destruct (flag_set w n) as (w1 & Hset & Hw1 & Hfl); [done|lia|]. rewrite Hset. cbn [mbind option_bind].
  rewrite AxorB_middle; [|done|done| |lia].
  2:{ apply Forall_app. split; [done|]. apply Forall_app. split; [done|by apply concat_bytes]. }
  cbn [mbind option_bind]. replace (64 * Z.of_nat (S (length cs)) - KEY_LENGTH) with (64 * Z.of_nat (length cs)) by (unfold KEY_LENGTH; lia).
  replace (Z.of_nat (S (length cs)) - 1) with (Z.of_nat (length cs)) by lia.
  destruct (xors_ok k c Hk Hl Hb) as [Hl1 Hb1].
  destruct (IH (pre ++ xors k c) w1 fuel (n + 1)) as (w' & Hrun & Hw' & Hfl'); [by apply Forall_app|done|lia|lia|lia|rewrite length_app; lia|].
  exists w'. rewrite !app_assoc. rewrite Hrun. split; [done|]. split; [done|]. intros m Hm. rewrite Hfl', Hfl by done.
  destruct (flag w m); [by rewrite !orb_true_r|]. rewrite !orb_false_r. zcases; done.
Qed.

(** ** Reads and writes of whole sectors *)

Definition good_env (e : io_env) : Prop := env_ok e /\ e_kmalloc e = true /\ e_from_left e = 0 /\ e_to_left e = 0.

Lemma from_user_all usr : from_user 0 usr = usr.
Proof. unfold from_user. cbn. rewrite Nat.sub_0_r, take_ge, Nat.sub_diag by lia. cbn. apply app_nil_r. Qed.

Lemma to_user_all usr buf : length buf = length usr -> to_user 0 usr buf = buf.
Proof. intros Hl. unfold to_user. cbn. rewrite Nat.sub_0_r, take_ge, drop_ge by lia. apply app_nil_r. Qed.

Lemma aligned n : (64 * n) mod KEY_LENGTH = 0 /\ 64 * n / KEY_LENGTH = n /\ (0 <= n -> Z.quot (64 * n) KEY_LENGTH = n).
Proof. unfold KEY_LENGTH. split_and!; [divlia|divlia|]. intros. rewrite Z.quot_div_nonneg by lia. divlia. Qed.

Lemma decrypt_ok k cs n : key_ok k -> Forall sector_ok cs -> decrypt k (concat cs) (64 * n) = Some (concat (map (xors k) cs)).
Proof.
  intros Hk Hcs. destruct (aligned n) as [Ea _]. unfold decrypt. rewrite Ea. cbn [Z.eqb negb mbind option_bind].
  rewrite sectors_length by done. replace (Z.of_nat (64 * length cs)) with (64 * Z.of_nat (length cs)) by lia.
  destruct (aligned (Z.of_nat (length cs))) as (_ & Ed & Eq). rewrite Eq by lia. unfold rounds. rewrite Ed.
  by apply (decrypt_loop_ok k cs _ Hk Hcs []); [constructor|lia|cbn; lia].
Qed.

Lemma encrypt_ok k cs w n : key_ok k -> Forall data_sector cs -> length w = 32%nat -> 0 <= n -> n + Z.of_nat (length cs) <= 256 ->
  exists w', encrypt k (concat cs) w (64 * n) = Some (concat (map (xors k) cs), w') /\ length w' = 32%nat /\
    forall m, 0 <= m < 256 -> flag w' m = ((n <=? m) && (m <? n + Z.of_nat (length cs))) || flag w m.
Proof.
  intros Hk Hcs Hw Hn Hnc. assert (Hcs' : Forall sector_ok cs) by (eapply Forall_impl; [exact Hcs|by intros x []]).
  destruct (aligned n) as (Ea & En & _). unfold encrypt. rewrite Ea, En, s32_small by lia. cbn [Z.eqb negb mbind option_bind].
  rewrite sectors_length by done. replace (Z.of_nat (64 * length cs)) with (64 * Z.of_nat (length cs)) by lia.
  destruct (aligned (Z.of_nat (length cs))) as (_ & Ed & Eq). rewrite Eq by lia. unfold rounds. rewrite Ed.
  by apply (encrypt_loop_ok k cs _ Hk Hcs []); [constructor| | | |lia|cbn; lia].
Qed.

Lemma write_ok e d dk cs n : device_ok d dk -> good_env e -> Forall data_sector cs -> 0 <= n -> n + Z.of_nat (length cs) <= 256 ->
  exists d' dk', _osprd_write true e (concat cs) (64 * n) d dk =
      Some (d', dk', concat (map (xors (key d)) cs), 64 * n + 64 * Z.of_nat (length cs), 64 * Z.of_nat (length cs)) /\
    device_ok d' dk' /\ auth_list d' = auth_list d /\
    forall m, 0 <= m < 256 ->
      if (n <=? m) && (m <? n + Z.of_nat (length cs)) then written d' m /\ cs !! Z.to_nat (m - n) = Some (plain d' dk' m)
      else flag (written_sectors d') m = flag (written_sectors d) m /\ plain d' dk' m = plain d dk m.
Proof.
  intros [Hdk Hk Hw] (_ & Em & Ef & Et) Hcs Hn Hnc. assert (Hcs' : Forall sector_ok cs) by (eapply Forall_impl; [exact Hcs|by intros x []]).
  pose proof (sectors_xors _ _ Hk Hcs') as Hx.
  destruct (encrypt_ok (key d) cs (written_sectors d) n Hk Hcs Hw Hn Hnc) as (w' & Henc & Hw' & Hfl).
  unfold _osprd_write. rewrite Em, Ef, Et, Henc. cbn [negb Z.eqb mbind option_bind].
  rewrite to_user_all by (rewrite !sectors_length, length_map by done; done).
  destruct (disk_write dk n (map (xors (key d)) cs)) as (dk' & Hwr & Hdk' & Hch); [done|done|by rewrite length_map|done|].
  rewrite Hwr, length_map. exists (set_crypt (key d) w' d), dk'. split; [|split; [done|split; [done|]]].
  { unfold advance. zcase; [done|]. replace (64 * n) with (64 * n + 64 * Z.of_nat (length cs)) at 1 by lia. done. }
  intros m Hm. specialize (Hfl m Hm). specialize (Hch m Hm). rewrite length_map in Hch. unfold written, plain. cbn [set_crypt written_sectors key].
  rewrite Hfl, Hch. destruct ((n <=? m) && (m <? n + Z.of_nat (length cs))) eqn:Eb; [|done]. split; [done|].
  apply andb_prop in Eb as [? ?]. destruct (lookup_lt_is_Some_2 cs (Z.to_nat (m - n))) as [c Hc]; [lia|].
  rewrite list_lookup_fmap, Hc. cbn. f_equal. symmetry. apply xors_xors.
  destruct (Forall_lookup_1 _ _ _ _ Hcs' Hc) as [Hl _]. destruct Hk. lia.
Qed.

(** Any read, of any process, at any place. *)
Lemma read_keeps b e pid usr loff d dk d' dk' usr' loff' r : device_ok d dk -> env_ok e ->
  _osprd_read b e pid usr loff d dk = Some (d', dk', usr', loff', r) -> device_ok d' dk' /\ keeps d d' dk dk'.
Proof.
  intros Hok He. destruct (new_key_keeps e d dk Hok He) as (d1 & dk1 & Hnk & Hok1 & Hkeep). unfold _osprd_read.
  destruct (negb b); [destruct (plain_read _ _ _) as [[? ?] ?]; intros [= <- <- _ _ _]; by split|].
  destruct (negb (bool_decide _)).
  { rewrite Hnk. cbn [mbind option_bind]. destruct (plain_read _ _ _) as [[? ?] ?]. intros [= <- <- _ _ _]. by split. }
  destruct (negb (e_kmalloc e)); [intros [= <- <- _ _ _]; by split|].
  destruct (plain_read _ _ _) as [[u l] rr]. intros (buf & _ & Hrest)%bind_Some.
  destruct (negb (e_to_left e =? 0)); [injection Hrest as <- <- _ _ _; by split|].
  rewrite Hnk in Hrest. cbn [mbind option_bind] in Hrest. injection Hrest as <- <- _ _ _. by split.
Qed.

Lemma read_ok e pid usr d dk n k : device_ok d dk -> good_env e -> pid ∈ auth_list d ->
  0 <= n -> n + Z.of_nat k <= 256 -> length usr = (64 * k)%nat ->
  exists d' dk', _osprd_read true e pid usr (64 * n) d dk =
    Some (d', dk', concat (map (plain d dk) (seqZ n (Z.of_nat k))), 64 * n + 64 * Z.of_nat k, 64 * Z.of_nat k).
Proof.
  intros Hok (He & Em & Ef & Et) Hpid Hn Hk Hu. destruct (new_key_keeps e d dk Hok He) as (d1 & dk1 & Hnk & _ & _).
  destruct Hok as [Hdk Hkey Hw]. unfold _osprd_read, plain_read. rewrite bool_decide_true, Em, Ef, Et by done. cbn [negb Z.eqb].
  replace (Z.of_nat (length usr)) with (64 * Z.of_nat k) by lia. rewrite disk_read by done.
  assert (Hcs : Forall sector_ok (map (sector_at (contents dk)) (seqZ n (Z.of_nat k)))).
  { apply Forall_fmap, Forall_forall. intros m Hm%elem_of_seqZ. apply sector_at_ok; [done|lia]. }
  assert (Hlen : length (concat (map (sector_at (contents dk)) (seqZ n (Z.of_nat k)))) = (64 * k)%nat).
  { rewrite sectors_length by done. rewrite length_map, length_seqZ. lia. }
  rewrite drop_ge, app_nil_r, from_user_all by lia. rewrite decrypt_ok by done. cbn [mbind option_bind].
  rewrite to_user_all by (rewrite Hlen, sectors_length by (by apply sectors_xors); rewrite !length_map, length_seqZ; lia).
  rewrite Hnk. cbn [mbind option_bind]. eexists _, _. rewrite map_map. unfold advance. do 3 f_equal. zcase; lia.
Qed.
End Encrypted.

(** ** The property *)

Record read_call := ReadCall { rc_env : io_env; rc_pid : Z; rc_usr : list Z; rc_loff : Z }.

Fixpoint reads {disk : Type} `{!Blkdev disk} (l : list read_call) (d : osprd_info) (dk : disk) : option (osprd_info * disk) :=
  match l with
  | [] => Some (d, dk)
  | c :: l' => '(d, dk, _, _, _) ← _osprd_read true (rc_env c) (rc_pid c) (rc_usr c) (rc_loff c) d dk; reads l' d dk
  end.

Lemma reads_keep {disk : Type} `{BlkdevLaws disk} l : forall d dk d' dk', device_ok d dk -> Forall (fun c => env_ok (rc_env c)) l ->
  reads l d dk = Some (d', dk') -> device_ok d' dk' /\ keeps d d' dk dk'.
Proof.
  induction l as [|c l IH]; intros d dk d' dk' Hok He Hrun; cbn [reads] in Hrun; [simplify_eq; by split|].
  inversion_clear He. apply bind_Some in Hrun as ([[[[d1 dk1] u1] l1] r1] & Hr & Hrun).
  destruct (read_keeps _ _ _ _ _ _ _ _ _ _ _ _ Hok ltac:(done) Hr) as [Hok1 K1].
  destruct (IH d1 dk1 d' dk' Hok1 ltac:(done) Hrun) as [Hok2 K2]. split; [done|by eapply keeps_trans].
Qed.

(** C39: what is written can be read.  A write of whole 64-byte sectors, none of
    them all zeros, succeeds and leaves the cipher text in the caller's buffer;
    after any reads, of any processes and at any places, each of which changes
    the key, an authorized process that reads the same place gets the bytes that
    were written. *)
Theorem written_is_read {disk : Type} `{BlkdevLaws disk} e d (dk : disk) cs n :
  device_ok d dk -> good_env e -> Forall data_sector cs -> 0 <= n -> n + Z.of_nat (length cs) <= 256 ->
  exists d1 dk1, _osprd_write true e (concat cs) (64 * n) d dk =
      Some (d1, dk1, concat (map (xors (key d)) cs), 64 * n + 64 * Z.of_nat (length cs), 64 * Z.of_nat (length cs)) /\
    forall l d2 dk2 e2 pid usr, Forall (fun c => env_ok (rc_env c)) l -> reads l d1 dk1 = Some (d2, dk2) ->
      good_env e2 -> pid ∈ auth_list d -> length usr = (64 * length cs)%nat ->
      exists d3 dk3, _osprd_read true e2 pid usr (64 * n) d2 dk2 =
        Some (d3, dk3, concat cs, 64 * n + 64 * Z.of_nat (length cs), 64 * Z.of_nat (length cs)).
Proof.
  intros Hok He Hcs Hn Hnc. destruct (write_ok e d dk cs n Hok He Hcs Hn Hnc) as (d1 & dk1 & Hw & Hok1 & Ha & Hpl).
  exists d1, dk1. split; [done|]. intros l d2 dk2 e2 pid usr Hl Hrun He2 Hpid Hu.
  destruct (reads_keep l d1 dk1 d2 dk2 Hok1 Hl Hrun) as [Hok2 (Hws & Ha2 & Hkeep)].
  destruct (read_ok e2 pid usr d2 dk2 n (length cs) Hok2 He2) as (d3 & dk3 & Hr); [congruence|done|done|done|].
  exists d3, dk3. rewrite Hr. do 4 f_equal. f_equal. apply list_eq. intros i. rewrite list_lookup_fmap.
  destruct (decide (i < length cs)%nat) as [Hi|Hi].
  - rewrite lookup_seqZ_lt by lia. cbn. specialize (Hpl (n + Z.of_nat i) ltac:(lia)).
    rewrite (proj2 (Z.leb_le _ _)), (proj2 (Z.ltb_lt _ _)) in Hpl by lia. cbn [andb] in Hpl. destruct Hpl as [Hwr Hlk].
    rewrite (Hkeep (n + Z.of_nat i)) by (done || lia). rewrite <- Hlk. f_equal. lia.
  - rewrite lookup_seqZ_ge, lookup_ge_None_2 by lia. done.
Qed.

(** ** A disk to try it on *)

#[export] Instance list_blkdev : Blkdev (list Z) := {
  blk_read dk size off :=
    if (0 <=? off) && (0 <=? size) && (off + size <=? Z.of_nat (length dk)) then (take (Z.to_nat size) (drop (Z.to_nat off) dk), size) else ([], -5);
  blk_write dk bs off :=
    if (0 <=? off) && (off + Z.of_nat (length bs) <=? Z.of_nat (length dk)) then
      (take (Z.to_nat off) dk ++ bs ++ drop (Z.to_nat off + length bs) dk, Z.of_nat (length bs))
    else (dk, -28)
}.

#[export, refine] Instance list_blkdev_laws : BlkdevLaws (list Z) := { contents dk := dk }.
Proof.
  - intros dk size off H1 H2 H3. cbn. rewrite (proj2 (Z.leb_le 0 off)), (proj2 (Z.leb_le 0 size)), (proj2 (Z.leb_le (off + size) _)) by lia. done.
  - intros dk bs off H1 H2. cbn. rewrite (proj2 (Z.leb_le 0 off)), (proj2 (Z.leb_le (off + _) _)) by lia. eexists. done.
Defined.

Definition key1 : list Z := map (fun i => Z.of_nat i) (seq 1 64).
Definition key2 : list Z := map (fun i => 255 - Z.of_nat i) (seq 1 64).
Definition env1 : io_env := IoEnv true 0 0 (Some (replicate 64 0)) key2.
Definition dev1 : osprd_info := set_auth (authorize_pid 7 []) (osprd_setup key1 [0]).
Definition disk1 : list Z := replicate (Z.to_nat 16384) 0.

(** A zero sector that is written, and then read twice: the second read gives
    the XOR of two keys. *)
Example zero_sector_lost :
  ('(d1, dk1, _, _, _) ← _osprd_write true env1 (replicate 64 0) 128 dev1 disk1;
   '(d2, dk2, usr2, _, _) ← _osprd_read true env1 7 (replicate 64 1) 128 d1 dk1;
   '(_, _, usr3, _, _) ← _osprd_read true env1 7 (replicate 64 1) 128 d2 dk2;
   Some (usr2, usr3)) = Some (replicate 64 0, xors key2 key1).
Proof. vm_compute. reflexivity. Qed.

(** A write of fewer bytes than are left of the sector it starts in runs over its buffer. *)
Example short_write_overruns : _osprd_write true env1 (replicate 10 1) 130 dev1 disk1 = None.
Proof. vm_compute. reflexivity. Qed.

Lemma written_is_read_witness : exists d1 dk1 d3 dk3,
  _osprd_write true env1 (replicate 64 9 ++ replicate 64 8) 128 dev1 disk1 = Some (d1, dk1, concat (map (xors key1) [replicate 64 9; replicate 64 8]), 256, 128) /\
  _osprd_read true env1 7 (replicate 128 0) 128 d1 dk1 = Some (d3, dk3, replicate 64 9 ++ replicate 64 8, 256, 128).
Proof.
  assert (Hk : forall k, bytes k -> length k = 64%nat -> key_ok k) by done.
  assert (Hb : forall k, forallb (fun b => (0 <=? b) && (b <? 2 ^ 8)) k = true -> bytes k).
  { intros k Hf. rewrite forallb_forall in Hf. apply Forall_forall. intros b Hin%list_elem_of_In. specialize (Hf b Hin). lia. }
  assert (He : good_env env1) by (split_and!; [split; [apply Hk; [apply Hb|]|]|..]; vm_compute; reflexivity).
  destruct (written_is_read env1 dev1 disk1 [replicate 64 9; replicate 64 8] 2) as (d1 & dk1 & Hw & Hr).
  - split; [split; [|apply Hb]|apply Hk; [apply Hb|]|]; vm_compute; reflexivity.
  - exact He.
  - repeat constructor; try (vm_compute; (reflexivity || discriminate)); [exists 9|exists 8]; split; (by left) || lia.
  - lia.
  - vm_compute. discriminate.
  - destruct (Hr [] d1 dk1 env1 7 (replicate 128 0)) as (d3 & dk3 & Hrun); [constructor|reflexivity|exact He|by left|reflexivity|].
    exists d1, dk1, d3, dk3. split; [exact Hw|exact Hrun].
Defined.
