(* ===== verification/ShellExec.v ===== *)
(** * The shell's executor (Lab1-Profiling-Shell/execute-command.c)

    A process of the shell is its table of file descriptors, the descriptor of
    the profile and the world: everything that processes share.  The parent waits
    for a child right after it forked it, so that a child is a run from a copy of
    the parent's process whose world the parent goes on with.  The kernel and the
    programs that [execvp] runs are the class [Kernel].

    A command's [status] is not part of the model's trees: [execute_command]
    sets it before it returns it.  The words of a command that runs are the C
    strings in the reader's buffers ([ShellRead.strings]).  The profile writes the
    words with a blank for each newline; the code changes the word itself, too,
    which a loop that runs the same command again could tell: that is left out. *)

From stdpp Require Import strings.
From S2P Require Import Prelude.

(** ** command-internals.h *)

(** [chars] is what a [char *] of the tree points to. *)
Inductive command (chars : Type) :=
| IF_COMMAND (input output : option chars) (c0 c1 : command chars) (c2 : option (command chars))
| PIPE_COMMAND (c0 c1 : command chars)
| SEQUENCE_COMMAND (c0 c1 : command chars)
| SIMPLE_COMMAND (input output : option chars) (word : list chars)
| SUBSHELL_COMMAND (input output : option chars) (c0 : command chars)
| UNTIL_COMMAND (input output : option chars) (c0 c1 : command chars)
| WHILE_COMMAND (input output : option chars) (c0 c1 : command chars).
Arguments IF_COMMAND {chars} input output c0 c1 c2.
Arguments PIPE_COMMAND {chars} c0 c1.
Arguments SEQUENCE_COMMAND {chars} c0 c1.
Arguments SIMPLE_COMMAND {chars} input output word.
Arguments SUBSHELL_COMMAND {chars} input output c0.
Arguments UNTIL_COMMAND {chars} input output c0 c1.
Arguments WHILE_COMMAND {chars} input output c0 c1.

(** ** The kernel

    [open_read] and [open_write] are [open(name, O_RDONLY)] and [open(name,
    O_WRONLY | O_CREAT, ...)]; [fork_child] gives the child's process number;
    [exec_prog] runs a program to its end and gives its wait status, or does not
    find it; [eprint] writes to standard error; [write_to] is [write] on a
    descriptor.  [times_text] and [pid_text] are the texts that [snprintf] makes
    of the clocks and of " [%d]". *)
Class Kernel (W desc : Type) := {
  open_read : W -> list Z -> option (desc * W);
  open_write : W -> list Z -> option (desc * W);
  make_pipe : W -> option (desc * desc * W);
  fork_child : W -> option (Z * W);
  exec_prog : W -> gmap Z desc -> list (list Z) -> option (W * Z);
  eprint : W -> gmap Z desc -> list Z -> W;
  write_to : W -> gmap Z desc -> Z -> list Z -> option W;
  times_text : W -> list Z;
  pid_text : Z -> list Z
}.

Record shell_process (W desc : Type) := Process { fds : gmap Z desc; prof : Z; world : W }.
Arguments Process {W desc} fds prof world.
Arguments fds {W desc} s.
Arguments prof {W desc} s.
Arguments world {W desc} s.

(** A run of a process returns, ends the process with a wait status, exhausts
    its bound, or does what C does not define. *)
Inductive result (W desc A : Type) :=
| Done (a : A) (s : shell_process W desc)
| Exits (raw : Z) (w : W)
| Diverges
| Undefined.
Arguments Done {W desc A} a s.
Arguments Exits {W desc A} raw w.
Arguments Diverges {W desc A}.
Arguments Undefined {W desc A}.

Definition sh (W desc A : Type) : Type := shell_process W desc -> result W desc A.

#[export] Instance sh_ret {W desc} : MRet (sh W desc) := fun A a s => Done a s.
#[export] Instance sh_bind {W desc} : MBind (sh W desc) := fun A B f c s =>
  match c s with
  | Done a s' => f a s'
  | Exits raw w => Exits raw w
  | Diverges => Diverges
  | Undefined => Undefined
  end.

Definition WEXITSTATUS (raw : Z) : Z := Z.shiftr (Z.land raw 65280) 8.

Section Shell.
Context {W desc : Type} `{!Kernel W desc}.
Implicit Types (s : shell_process W desc) (w : W) (f : gmap Z desc).

(** ** System calls on the process *)

Definition exit {A} (code : Z) : sh W desc A := fun s => Exits (u8 code * 256) (world s).

(** The lowest descriptor that is not open. *)
Definition lowest (f : gmap Z desc) : Z :=
  default 0 (snd <$> list_find (fun i => f !! i = None) (seqZ 0 (Z.of_nat (size f) + 1))).

Definition set_fds (f : gmap Z desc) : sh W desc unit := fun s => Done tt (Process f (prof s) (world s)).
Definition set_world (w : W) : sh W desc unit := fun s => Done tt (Process (fds s) (prof s) w).
Definition get_process : sh W desc (shell_process W desc) := fun s => Done s s.

Definition open_with (opener : W -> list Z -> option (desc * W)) (name : list Z) : sh W desc Z :=
  s ← get_process;
  match opener (world s) name with
  | Some (d, w) => let fd := lowest (fds s) in set_fds (<[fd := d]> (fds s));; set_world w;; mret fd
  | None => mret (-1)
  end.

Definition dup (fd : Z) : sh W desc Z :=
  s ← get_process;
  match fds s !! fd with
  | Some d => let new := lowest (fds s) in set_fds (<[new := d]> (fds s));; mret new
  | None => mret (-1)
  end.
Definition dup2 (old new : Z) : sh W desc unit :=
  s ← get_process;
  match fds s !! old with Some d => set_fds (<[new := d]> (fds s)) | None => mret tt end.
Definition close (fd : Z) : sh W desc unit := s ← get_process; set_fds (delete fd (fds s)).

Definition print_error (text : list Z) : sh W desc unit := s ← get_process; set_world (eprint (world s) (fds s) text).

(** [pipe(pipefd)]: the read end and the write end. *)
Definition pipe : sh W desc (option (Z * Z)) :=
  s ← get_process;
  match make_pipe (world s) with
  | Some (r, wr, w) =>
      let fd0 := lowest (fds s) in let f := <[fd0 := r]> (fds s) in
      let fd1 := lowest f in
      set_fds (<[fd1 := wr]> f);; set_world w;; mret (Some (fd0, fd1))
  | None => mret None
  end.

(** [execvp] returns only when there is no such program. *)
Definition execvp (word : list (list Z)) : sh W desc unit := fun s =>
  match word with
  | [] => Done tt s
  | _ => match exec_prog (world s) (fds s) word with
         | Some (w, raw) => Exits raw w
         | None => Done tt s
         end
  end.

(** [fork] and [waitpid]: the child's number and wait status. *)
Definition fork_wait (child : sh W desc unit) : sh W desc (option (Z * Z)) := fun s =>
  match fork_child (world s) with
  | None => Done None s
  | Some (pid, w) =>
      match child (Process (fds s) (prof s) w) with
      | Exits raw w' => Done (Some (pid, raw)) (Process (fds s) (prof s) w')
      | Done _ _ => Undefined
      | Diverges => Diverges
      | Undefined => Undefined
      end
  end.

(** ** Redirections *)

Definition text (t : string) : list Z := map (fun a => Z.of_N (Ascii.N_of_ascii a)) (String.list_ascii_of_string t).
Definition error_opening (name : list Z) : list Z := name ++ text ": Error opening file!".
Definition newline : list Z := [10].
Definition not_found (name : list Z) : list Z := name ++ text ": command not found" ++ newline.

(** The array [descriptors]. *)
Record descriptors := Descriptors { saved0 : Z; saved1 : Z; opened0 : Z; opened1 : Z }.
Definition no_descriptors : descriptors := Descriptors (-1) (-3) (-3) (-7).

(** One half of [set_redirect]: the descriptor of the opened file and the copy of
    [std]; [none] is what the array holds without a redirection. *)
Definition redirect_half (opener : W -> list Z -> option (desc * W)) (std : Z) (name : option (list Z)) (none : Z * Z) : sh W desc (Z * Z) :=
  match name with
  | None => mret none
  | Some name =>
      fd ← open_with opener name;
      if fd <? 0 then print_error (error_opening name);; exit 1
      else save ← dup std; dup2 fd std;; mret (fd, save)
  end.

Definition set_redirect (input output : option (list Z)) (ds : descriptors) : sh W desc descriptors :=
  '(fd0, save0) ← redirect_half open_read 0 input (opened0 ds, saved0 ds);
  '(fd1, save1) ← redirect_half open_write 1 output (opened1 ds, saved1 ds);
  mret (Descriptors save0 save1 fd0 fd1).

Definition reset_half (fd save std : Z) : sh W desc unit :=
  if 0 <=? fd then close fd;; dup2 save std;; close save else mret tt.

Definition reset_redirect (ds : descriptors) : sh W desc unit :=
  reset_half (opened0 ds) (saved0 ds) 0;; reset_half (opened1 ds) (saved1 ds) 1.

(** ** Profiling *)

(** [while ((newline = strchr(word, '\n'))) *newline = ' ';] *)
Definition without_newlines (word : list Z) : list Z := map (fun c => if c =? 10 then 32 else c) word.

(** The words behind the times, until the buffer is full; a text that does not
    fit is cut by [snprintf], but counts with its whole length. *)
Fixpoint profile_words (str : list Z) (word : list (list Z)) : list Z :=
  match word with
  | [] => str
  | a :: word' => if Z.of_nat (length str) <? 1023 then profile_words (str ++ 32 :: without_newlines a) word' else str
  end.

(** The newline goes behind the text, which is outside the buffer when the text
    was cut. *)
Definition profile_line (str : list Z) : sh W desc unit := fun s =>
  if 1024 <=? Z.of_nat (length str) then Undefined
  else match write_to (world s) (fds s) (prof s) (str ++ [10]) with
       | Some w => Done tt (Process (fds s) (prof s) w)
       | None => Done tt (Process (fds s) (-1) (world s))
       end.

(** What is profiled: the words of a command that succeeded, or a process. *)
Definition profile (what : list (list Z) + Z) : sh W desc unit :=
  s ← get_process;
  if 0 <=? prof s then
    profile_line match what with
                 | inl word => profile_words (times_text (world s)) word
                 | inr pid => times_text (world s) ++ pid_text pid
                 end
  else mret tt.

(** ** execute_command *)

Definition failed {A} (what : string) : sh W desc A := print_error (text what ++ newline);; exit 1.

Definition exec_word : list Z := text "exec".

Definition execute_simple (input output : option (list Z)) (word : list (list Z)) : sh W desc Z :=
  match word with
  | [] => fun _ => Undefined
  | word0 :: word1 =>
      if bool_decide (word0 = exec_word) then
        ds ← set_redirect input output no_descriptors;
        execvp word1;;
        print_error (text "exec: " ++ not_found (default (text "(null)") (head word1)));;
        reset_redirect ds;;
        exit 1
      else
        child ← fork_wait (set_redirect input output no_descriptors;; execvp word;; print_error (not_found word0);; exit 1);
        match child with
        | Some (pid, raw) =>
            let status := WEXITSTATUS raw in
            profile (if negb (status =? 0) then inr pid else inl word);;
            mret status
        | None => failed "Failed to fork!"
        end
  end.

(** The loops of [WHILE_COMMAND] and [UNTIL_COMMAND], which go on while the
    condition succeeds, or fails. *)
Fixpoint execute_loop (n : nat) (goes_on : Z -> bool) (cond body : sh W desc Z) (status : Z) : sh W desc Z :=
  match n with
  | O => fun _ => Diverges
  | S n' =>
      r ← cond;
      if goes_on r then status ← body; execute_loop n' goes_on cond body status
      else mret status
  end.

Definition redirecting (input output : option (list Z)) (c : sh W desc Z) : sh W desc Z :=
  ds ← set_redirect input output no_descriptors;
  status ← c;
  reset_redirect ds;;
  mret status.

Definition execute_subshell (input output : option (list Z)) (c0 : sh W desc Z) : sh W desc Z :=
  child ← fork_wait (ds ← set_redirect input output no_descriptors; status ← c0; reset_redirect ds;; exit status);
  match child with
  | Some (pid, raw) => profile (inr pid);; mret (WEXITSTATUS raw)
  | None => failed "Failed to fork!"
  end.

(** [uninit] is the value of the variable [exit_status] that the child of a pipe
    exits with without having set it. *)
Definition execute_pipe (uninit : Z) (c0 c1 : sh W desc Z) : sh W desc Z :=
  ends ← pipe;
  match ends with
  | None => failed "Failed to make a pipe!"
  | Some (fd0, fd1) =>
      child ← fork_wait (dup2 fd1 1;; close fd0;; c0;; close fd1;; close 1;; exit (WEXITSTATUS uninit));
      match child with
      | Some (pid, _) =>
          save ← dup 0; close fd1;; dup2 fd0 0;;
          profile (inr pid);;
          status ← c1;
          dup2 save 0;; close fd0;; close save;;
          mret status
      | None => failed "Failed to fork!"
      end
  end.

Definition execute_if (c0 c1 : sh W desc Z) (c2 : option (sh W desc Z)) : sh W desc Z :=
  r ← c0;
  if r =? 0 then c1 else match c2 with Some c2 => c2 | None => mret 0 end.

Fixpoint execute_command (n : nat) (uninit : Z) (c : command (list Z)) : sh W desc Z :=
  match n with
  | O => fun _ => Diverges
  | S n' =>
      let execute := execute_command n' uninit in
      match c with
      | SIMPLE_COMMAND input output word => execute_simple input output word
      | SEQUENCE_COMMAND c0 c1 => execute c0;; execute c1
      | SUBSHELL_COMMAND input output c0 => execute_subshell input output (execute c0)
      | PIPE_COMMAND c0 c1 => execute_pipe uninit (execute c0) (execute c1)
      | IF_COMMAND input output c0 c1 c2 =>
          redirecting input output (execute_if (execute c0) (execute c1) (execute <$> c2))
      | WHILE_COMMAND input output c0 c1 =>
          redirecting input output (execute_loop n' (fun r => r =? 0) (execute c0) (execute c1) 0)
      | UNTIL_COMMAND input output c0 c1 =>
          redirecting input output (execute_loop n' (fun r => negb (r =? 0)) (execute c0) (execute c1) 0)
      end
  end.

(** ** main, when it executes

    The commands of the stream in order; the status of the last one. *)
Fixpoint execute_stream (n : nat) (uninit : Z) (stream : list (command (list Z))) (last : option Z) : sh W desc (option Z) :=
  match stream with
  | [] => mret last
  | c :: stream' => status ← execute_command n uninit c; execute_stream n uninit stream' (Some status)
  end.

(** The profile of the shell itself, and what [main] returns. *)
Definition main (n : nat) (uninit : Z) (pid : Z) (profile_name : bool) (stream : list (command (list Z))) : sh W desc Z :=
  last ← execute_stream n uninit stream None;
  let status := default 0 last in
  before ← get_process;
  profile (inr pid);;
  (if 0 <=? prof before then close (prof before) else mret tt);;
  s ← get_process;
  mret match last with
       | None => 0
       | Some _ => if negb (status =? 0) || (profile_name && (prof s <? 0)) then 1 else 0
       end.
End Shell.
