(* ===== verification/ShellSpec.v ===== *)
(** * The shell's executor refines a semantics of commands

    The relation [eval] says how a command ends in an environment of file
    descriptors that it cannot change: a redirection is in force for the
    commands inside it, and for nothing else.  [execute_command], which opens,
    duplicates and closes the descriptors of its own process, does exactly this
    and leaves the table of descriptors as it found it. *)

From stdpp Require Import strings.
From S2P Require Import Prelude ShellExec.

Section Semantics.
Context {W desc : Type} `{!Kernel W desc}.
Implicit Types (w : W) (f : gmap Z desc) (p : Z) (c : command (list Z)).

(** ** The semantics *)

(** How a command ends: with a status (and the profile's descriptor), or with
    the end of the process. *)
Inductive ending := Status (st p : Z) (w : W) | Gone (raw : Z) (w : W).

(** The descriptor [std] stands for [d]; the file is open at the lowest free
    descriptor as well, and the old [std] at the next one. *)
Definition shadow (std : Z) (d : desc) f : gmap Z desc :=
  let f1 := <[lowest f := d]> f in
  match f1 !! std with Some d0 => <[std := d]> (<[lowest f1 := d0]> f1) | None => f1 end.

Definition redirect_one (opener : W -> list Z -> option (desc * W)) (std : Z) (name : option (list Z)) f w : gmap Z desc * W + W :=
  match name with
  | None => inl (f, w)
  | Some name => match opener w name with
                 | Some (d, w') => inl (shadow std d f, w')
                 | None => inr (eprint w f (error_opening name))
                 end
  end.

(** The environment inside the redirections, or the world after a failure. *)
Definition redirect (input output : option (list Z)) f w : gmap Z desc * W + W :=
  match redirect_one open_read 0 input f w with
  | inl (f', w') => redirect_one open_write 1 output f' w'
  | inr w' => inr w'
  end.

(** The wait status of [exit(code)]. *)
Definition exited (code : Z) : Z := u8 code * 256.

(** Running a program: its wait status and the world. *)
Definition run_program f w (word : list (list Z)) : option (W * Z) :=
  match word with [] => None | _ => exec_prog w f word end.

(** The child of a simple command. *)
Definition simple_child (input output : option (list Z)) (word : list (list Z)) (name : list Z) f w : Z * W :=
  match redirect input output f w with
  | inr w' => (exited 1, w')
  | inl (f', w1) => match run_program f' w1 word with
                    | Some (w2, raw) => (raw, w2)
                    | None => (exited 1, eprint w1 f' name)
                    end
  end.

(** A line of the profile, if there is one to write. *)
Definition noted f p w (what : list (list Z) + Z) : option (Z * W) :=
  if 0 <=? p then
    let str := match what with inl word => profile_words (times_text w) word | inr pid => times_text w ++ pid_text pid end in
    if 1024 <=? Z.of_nat (length str) then None
    else Some match write_to w f p (str ++ [10]) with Some w' => (p, w') | None => (-1, w) end
  else Some (p, w).

(** The table with a pipe's two ends, and the two ends. *)
Definition pipe_table f (r wr : desc) : gmap Z desc * Z * Z :=
  let fd0 := lowest f in let f0 := <[fd0 := r]> f in let fd1 := lowest f0 in (<[fd1 := wr]> f0, fd0, fd1).

(** The environments of the two sides of a pipe. *)
Definition left_table f (r wr : desc) : gmap Z desc :=
  let '(f1, fd0, _) := pipe_table f r wr in delete fd0 (<[1 := wr]> f1).
Definition right_table f (r wr : desc) : gmap Z desc :=
  let '(f1, _, fd1) := pipe_table f r wr in
  match f1 !! 0 with Some d0 => <[0 := r]> (delete fd1 (<[lowest f1 := d0]> f1)) | None => f1 end.

Definition ending_raw (e : ending) : Z := match e with Status st _ _ => exited st | Gone raw _ => raw end.
Definition ending_world (e : ending) : W := match e with Status _ _ w => w | Gone _ w => w end.

Definition no_fork f w : W := eprint w f (text "Failed to fork!" ++ newline).

Inductive eval : gmap Z desc -> command (list Z) -> Z -> W -> ending -> Prop :=
(* exec: the shell's process becomes the program *)
| E_exec f i o word p w f' w1 w2 raw :
    redirect i o f w = inl (f', w1) -> run_program f' w1 word = Some (w2, raw) ->
    eval f (SIMPLE_COMMAND i o (exec_word :: word)) p w (Gone raw w2)
| E_exec_missing f i o word p w f' w1 :
    redirect i o f w = inl (f', w1) -> run_program f' w1 word = None ->
    eval f (SIMPLE_COMMAND i o (exec_word :: word)) p w
      (Gone (exited 1) (eprint w1 f' (text "exec: " ++ not_found (default (text "(null)") (head word)))))
| E_exec_redirect f i o word p w w1 :
    redirect i o f w = inr w1 -> eval f (SIMPLE_COMMAND i o (exec_word :: word)) p w (Gone (exited 1) w1)
(* a program in a child *)
| E_simple f i o word0 word p w pid w1 raw w2 p' w3 :
    word0 <> exec_word -> fork_child w = Some (pid, w1) ->
    simple_child i o (word0 :: word) (not_found word0) f w1 = (raw, w2) ->
    noted f p w2 (if negb (WEXITSTATUS raw =? 0) then inr pid else inl (word0 :: word)) = Some (p', w3) ->
    eval f (SIMPLE_COMMAND i o (word0 :: word)) p w (Status (WEXITSTATUS raw) p' w3)
| E_simple_fork f i o word0 word p w :
    word0 <> exec_word -> fork_child w = None ->
    eval f (SIMPLE_COMMAND i o (word0 :: word)) p w (Gone (exited 1) (no_fork f w))
(* one after the other *)
| E_sequence f c0 c1 p w st p1 w1 e :
    eval f c0 p w (Status st p1 w1) -> eval f c1 p1 w1 e -> eval f (SEQUENCE_COMMAND c0 c1) p w e
| E_sequence_gone f c0 c1 p w raw w1 :
    eval f c0 p w (Gone raw w1) -> eval f (SEQUENCE_COMMAND c0 c1) p w (Gone raw w1)
(* a command in a child *)
| E_subshell f i o c p w pid w1 f' w2 e p' w3 :
    fork_child w = Some (pid, w1) -> redirect i o f w1 = inl (f', w2) -> eval f' c p w2 e ->
    noted f p (ending_world e) (inr pid) = Some (p', w3) ->
    eval f (SUBSHELL_COMMAND i o c) p w (Status (WEXITSTATUS (ending_raw e)) p' w3)
| E_subshell_redirect f i o c p w pid w1 w2 p' w3 :
    fork_child w = Some (pid, w1) -> redirect i o f w1 = inr w2 -> noted f p w2 (inr pid) = Some (p', w3) ->
    eval f (SUBSHELL_COMMAND i o c) p w (Status (WEXITSTATUS (exited 1)) p' w3)
| E_subshell_fork f i o c p w :
    fork_child w = None -> eval f (SUBSHELL_COMMAND i o c) p w (Gone (exited 1) (no_fork f w))
(* the left side in a child, and then the right side *)
| E_pipe f c0 c1 p w r wr w1 pid w2 e0 p' w3 st p'' w4 :
    make_pipe w = Some (r, wr, w1) -> fork_child w1 = Some (pid, w2) ->
    eval (left_table f r wr) c0 p w2 e0 ->
    noted (right_table f r wr) p (ending_world e0) (inr pid) = Some (p', w3) ->
    eval (right_table f r wr) c1 p' w3 (Status st p'' w4) ->
    eval f (PIPE_COMMAND c0 c1) p w (Status st p'' w4)
| E_pipe_gone f c0 c1 p w r wr w1 pid w2 e0 p' w3 raw w4 :
    make_pipe w = Some (r, wr, w1) -> fork_child w1 = Some (pid, w2) ->
    eval (left_table f r wr) c0 p w2 e0 ->
    noted (right_table f r wr) p (ending_world e0) (inr pid) = Some (p', w3) ->
    eval (right_table f r wr) c1 p' w3 (Gone raw w4) ->
    eval f (PIPE_COMMAND c0 c1) p w (Gone raw w4)
| E_pipe_none f c0 c1 p w :
    make_pipe w = None ->
    eval f (PIPE_COMMAND c0 c1) p w (Gone (exited 1) (eprint w f (text "Failed to make a pipe!" ++ newline)))
| E_pipe_fork f c0 c1 p w r wr w1 :
    make_pipe w = Some (r, wr, w1) -> fork_child w1 = None ->
    eval f (PIPE_COMMAND c0 c1) p w (Gone (exited 1) (no_fork (fst (fst (pipe_table f r wr))) w1))
(* if *)
| E_if f i o c0 c1 alt p w f' w1 e :
    redirect i o f w = inl (f', w1) -> eval_if f' c0 c1 alt p w1 e -> eval f (IF_COMMAND i o c0 c1 alt) p w e
| E_if_redirect f i o c0 c1 alt p w w1 :
    redirect i o f w = inr w1 -> eval f (IF_COMMAND i o c0 c1 alt) p w (Gone (exited 1) w1)
(* while and until *)
| E_while f i o c0 c1 p w f' w1 e :
    redirect i o f w = inl (f', w1) -> eval_loop f' (fun st => st =? 0) c0 c1 0 p w1 e -> eval f (WHILE_COMMAND i o c0 c1) p w e
| E_while_redirect f i o c0 c1 p w w1 :
    redirect i o f w = inr w1 -> eval f (WHILE_COMMAND i o c0 c1) p w (Gone (exited 1) w1)
| E_until f i o c0 c1 p w f' w1 e :
    redirect i o f w = inl (f', w1) -> eval_loop f' (fun st => negb (st =? 0)) c0 c1 0 p w1 e -> eval f (UNTIL_COMMAND i o c0 c1) p w e
| E_until_redirect f i o c0 c1 p w w1 :
    redirect i o f w = inr w1 -> eval f (UNTIL_COMMAND i o c0 c1) p w (Gone (exited 1) w1)
with eval_if : gmap Z desc -> command (list Z) -> command (list Z) -> option (command (list Z)) -> Z -> W -> ending -> Prop :=
| I_gone f c0 c1 alt p w raw w1 : eval f c0 p w (Gone raw w1) -> eval_if f c0 c1 alt p w (Gone raw w1)
| I_then f c0 c1 alt p w p1 w1 e : eval f c0 p w (Status 0 p1 w1) -> eval f c1 p1 w1 e -> eval_if f c0 c1 alt p w e
| I_else f c0 c1 c2 p w st p1 w1 e :
    eval f c0 p w (Status st p1 w1) -> st <> 0 -> eval f c2 p1 w1 e -> eval_if f c0 c1 (Some c2) p w e
| I_no_else f c0 c1 p w st p1 w1 :
    eval f c0 p w (Status st p1 w1) -> st <> 0 -> eval_if f c0 c1 None p w (Status 0 p1 w1)
with eval_loop : gmap Z desc -> (Z -> bool) -> command (list Z) -> command (list Z) -> Z -> Z -> W -> ending -> Prop :=
| L_gone f go c0 c1 last p w raw w1 : eval f c0 p w (Gone raw w1) -> eval_loop f go c0 c1 last p w (Gone raw w1)
| L_stop f go c0 c1 last p w st p1 w1 :
    eval f c0 p w (Status st p1 w1) -> go st = false -> eval_loop f go c0 c1 last p w (Status last p1 w1)
| L_body_gone f go c0 c1 last p w st p1 w1 raw w2 :
    eval f c0 p w (Status st p1 w1) -> go st = true -> eval f c1 p1 w1 (Gone raw w2) -> eval_loop f go c0 c1 last p w (Gone raw w2)
| L_again f go c0 c1 last p w st p1 w1 st' p2 w2 e :
    eval f c0 p w (Status st p1 w1) -> go st = true -> eval f c1 p1 w1 (Status st' p2 w2) ->
    eval_loop f go c0 c1 st' p2 w2 e -> eval_loop f go c0 c1 last p w e.

Scheme eval_mut := Minimality for eval Sort Prop
  with eval_if_mut := Minimality for eval_if Sort Prop
  with eval_loop_mut := Minimality for eval_loop Sort Prop.
Combined Scheme eval_mutual from eval_mut, eval_if_mut, eval_loop_mut.
End Semantics.

(** ** The table of descriptors *)

Section Descriptors.
Context {desc : Type}.
Implicit Types f : gmap Z desc.

Definition std_open f : Prop := is_Some (f !! 0) /\ is_Some (f !! 1).

Lemma lowest_free f : f !! lowest f = None /\ 0 <= lowest f.
Proof.
  unfold lowest. destruct (list_find (fun i => f !! i = None) (seqZ 0 (Z.of_nat (size f) + 1))) as [[k i]|] eqn:E; cbn.
  - apply list_find_Some in E as (Hk & Hi & _). split; [done|]. apply list_elem_of_lookup_2, elem_of_seqZ in Hk. lia.
  - exfalso. apply list_find_None in E. rewrite Forall_forall in E.
    assert (Hsub : list_to_set (C := gset Z) (seqZ 0 (Z.of_nat (size f) + 1)) ⊆ dom f).
    { intros i Hi%elem_of_list_to_set. apply elem_of_dom. destruct (f !! i) eqn:Ei; [by eexists|]. by destruct (E i Hi). }
    apply subseteq_size in Hsub. rewrite size_list_to_set, length_seqZ, size_dom in Hsub by apply NoDup_seqZ. lia.
Qed.

Lemma lowest_std f d : std_open f -> std_open (<[lowest f := d]> f) /\ lowest f <> 0 /\ lowest f <> 1.
Proof.
  intros [[d0 H0] [d1 H1]]. destruct (lowest_free f) as [Hl _].
  assert (N0 : lowest f <> 0) by (intros E; rewrite E in Hl; congruence).
  assert (N1 : lowest f <> 1) by (intros E; rewrite E in Hl; congruence).
  split; [|done]. split; rewrite lookup_insert_ne by done; eauto.
Qed.

Lemma shadow_std std d f : std_open f -> (std = 0 \/ std = 1) -> std_open (shadow std d f).
Proof.
  intros Hf Hs. unfold shadow. destruct (lowest_std f d Hf) as (H1 & _).
  destruct (<[lowest f := d]> f !! std) as [d0|] eqn:E; [|done]. destruct (lowest_std _ d0 H1) as (H2 & H3 & H4).
  destruct H1 as [Hx Hy]. destruct Hs as [->| ->]; split; rewrite ?lookup_insert_eq, ?lookup_insert_ne by done; eauto.
Qed.

End Descriptors.

(** ** Redirections *)

Section Refinement.
Context {W desc : Type} `{!Kernel W desc}.
Implicit Types (w : W) (f : gmap Z desc) (p : Z).

Lemma bind_done {A B} (c : sh W desc A) (k : A -> sh W desc B) s a s' : c s = Done a s' -> (c ≫= k) s = k a s'.
Proof. unfold mbind, sh_bind. by intros ->. Qed.
Lemma bind_run {A B} (c : sh W desc A) (k : A -> sh W desc B) s :
  (c ≫= k) s = match c s with Done a s' => k a s' | Exits raw w => Exits raw w | Diverges => Diverges | Undefined => Undefined end.
Proof. done. Qed.
Lemma bind_exits {A B} (c : sh W desc A) (k : A -> sh W desc B) s raw w : c s = Exits raw w -> (c ≫= k) s = Exits raw w.
Proof. unfold mbind, sh_bind. by intros ->. Qed.

(** The descriptors that one half of a redirection from [f] to [f'] touches: its
    [std] and free ones.  Resetting gives them back, whatever the others are. *)
Record undoes (std : Z) (T : gset Z) f f' (reset : sh W desc unit) : Prop := {
  un_frame : forall k, k ∉ T -> f' !! k = f !! k;
  un_free : forall k, k ∈ T -> k = std \/ f !! k = None;
  un_used : forall k, k ∈ T -> is_Some (f' !! k);
  un_reset : forall g p w, (forall k, k ∈ T -> g !! k = f' !! k) ->
    exists h, reset (Process g p w) = Done tt (Process h p w) /\ (forall k, k ∈ T -> h !! k = f !! k) /\ (forall k, k ∉ T -> h !! k = g !! k)
}.

Lemma shadow_undoes std d f : std_open f -> (std = 0 \/ std = 1) ->
  undoes std {[lowest f; lowest (<[lowest f := d]> f); std]} f (shadow std d f) (reset_half (lowest f) (lowest (<[lowest f := d]> f)) std).
Proof.
  intros Hf Hs. assert (H0 : exists d0, f !! std = Some d0) by (destruct Hf as [[? ?] [? ?]]; destruct Hs as [->| ->]; eauto).
  destruct H0 as [d0 H0]. destruct (lowest_std f d Hf) as (H1 & N0 & N1). destruct (lowest_std _ d0 H1) as (_ & M0 & M1).
  destruct (lowest_free f) as [Ha Hpos]. destruct (lowest_free (<[lowest f := d]> f)) as [Hb _].
  set (a := lowest f) in *. set (b := lowest (<[a := d]> f)) in *.
  assert (Hab : a <> b) by (intros E; rewrite <- E, lookup_insert_eq in Hb; done). rewrite lookup_insert_ne in Hb by done.
  assert (Has : a <> std) by (destruct Hs as [->| ->]; done). assert (Hbs : b <> std) by (destruct Hs as [->| ->]; done).
  assert (Hsh : shadow std d f = <[std := d]> (<[b := d0]> (<[a := d]> f))).
  { unfold shadow. fold a b. by rewrite lookup_insert_ne, H0 by done. }
  rewrite Hsh. split.
  - intros k Hk. rewrite !lookup_insert_ne by set_solver. done.
  - intros k Hk. assert (k = a \/ k = b \/ k = std) as [->|[->| ->]] by set_solver; [by right|by right|by left].
  - intros k Hk. destruct (decide (k = std)) as [->|]; [rewrite lookup_insert_eq; eauto|]. rewrite lookup_insert_ne by done.
    destruct (decide (k = b)) as [->|]; [rewrite lookup_insert_eq; eauto|]. rewrite lookup_insert_ne by done.
    assert (k = a) as -> by set_solver. rewrite lookup_insert_eq; eauto.
  - intros g p w Hg. assert (Hgb : delete a g !! b = Some d0).
    { rewrite lookup_delete_ne, Hg by (done || set_solver). by rewrite lookup_insert_ne, lookup_insert_eq by done. }
    exists (delete b (<[std := d0]> (delete a g))). split_and!.
    + unfold reset_half. rewrite (proj2 (Z.leb_le 0 a)) by done. unfold close, dup2, set_fds, get_process, mbind, sh_bind. cbn.
      by rewrite Hgb.
    + intros k Hk. destruct (decide (k = b)) as [->|]; [by rewrite lookup_delete_eq|]. rewrite lookup_delete_ne by done.
      destruct (decide (k = std)) as [->|]; [by rewrite lookup_insert_eq|]. rewrite lookup_insert_ne by done.
      assert (k = a) as -> by set_solver. by rewrite lookup_delete_eq.
    + intros k Hk. by rewrite lookup_delete_ne, lookup_insert_ne, lookup_delete_ne by set_solver.
Qed.

(** One half of [set_redirect]. *)
Lemma redirect_half_run opener std name none f p w : std_open f -> (std = 0 \/ std = 1) -> fst none < 0 ->
  match redirect_one opener std name f w with
  | inr w' => redirect_half opener std name none (Process f p w) = Exits (exited 1) w'
  | inl (f', w') => std_open f' /\ exists fd save T, redirect_half opener std name none (Process f p w) = Done (fd, save) (Process f' p w') /\
      undoes std T f f' (reset_half fd save std)
  end.
Proof.
  intros Hf Hs Hnone. destruct name as [name|]; cbn [redirect_one redirect_half].
  2:{ split; [done|]. exists (fst none), (snd none), ∅. split; [by destruct none|]. split; [done|set_solver|set_solver|].
      intros g p' w' _. exists g. split; [|done]. unfold reset_half. by destruct (Z.leb_spec 0 (fst none)); [lia|]. }
  unfold open_with, mbind, sh_bind. cbn. destruct (opener w name) as [[d w']|]; [|done]. cbn.
  destruct (lowest_free f) as [Ha Hpos]. destruct (Z.ltb_spec (lowest f) 0); [lia|].
  destruct (lowest_std f d Hf) as (H1 & N0 & N1). unfold dup, mbind, sh_bind. cbn.
  assert (H0 : exists d0, <[lowest f := d]> f !! std = Some d0) by (destruct H1 as [[? ?] [? ?]]; destruct Hs as [->| ->]; eauto).
  destruct H0 as [d0 H0]. split; [by apply shadow_std|]. eexists (lowest f), (lowest (<[lowest f := d]> f)), _. split; [|by apply shadow_undoes].
  unfold shadow. rewrite H0. cbn. unfold dup2, mbind, sh_bind. cbn.
  destruct (lowest_free (<[lowest f := d]> f)) as [Hb _].
  rewrite lookup_insert_ne, lookup_insert_eq; [done|]. intros E. rewrite E, lookup_insert_eq in Hb. done.
Qed.

Lemma redirect_run i o f p w : std_open f ->
  match redirect i o f w with
  | inr w' => set_redirect i o no_descriptors (Process f p w) = Exits (exited 1) w'
  | inl (f', w') => std_open f' /\ exists ds, set_redirect i o no_descriptors (Process f p w) = Done ds (Process f' p w') /\
      forall p w, reset_redirect ds (Process f' p w) = Done tt (Process f p w)
  end.
Proof.
  intros Hf. unfold redirect, set_redirect.
  pose proof (redirect_half_run open_read 0 i (opened0 no_descriptors, saved0 no_descriptors) f p w Hf (or_introl eq_refl) ltac:(done)) as H0.
  destruct (redirect_one open_read 0 i f w) as [[f1 w1]|w1]; [|by rewrite (bind_exits _ _ _ _ _ H0)].
  destruct H0 as (Hf1 & fd0 & save0 & T0 & Hrun0 & U0). rewrite (bind_done _ _ _ _ _ Hrun0).
  pose proof (redirect_half_run open_write 1 o (opened1 no_descriptors, saved1 no_descriptors) f1 p w1 Hf1 (or_intror eq_refl) ltac:(done)) as H1.
  destruct (redirect_one open_write 1 o f1 w1) as [[f2 w2]|w2]; [|by rewrite (bind_exits _ _ _ _ _ H1)].
  destruct H1 as (Hf2 & fd1 & save1 & T1 & Hrun1 & U1). rewrite (bind_done _ _ _ _ _ Hrun1).
  split; [done|]. eexists. split; [done|]. intros p' w'. unfold reset_redirect. cbn [opened0 opened1 saved0 saved1].
  assert (Hdisj : forall k, k ∈ T0 -> k ∉ T1).
  { intros k H0 H1. destruct (un_used _ _ _ _ _ U0 k H0) as [x Hx]. destruct (un_free _ _ _ _ _ U1 k H1) as [->|]; [|congruence].
    destruct Hf as [_ [y Hy]]. destruct (un_free _ _ _ _ _ U0 1 H0); [lia|congruence]. }
  destruct (un_reset _ _ _ _ _ U0 f2 p' w') as (h & Hr0 & Hh1 & Hh2).
  { intros k Hk. apply (un_frame _ _ _ _ _ U1). by apply Hdisj. }
  rewrite (bind_done _ _ _ _ _ Hr0). destruct (un_reset _ _ _ _ _ U1 h p' w') as (h' & Hr1 & Hh3 & Hh4).
  { intros k Hk. apply Hh2. intros Hk0. by apply (Hdisj k). }
  rewrite Hr1. do 2 f_equal. apply map_eq. intros k. destruct (decide (k ∈ T1)) as [H1|H1].
  - rewrite Hh3 by done. apply (un_frame _ _ _ _ _ U0). intros H0. by apply (Hdisj k).
  - rewrite Hh4 by done. destruct (decide (k ∈ T0)) as [H0|H0]; [by apply Hh1|].
    rewrite Hh2 by done. rewrite (un_frame _ _ _ _ _ U1), (un_frame _ _ _ _ _ U0) by done. done.
Qed.

(** ** How a run ends *)

Definition of_ending f (e : ending) : result W desc Z :=
  match e with Status st p w => Done st (Process f p w) | Gone raw w => Exits raw w end.

Definition stuck {A} (r : result W desc A) : Prop := r = Diverges \/ r = Undefined.

Lemma bind_stuck {A B} (c : sh W desc A) (k : A -> sh W desc B) s : stuck (c s) -> stuck ((c ≫= k) s).
Proof. unfold stuck, mbind, sh_bind. by intros [-> | ->]; [left|right]. Qed.

Lemma fork_wait_run child f p w : fork_wait child (Process f p w) =
  match fork_child w with
  | None => Done None (Process f p w)
  | Some (pid, w1) => match child (Process f p w1) with
                      | Exits raw w' => Done (Some (pid, raw)) (Process f p w')
                      | Diverges => Diverges
                      | Done _ _ | Undefined => Undefined
                      end
  end.
Proof. done. Qed.

Lemma exits_run {A} code s : @exit W desc A code s = Exits (exited code) (world s).
Proof. done. Qed.

Lemma print_error_run t f p w : print_error t (Process f p w) = Done tt (Process f p (eprint w f t)).
Proof. done. Qed.

Lemma profile_run what f p w :
  profile what (Process f p w) = match noted f p w what with Some (p', w') => Done tt (Process f p' w') | None => Undefined end.
Proof.
  unfold profile, noted, mbind, sh_bind, get_process. cbn. destruct (0 <=? p); [|done].
  unfold profile_line. cbn. destruct what; (case_match; [done|]); by destruct (write_to _ _ _ _).
Qed.

Lemma failed_run {A} what f p w : @failed W desc _ A what (Process f p w) = Exits (exited 1) (eprint w f (text what ++ newline)).
Proof. done. Qed.

Lemma redirecting_run i o c f p w : std_open f ->
  match redirect i o f w with
  | inr w' => redirecting i o c (Process f p w) = Exits (exited 1) w'
  | inl (f', w') => std_open f' /\
      (forall e, c (Process f' p w') = of_ending f' e -> redirecting i o c (Process f p w) = of_ending f e) /\
      (stuck (c (Process f' p w')) -> stuck (redirecting i o c (Process f p w)))
  end.
Proof.
  intros Hf. pose proof (redirect_run i o f p w Hf) as Hr. unfold redirecting.
  destruct (redirect i o f w) as [[f' w']|w']; [|by rewrite (bind_exits _ _ _ _ _ Hr)].
  destruct Hr as (Hf' & ds & Hset & Hreset). split; [done|]. rewrite (bind_done _ _ _ _ _ Hset). split.
  - intros [st p' w1|raw w1] He; cbn [of_ending] in *.
    + by rewrite (bind_done _ _ _ _ _ He), (bind_done _ _ _ _ _ (Hreset p' w1)).
    + by rewrite (bind_exits _ _ _ _ _ He).
  - apply bind_stuck.
Qed.

Lemma execvp_run word f p w : execvp word (Process f p w) =
  match run_program f w word with Some (w', raw) => Exits raw w' | None => Done tt (Process f p w) end.
Proof. unfold execvp, run_program. cbn. destruct word; [done|]. by destruct (exec_prog _ _ _) as [[? ?]|]. Qed.

Lemma simple_child_run i o word name f p w : std_open f ->
  (set_redirect i o no_descriptors;; execvp word;; print_error name;; exit 1 : sh W desc unit) (Process f p w) =
  Exits (fst (simple_child i o word name f w)) (snd (simple_child i o word name f w)).
Proof.
  intros Hf. pose proof (redirect_run i o f p w Hf) as Hr. unfold simple_child.
  destruct (redirect i o f w) as [[f' w']|w']; [|by rewrite (bind_exits _ _ _ _ _ Hr)].
  destruct Hr as (_ & ds & Hset & _). rewrite (bind_done _ _ _ _ _ Hset). rewrite bind_run, execvp_run.
  by destruct (run_program f' w' word) as [[? ?]|].
Qed.

Lemma simple_run i o word p w f : std_open f ->
  stuck (execute_simple i o word (Process f p w)) \/
  exists e, execute_simple i o word (Process f p w) = of_ending f e /\ eval f (SIMPLE_COMMAND i o word) p w e.
Proof.
  intros Hf. destruct word as [|word0 word]; [by left; right|]. cbn [execute_simple]. case_bool_decide as Hex.
  - subst word0. right. pose proof (redirect_run i o f p w Hf) as Hr. destruct (redirect i o f w) as [[f' w']|w'] eqn:Er.
    + destruct Hr as (_ & ds & Hset & Hreset). rewrite (bind_done _ _ _ _ _ Hset). rewrite bind_run, execvp_run.
      destruct (run_program f' w' word) as [[w2 raw]|] eqn:Ep.
      * exists (Gone raw w2). split; [done|by econstructor].
      * eexists (Gone _ _). split; [|by eapply E_exec_missing]. rewrite (bind_done _ _ _ _ _ (print_error_run _ _ _ _)).
        by rewrite (bind_done _ _ _ _ _ (Hreset _ _)).
    + rewrite (bind_exits _ _ _ _ _ Hr). eexists (Gone _ _). split; [done|by econstructor].
  - rewrite bind_run, fork_wait_run.
    destruct (fork_child w) as [[pid w1]|] eqn:Ef; [|right; exists (Gone (exited 1) (no_fork f w)); split; [done|by eapply E_simple_fork]].
    rewrite simple_child_run by done. destruct (simple_child i o (word0 :: word) (not_found word0) f w1) as [raw w2] eqn:Ec.
    cbv zeta. cbn [fst snd]. rewrite bind_run, profile_run.
    destruct (noted _ _ _ _) as [[p' w3]|] eqn:En; [|by left; right]. right. exists (Status (WEXITSTATUS raw) p' w3). split; [done|]. by eapply E_simple.
Qed.

Lemma simple_eval i o word f p w e : std_open f -> eval f (SIMPLE_COMMAND i o word) p w e ->
  execute_simple i o word (Process f p w) = of_ending f e.
Proof.
  intros Hf He. inversion He as [? ? ? word' ? ? f' w1 w2 raw Er Ep|? ? ? word' ? ? f' w1 Er Ep|? ? ? word' ? ? w1 Er
    |? ? ? word0 word' ? ? pid w1 raw w2 p' w3 Hne Ef Ec En|? ? ? word0 word' ? ? Hne Ef| | | | | | | | | | | | | | |]; subst; cbn [execute_simple].
  1-3: rewrite bool_decide_true by done; pose proof (redirect_run i o f p w Hf) as Hr; rewrite Er in Hr.
  - destruct Hr as (_ & ds & Hset & Hreset). by rewrite (bind_done _ _ _ _ _ Hset), bind_run, execvp_run, Ep.
  - destruct Hr as (_ & ds & Hset & Hreset). rewrite (bind_done _ _ _ _ _ Hset), bind_run, execvp_run, Ep.
    by rewrite (bind_done _ _ _ _ _ (print_error_run _ _ _ _)), (bind_done _ _ _ _ _ (Hreset _ _)).
  - by rewrite (bind_exits _ _ _ _ _ Hr).
  - rewrite bool_decide_false by done. rewrite bind_run, fork_wait_run, Ef, simple_child_run, Ec by done. cbn [fst snd]. by rewrite bind_run, profile_run, En.
  - rewrite bool_decide_false by done. by rewrite bind_run, fork_wait_run, Ef.
Qed.

Lemma subshell_run i o c f p w : std_open f ->
  match fork_child w with
  | None => execute_subshell i o c (Process f p w) = Exits (exited 1) (no_fork f w)
  | Some (pid, w1) =>
      match redirect i o f w1 with
      | inr w2 => execute_subshell i o c (Process f p w) =
          match noted f p w2 (inr pid) with Some (p', w3) => Done (WEXITSTATUS (exited 1)) (Process f p' w3) | None => Undefined end
      | inl (f', w2) => std_open f' /\
          (forall e, c (Process f' p w2) = of_ending f' e -> execute_subshell i o c (Process f p w) =
             match noted f p (ending_world e) (inr pid) with
             | Some (p', w3) => Done (WEXITSTATUS (ending_raw e)) (Process f p' w3)
             | None => Undefined
             end) /\
          (stuck (c (Process f' p w2)) -> stuck (execute_subshell i o c (Process f p w)))
      end
  end.
Proof.
  intros Hf. unfold execute_subshell. rewrite bind_run, fork_wait_run. destruct (fork_child w) as [[pid w1]|]; [|done].
  pose proof (redirect_run i o f p w1 Hf) as Hr.
  assert (Hend : forall raw w2, (profile (inr pid);; mret (WEXITSTATUS raw)) (Process f p w2) =
    match noted f p w2 (inr pid) with Some (p', w3) => Done (WEXITSTATUS raw) (Process f p' w3) | None => Undefined end).
  { intros raw w2. rewrite bind_run, profile_run. by destruct (noted f p w2 _) as [[? ?]|]. }
  destruct (redirect i o f w1) as [[f' w2]|w2].
  - destruct Hr as (Hf' & ds & Hset & Hreset). split; [done|]. rewrite (bind_done _ _ _ _ _ Hset). split.
    + intros [st p' w3|raw w3] He; cbn [of_ending] in He.
      * rewrite (bind_done _ _ _ _ _ He), (bind_done _ _ _ _ _ (Hreset p' w3)), exits_run. apply Hend.
      * rewrite (bind_exits _ _ _ _ _ He). apply Hend.
    + intros Hs. rewrite bind_run. by destruct Hs as [-> | ->]; [left|right].
  - rewrite (bind_exits _ _ _ _ _ Hr). apply Hend.
Qed.

(** The tables of a pipe. *)
Lemma pipe_tables f (r wr : desc) : std_open f ->
  let '(f1, fd0, fd1) := pipe_table f r wr in
  std_open (left_table f r wr) /\ std_open (right_table f r wr) /\
  exists d0, f1 !! 0 = Some d0 /\ f1 !! fd1 = Some wr /\
    delete fd1 (<[lowest f1 := d0]> f1) !! fd0 = Some r /\ right_table f r wr = <[0 := r]> (delete fd1 (<[lowest f1 := d0]> f1)) /\
    right_table f r wr !! lowest f1 = Some d0 /\ delete (lowest f1) (delete fd0 (<[0 := d0]> (right_table f r wr))) = f.
Proof.
  intros Hf. unfold pipe_table, left_table, right_table, pipe_table.
  destruct (lowest_std f r Hf) as (H1 & A0 & A1). destruct (lowest_free f) as [Ha _]. set (a := lowest f) in *.
  destruct (lowest_std _ wr H1) as (H2 & B0 & B1). destruct (lowest_free (<[a := r]> f)) as [Hb _]. set (b := lowest (<[a := r]> f)) in *.
  destruct (lowest_free (<[b := wr]> (<[a := r]> f))) as [Hc _]. set (f1 := <[b := wr]> (<[a := r]> f)) in *. set (c := lowest f1) in *.
  assert (Hab : a <> b) by (intros E; rewrite <- E, lookup_insert_eq in Hb; done).
  assert (Hcb : c <> b) by (intros E; unfold f1 in Hc; rewrite E, lookup_insert_eq in Hc; done).
  assert (Hca : c <> a) by (intros E; unfold f1 in Hc; rewrite E, lookup_insert_ne, lookup_insert_eq in Hc by done; done).
  destruct H2 as [[d0 Hd0] [d1 Hd1]]. rewrite lookup_insert_ne in Hb by done.
  assert (C0 : c <> 0) by (intros E; rewrite E in Hc; congruence). assert (C1 : c <> 1) by (intros E; rewrite E in Hc; congruence).
  rewrite Hd0. split_and!.
  - split; [rewrite lookup_delete_ne, lookup_insert_ne by done; eauto|rewrite lookup_delete_ne, lookup_insert_eq by done; eauto].
  - split; [rewrite lookup_insert_eq; eauto|]. rewrite lookup_insert_ne, lookup_delete_ne, lookup_insert_ne by done. eauto.
  - exists d0. split_and!; [done|by unfold f1; rewrite lookup_insert_eq| |done| |].
    + rewrite lookup_delete_ne, lookup_insert_ne by done. unfold f1. by rewrite lookup_insert_ne, lookup_insert_eq by done.
    + by rewrite lookup_insert_ne, lookup_delete_ne, lookup_insert_eq by done.
    + apply map_eq. intros k. destruct (decide (k = c)) as [->|].
      { rewrite lookup_delete_eq. unfold f1 in Hc. by rewrite !lookup_insert_ne in Hc by done. }
      rewrite lookup_delete_ne by done. destruct (decide (k = a)) as [->|]; [by rewrite lookup_delete_eq|].
      rewrite lookup_delete_ne by done. destruct (decide (k = 0)) as [->|].
      { rewrite lookup_insert_eq. unfold f1 in Hd0. by rewrite !lookup_insert_ne in Hd0 by done. }
      rewrite !lookup_insert_ne by done. destruct (decide (k = b)) as [->|]; [by rewrite lookup_delete_eq|].
      rewrite lookup_delete_ne, lookup_insert_ne by done. unfold f1. by rewrite !lookup_insert_ne by done.
Qed.

Lemma dup2_run f p w old new : dup2 old new (Process f p w) =
  Done tt (Process match f !! old with Some d => <[new := d]> f | None => f end p w).
Proof. unfold dup2, mbind, sh_bind, get_process. cbn. by destruct (f !! old). Qed.
Lemma dup_run f p w fd d : f !! fd = Some d -> dup fd (Process f p w) = Done (lowest f) (Process (<[lowest f := d]> f) p w).
Proof. intros Hd. unfold dup, mbind, sh_bind, get_process. cbn. by rewrite Hd. Qed.
Lemma close_run f p w fd : close fd (Process f p w) = Done tt (Process (delete fd f) p w).
Proof. done. Qed.

Lemma pipe_call_run f p w : pipe (Process f p w) =
  match make_pipe w with
  | Some (r, wr, w1) => let '(f1, fd0, fd1) := pipe_table f r wr in Done (Some (fd0, fd1)) (Process f1 p w1)
  | None => Done None (Process f p w)
  end.
Proof. unfold pipe, mbind, sh_bind, get_process. cbn. by destruct (make_pipe w) as [[[r wr] w1]|]. Qed.

Lemma pipe_run uninit c0 c1 f p w : std_open f ->
  match make_pipe w with
  | None => execute_pipe uninit c0 c1 (Process f p w) = Exits (exited 1) (eprint w f (text "Failed to make a pipe!" ++ newline))
  | Some (r, wr, w1) =>
      match fork_child w1 with
      | None => execute_pipe uninit c0 c1 (Process f p w) = Exits (exited 1) (no_fork (fst (fst (pipe_table f r wr))) w1)
      | Some (pid, w2) =>
          let left := left_table f r wr in
          let right := right_table f r wr in
          std_open left /\ std_open right /\
          (stuck (c0 (Process left p w2)) -> stuck (execute_pipe uninit c0 c1 (Process f p w))) /\
          forall e0, c0 (Process left p w2) = of_ending left e0 ->
            match noted right p (ending_world e0) (inr pid) with
            | None => stuck (execute_pipe uninit c0 c1 (Process f p w))
            | Some (p', w3) =>
                (stuck (c1 (Process right p' w3)) -> stuck (execute_pipe uninit c0 c1 (Process f p w))) /\
                forall e1, c1 (Process right p' w3) = of_ending right e1 -> execute_pipe uninit c0 c1 (Process f p w) = of_ending f e1
            end
      end
  end.
Proof.
  intros Hf. unfold execute_pipe. rewrite bind_run, pipe_call_run. destruct (make_pipe w) as [[[r wr] w1]|]; [|done].
  pose proof (pipe_tables f r wr Hf) as Ht. unfold pipe_table in *. cbn [fst].
  set (fd0 := lowest f) in *. set (fd1 := lowest (<[fd0 := r]> f)) in *. set (f1 := <[fd1 := wr]> (<[fd0 := r]> f)) in *.
  destruct Ht as (Hl & Hr & d0 & H0 & Hwr & Hrd & Eright & Hsave & Hback). rewrite bind_run, fork_wait_run.
  destruct (fork_child w1) as [[pid w2]|]; [|done]. cbv zeta. split; [done|]. split; [done|].
  rewrite (bind_done _ _ _ _ _ (dup2_run f1 p w2 fd1 1)), Hwr, (bind_done _ _ _ _ _ (close_run _ _ _ _)).
  change (delete fd0 (<[1 := wr]> f1)) with (left_table f r wr). split.
  { intros Hs. rewrite bind_run. by destruct Hs as [-> | ->]; [left|right]. }
  intros e0 He0.
  assert (Hchild : exists raw, (c0;; close fd1;; close 1;; exit (WEXITSTATUS uninit)) (Process (left_table f r wr) p w2) = @Exits W desc unit raw (ending_world e0)).
  { destruct e0 as [st p' w3|raw w3]; cbn [of_ending] in He0.
    - rewrite (bind_done _ _ _ _ _ He0). eexists. reflexivity.
    - rewrite (bind_exits _ _ _ _ _ He0). eexists. reflexivity. }
  destruct Hchild as [raw Hchild]. rewrite Hchild.
  rewrite (bind_done _ _ _ _ _ (dup_run _ _ _ _ _ H0)), (bind_done _ _ _ _ _ (close_run _ _ _ _)),
    (bind_done _ _ _ _ _ (dup2_run _ _ _ fd0 0)), Hrd, <- Eright, bind_run, profile_run.
  destruct (noted _ _ _ _) as [[p' w3]|]; [|by right]. split; [apply bind_stuck|].
  intros [st p'' w4|raw' w4] He1; cbn [of_ending] in *; [|by rewrite (bind_exits _ _ _ _ _ He1)].
  rewrite (bind_done _ _ _ _ _ He1), (bind_done _ _ _ _ _ (dup2_run _ _ _ _ 0)), Hsave,
    (bind_done _ _ _ _ _ (close_run _ _ _ _)), (bind_done _ _ _ _ _ (close_run _ _ _ _)).
  by rewrite Hback.
Qed.

(** ** The refinement *)

Section Both.
Variable uninit : Z.

(** What a run of [c] on [f] amounts to, when it returns. *)
Definition sound (run : sh W desc Z) f p w (E : ending -> Prop) : Prop :=
  stuck (run (Process f p w)) \/ exists e, run (Process f p w) = of_ending f e /\ E e.

Lemma loop_sound f go c0 c1 (e0 e1 : sh W desc Z) n : forall last p w,
  (forall p w, sound e0 f p w (eval f c0 p w)) -> (forall p w, sound e1 f p w (eval f c1 p w)) ->
  sound (execute_loop n go e0 e1 last) f p w (eval_loop f go c0 c1 last p w).
Proof.
  induction n as [|n IH]; intros last p w H0 H1; [by left; left|]. cbn [execute_loop].
  destruct (H0 p w) as [Hs|([st p1 w1|raw w1] & Hrun & He)]; [left; by apply bind_stuck| |]; cbn [of_ending] in Hrun.
  - unfold sound. rewrite (bind_done _ _ _ _ _ Hrun). destruct (go st) eqn:Eg.
    + destruct (H1 p1 w1) as [Hs|([st' p2 w2|raw w2] & Hrun1 & He1)]; [left; by apply bind_stuck| |]; cbn [of_ending] in Hrun1.
      * rewrite (bind_done _ _ _ _ _ Hrun1). destruct (IH st' p2 w2 H0 H1) as [Hs|(e & Hr & He')]; [by left|].
        right. exists e. split; [done|]. by eapply L_again.
      * right. rewrite (bind_exits _ _ _ _ _ Hrun1). exists (Gone raw w2). split; [done|]. by eapply L_body_gone.
    + right. exists (Status last p1 w1). split; [done|]. by eapply L_stop.
  - right. rewrite (bind_exits _ _ _ _ _ Hrun). exists (Gone raw w1). split; [done|]. by apply L_gone.
Qed.

Lemma if_sound f c0 c1 c2 (e0 e1 : sh W desc Z) e2 p w :
  (forall p w, sound e0 f p w (eval f c0 p w)) -> (forall p w, sound e1 f p w (eval f c1 p w)) ->
  match c2, e2 with Some c2, Some e2 => forall p w, sound e2 f p w (eval f c2 p w) | None, None => True | _, _ => False end ->
  sound (execute_if e0 e1 e2) f p w (eval_if f c0 c1 c2 p w).
Proof.
  intros H0 H1 H2. unfold sound, execute_if. destruct (H0 p w) as [Hs|([st p1 w1|raw w1] & Hrun & He)]; [left; by apply bind_stuck| |]; cbn [of_ending] in Hrun.
  - rewrite (bind_done _ _ _ _ _ Hrun). destruct (Z.eqb_spec st 0) as [->|Hne].
    + destruct (H1 p1 w1) as [Hs|(e & Hrun1 & He1)]; [by left|]. right. exists e. split; [done|]. by eapply I_then.
    + destruct c2 as [c2|], e2 as [e2|]; try done.
      * destruct (H2 p1 w1) as [Hs|(e & Hrun1 & He1)]; [by left|]. right. exists e. split; [done|]. by eapply I_else.
      * right. exists (Status 0 p1 w1). split; [done|]. by eapply I_no_else.
  - right. rewrite (bind_exits _ _ _ _ _ Hrun). exists (Gone raw w1). split; [done|]. by apply I_gone.
Qed.

(** A construct with redirections, from what is inside. *)
Lemma redirecting_sound i o (body : sh W desc Z) f p w (E : ending -> Prop) : std_open f ->
  (forall f' w', redirect i o f w = inl (f', w') -> std_open f' -> sound body f' p w' E) ->
  (forall w', redirect i o f w = inr w' -> E (Gone (exited 1) w')) ->
  sound (redirecting i o body) f p w E.
Proof.
  intros Hf Hin Hout. pose proof (redirecting_run i o body f p w Hf) as Hr. destruct (redirect i o f w) as [[f' w']|w'].
  - destruct Hr as (Hf' & Hok & Hst). destruct (Hin f' w' eq_refl Hf') as [Hs|(e & Hrun & He)]; [left; auto|right; eauto].
  - right. eexists (Gone _ _). split; [exact Hr|]. by apply Hout.
Qed.

Lemma execute_sound n : forall c f p w, std_open f -> sound (execute_command n uninit c) f p w (eval f c p w).
Proof.
  induction n as [|n IH]; intros c f p w Hf; [by left; left|]. destruct c as [i o c0 c1 c2|c0 c1|c0 c1|i o word|i o c0|i o c0 c1|i o c0 c1]; cbn [execute_command].
  - apply redirecting_sound; [done| |by intros; eapply E_if_redirect].
    intros f' w' Er Hf'. destruct (if_sound f' c0 c1 c2 (execute_command n uninit c0) (execute_command n uninit c1) (execute_command n uninit <$> c2) p w') as [Hs|(e & Hrun & He)];
      [by intros; apply IH|by intros; apply IH|destruct c2; cbn; [by intros; apply IH|done]|by left|].
    right. exists e. split; [done|]. by eapply E_if.
  - pose proof (pipe_run uninit (execute_command n uninit c0) (execute_command n uninit c1) f p w Hf) as Hp. unfold sound.
    destruct (make_pipe w) as [[[r wr] w1]|] eqn:Em; [|right; eexists (Gone _ _); split; [exact Hp|by apply E_pipe_none]].
    destruct (fork_child w1) as [[pid w2]|] eqn:Ef; [|right; eexists (Gone _ _); split; [exact Hp|by eapply E_pipe_fork]].
    cbv zeta in Hp. destruct Hp as (Hl & Hr & Hst & Hok). destruct (IH c0 (left_table f r wr) p w2 Hl) as [Hs|(e0 & Hrun0 & He0)]; [left; auto|].
    specialize (Hok e0 Hrun0). destruct (noted _ _ _ _) as [[p' w3]|] eqn:En; [|by left]. destruct Hok as [Hst1 Hok1].
    destruct (IH c1 (right_table f r wr) p' w3 Hr) as [Hs|([st p'' w4|raw w4] & Hrun1 & He1)]; [left; auto| |];
      right; eexists; (split; [by apply Hok1|]); [by eapply E_pipe|by eapply E_pipe_gone].
  - destruct (IH c0 f p w Hf) as [Hs|([st p1 w1|raw w1] & Hrun & He)]; [left; by apply bind_stuck| |]; cbn [of_ending] in Hrun; unfold sound.
    + rewrite (bind_done _ _ _ _ _ Hrun). destruct (IH c1 f p1 w1 Hf) as [Hs|(e & Hrun1 & He1)]; [by left|].
      right. exists e. split; [done|]. by eapply E_sequence.
    + right. rewrite (bind_exits _ _ _ _ _ Hrun). exists (Gone raw w1). split; [done|]. by apply E_sequence_gone.
  - by apply simple_run.
  - pose proof (subshell_run i o (execute_command n uninit c0) f p w Hf) as Hsub. unfold sound.
    destruct (fork_child w) as [[pid w1]|] eqn:Ef; [|right; eexists (Gone _ _); split; [exact Hsub|by apply E_subshell_fork]].
    destruct (redirect i o f w1) as [[f' w2]|w2] eqn:Er.
    + destruct Hsub as (Hf' & Hok & Hst). destruct (IH c0 f' p w2 Hf') as [Hs|(e & Hrun & He)]; [left; auto|].
      rewrite (Hok e Hrun). destruct (noted _ _ _ _) as [[p' w3]|] eqn:En; [|by left; right].
      right. eexists (Status _ _ _). split; [done|]. by eapply E_subshell.
    + rewrite Hsub. destruct (noted _ _ _ _) as [[p' w3]|] eqn:En; [|by left; right].
      right. eexists (Status _ _ _). split; [done|]. by eapply E_subshell_redirect.
  - apply redirecting_sound; [done| |by intros; eapply E_until_redirect]. intros f' w' Er Hf'.
    destruct (loop_sound f' (fun r => negb (r =? 0)) c0 c1 (execute_command n uninit c0) (execute_command n uninit c1) n 0 p w') as [Hs|(e & Hrun & He)];
      [by intros; apply IH|by intros; apply IH|by left|]. right. exists e. split; [done|]. by eapply E_until.
  - apply redirecting_sound; [done| |by intros; eapply E_while_redirect]. intros f' w' Er Hf'.
    destruct (loop_sound f' (fun r => r =? 0) c0 c1 (execute_command n uninit c0) (execute_command n uninit c1) n 0 p w') as [Hs|(e & Hrun & He)];
      [by intros; apply IH|by intros; apply IH|by left|]. right. exists e. split; [done|]. by eapply E_while.
Qed.

(** *** What the semantics says is executed, with enough fuel *)

Definition runs_to f c p w e : Prop :=
  std_open f -> exists N, forall n, (N <= n)%nat -> execute_command n uninit c (Process f p w) = of_ending f e.
Definition if_runs_to f c0 c1 c2 p w e : Prop :=
  std_open f -> exists N, forall n, (N <= n)%nat ->
    execute_if (execute_command n uninit c0) (execute_command n uninit c1) (execute_command n uninit <$> c2) (Process f p w) = of_ending f e.
Definition loop_runs_to f go c0 c1 last p w e : Prop :=
  std_open f -> exists N, forall n m, (N <= n)%nat -> (N <= m)%nat ->
    execute_loop m go (execute_command n uninit c0) (execute_command n uninit c1) last (Process f p w) = of_ending f e.

Ltac with_fuel N := exists (S N); intros [|n] Hn; [lia|]; cbn [execute_command].

(** The constructs with redirections. *)
Lemma redirected_runs i o f p w f' w' e (body : nat -> sh W desc Z) N : std_open f -> redirect i o f w = inl (f', w') ->
  (std_open f' -> forall n, (N <= n)%nat -> body n (Process f' p w') = of_ending f' e) ->
  forall n, (N <= n)%nat -> redirecting i o (body n) (Process f p w) = of_ending f e.
Proof.
  intros Hf Er Hb n Hn. pose proof (redirecting_run i o (body n) f p w Hf) as Hr. rewrite Er in Hr. destruct Hr as (Hf' & Hok & _). auto.
Qed.

Lemma redirect_fails i o f p w w' body : std_open f -> redirect i o f w = inr w' ->
  redirecting i o body (Process f p w) = Exits (exited 1) w'.
Proof. intros Hf Er. pose proof (redirecting_run i o body f p w Hf) as Hr. by rewrite Er in Hr. Qed.

Lemma redirect_std i o f w f' w' : std_open f -> redirect i o f w = inl (f', w') -> std_open f'.
Proof. intros Hf Er. pose proof (redirect_run i o f 0 w Hf) as Hr. rewrite Er in Hr. by destruct Hr. Qed.

Lemma pipe_runs f c0 c1 p w r wr w1 pid w2 e0 p' w3 e1 :
  make_pipe w = Some (r, wr, w1) -> fork_child w1 = Some (pid, w2) -> runs_to (left_table f r wr) c0 p w2 e0 ->
  noted (right_table f r wr) p (ending_world e0) (inr pid) = Some (p', w3) -> runs_to (right_table f r wr) c1 p' w3 e1 ->
  runs_to f (PIPE_COMMAND c0 c1) p w e1.
Proof.
  intros Em Ef H0 En H1 Hf. pose proof (pipe_tables f r wr Hf) as Ht. destruct (pipe_table f r wr) as [[? ?] ?].
  destruct Ht as (Hl & Hr & _). destruct (H0 Hl) as [N0 HN0]. destruct (H1 Hr) as [N1 HN1]. with_fuel (max N0 N1).
  pose proof (pipe_run uninit (execute_command n uninit c0) (execute_command n uninit c1) f p w Hf) as Hp. rewrite Em, Ef in Hp.
  cbv zeta in Hp. destruct Hp as (_ & _ & _ & Hok). specialize (Hok e0 (HN0 n ltac:(lia))). rewrite En in Hok.
  apply Hok. apply HN1. lia.
Qed.

Lemma execute_complete :
  (forall f c p w e, eval f c p w e -> runs_to f c p w e) /\
  (forall f c0 c1 c2 p w e, eval_if f c0 c1 c2 p w e -> if_runs_to f c0 c1 c2 p w e) /\
  (forall f go c0 c1 last p w e, eval_loop f go c0 c1 last p w e -> loop_runs_to f go c0 c1 last p w e).
Proof.
  apply eval_mutual.
  - intros. intros Hf. with_fuel 0%nat. apply simple_eval; [done|]. by eapply E_exec.
  - intros. intros Hf. with_fuel 0%nat. apply simple_eval; [done|]. by eapply E_exec_missing.
  - intros. intros Hf. with_fuel 0%nat. apply simple_eval; [done|]. by eapply E_exec_redirect.
  - intros. intros Hf. with_fuel 0%nat. apply simple_eval; [done|]. by eapply E_simple.
  - intros. intros Hf. with_fuel 0%nat. apply simple_eval; [done|]. by eapply E_simple_fork.
  - intros f c0 c1 p w st p1 w1 e _ H0 _ H1 Hf. destruct (H0 Hf) as [N0 HN0]. destruct (H1 Hf) as [N1 HN1]. with_fuel (max N0 N1).
    rewrite (bind_done _ _ _ _ _ (HN0 n ltac:(lia))). apply HN1. lia.
  - intros f c0 c1 p w raw w1 _ H0 Hf. destruct (H0 Hf) as [N0 HN0]. with_fuel N0. by rewrite (bind_exits _ _ _ _ _ (HN0 n ltac:(lia))).
  - intros f i o c p w pid w1 f' w2 e p' w3 Ef Er _ H0 En Hf. destruct (H0 (redirect_std _ _ _ _ _ _ Hf Er)) as [N0 HN0]. with_fuel N0.
    pose proof (subshell_run i o (execute_command n uninit c) f p w Hf) as Hsub. rewrite Ef, Er in Hsub. destruct Hsub as (_ & Hok & _).
    by rewrite (Hok e (HN0 n ltac:(lia))), En.
  - intros f i o c p w pid w1 w2 p' w3 Ef Er En Hf. with_fuel 0%nat.
    pose proof (subshell_run i o (execute_command n uninit c) f p w Hf) as Hsub. by rewrite Ef, Er, En in Hsub.
  - intros f i o c p w Ef Hf. with_fuel 0%nat.
    pose proof (subshell_run i o (execute_command n uninit c) f p w Hf) as Hsub. by rewrite Ef in Hsub.
  - intros f c0 c1 p w r wr w1 pid w2 e0 p' w3 st p'' w4 Em Ef _ H0 En _ H1. by eapply pipe_runs.
  - intros f c0 c1 p w r wr w1 pid w2 e0 p' w3 raw w4 Em Ef _ H0 En _ H1. by eapply pipe_runs.
  - intros f c0 c1 p w Em Hf. with_fuel 0%nat.
    pose proof (pipe_run uninit (execute_command n uninit c0) (execute_command n uninit c1) f p w Hf) as Hp. by rewrite Em in Hp.
  - intros f c0 c1 p w r wr w1 Em Ef Hf. with_fuel 0%nat.
    pose proof (pipe_run uninit (execute_command n uninit c0) (execute_command n uninit c1) f p w Hf) as Hp. by rewrite Em, Ef in Hp.
  - intros f i o c0 c1 c2 p w f' w1 e Er _ H0 Hf. destruct (H0 (redirect_std _ _ _ _ _ _ Hf Er)) as [N0 HN0]. with_fuel N0.
    apply (redirected_runs i o f p w f' w1 e (fun n => execute_if (execute_command n uninit c0) (execute_command n uninit c1) (execute_command n uninit <$> c2)) N0); [done|done|auto|lia].
  - intros f i o c0 c1 c2 p w w1 Er Hf. with_fuel 0%nat. by apply redirect_fails.
  - intros f i o c0 c1 p w f' w1 e Er _ H0 Hf. destruct (H0 (redirect_std _ _ _ _ _ _ Hf Er)) as [N0 HN0]. with_fuel N0.
    apply (redirected_runs i o f p w f' w1 e (fun n => execute_loop n (fun r => r =? 0) (execute_command n uninit c0) (execute_command n uninit c1) 0) N0); [done|done|auto|lia].
  - intros f i o c0 c1 p w w1 Er Hf. with_fuel 0%nat. by apply redirect_fails.
  - intros f i o c0 c1 p w f' w1 e Er _ H0 Hf. destruct (H0 (redirect_std _ _ _ _ _ _ Hf Er)) as [N0 HN0]. with_fuel N0.
    apply (redirected_runs i o f p w f' w1 e (fun n => execute_loop n (fun r => negb (r =? 0)) (execute_command n uninit c0) (execute_command n uninit c1) 0) N0); [done|done|auto|lia].
  - intros f i o c0 c1 p w w1 Er Hf. with_fuel 0%nat. by apply redirect_fails.
  - intros f c0 c1 c2 p w raw w1 _ H0 Hf. destruct (H0 Hf) as [N0 HN0]. exists N0. intros n Hn. unfold execute_if.
    by rewrite (bind_exits _ _ _ _ _ (HN0 n Hn)).
  - intros f c0 c1 c2 p w p1 w1 e _ H0 _ H1 Hf. destruct (H0 Hf) as [N0 HN0]. destruct (H1 Hf) as [N1 HN1]. exists (max N0 N1). intros n Hn.
    unfold execute_if. rewrite (bind_done _ _ _ _ _ (HN0 n ltac:(lia))). apply HN1. lia.
  - intros f c0 c1 c2 p w st p1 w1 e _ H0 Hne _ H1 Hf. destruct (H0 Hf) as [N0 HN0]. destruct (H1 Hf) as [N1 HN1]. exists (max N0 N1). intros n Hn.
    unfold execute_if. rewrite (bind_done _ _ _ _ _ (HN0 n ltac:(lia))), (proj2 (Z.eqb_neq st 0)) by done. apply HN1. lia.
  - intros f c0 c1 p w st p1 w1 _ H0 Hne Hf. destruct (H0 Hf) as [N0 HN0]. exists N0. intros n Hn.
    unfold execute_if. by rewrite (bind_done _ _ _ _ _ (HN0 n ltac:(lia))), (proj2 (Z.eqb_neq st 0)) by done.
  - intros f go c0 c1 last p w raw w1 _ H0 Hf. destruct (H0 Hf) as [N0 HN0]. exists (S N0). intros n [|m] Hn Hm; [lia|]. cbn [execute_loop].
    by rewrite (bind_exits _ _ _ _ _ (HN0 n ltac:(lia))).
  - intros f go c0 c1 last p w st p1 w1 _ H0 Hg Hf. destruct (H0 Hf) as [N0 HN0]. exists (S N0). intros n [|m] Hn Hm; [lia|]. cbn [execute_loop].
    by rewrite (bind_done _ _ _ _ _ (HN0 n ltac:(lia))), Hg.
  - intros f go c0 c1 last p w st p1 w1 raw w2 _ H0 Hg _ H1 Hf. destruct (H0 Hf) as [N0 HN0]. destruct (H1 Hf) as [N1 HN1].
    exists (S (max N0 N1)). intros n [|m] Hn Hm; [lia|]. cbn [execute_loop].
    rewrite (bind_done _ _ _ _ _ (HN0 n ltac:(lia))), Hg. by rewrite (bind_exits _ _ _ _ _ (HN1 n ltac:(lia))).
  - intros f go c0 c1 last p w st p1 w1 st' p2 w2 e _ H0 Hg _ H1 _ H2 Hf.
    destruct (H0 Hf) as [N0 HN0]. destruct (H1 Hf) as [N1 HN1]. destruct (H2 Hf) as [N2 HN2].
    exists (S (max N0 (max N1 N2))). intros n [|m] Hn Hm; [lia|]. cbn [execute_loop].
    rewrite (bind_done _ _ _ _ _ (HN0 n ltac:(lia))), Hg, (bind_done _ _ _ _ _ (HN1 n ltac:(lia))). apply HN2; lia.
Qed.

End Both.
End Refinement.

(** ** The property *)

Lemma of_ending_inj {W desc} (f : gmap Z desc) (e e' : ending) : @of_ending W desc f e = of_ending f e' -> e = e'.
Proof. destruct e, e'; cbn; intros [=]; by subst. Qed.

(** C12: the executor implements the semantics of commands.  In a process whose
    standard input and output are open, a command ends in a way that the
    semantics allows exactly when [execute_command] ends in this way for every
    large enough bound; and whenever it returns, whatever redirections and pipes
    the command has, the table of descriptors is the one it started with. *)
Theorem execute_refines {W desc : Type} `{!Kernel W desc} uninit f c p (w : W) : std_open f ->
  (forall e, eval f c p w e <-> exists N, forall n, (N <= n)%nat -> execute_command n uninit c (Process f p w) = of_ending f e) /\
  (forall n st s, execute_command n uninit c (Process f p w) = Done st s -> fds s = f /\ eval f c p w (Status st (prof s) (world s))).
Proof.
  intros Hf. destruct (execute_complete uninit) as [Hcomplete _]. split.
  - intros e. split; [intros He; by apply (Hcomplete f c p w e He)|]. intros [N HN].
    destruct (execute_sound uninit N c f p w Hf) as [[Hs|Hs]|(e' & Hrun & He)].
    + rewrite HN in Hs by done. by destruct e.
    + rewrite HN in Hs by done. by destruct e.
    + rewrite HN in Hrun by done. by apply of_ending_inj in Hrun as ->.
  - intros n st s Hrun. destruct (execute_sound uninit n c f p w Hf) as [[Hs|Hs]|([st' p' w'|raw w'] & Hr & He)]; try congruence.
    + rewrite Hrun in Hr. cbn in Hr. injection Hr as -> ->. by split.
    + rewrite Hrun in Hr. done.
Qed.

(** ** A kernel to try it on

    The world is the list of the statuses with which programs will end, and a
    descriptor is the name of a file. *)
#[export] Instance toy_kernel : Kernel (list Z) (list Z) := {
  open_read w name := Some (name, w);
  open_write w name := Some (name, w);
  make_pipe w := Some (text "read end", text "write end", w);
  fork_child w := Some (100, w);
  exec_prog w _ _ := match w with st :: w' => Some (w', st * 256) | [] => None end;
  eprint w _ _ := w;
  write_to w _ _ _ := Some w;
  times_text _ := text "0 0 0 0";
  pid_text _ := text " [100]"
}.

Definition toy_fds : gmap Z (list Z) := <[0 := text "tty"]> (<[1 := text "tty"]> (<[2 := text "tty"]> ∅)).

(** while a; do b | c; done <in >out, where a succeeds twice and c ends with 0 and 7. *)
Definition toy_command : command (list Z) :=
  WHILE_COMMAND (Some (text "in")) (Some (text "out")) (SIMPLE_COMMAND None None [text "a"])
    (PIPE_COMMAND (SIMPLE_COMMAND None None [text "b"]) (SIMPLE_COMMAND None None [text "c"])).

Lemma execute_refines_witness : std_open toy_fds /\ eval toy_fds toy_command (-1) [0; 3; 0; 0; 4; 7; 1] (Status 7 (-1) []).
Proof.
  assert (Hf : std_open toy_fds) by (split; eexists; vm_compute; reflexivity). split; [exact Hf|].
  destruct (execute_refines 0 toy_fds toy_command (-1) [0; 3; 0; 0; 4; 7; 1] Hf) as [_ Hret].
  destruct (execute_command 10 0 toy_command (Process toy_fds (-1) [0; 3; 0; 0; 4; 7; 1])) as [st s|raw w| |] eqn:E;
    [|vm_compute in E; discriminate..].
  destruct (Hret 10%nat st s E) as [_ He]. vm_compute in E. injection E as <- <-. exact He.
Defined.

(** The shell itself returns 1 for every status that is not 0. *)
Example main_collapses_status : exists s, main 10 0 99 false [SIMPLE_COMMAND None None [text "a"]] (Process toy_fds (-1) [42]) = Done 1 s.
Proof. eexists. vm_compute. reflexivity. Qed.

(** A command of more than 1023 characters overruns the buffer of its profile. *)
Example profile_overruns :
  execute_command 10 0 (SIMPLE_COMMAND None None [text "a"; replicate 1100 97]) (Process toy_fds 3 [0]) = Undefined.
Proof. vm_compute. reflexivity. Qed.
