(* ===== verification/ShellRead.v ===== *)
(** * The shell's reader (Lab1-Profiling-Shell/read-command.c)

    The state is the buffer [everything]: the characters that were read, as
    values of [char]; reading outside them, where the buffer is not initialised
    or ends, is an error of the model.  A command tree is a value, so that freeing
    is not part of the model.  [checked_malloc] of a negative size, which ends the
    shell because memory is exhausted, is an error, too.  A syntax error is the
    number of the line that [make_error] prints.  The words of a tree are buffers
    whose last byte nobody sets; the end of the file says which strings they are
    in memory. *)

From S2P Require Import Prelude ShellExec.

Abbreviation reader := (prog (list Z)).

(** [array[i]] *)
Definition array_at (i : Z) : reader Z := s ← get; if 0 <=? i then deref (s !! Z.to_nat i) mret else oops.
Definition array_set (i c : Z) : reader unit := s ← get; put (<[Z.to_nat i := c]> s).

(** ** Characters *)

Definition isspace (c : Z) : bool := (c =? 32) || ((9 <=? c) && (c <=? 13)).
Definition isalnum (c : Z) : bool :=
  ((48 <=? c) && (c <=? 57)) || ((65 <=? c) && (c <=? 90)) || ((97 <=? c) && (c <=? 122)).

(** "!%+-,./:@^_" and ";|()><" *)
Definition punctuation : list Z := [33; 37; 43; 45; 44; 46; 47; 58; 64; 94; 95].
Definition special : list Z := [59; 124; 40; 41; 62; 60].

Definition check_char (a flag : Z) : bool :=
  if bool_decide (a ∈ punctuation) then true
  else if bool_decide (a ∈ special) then negb (flag =? 2)
  else isalnum a || (negb (flag =? 0) && isspace a).

(** [while (p(array[i])) i += d;] *)
Definition skip (p : Z -> bool) (d i : Z) : reader Z :=
  loop (fun i => c ← array_at i; mret (if p c then inl (i + d) else inr i)) i.

Definition is_blank (c : Z) : bool := (c =? 32) || (c =? 9).
Definition space_or (x c : Z) : bool := isspace c || (c =? x).

(** ** Words *)

(** [read_word(array, &beg, &end)]: the character that ends the word (0 for one
    that may not be in a command), and the ends of the word.  [space] is 2 once
    the word began. *)
Definition read_word (beg end_ : Z) : reader (Z * Z * Z) :=
  if beg =? end_ then c ← array_at beg; mret (c, beg, end_)
  else
    loop (fun '(i, space, b, e) =>
      let out i b e := c ← array_at (if i =? end_ + 1 then i - 1 else i); mret (inr (c, b, e)) in
      if i =? end_ + 1 then out i b e
      else
        c ← array_at i;
        if negb (check_char c 0) then
          if isspace c then
            if space =? 1 then mret (inl (i + 1, space, if i + 1 =? end_ + 1 then b else i + 1, e))
            else out i b e
          else mret (inr (0, b, e))
        else if bool_decide (c ∈ special) then out i b (if b =? i then b else e)
        else mret (inl (i + 1, 2, b, i)))
      (beg, 1, beg, end_).

(** The reserved words, "if", "then", "else", "fi", "while", "do", "done" and
    "until", by number. *)
Definition reserved_words : list (list Z * Z) :=
  [([105; 102], 1); ([102; 105], 4); ([100; 111], 6); ([116; 104; 101; 110], 2); ([101; 108; 115; 101], 3);
   ([100; 111; 110; 101], 7); ([119; 104; 105; 108; 101], 5); ([117; 110; 116; 105; 108], 8)].

Fixpoint find_reserved (word : list Z) (l : list (list Z * Z)) : Z :=
  match l with
  | [] => 0
  | (w, k) :: l' => if bool_decide (word = w) then k else find_reserved word l'
  end.

(** The [n] characters at [beg]. *)
Fixpoint chars_at (n : nat) (beg : Z) : reader (list Z) :=
  match n with O => mret [] | S n' => c ← array_at beg; l ← chars_at n' (beg + 1); mret (c :: l) end.

Definition check_reserved_word (beg end_ : Z) : reader Z :=
  let n := end_ - beg + 1 in
  if (n =? 2) || (n =? 4) || (n =? 5) then
    word ← chars_at (Z.to_nat n) beg; mret (find_reserved word reserved_words)
  else mret 0.

(** The memory that [malloc] gives: a byte that was not set is [None], and may be
    any byte. *)
Abbreviation buffer := (list (option Z)).

(** The text between [beg] and [end_] without the space around it, in a buffer of
    one byte more, which is not set. *)
Definition remove_whitespace (beg end_ : Z) : reader buffer :=
  beg ← skip isspace 1 beg;
  end_ ← skip (space_or 59) (-1) end_;
  let size := end_ - beg + 2 in
  if size <? 0 then oops
  else
    text ← chars_at (Z.to_nat (end_ - beg + 1)) beg;
    mret (map Some text ++ replicate (Z.to_nat size - length text) None).

(** ** Counting compound commands

    [compound_count[k]] counts what the reserved word [k] opened, [0] all of it;
    [done_check] is a stack of the loops that are open. *)
Definition count (k : Z) (l : list Z) : Z := nth (Z.to_nat k) l 0.
Definition count_add (k d : Z) (l : list Z) : list Z := <[Z.to_nat k := count k l + d]> l.
Definition no_counts : list Z := replicate 9 0.
Definition positive (n : Z) : bool := negb (n =? 0).

(** [done_check] and [done_size]: the cells that are set, and the size. *)
Record dones := Dones { cells : gmap Z Z; done_size : Z }.
Definition no_dones : dones := Dones ∅ 0.

(** [done_check[n] = reserved], after a [realloc] if the size is too small. *)
Definition done_push (n reserved : Z) (d : dones) : option dones :=
  if n <? 0 then None
  else if done_size d <? n + 1 then
    Some (Dones (<[n := reserved]> (filter (fun kv => kv.1 < n + 1) (cells d))) (done_size d + 1))
  else Some (Dones (<[n := reserved]> (cells d)) (done_size d)).
Definition done_get (n : Z) (d : dones) : option Z := cells d !! n.

Definition loops (cc : list Z) : Z := count 5 cc + count 8 cc.

(** A loop begins: [done_check] and the counts. *)
Definition open_loop (reserved : Z) (cc : list Z) (d : dones) : option (list Z * dones) :=
  d' ← done_push (loops cc) reserved d; Some (count_add 0 1 (count_add reserved 1 cc), d').

(** "done" ends the last loop that began. *)
Definition close_loop (cc : list Z) (d : dones) : option (list Z) :=
  k ← done_get (loops cc - 1) d; Some (count_add 0 (-1) (count_add k (-1) (count_add 6 (-1) cc))).

(** ** The separators of a command

    [find_semi_pipes] with [flag] lists the ends of lines, semicolons and pipes of
    a command outside its compound commands; without it, it finds the keywords of
    the compound command that begins there. *)
Record finder := Finder {
  f_index : Z; f_cpd_sub : Z; f_found_char : bool; f_num_parens : Z; f_little_command : bool;
  f_count : list Z; f_done : dones; semis : list Z; pipes : list Z; max_size : Z; locations : list Z
}.

Definition f_at (index : Z) (f : finder) : finder :=
  Finder index (f_cpd_sub f) (f_found_char f) (f_num_parens f) (f_little_command f) (f_count f) (f_done f)
    (semis f) (pipes f) (max_size f) (locations f).
(** [found_char = 0; little_command = 0;] *)
Definition f_between (f : finder) : finder :=
  Finder (f_index f) (f_cpd_sub f) false (f_num_parens f) false (f_count f) (f_done f)
    (semis f) (pipes f) (max_size f) (locations f).
Definition grown_size (l : list Z) (size : Z) : Z := if Z.of_nat (length l) =? size then size * 2 else size.
Definition f_semi (f : finder) : finder :=
  Finder (f_index f) (f_cpd_sub f) (f_found_char f) (f_num_parens f) (f_little_command f) (f_count f) (f_done f)
    (semis f ++ [f_index f]) (pipes f) (grown_size (semis f) (max_size f)) (locations f).
Definition f_pipe (f : finder) : finder :=
  Finder (f_index f) (f_cpd_sub f) (f_found_char f) (f_num_parens f) (f_little_command f) (f_count f) (f_done f)
    (semis f) (pipes f ++ [f_index f]) (grown_size (pipes f) (max_size f)) (locations f).

(** The rest of a subshell is passed over. *)
Definition skip_parens (end_ index num_parens : Z) : reader (Z * Z) :=
  loop (fun '(i, n) =>
    if i <? end_ + 1 then
      c ← array_at i;
      let n := if c =? 41 then n - 1 else if c =? 40 then n + 1 else n in
      mret (if n =? 0 then inr (i, n) else inl (i + 1, n))
    else mret (inr (i, n)))
  (index, num_parens).

(** The effect of a keyword at [index] on the counts and the locations. *)
Definition find_keyword (flag : bool) (reserved index cpd : Z) (cc : list Z) (d : dones) (locs : list Z) :
  option (list Z * dones * list Z) :=
  let at_top := (count 1 cc =? 1) && (count 5 cc =? 0) && (count 8 cc =? 0) in
  let mark (b : bool) (k : nat) := if b && negb flag then <[k := index]> locs else locs in
  match reserved with
  | 1 => Some (count_add 0 1 (count_add 1 1 cc), d, locs)
  | 5 | 8 => '(cc, d) ← open_loop reserved cc d; Some (cc, d, locs)
  | 2 => Some (count_add 2 1 cc, d, mark ((cpd =? 1) && at_top) 1%nat)
  | 3 => Some (count_add 3 1 cc, d, mark ((cpd =? 1) && at_top) 2%nat)
  | 6 =>
      let one a b := (count a cc =? 1) && (count 1 cc =? 0) && (count b cc =? 0) in
      Some (count_add 6 1 cc, d, mark (((cpd =? 5) || (cpd =? 8)) && (one 5 8 || one 8 5)) 1%nat)
  | 4 =>
      let cc' := count_add 2 (-1) (count_add 1 (-1) cc) in
      let cc' := if positive (count 3 cc') then count_add 3 (-1) cc' else cc' in
      Some (count_add 0 (-1) cc', d, mark ((cpd =? 1) && at_top) 3%nat)
  | 7 =>
      if positive (count 6 cc) then
        cc' ← close_loop cc d; Some (cc', d, mark ((loops cc =? 1) && (count 1 cc =? 0)) 2%nat)
      else Some (cc, d, locs)
  | _ => Some (cc, d, locs)
  end.

(** A word. *)
Definition find_word (flag : bool) (end_ : Z) (f : finder) : reader finder :=
  '(_, index, word_end) ← read_word (f_index f) end_;
  reserved ← check_reserved_word index word_end;
  if positive reserved && negb (f_found_char f) then
    let top := f_cpd_sub f =? 0 in
    let cpd := if top then reserved else f_cpd_sub f in
    let locs := if top && negb flag then <[0%nat := index]> (locations f) else locations f in
    deref (find_keyword flag reserved index cpd (f_count f) (f_done f) locs) (fun '(cc, d, locs) =>
    let over := count 0 cc =? 0 in
    mret (Finder word_end (if over then 0 else cpd) (if over then true else false) (f_num_parens f) true
            cc (if over then no_dones else d) (semis f) (pipes f) (max_size f) locs))
  else
    mret (Finder word_end (f_cpd_sub f) true (f_num_parens f) true (f_count f) (f_done f)
            (semis f) (pipes f) (max_size f) (locations f)).

Definition find_round (flag : bool) (end_ prev_rel_char cur_char : Z) (f : finder) : reader finder :=
  let listed := flag && (f_cpd_sub f =? 0) in
  match cur_char with
  | 9 | 32 => mret f
  | 59 => mret (f_between (if listed then f_semi f else f))
  | 10 => mret (f_between (if listed && negb (prev_rel_char =? 10) && negb (prev_rel_char =? 59) then f_semi f else f))
  | 124 => mret (f_between (if listed then f_pipe f else f))
  | 40 =>
      '(i, n) ← skip_parens end_ (f_index f + 1) (f_num_parens f + 1);
      mret (Finder i (f_cpd_sub f) (f_found_char f) n (f_little_command f) (f_count f) (f_done f)
              (semis f) (pipes f) (max_size f) (locations f))
  | _ => if negb (f_little_command f) || positive (count 0 (f_count f)) then find_word flag end_ f else mret f
  end.

(** The lists [semicolon] and [pipeline], each ended by -1 (which is written
    beyond the array if it is full), or the four [locations]. *)
Definition find_semi_pipes (beg end_ : Z) (flag : bool) : reader (list Z * list Z * list Z) :=
  f ← loop (fun '(f, prev_rel_char) =>
    if f_index f <? end_ + 1 then
      cur_char ← array_at (f_index f);
      f ← find_round flag end_ prev_rel_char cur_char f;
      mret (inl (f_at (f_index f + 1) f, if is_blank cur_char then prev_rel_char else cur_char))
    else mret (inr f))
  (Finder beg 0 false 0 false no_counts no_dones [] [] 10 (replicate 4 (-1)), 10);
  if flag && ((max_size f <=? Z.of_nat (length (semis f))) || (max_size f <=? Z.of_nat (length (pipes f)))) then oops
  else mret (semis f ++ [-1], pipes f ++ [-1], locations f).

(** ** Commands *)

(** [l[i]] of an array that [find_semi_pipes] made *)
Definition at_ (l : list Z) (i : Z) : option Z := if 0 <=? i then l !! Z.to_nat i else None.

(** The words of a simple command before [greater] and [less], cut at its blanks. *)
Definition split_words (beg less greater : Z) : reader (list buffer) :=
  loop (fun '(index, beg, prev_char, words) =>
    if (index <? greater) && (index <? less) then
      c ← array_at index;
      let last := (index =? greater - 1) || (index =? less - 1) in
      if ((c =? 32) || (prev_char =? 9) || last) && (check_char prev_char 0 || last) then
        w ← remove_whitespace beg index; mret (inl (index + 1, index, c, words ++ [w]))
      else mret (inl (index + 1, beg, c, words))
    else mret (inr words))
  (beg, beg, 0, []).

(** [command->input] and [command->output]; the commands that have them are
    those that [format_command] passes. *)
Definition redirected (input output : option buffer) (c : command buffer) : command buffer :=
  match c with
  | IF_COMMAND _ _ c0 c1 c2 => IF_COMMAND input output c0 c1 c2
  | SIMPLE_COMMAND _ _ word => SIMPLE_COMMAND input output word
  | SUBSHELL_COMMAND _ _ c0 => SUBSHELL_COMMAND input output c0
  | UNTIL_COMMAND _ _ c0 c1 => UNTIL_COMMAND input output c0 c1
  | WHILE_COMMAND _ _ c0 c1 => WHILE_COMMAND input output c0 c1
  | PIPE_COMMAND _ _ | SEQUENCE_COMMAND _ _ => c
  end.

(** The last '<' and '>', and the beginning without the space before it. *)
Definition find_redirections (beg end_ : Z) : reader (Z * Z * Z) :=
  loop (fun '(index, beg, less, greater) =>
    if index <? end_ + 1 then
      c ← array_at index;
      mret (inl (index + 1, if (index =? beg) && isspace c then beg + 1 else beg,
                 if c =? 60 then index else less, if c =? 62 then index else greater))
    else mret (inr (beg, less, greater)))
  (beg, beg, end_ + 1, end_ + 1).

Definition format_function (beg end_ : Z) (reserved : option (command buffer)) : reader (command buffer) :=
  '(beg, less, greater) ← find_redirections beg end_;
  ret ← match reserved with
        | Some c => mret c
        | None => words ← split_words beg less greater; mret (SIMPLE_COMMAND None None words)
        end;
  input ← (if less <? end_ + 1 then t ← remove_whitespace (less + 1) (greater - 1); mret (Some t) else mret None);
  output ← (if greater <? end_ + 1 then t ← remove_whitespace (greater + 1) end_; mret (Some t) else mret None);
  mret (redirected input output ret).

Section Commands.
Variable complete_command : Z -> Z -> reader (command buffer).

(** A compound command that begins with [reserved], and its last character. *)
Definition format_reserved (reserve word_beg end_ : Z) : reader (command buffer * Z) :=
  '(_, _, l) ← find_semi_pipes word_beg end_ false;
  let loc k := nth k l (-1) in
  match reserve with
  | 1 =>
      if loc 2%nat =? -1 then
        c0 ← complete_command (loc 0%nat + 2) (loc 1%nat - 1);
        c1 ← complete_command (loc 1%nat + 4) (loc 3%nat - 1);
        mret (IF_COMMAND None None c0 c1 None, loc 3%nat + 2)
      else
        c0 ← complete_command (loc 0%nat + 2) (loc 1%nat - 1);
        c1 ← complete_command (loc 1%nat + 4) (loc 2%nat - 1);
        c2 ← complete_command (loc 2%nat + 4) (loc 3%nat - 1);
        mret (IF_COMMAND None None c0 c1 (Some c2), loc 3%nat + 2)
  | 5 | 8 =>
      c0 ← complete_command (loc 0%nat + 5) (loc 1%nat - 1);
      c1 ← complete_command (loc 1%nat + 2) (loc 2%nat - 1);
      mret ((if reserve =? 5 then WHILE_COMMAND else UNTIL_COMMAND) None None c0 c1, loc 2%nat + 4)
  | _ => oops (* the command's type is not set *)
  end.

Definition format_command (beg end_ : Z) : reader (command buffer) :=
  beg ← skip is_blank 1 beg;
  '(splitter, word_beg, word_end) ← read_word beg end_;
  reserve ← check_reserved_word word_beg word_end;
  if positive reserve then
    '(sub, word_end) ← format_reserved reserve word_beg end_;
    format_function word_end end_ (Some sub)
  else if splitter =? 40 then
    close ← skip (fun c => negb (c =? 41)) (-1) end_;
    sub ← complete_command (word_beg + 1) (close - 1);
    format_function (close + 1) end_ (Some (SUBSHELL_COMMAND None None sub))
  else format_function word_beg end_ None.

Definition pipe_command (beg end_ : Z) (pipe_locations : list Z) (pipe_start : Z) : reader (command buffer) :=
  c ← loop (fun '(i, container) =>
    deref (at_ pipe_locations i) (fun p =>
    if negb (p =? -1) && (p <? end_) then
      loc2 ← match container with
             | None => mret p
             | Some _ => deref (at_ pipe_locations (i + 1)) (fun p' => mret (if p' =? -1 then end_ else p'))
             end;
      loc1 ← skip (space_or 124) 1 match container with None => beg | Some _ => p end;
      loc2 ← skip (space_or 124) (-1) loc2;
      current ← format_command loc1 loc2;
      mret (inl match container with None => (i, Some current) | Some c0 => (i + 1, Some (PIPE_COMMAND c0 current)) end)
    else mret (inr container)))
  (pipe_start, None);
  match c with Some c => mret c | None => format_command beg end_ end.
End Commands.

(** [complete_command] calls itself on the parts of compound commands, at most
    [n] deep. *)
Fixpoint complete_command_n (n : nat) (beg end_ : Z) : reader (command buffer) :=
  match n with
  | O => fun _ _ => Hang
  | S n =>
      beg ← skip (space_or 59) 1 beg;
      end_ ← skip (space_or 59) (-1) end_;
      '(semi_locations, pipe_locations, _) ← find_semi_pipes beg end_ true;
      c ← loop (fun '(i, j, container) =>
        deref (at_ semi_locations i) (fun l =>
        if l =? -1 then mret (inr container)
        else
          loc2 ← match container with
                 | None => mret l
                 | Some _ => deref (at_ semi_locations (i + 1)) (fun l' => mret (if l' =? -1 then end_ else l'))
                 end;
          let loc1 := match container with None => beg | Some _ => l end in
          j ← loop (fun j => deref (at_ pipe_locations j) (fun p =>
                mret (if negb (p =? -1) && (p <? loc1) then inl (j + 1) else inr j))) j;
          loc1 ← skip (space_or 59) 1 loc1;
          loc2 ← skip (space_or 59) (-1) loc2;
          current ← pipe_command (complete_command_n n) loc1 loc2 pipe_locations j;
          mret (inl match container with
                    | None => (i, j, Some current)
                    | Some c0 => (i + 1, j, Some (SEQUENCE_COMMAND c0 current))
                    end)))
        (0, 0, None);
      match c with Some c => mret c | None => pipe_command (complete_command_n n) beg end_ pipe_locations 0 end
  end.
Definition complete_command (beg end_ : Z) : reader (command buffer) := fun fu => complete_command_n fu beg end_ fu.

(** ** Splitting the text into commands

    The variables of [split_everything]; [command_array] is the list of the
    commands before its NULL. *)
Record splitter := Splitter {
  index : Z; line_num : Z; in_command : bool; command_start : Z; command_end : Z;
  num_semi : Z; num_endl : Z; num_parens : Z; less : Z; greater : Z;
  first_command : bool; found_char : bool; found_word : bool; little_command : bool;
  last_reserved : Z; cpd_sub : Z; compound_count : list Z; done_check : dones;
  prev_rel_char : Z; command_array : list (command buffer)
}.

Definition is_one_of (c : Z) (l : list Z) : bool := bool_decide (c ∈ l).

(** [num_semi], [num_endl], [num_parens], [found_char] and [first_command], and the
    resets that a separator shares: [less = greater = 0;] *)
Definition s_marks (semi endl parens : Z) (fchar first : bool) (s : splitter) : splitter :=
  Splitter (index s) (line_num s) (in_command s) (command_start s) (command_end s) semi endl parens (less s) (greater s)
    first fchar (found_word s) (little_command s) (last_reserved s) (cpd_sub s) (compound_count s) (done_check s)
    (prev_rel_char s) (command_array s).
Definition s_unredirected (s : splitter) : splitter :=
  Splitter (index s) (line_num s) (in_command s) (command_start s) (command_end s) (num_semi s) (num_endl s) (num_parens s) 0 0
    (first_command s) (found_char s) (found_word s) (little_command s) (last_reserved s) (cpd_sub s) (compound_count s) (done_check s)
    (prev_rel_char s) (command_array s).
Definition s_at (i : Z) (s : splitter) : splitter :=
  Splitter i (line_num s) (in_command s) (command_start s) (command_end s) (num_semi s) (num_endl s) (num_parens s) (less s) (greater s)
    (first_command s) (found_char s) (found_word s) (little_command s) (last_reserved s) (cpd_sub s) (compound_count s) (done_check s)
    (prev_rel_char s) (command_array s).
Definition s_line (s : splitter) : splitter :=
  Splitter (index s) (line_num s + 1) (in_command s) (command_start s) (command_end s) (num_semi s) (num_endl s) (num_parens s) (less s) (greater s)
    (first_command s) (found_char s) (found_word s) (little_command s) (last_reserved s) (cpd_sub s) (compound_count s) (done_check s)
    (prev_rel_char s) (command_array s).
Definition s_prev (c : Z) (s : splitter) : splitter :=
  Splitter (index s) (line_num s) (in_command s) (command_start s) (command_end s) (num_semi s) (num_endl s) (num_parens s) (less s) (greater s)
    (first_command s) (found_char s) (found_word s) (little_command s) (last_reserved s) (cpd_sub s) (compound_count s) (done_check s)
    c (command_array s).
Definition s_redirect (l g : Z) (s : splitter) : splitter :=
  Splitter (index s) (line_num s) (in_command s) (command_start s) (command_end s) (num_semi s) (num_endl s) (num_parens s) l g
    false (found_char s) (found_word s) (little_command s) (last_reserved s) (cpd_sub s) (compound_count s) (done_check s)
    (prev_rel_char s) (command_array s).
(** [if(little_command == 1) { little_command = 0; command_end = index - 1; }] *)
Definition s_end (s : splitter) : splitter :=
  if little_command s then
    Splitter (index s) (line_num s) (in_command s) (command_start s) (index s - 1) (num_semi s) (num_endl s) (num_parens s) (less s) (greater s)
      (first_command s) (found_char s) (found_word s) false (last_reserved s) (cpd_sub s) (compound_count s) (done_check s)
      (prev_rel_char s) (command_array s)
  else s.
(** [if(!in_command) { in_command = 1; command_start = index; }] *)
Definition s_begin (s : splitter) : splitter :=
  if in_command s then s
  else
    Splitter (index s) (line_num s) true (index s) (command_end s) (num_semi s) (num_endl s) (num_parens s) (less s) (greater s)
      (first_command s) (found_char s) (found_word s) (little_command s) (last_reserved s) (cpd_sub s) (compound_count s) (done_check s)
      (prev_rel_char s) (command_array s).
Definition s_little (s : splitter) : splitter :=
  Splitter (index s) (line_num s) (in_command s) (command_start s) (command_end s) (num_semi s) (num_endl s) (num_parens s) (less s) (greater s)
    (first_command s) (found_char s) (found_word s) true (last_reserved s) (cpd_sub s) (compound_count s) (done_check s)
    (prev_rel_char s) (command_array s).
(** After a word: [found_word], [found_char], [first_command] and the counts. *)
Definition s_word (i : Z) (fword fchar first : bool) (last cpd : Z) (cc : list Z) (d : dones) (s : splitter) : splitter :=
  Splitter i (line_num s) (in_command s) (command_start s) (command_end s) (num_semi s) (num_endl s) (num_parens s) (less s) (greater s)
    first fchar fword (little_command s) last cpd cc d (prev_rel_char s) (command_array s).
(** A command was read. *)
Definition s_push (c : command buffer) (s : splitter) : splitter :=
  Splitter (index s) (line_num s) false (command_start s) (command_end s) (num_semi s) (num_endl s) (num_parens s) (less s) (greater s)
    (first_command s) (found_char s) (found_word s) (little_command s) (last_reserved s) (cpd_sub s) (compound_count s) (done_check s)
    (prev_rel_char s) (command_array s ++ [c]).

(** The cases of the [switch]; [None] is [invalid = 1]. *)
Definition on_semi (s : splitter) : option splitter :=
  if is_one_of (prev_rel_char s) [59; 124; 10; 60; 62; 40] ||
     (positive (cpd_sub s) && negb (found_word s) && negb (first_command s))
  then None
  else Some (s_end (s_unredirected (s_marks (num_semi s + 1) (num_endl s) (num_parens s) false false s))).

Definition on_newline (s : splitter) : reader (option splitter) :=
  if is_one_of (prev_rel_char s) [124; 60; 62] then mret None
  else if (positive (cpd_sub s) && (num_endl s =? 1)) || (prev_rel_char s =? 59) then
    _ ← array_set (index s) 32; mret (Some (s_line s))
  else
    mret (Some (s_unredirected (s_end (s_line (s_marks (num_semi s) (num_endl s + 1) (num_parens s) false false s))))).

Definition on_pipe (s : splitter) : option splitter :=
  if is_one_of (prev_rel_char s) [59; 10; 60; 62; 124] || (positive (cpd_sub s) && negb (found_word s)) then None
  else Some (s_unredirected (s_marks (num_semi s) (num_endl s) (num_parens s) false (first_command s) s)).

Definition on_open (s : splitter) : option splitter :=
  if is_one_of (prev_rel_char s) [60; 62] ||
     (check_char (prev_rel_char s) 2 && negb (is_one_of (prev_rel_char s) [10; 124; 59; 40]) && (cpd_sub s =? 0))
  then None
  else Some (s_marks 0 0 (num_parens s + 1) (found_char s) (first_command s) (s_little (s_begin s))).

Definition on_close (s : splitter) : option splitter :=
  if (num_parens s =? 0) || is_one_of (prev_rel_char s) [40; 124; 60; 62] then None
  else Some (s_marks 0 0 (num_parens s - 1) false (first_command s) s).

Definition on_less (s : splitter) : option splitter :=
  if is_one_of (prev_rel_char s) [59; 124; 10; 60; 62; 40] || positive (less s) || positive (greater s) then None
  else Some (s_redirect (less s + 1) (greater s) s).

Definition on_greater (s : splitter) : option splitter :=
  if is_one_of (prev_rel_char s) [59; 124; 10; 60; 62; 40] || positive (greater s) then None
  else Some (s_redirect (less s) (greater s + 1) s).

(** The counts after the keyword [reserved], and [first_command]. *)
Definition on_keyword (reserved cpd : Z) (cc : list Z) (d : dones) (first : bool) :
  reader (option (list Z * dones * bool)) :=
  match reserved with
  | 1 => mret (Some (count_add 0 1 (count_add 1 1 cc), d, first))
  | 5 | 8 => deref (open_loop reserved cc d) (fun '(cc, d) => mret (Some (cc, d, first)))
  | 2 => mret (if positive (count 1 cc) then Some (count_add 2 1 cc, d, first) else None)
  | 3 => mret (if positive (count 2 cc) then Some (count_add 3 1 cc, d, first) else None)
  | 6 => mret (if positive (count 5 cc) || positive (count 8 cc) then Some (count_add 6 1 cc, d, first) else None)
  | 4 =>
      if positive (count 1 cc) && positive (count 2 cc) then
        let cc := if cpd =? 1 then count_add 1 (-1) cc else cc in
        let cc := count_add 2 (-1) cc in
        let cc := if positive (count 3 cc) then count_add 3 (-1) cc else cc in
        mret (Some (count_add 0 (-1) cc, d, true))
      else mret None
  | 7 => if positive (count 6 cc) then deref (close_loop cc d) (fun cc => mret (Some (cc, d, true))) else mret None
  | _ => mret (Some (cc, d, first))
  end.

(** Where a keyword may be: after a separator; one that begins a compound command
    anywhere but after the end of another. *)
Definition misplaced (reserved : Z) (s : splitter) : bool :=
  if is_one_of reserved [1; 5; 8] then
    is_one_of (last_reserved s) [4; 7] && negb (is_one_of (prev_rel_char s) [59; 10; 124; 40])
  else negb (is_one_of (prev_rel_char s) [59; 10]).

Definition on_word (end_ : Z) (s : splitter) : reader (option splitter) :=
  '(prev_char, index, word_end) ← read_word (index s) end_;
  if prev_char =? 0 then mret None
  else
    reserved ← check_reserved_word index word_end;
    if positive reserved && negb (found_char s) then
      let cpd := if cpd_sub s =? 0 then reserved else cpd_sub s in
      if misplaced reserved s then mret None
      else
        r ← on_keyword reserved cpd (compound_count s) (done_check s) (first_command s);
        mret ('(cc, d, first) ← r;
              let over := count 0 cc =? 0 in
              Some (s_word word_end false (found_char s) first reserved (if over then 0 else cpd) cc
                      (if over then no_dones else d) s))
    else
      mret (Some (s_word word_end true true (first_command s) (last_reserved s) (cpd_sub s) (compound_count s) (done_check s) s)).

Definition on_other (end_ cur_char : Z) (s : splitter) : reader (option splitter) :=
  if negb (check_char cur_char 1) then mret None
  else
    let s := s_begin s in
    if first_command s && check_char cur_char 2 then mret None
    else
      r ← if negb (little_command s) || positive (count 0 (compound_count s)) then on_word end_ (s_little s)
          else mret (Some s);
      mret (s ← r; Some (s_marks 0 0 (num_parens s) (found_char s) (first_command s) s)).

Definition on_char (end_ cur_char : Z) (s : splitter) : reader (option splitter) :=
  match cur_char with
  | 9 | 32 => mret (Some s)
  | 59 => mret (on_semi s)
  | 10 => on_newline s
  | 124 => mret (on_pipe s)
  | 40 => mret (on_open s)
  | 41 => mret (on_close s)
  | 60 => mret (on_less s)
  | 62 => mret (on_greater s)
  | _ => on_other end_ cur_char s
  end.

(** The character that ends a comment is not read beyond [end]: either way the
    index is [end + 1] then. *)
Definition skip_comment (end_ i : Z) : reader Z :=
  loop (fun i => if i <? end_ + 1 then c ← array_at i; mret (if c =? 10 then inr i else inl (i + 1)) else mret (inr i)) i.

(** A round of the loop; [inr l] is a syntax error at the line [l]. *)
Definition split_round (end_ : Z) (s : splitter) : reader (splitter + Z) :=
  cur_char ← array_at (index s);
  if (cur_char =? 35) && (prev_rel_char s =? 10) then
    i ← skip_comment end_ (index s);
    let s := s_at (i + 1) s in
    mret (inl (if i + 1 =? end_ + 1 then s else s_line s))
  else
    r ← if cur_char =? 35 then mret None else on_char end_ cur_char s;
    match r with
    | None => mret (inr (line_num s))
    | Some s =>
        let finish (s : splitter) :=
          let s := if is_blank cur_char then s else s_prev cur_char s in
          if (index s =? end_) &&
             (is_one_of (prev_rel_char s) [124; 60; 62] || positive (num_parens s) || positive (count 0 (compound_count s)))
          then inr (line_num s)
          else inl (s_at (index s + 1) s) in
        if 1 <? num_semi s then mret (inr (line_num s))
        else if (num_endl s =? 2) && negb (is_blank cur_char) then
          if positive (num_parens s) then mret (inr (line_num s))
          else
            current ← complete_command (command_start s) (command_end s);
            mret (finish (s_push current s))
        else if 2 <? num_endl s then mret (inl (s_at (index s + 1) s))
        else mret (finish s)
    end.

(** The space before the first command: where it ends, and the line there. *)
Definition skip_leading (beg end_ : Z) : reader (Z * Z) :=
  loop (fun '(i, line) =>
    if i <? end_ + 1 then
      c ← array_at i;
      mret (if isspace c then inl (i + 1, if c =? 10 then line + 1 else line) else inr (i, line))
    else mret (inr (i, line))) (beg, 1).

Definition start_split (beg end_ index line : Z) : splitter :=
  Splitter index line false beg end_ 0 0 0 0 0 false false false false 0 0 no_counts no_dones 10 [].

Definition split_everything (beg end_ : Z) : reader (Z + list (command buffer)) :=
  '(i, line) ← skip_leading beg end_;
  r ← loop (fun s =>
        if index s <? end_ + 1 then
          r ← split_round end_ s;
          mret match r with inl s => inl s | inr l => inr (inl l) end
        else mret (inr (inr s)))
      (start_split beg end_ i line);
  match r with
  | inl l => mret (inl l)
  | inr s => current ← complete_command (command_start s) end_; mret (inr (command_array s ++ [current]))
  end.

(** ** The stream of commands *)

Record command_stream := Stream { command_list : list (command buffer); counter : nat }.

(** [char a]: the value of a byte as a [char]; reading ends when it is [EOF]. *)
Definition char_of (b : Z) : Z := (b + 128) mod 256 - 128.
Fixpoint read_chars (l : list Z) : list Z :=
  match l with
  | [] => []
  | b :: l' => let a := char_of b in if a =? -1 then [] else a :: read_chars l'
  end.

(** The commands of the bytes [input], or the line of a syntax error. *)
Definition make_command_stream (fu : nat) (input : list Z) : option (Z + command_stream) :=
  let everything := read_chars input in
  match split_everything 0 (Z.of_nat (length everything) - 1) fu everything with
  | Ret (inl l) _ => Some (inl l)
  | Ret (inr l) _ => Some (inr (Stream l 0))
  | Oops | Hang => None
  end.

(** The next command, or NULL. *)
Definition read_command_stream (s : command_stream) : option (option (command buffer) * command_stream) :=
  if Nat.leb (counter s) (length (command_list s)) then
    Some (command_list s !! counter s, Stream (command_list s) (S (counter s)))
  else None.

(** ** Words as strings

    What a tree's buffers have in memory: the bytes that were set, and any byte
    where none was. *)
Definition held (b : buffer) (m : list Z) : Prop := Forall2 (fun c x => c = None \/ c = Some x) b m.
Definition option_held (b : option buffer) (m : option (list Z)) : Prop :=
  match b, m with Some b, Some m => held b m | None, None => True | _, _ => False end.

Fixpoint tree_held (c : command buffer) (m : command (list Z)) : Prop :=
  match c, m with
  | IF_COMMAND i o c0 c1 c2, IF_COMMAND i' o' m0 m1 m2 =>
      option_held i i' /\ option_held o o' /\ tree_held c0 m0 /\ tree_held c1 m1 /\
      match c2, m2 with Some c2, Some m2 => tree_held c2 m2 | None, None => True | _, _ => False end
  | PIPE_COMMAND c0 c1, PIPE_COMMAND m0 m1 | SEQUENCE_COMMAND c0 c1, SEQUENCE_COMMAND m0 m1 => tree_held c0 m0 /\ tree_held c1 m1
  | SIMPLE_COMMAND i o l, SIMPLE_COMMAND i' o' l' => option_held i i' /\ option_held o o' /\ Forall2 held l l'
  | SUBSHELL_COMMAND i o c0, SUBSHELL_COMMAND i' o' m0 => option_held i i' /\ option_held o o' /\ tree_held c0 m0
  | UNTIL_COMMAND i o c0 c1, UNTIL_COMMAND i' o' m0 m1 | WHILE_COMMAND i o c0 c1, WHILE_COMMAND i' o' m0 m1 =>
      option_held i i' /\ option_held o o' /\ tree_held c0 m0 /\ tree_held c1 m1
  | _, _ => False
  end.

(** The string at the beginning of the memory [m]: there is none if no byte of it
    is 0, as reading goes on behind it then. *)
Fixpoint string_in_memory (m : list Z) : option (list Z) :=
  match m with
  | [] => None
  | c :: m' => if c =? 0 then Some [] else s ← string_in_memory m'; Some (c :: s)
  end.
Definition option_string (m : option (list Z)) : option (option (list Z)) :=
  match m with Some m => s ← string_in_memory m; Some (Some s) | None => Some None end.

(** The command that the executor runs. *)
Fixpoint strings (m : command (list Z)) : option (command (list Z)) :=
  match m with
  | IF_COMMAND i o m0 m1 m2 =>
      i ← option_string i; o ← option_string o; c0 ← strings m0; c1 ← strings m1;
      c2 ← match m2 with Some m2 => c2 ← strings m2; Some (Some c2) | None => Some None end;
      Some (IF_COMMAND i o c0 c1 c2)
  | PIPE_COMMAND m0 m1 => c0 ← strings m0; c1 ← strings m1; Some (PIPE_COMMAND c0 c1)
  | SEQUENCE_COMMAND m0 m1 => c0 ← strings m0; c1 ← strings m1; Some (SEQUENCE_COMMAND c0 c1)
  | SIMPLE_COMMAND i o l =>
      i ← option_string i; o ← option_string o; l ← mapM string_in_memory l; Some (SIMPLE_COMMAND i o l)
  | SUBSHELL_COMMAND i o m0 => i ← option_string i; o ← option_string o; c0 ← strings m0; Some (SUBSHELL_COMMAND i o c0)
  | UNTIL_COMMAND i o m0 m1 =>
      i ← option_string i; o ← option_string o; c0 ← strings m0; c1 ← strings m1; Some (UNTIL_COMMAND i o c0 c1)
  | WHILE_COMMAND i o m0 m1 =>
      i ← option_string i; o ← option_string o; c0 ← strings m0; c1 ← strings m1; Some (WHILE_COMMAND i o c0 c1)
  end.
