(* ===== verification/ShellText.v ===== *)
(** * Texts in the reader's buffer

    The reader's functions on a buffer that they do not change: what they give
    where the buffer holds a given text.  A loop is followed by chunks of rounds
    ([goes]). *)

From S2P Require Import Prelude ShellExec ShellRead.

Abbreviation len t := (Z.of_nat (length t)).

(** [c] gives [a] and changes nothing. *)
Definition gives {S A} (c : prog S A) (fu : nat) (s : S) (a : A) : Prop := c fu s = Ret a s.

Lemma gives_ret {S A} fu (s : S) (a : A) : gives (mret a) fu s a.
Proof. done. Qed.

Lemma gives_bind {S A B} (c : prog S A) (f : A -> prog S B) fu s a b :
  gives c fu s a -> gives (f a) fu s b -> gives (c ≫= f) fu s b.
Proof. unfold gives, mbind, prog_bind. by intros -> ->. Qed.

Lemma gives_deref {S A B} (p : option A) (f : A -> prog S B) fu s a b :
  p = Some a -> gives (f a) fu s b -> gives (deref p f) fu s b.
Proof. by intros ->. Qed.

(** ** Loops *)

Section Rounds.
Context {S X R : Type} (body : X -> prog S (X + R)) (fu : nat) (s : S).

(** [k] rounds go from [x] to [y]. *)
Definition goes (k : nat) (x y : X) : Prop := forall n, loop_n (k + n) body x fu s = loop_n n body y fu s.

Lemma goes_refl x : goes 0 x x.
Proof. done. Qed.

Lemma goes_step x y : gives (body x) fu s (inl y) -> goes 1 x y.
Proof. intros H n. cbn. by rewrite H. Qed.

Lemma goes_trans k1 k2 x y z : goes k1 x y -> goes k2 y z -> goes (k1 + k2) x z.
Proof. intros H1 H2 n. by rewrite <- Nat.add_assoc, H1, H2. Qed.

Lemma goes_cons k x y z : gives (body x) fu s (inl y) -> goes k y z -> goes (Datatypes.S k) x z.
Proof. intros H Hg. apply (goes_trans 1 k _ y); [by apply goes_step|done]. Qed.

Lemma goes_out k x y r : goes k x y -> gives (body y) fu s (inr r) -> (k < fu)%nat -> gives (loop body x) fu s r.
Proof.
  intros Hg Hb Hk. unfold gives, loop. replace fu with (k + Datatypes.S (fu - k - 1))%nat at 1 by lia.
  rewrite Hg. cbn. by rewrite Hb.
Qed.

(** At most [n] rounds *)
Definition walks (n : nat) (x y : X) : Prop := exists k, (k <= n)%nat /\ goes k x y.

Lemma walks_refl n x : walks n x x.
Proof. exists 0%nat. split; [lia|apply goes_refl]. Qed.

Lemma walks_step n x y : (0 < n)%nat -> gives (body x) fu s (inl y) -> walks n x y.
Proof. intros Hn H. exists 1%nat. split; [lia|by apply goes_step]. Qed.

Lemma walks_trans n n1 n2 x y z : walks n1 x y -> walks n2 y z -> (n1 + n2 <= n)%nat -> walks n x z.
Proof. intros (k1 & H1 & G1) (k2 & H2 & G2) Hn. exists (k1 + k2)%nat. split; [lia|by apply (goes_trans _ _ _ y)]. Qed.

Lemma walks_out n x y r : walks n x y -> gives (body y) fu s (inr r) -> (n < fu)%nat -> gives (loop body x) fu s r.
Proof. intros (k & Hk & Hg) Hb Hn. eapply goes_out; [exact Hg|exact Hb|lia]. Qed.
End Rounds.

(** ** The buffer *)

(** The buffer has the text [t] at [i]. *)
Definition holds (s : list Z) (i : Z) (t : list Z) : Prop := 0 <= i /\ exists r, drop (Z.to_nat i) s = t ++ r.

Lemma holds_nil s i : 0 <= i -> holds s i [].
Proof. intros Hi. split; [done|]. by eexists. Qed.

Lemma holds_app s i t1 t2 : holds s i (t1 ++ t2) <-> holds s i t1 /\ holds s (i + len t1) t2.
Proof.
  split.
  - intros [Hi [r Hr]]. split; (split; [lia|]).
    + exists (t2 ++ r). by rewrite app_assoc.
    + exists r. replace (Z.to_nat (i + len t1)) with (Z.to_nat i + length t1)%nat by lia.
      by rewrite <- drop_drop, Hr, <- app_assoc, drop_app_length.
  - intros [[Hi [r Hr]] [_ [r2 Hr2]]]. split; [done|]. exists r2.
    replace (Z.to_nat (i + len t1)) with (Z.to_nat i + length t1)%nat in Hr2 by lia.
    rewrite <- drop_drop, Hr, drop_app_length in Hr2. by rewrite Hr, Hr2, app_assoc.
Qed.

Lemma holds_cons s i c t : holds s i (c :: t) <-> holds s i [c] /\ holds s (i + 1) t.
Proof. exact (holds_app s i [c] t). Qed.

Lemma holds_at s i c t fu : holds s i (c :: t) -> gives (array_at i) fu s c.
Proof.
  intros [Hi [r Hr]]. unfold gives, array_at, mbind, prog_bind, get.
  rewrite (proj2 (Z.leb_le _ _) Hi).
  assert (s !! Z.to_nat i = Some c) as ->; [|done].
  by rewrite <- (Nat.add_0_r (Z.to_nat i)), <- lookup_drop, Hr.
Qed.

Lemma holds_prefix s i t1 t2 : holds s i (t1 ++ t2) -> holds s i t1.
Proof. intros H%holds_app. tauto. Qed.

Lemma holds_suffix s i t1 t2 : holds s i (t1 ++ t2) -> holds s (i + len t1) t2.
Proof. intros H%holds_app. tauto. Qed.

Lemma holds_all l : holds l 0 l.
Proof. split; [done|]. exists []. by rewrite app_nil_r. Qed.

Lemma holds_nonneg s i t : holds s i t -> 0 <= i.
Proof. by intros [? _]. Qed.

(** ** Skipping and copying *)

Lemma skip_over (p : Z -> bool) s i t c fu :
  holds s i (t ++ [c]) -> Forall (fun x => p x = true) t -> p c = false -> (length t < fu)%nat ->
  gives (skip p 1 i) fu s (i + len t).
Proof.
  intros Hh Ht Hc Hfu. unfold skip. apply (goes_out _ _ _ (length t) _ (i + len t)); [| |done].
  - clear Hfu. revert i Hh. induction Ht as [|x t Hx Ht IH]; intros i Hh; cbn [length].
    { change (Z.of_nat 0) with 0. rewrite Z.add_0_r. apply goes_refl. }
    eapply goes_cons; [eapply gives_bind; [by eapply holds_at|]; cbv beta; rewrite Hx; apply gives_ret|].
    replace (i + Z.of_nat (S (length t))) with (i + 1 + len t) by lia.
    apply IH. by apply holds_cons in Hh as [_ Hh].
  - apply holds_suffix in Hh. eapply gives_bind; [by eapply holds_at|]. cbv beta. rewrite Hc. apply gives_ret.
Qed.

Lemma skip_none (p : Z -> bool) s i c t d fu :
  holds s i (c :: t) -> p c = false -> (0 < fu)%nat -> gives (skip p d i) fu s i.
Proof.
  intros Hh Hc Hfu. unfold skip. eapply (goes_out _ _ _ 0); [apply goes_refl| |done].
  eapply gives_bind; [by eapply holds_at|]. cbv beta. rewrite Hc. apply gives_ret.
Qed.

Lemma skip_back (p : Z -> bool) s i c t fu :
  holds s i (c :: t) -> Forall (fun x => p x = true) t -> p c = false -> (length t < fu)%nat ->
  gives (skip p (-1) (i + len t)) fu s i.
Proof.
  intros Hh Ht Hc Hfu. unfold skip. apply (goes_out _ _ _ (length t) _ i); [| |done].
  - clear Hfu. revert Hh Ht. induction t as [|x t IH] using rev_ind; intros Hh Ht; cbn [length].
    { change (Z.of_nat 0) with 0. rewrite Z.add_0_r. apply goes_refl. }
    apply Forall_app in Ht as [Ht Hx]. apply Forall_inv in Hx.
    replace (length (t ++ [x])) with (1 + length t)%nat by (rewrite length_app; cbn [length]; lia).
    rewrite app_comm_cons in Hh.
    eapply goes_cons.
    + apply holds_suffix in Hh. eapply gives_bind; [eapply holds_at|].
      * replace (i + Z.of_nat (1 + length t)) with (i + Z.of_nat (length (c :: t))) by (cbn [length]; lia). exact Hh.
      * cbv beta. rewrite Hx. apply gives_ret.
    + replace (i + Z.of_nat (1 + length t) + -1) with (i + len t) by lia. apply IH; [|done]. by apply holds_prefix in Hh.
  - eapply gives_bind; [by eapply holds_at|]. cbv beta. rewrite Hc. apply gives_ret.
Qed.

Lemma chars_at_holds s i t fu : holds s i t -> gives (chars_at (length t) i) fu s t.
Proof.
  revert i. induction t as [|c t IH]; intros i Hh; [done|]. cbn [length chars_at].
  eapply gives_bind; [by eapply holds_at|]. apply holds_cons in Hh as [_ Hh].
  eapply gives_bind; [by apply IH|]. apply gives_ret.
Qed.
