(* ===== verification/ShellWords.v ===== *)
(** * How the shell's reader reads words and simple commands *)

From S2P Require Import Prelude ShellExec ShellRead ShellText.

(** ** Words *)

(** The characters of words. *)
Definition wordchar (c : Z) : bool := isalnum c || bool_decide (c ∈ punctuation).
Definition word_ok (w : list Z) : Prop := w <> [] /\ Forall (fun c => wordchar c = true) w.

Lemma wordchar_values c : wordchar c = true ->
  48 <= c <= 57 \/ 65 <= c <= 90 \/ 97 <= c <= 122 \/ c = 33 \/ c = 37 \/ 43 <= c <= 47 \/ c = 58 \/ c = 64 \/ c = 94 \/ c = 95.
Proof.
  unfold wordchar, isalnum. intros H. apply orb_true_iff in H as [H|H].
  - rewrite !orb_true_iff, !andb_true_iff, !Z.leb_le in H. lia.
  - apply bool_decide_eq_true in H. unfold punctuation in H. set_unfold in H. lia.
Qed.

Lemma wordchar_special c : wordchar c = true -> bool_decide (c ∈ special) = false.
Proof. intros H%wordchar_values. apply bool_decide_eq_false. unfold special. set_unfold. lia. Qed.

Lemma wordchar_space c : wordchar c = true -> isspace c = false.
Proof. intros H%wordchar_values. unfold isspace. zcases. Qed.

Lemma wordchar_check c flag : wordchar c = true -> check_char c flag = true.
Proof.
  intros H. unfold check_char. destruct (bool_decide_reflect (c ∈ punctuation)) as [Hp|Hp]; [done|].
  rewrite (wordchar_special c H).
  unfold wordchar in H. rewrite (bool_decide_eq_false_2 _ Hp), orb_false_r in H. by rewrite H.
Qed.

Lemma wordchar_is_not c x : wordchar c = true -> wordchar x = false -> (c =? x) = false.
Proof. intros Hc Hx. apply Z.eqb_neq. intros ->. congruence. Qed.

(** The characters that end a word. *)
Definition ends_word (c : Z) : bool := isspace c || bool_decide (c ∈ special).

Lemma isspace_check c flag : isspace c = true -> check_char c flag = negb (flag =? 0).
Proof.
  unfold isspace. intros H. rewrite orb_true_iff, andb_true_iff, !Z.leb_le, Z.eqb_eq in H.
  unfold check_char. rewrite !bool_decide_eq_false_2 by (unfold punctuation, special; set_unfold; lia).
  assert (isalnum c = false) as -> by (unfold isalnum; zcases).
  assert (isspace c = true) as -> by (unfold isspace; zcases). by rewrite andb_true_r.
Qed.

Lemma special_check c : bool_decide (c ∈ special) = true -> check_char c 0 = true.
Proof. intros H. unfold check_char. rewrite H. by destruct (bool_decide (c ∈ punctuation)). Qed.

(** The characters of a word, one after the other. *)
Definition word_round (end_ : Z) : Z * Z * Z * Z -> reader ((Z * Z * Z * Z) + (Z * Z * Z)) :=
  fun '(i, space, b, e) =>
    let out i b e := c ← array_at (if i =? end_ + 1 then i - 1 else i); mret (inr (c, b, e)) in
    if i =? end_ + 1 then out i b e
    else
      c ← array_at i;
      if negb (check_char c 0) then
        if isspace c then
          if space =? 1 then mret (inl (i + 1, space, if i + 1 =? end_ + 1 then b else i + 1, e))
          else out i b e
        else mret (inr (0, b, e))
      else if bool_decide (c ∈ special) then out i b (if b =? i then b else e)
      else mret (inl (i + 1, 2, b, i)).

Lemma word_rounds s b i w end_ sp e fu :
  holds s i w -> Forall (fun c => wordchar c = true) w -> w <> [] -> i + len w <= end_ + 1 ->
  goes (word_round end_) fu s (length w) (i, sp, b, e) (i + len w, 2, b, i + len w - 1).
Proof.
  intros Hh Hw Hne. revert i sp e Hh. induction Hw as [|c w Hc Hw IH]; intros i sp e Hh He; [done|].
  assert (Hstep : gives (word_round end_ (i, sp, b, e)) fu s (inl (i + 1, 2, b, i))).
  { unfold word_round. rewrite (proj2 (Z.eqb_neq i (end_ + 1))) by (cbn [length] in He; lia).
    eapply gives_bind; [by eapply holds_at|]. cbv beta. rewrite (wordchar_check c 0 Hc), (wordchar_special c Hc). apply gives_ret. }
  destruct w as [|d w].
  { replace (i + len [c]) with (i + 1) by (cbn; lia). replace (i + 1 - 1) with i by lia. by apply goes_step. }
  eapply goes_cons; [exact Hstep|]. apply holds_cons in Hh as [_ Hh].
  replace (i + len (c :: d :: w)) with (i + 1 + len (d :: w)) by (cbn [length]; lia).
  apply IH; [done|done|cbn [length] in *; lia].
Qed.

(** A word that begins at [beg] and ends before [end_] or there. *)
Lemma read_word_gives s i w t end_ fu :
  holds s i (w ++ t) -> word_ok w ->
  match t with [] => end_ = i + len w - 1 | c :: _ => ends_word c = true /\ i + len w <= end_ end ->
  (length w < fu)%nat ->
  exists c, gives (read_word i end_) fu s (c, i, i + len w - 1) /\ (wordchar c || ends_word c = true) /\
    (match t with [] => wordchar c = true | x :: _ => c = x end).
Proof.
  intros Hh [Hne Hw] Ht Hfu. unfold read_word.
  assert (Hend : i + len w <= end_ + 1) by (destruct t; [lia|destruct Ht; lia]).
  assert (Hlen : 0 < len w) by (destruct w; [done|cbn [length]; lia]).
  pose proof (word_rounds s i i w end_ 1 end_ fu (holds_prefix _ _ _ _ Hh) Hw Hne Hend) as Hg.
  destruct (Z.eqb_spec i end_) as [<-|Hie].
  - destruct t as [|c t]; [|lia]. destruct w as [|x [|]]; [done| |cbn [length] in *; lia].
    apply Forall_inv in Hw. exists x. rewrite Hw. split; [|done].
    eapply gives_bind; [by eapply holds_at|]. replace (i + len [x] - 1) with i by (cbn; lia). apply gives_ret.
  - destruct t as [|c t].
    + destruct (exists_last Hne) as [w' [x ->]]. apply Forall_app in Hw as [_ Hx]. apply Forall_inv in Hx.
      exists x. rewrite Hx. split; [|done]. eapply goes_out; [exact Hg| |done].
      unfold word_round. rewrite (proj2 (Z.eqb_eq _ _)) by lia.
      eapply gives_bind; [|apply gives_ret]. rewrite app_nil_r in Hh. apply holds_suffix in Hh.
      eapply holds_at. replace (i + len (w' ++ [x]) - 1) with (i + len w') by (rewrite length_app; cbn [length]; lia). exact Hh.
    + destruct Ht as [Hc Hlast]. exists c. rewrite Hc, orb_true_r. split; [|done]. eapply goes_out; [exact Hg| |done].
      unfold word_round. rewrite (proj2 (Z.eqb_neq _ _)) by lia. apply holds_suffix in Hh.
      eapply gives_bind; [by eapply holds_at|]. cbv beta. unfold ends_word in Hc. apply orb_true_iff in Hc as [Hc|Hc].
      * rewrite (isspace_check c 0 Hc), Hc. change (2 =? 1) with false. cbn [negb]. cbv iota.
        eapply gives_bind; [by eapply holds_at|apply gives_ret].
      * rewrite (special_check c Hc), Hc, (proj2 (Z.eqb_neq i (i + len w))) by lia. cbn [negb]. cbv iota.
        eapply gives_bind; [by eapply holds_at|apply gives_ret].
Qed.

(** ** Reserved words *)

Lemma find_reserved_none w l : (forall k, (w, k) ∉ l) -> find_reserved w l = 0.
Proof.
  induction l as [|[v k] l IH]; intros H; [done|]. cbn. rewrite bool_decide_eq_false_2.
  - apply IH. intros j Hj. apply (H j). by right.
  - intros ->. apply (H k). by left.
Qed.

(** [check_reserved_word] is the table of reserved words. *)
Lemma check_reserved_gives s i w fu :
  holds s i w -> gives (check_reserved_word i (i + len w - 1)) fu s (find_reserved w reserved_words).
Proof.
  intros Hh. unfold check_reserved_word. replace (i + len w - 1 - i + 1) with (len w) by lia.
  destruct ((len w =? 2) || (len w =? 4) || (len w =? 5)) eqn:E.
  - rewrite Nat2Z.id. eapply gives_bind; [by apply chars_at_holds|apply gives_ret].
  - assert (find_reserved w reserved_words = 0) as ->; [|apply gives_ret].
    apply find_reserved_none. intros k Hk. unfold reserved_words in Hk. set_unfold in Hk.
    repeat destruct Hk as [[= -> _]|Hk]; done.
Qed.

(** The buffer of a word: its last byte is not set. *)
Definition buffer_of (w : list Z) : buffer := map Some w ++ [None].

(** ** The text of a word without the space around it *)

Lemma trim_gives s b pre w post fu :
  holds s b (pre ++ w ++ post) -> word_ok w ->
  Forall (fun c => isspace c = true) pre -> Forall (fun c => space_or 59 c = true) post ->
  (length pre < fu)%nat -> (length post < fu)%nat ->
  gives (remove_whitespace b (b + len (pre ++ w ++ post) - 1)) fu s (buffer_of w).
Proof.
  intros Hh [Hne Hw] Hpre Hpost Hf1 Hf2. unfold remove_whitespace.
  destruct w as [|c w]; [done|]. pose proof (Forall_inv Hw) as Hc.
  assert (Hhw : holds s (b + len pre) (c :: w)) by (apply holds_suffix in Hh; by apply holds_prefix in Hh).
  eapply gives_bind.
  { apply skip_over with (c := c) (t := pre); [|done|by apply wordchar_space|done].
    apply holds_app. split; [by apply holds_prefix in Hh|]. by apply holds_cons in Hhw as [? _]. }
  destruct (@exists_last _ (c :: w) ltac:(done)) as [w' [x E]]. rewrite E in *.
  assert (Hx : wordchar x = true) by (apply Forall_app in Hw as [_ Hw]; by apply Forall_inv in Hw).
  eapply gives_bind.
  { replace (b + len (pre ++ (w' ++ [x]) ++ post) - 1) with (b + len (pre ++ w') + len post)
      by (rewrite !length_app; cbn [length]; lia).
    apply skip_back with (c := x); [|done| |done].
    - replace (pre ++ (w' ++ [x]) ++ post) with ((pre ++ w') ++ x :: post) in Hh by by rewrite <- !app_assoc.
      by apply holds_suffix in Hh.
    - unfold space_or. by rewrite (wordchar_space x Hx), (wordchar_is_not x 59 Hx). }
  rewrite length_app, (proj2 (Z.ltb_ge _ _)) by lia.
  replace (b + Z.of_nat (length pre + length w') - (b + len pre) + 1) with (len (w' ++ [x]))
    by (rewrite length_app; cbn [length]; lia).
  rewrite Nat2Z.id. eapply gives_bind; [by apply chars_at_holds|].
  replace (Z.to_nat _ - _)%nat with 1%nat by (rewrite length_app; cbn [length]; lia). apply gives_ret.
Qed.

(** ** Simple commands *)

Record simple := Simple { args : list (list Z); input_name : option (list Z); output_name : option (list Z) }.

Fixpoint text_words (l : list (list Z)) : list Z :=
  match l with [] => [] | [w] => w | w :: l' => w ++ 32 :: text_words l' end.
Definition text_redirect (c : Z) (o : option (list Z)) : list Z := match o with Some w => c :: w | None => [] end.
(** "word word<input>output" *)
Definition text_simple (c : simple) : list Z :=
  text_words (args c) ++ text_redirect 60 (input_name c) ++ text_redirect 62 (output_name c).
Definition tree_simple (c : simple) : command buffer := SIMPLE_COMMAND (buffer_of <$> input_name c) (buffer_of <$> output_name c) (map buffer_of (args c)).

Definition name_ok (o : option (list Z)) : Prop := forall w, o = Some w -> word_ok w.
Record simple_ok (c : simple) : Prop := {
  so_first : exists w l, args c = w :: l /\ find_reserved w reserved_words = 0;
  so_words : Forall word_ok (args c);
  so_input : name_ok (input_name c);
  so_output : name_ok (output_name c)
}.

Lemma text_words_first w l : exists r, text_words (w :: l) = w ++ r /\ (match r with [] => l = [] | c :: _ => c = 32 end).
Proof. destruct l as [|v l]; [exists []; by rewrite app_nil_r|]. by exists (32 :: text_words (v :: l)). Qed.

(** The characters of a simple command are those of words, blanks and
    redirections. *)
Lemma text_words_chars l : Forall word_ok l -> Forall (fun c => wordchar c || (c =? 32) = true) (text_words l).
Proof.
  induction 1 as [|w l [_ Hw] Hl IH]; [constructor|].
  assert (Hw' : Forall (fun c => wordchar c || (c =? 32) = true) w) by (eapply Forall_impl; [exact Hw|]; by intros c ->).
  destruct l as [|v l]; [done|]. apply Forall_app. split; [done|]. by constructor.
Qed.

(** The last '<' and '>' *)
Definition redirections_round (end_ : Z) : Z * Z * Z * Z -> reader ((Z * Z * Z * Z) + (Z * Z * Z)) :=
  fun '(index, beg, less, greater) =>
    if index <? end_ + 1 then
      c ← array_at index;
      mret (inl (index + 1, if (index =? beg) && isspace c then beg + 1 else beg,
                 if c =? 60 then index else less, if c =? 62 then index else greater))
    else mret (inr (beg, less, greater)).

Lemma redirections_pass s t i b l g end_ fu :
  holds s i t -> Forall (fun c => wordchar c || (c =? 32) = true) t -> i + len t <= end_ + 1 -> b <= i ->
  (b = i -> match t with [] => True | c :: _ => isspace c = false end) ->
  goes (redirections_round end_) fu s (length t) (i, b, l, g) (i + len t, b, l, g).
Proof.
  intros Hh Ht. revert i Hh. induction Ht as [|c t Hc Ht IH]; intros i Hh He Hle Hb.
  { cbn. rewrite Z.add_0_r. apply goes_refl. }
  cbn [length] in *. eapply goes_cons.
  - unfold redirections_round. rewrite (proj2 (Z.ltb_lt _ _)) by lia. eapply gives_bind; [by eapply holds_at|]. cbv beta.
    assert ((i =? b) && isspace c = false) as ->.
    { destruct (Z.eqb_spec i b) as [->|]; [by apply Hb|done]. }
    assert ((c =? 60) = false /\ (c =? 62) = false) as [-> ->].
    { apply orb_true_iff in Hc as [Hc|Hc%Z.eqb_eq]; [by rewrite !(wordchar_is_not c _ Hc)|by subst c]. }
    apply gives_ret.
  - replace (i + Z.of_nat (S (length t))) with (i + 1 + len t) by lia.
    apply IH; [by apply holds_cons in Hh as [_ ?]|lia|lia|intros; lia].
Qed.

Lemma word_chars w : word_ok w -> Forall (fun c => wordchar c || (c =? 32) = true) w.
Proof. intros [_ Hw]. eapply Forall_impl; [exact Hw|]. by intros c ->. Qed.

Lemma redirections_name s x o i b l g end_ fu :
  holds s i (text_redirect x o) -> name_ok o -> i + len (text_redirect x o) <= end_ + 1 -> b < i -> isspace x = false ->
  goes (redirections_round end_) fu s (length (text_redirect x o)) (i, b, l, g)
    (i + len (text_redirect x o), b, if (x =? 60) && bool_decide (is_Some o) then i else l,
     if (x =? 62) && bool_decide (is_Some o) then i else g).
Proof.
  intros Hh Ho He Hb Hx. destruct o as [w|].
  - cbn [text_redirect length] in *. rewrite bool_decide_eq_true_2, !andb_true_r by done. eapply goes_cons.
    + unfold redirections_round. rewrite (proj2 (Z.ltb_lt _ _)) by lia. eapply gives_bind; [by eapply holds_at|]. cbv beta.
      rewrite (proj2 (Z.eqb_neq i b)) by lia. apply gives_ret.
    + apply holds_cons in Hh as [_ Hh]. replace (i + Z.of_nat (S (length w))) with (i + 1 + len w) by lia.
      apply redirections_pass; [done|by apply word_chars, Ho|lia|lia|intros; lia].
  - rewrite bool_decide_eq_false_2, !andb_false_r by (by intros [??]).
    cbn [text_redirect length] in *. change (Z.of_nat 0) with 0. rewrite Z.add_0_r. apply goes_refl.
Qed.

(** Where the words of a command end, and where its '<' and '>' are. *)
Definition words_end (b : Z) (c : simple) : Z := b + len (text_words (args c)).
Definition less_at (b : Z) (c : simple) : Z := if input_name c is Some _ then words_end b c else b + len (text_simple c).
Definition greater_at (b : Z) (c : simple) : Z :=
  if output_name c is Some _ then words_end b c + len (text_redirect 60 (input_name c)) else b + len (text_simple c).

Lemma find_redirections_gives s b c fu :
  holds s b (text_simple c) -> simple_ok c -> (length (text_simple c) < fu)%nat ->
  gives (find_redirections b (b + len (text_simple c) - 1)) fu s (b, less_at b c, greater_at b c).
Proof.
  intros Hh Hok Hfu. destruct (so_first c Hok) as (w & l & El & _). pose proof (so_words c Hok) as Hw.
  assert (Hhead : match text_words (args c) with [] => False | x :: _ => isspace x = false end).
  { rewrite El in *. destruct (text_words_first w l) as (r & -> & _). apply Forall_inv in Hw as [Hne Hw].
    destruct w as [|x w]; [done|]. apply Forall_inv in Hw. cbn. by apply wordchar_space. }
  unfold find_redirections. set (e := b + len (text_simple c) - 1). fold (redirections_round e).
  unfold text_simple in Hh. apply holds_app in Hh as [H1 Hh]. apply holds_app in Hh as [H2 H3].
  assert (Hlen : len (text_simple c) = len (text_words (args c)) + len (text_redirect 60 (input_name c)) +
                 len (text_redirect 62 (output_name c))) by (unfold text_simple; rewrite !length_app; lia).
  assert (0 < len (text_words (args c))) by (destruct (text_words (args c)); [done|cbn [length]; lia]).
  eapply goes_out; [eapply goes_trans; [|eapply goes_trans]| |].
  - apply (redirections_pass s (text_words (args c)) b b (e + 1) (e + 1) e); [done|by apply text_words_chars|lia|lia|].
    intros _. by destruct (text_words (args c)).
  - apply (redirections_name s 60 (input_name c)); [done|by apply so_input|lia|lia|done].
  - apply (redirections_name s 62 (output_name c)); [done|by apply so_output|lia|lia|done].
  - unfold redirections_round. rewrite (proj2 (Z.ltb_ge _ _)) by lia.
    change (62 =? 60) with false. change (60 =? 62) with false. change (60 =? 60) with true. change (62 =? 62) with true.
    cbn [andb]. unfold less_at, greater_at, words_end.
    replace (e + 1) with (b + len (text_simple c)) by lia.
    destruct (input_name c), (output_name c); apply gives_ret.
  - unfold text_simple in Hfu. rewrite !length_app in Hfu. lia.
Qed.

(** The words before [less] and [greater] *)
Definition split_round_at (less greater : Z) : Z * Z * Z * list buffer -> reader ((Z * Z * Z * list buffer) + list buffer) :=
  fun '(index, beg, prev_char, words) =>
    if (index <? greater) && (index <? less) then
      c ← array_at index;
      let last := (index =? greater - 1) || (index =? less - 1) in
      if ((c =? 32) || (prev_char =? 9) || last) && (check_char prev_char 0 || last) then
        w ← remove_whitespace beg index; mret (inl (index + 1, index, c, words ++ [w]))
      else mret (inl (index + 1, beg, c, words))
    else mret (inr words).

Section Split.
Variables (s : list Z) (fu : nat) (less greater : Z).
Let L := Z.min less greater.

(** The last character of [t], after [p]. *)
Definition last_char (p : Z) (t : list Z) : Z := foldl (fun _ c => c) p t.

Lemma last_char_word p w : word_ok w -> wordchar (last_char p w) = true.
Proof.
  intros [Hne Hw]. destruct (exists_last Hne) as [w' [x ->]]. unfold last_char. rewrite foldl_snoc.
  apply Forall_app in Hw as [_ Hx]. by apply Forall_inv in Hx.
Qed.

Lemma split_inside t i b p ws :
  holds s i t -> Forall (fun c => wordchar c = true) t -> i + len t <= L - 1 -> p <> 9 ->
  goes (split_round_at less greater) fu s (length t) (i, b, p, ws) (i + len t, b, last_char p t, ws).
Proof.
  subst L. intros Hh Ht. revert i p Hh. induction Ht as [|c t Hc Ht IH]; intros i p Hh Hi Hp.
  { cbn. rewrite Z.add_0_r. apply goes_refl. }
  cbn [length] in *. eapply goes_cons.
  - unfold split_round_at. rewrite !(proj2 (Z.ltb_lt _ _)) by lia. eapply gives_bind; [by eapply holds_at|]. cbv beta zeta.
    rewrite (wordchar_is_not c 32 Hc) by done. rewrite !(proj2 (Z.eqb_neq _ _)) by lia. apply gives_ret.
  - replace (i + Z.of_nat (S (length t))) with (i + 1 + len t) by lia. apply (IH (i + 1) c).
    + by apply holds_cons in Hh as [_ ?].
    + lia.
    + apply wordchar_values in Hc. lia.
Qed.

(** A word and the blank after it; [pre] is the blank before it. *)
Lemma split_cut pre w b p ws :
  holds s b (pre ++ w ++ [32]) -> word_ok w -> Forall (fun c => c = 32) pre -> (length pre <= 1)%nat -> (1 < fu)%nat ->
  b + len (pre ++ w) < L - 1 -> p <> 9 ->
  goes (split_round_at less greater) fu s (length w + 1) (b + len pre, b, p, ws) (b + len (pre ++ w) + 1, b + len (pre ++ w), 32, ws ++ [buffer_of w]).
Proof.
  intros Hh Hw Hpre Hlen Hfu HL Hp. eapply goes_trans.
  - apply split_inside; [|by destruct Hw| |done].
    + apply holds_suffix in Hh. by apply holds_prefix in Hh.
    + rewrite length_app in HL. lia.
  - subst L. replace (b + len pre + len w) with (b + len (pre ++ w)) by (rewrite length_app; lia).
    apply goes_step. unfold split_round_at. rewrite !(proj2 (Z.ltb_lt _ _)) by lia.
    eapply gives_bind; [eapply holds_at; rewrite app_assoc in Hh; by eapply holds_suffix|]. cbv beta zeta.
    change (32 =? 32) with true. rewrite (wordchar_check _ 0 (last_char_word p w Hw)). cbn [orb andb]. cbv iota.
    eapply gives_bind; [|apply gives_ret].
    replace (b + len (pre ++ w)) with (b + len (pre ++ w ++ [32]) - 1) by (rewrite !length_app; cbn [length]; lia).
    apply trim_gives; [done|done| |by repeat constructor|lia|done]. eapply Forall_impl; [exact Hpre|]. by intros c ->.
Qed.

(** The last word *)
Lemma split_last pre w b p ws :
  holds s b (pre ++ w) -> word_ok w -> Forall (fun c => c = 32) pre -> (length pre <= 1)%nat -> (1 < fu)%nat ->
  b + len (pre ++ w) = L -> p <> 9 ->
  goes (split_round_at less greater) fu s (length w) (b + len pre, b, p, ws) (L, L - 1, last_char p w, ws ++ [buffer_of w]).
Proof.
  intros Hh Hw Hpre Hlen Hfu HL Hp. pose proof Hw as [Hne Hc]. destruct (exists_last Hne) as [w' [x E]].
  rewrite E in Hc. apply Forall_app in Hc as [Hw' Hx]. apply Forall_inv in Hx.
  assert (HL' : b + len pre + len w' = L - 1) by (rewrite E, !length_app in HL; cbn [length] in HL; lia).
  replace (length w) with (length w' + 1)%nat by (rewrite E, length_app; done). eapply goes_trans.
  - apply split_inside; [|done|lia|done]. rewrite E, app_assoc in Hh. apply holds_prefix in Hh. by apply holds_suffix in Hh.
  - rewrite HL'. apply goes_step. unfold split_round_at. subst L. rewrite !(proj2 (Z.ltb_lt _ _)) by lia.
    eapply gives_bind.
    { eapply holds_at. rewrite E, app_assoc in Hh. apply holds_suffix in Hh. rewrite length_app in Hh.
      replace (b + Z.of_nat (length pre + length w')) with (Z.min less greater - 1) in Hh by lia. exact Hh. }
    cbv beta zeta.
    assert ((Z.min less greater - 1 =? greater - 1) || (Z.min less greater - 1 =? less - 1) = true) as ->.
    { apply orb_true_iff. rewrite !Z.eqb_eq. lia. }
    rewrite !orb_true_r. cbn [andb]. cbv iota. rewrite E. unfold last_char. rewrite foldl_snoc. rewrite <- E.
    eapply gives_bind; [|replace (Z.min less greater - 1 + 1) with (Z.min less greater) by lia; apply gives_ret].
    rewrite <- HL. replace (b + len (pre ++ w) - 1) with (b + len (pre ++ w ++ []) - 1) by by rewrite app_nil_r.
    apply trim_gives; [by rewrite app_nil_r|done| |constructor|lia|cbn; lia]. eapply Forall_impl; [exact Hpre|]. by intros c ->.
Qed.
Lemma split_all l pre b p ws :
  l <> [] -> holds s b (pre ++ text_words l) -> Forall word_ok l -> Forall (fun c => c = 32) pre -> (length pre <= 1)%nat ->
  (1 < fu)%nat -> b + len (pre ++ text_words l) = L -> p <> 9 ->
  exists x q, goes (split_round_at less greater) fu s (length (text_words l)) (b + len pre, b, p, ws) (L, x, q, ws ++ map buffer_of l).
Proof.
  intros Hne Hh Hl. revert pre b p ws Hh. induction Hl as [|w l Hw Hl IH]; intros pre b p ws Hh Hpre Hlen Hfu HL Hp; [done|].
  destruct l as [|v l].
  { eexists _, _. by apply split_last. }
  assert (Hv : 0 < len (text_words (v :: l))).
  { apply Forall_inv in Hl as [Hv _]. destruct (text_words_first v l) as (r & -> & _). rewrite length_app.
    destruct v; [done|cbn [length]; lia]. }
  change (text_words (w :: v :: l)) with (w ++ 32 :: text_words (v :: l)) in *.
  assert (E : pre ++ w ++ 32 :: text_words (v :: l) = (pre ++ w) ++ [32] ++ text_words (v :: l)) by by rewrite <- app_assoc.
  destruct (IH ltac:(done) [32] (b + len (pre ++ w)) 32 (ws ++ [buffer_of w])) as (x & q & Hg).
  - rewrite E in Hh. by apply holds_suffix in Hh.
  - by constructor.
  - done.
  - done.
  - rewrite <- HL, E, (length_app (pre ++ w)). lia.
  - done.
  - exists x, q. rewrite <- app_assoc in Hg. cbn [app] in Hg.
    replace (length (w ++ 32 :: text_words (v :: l))) with (length w + 1 + length (text_words (v :: l)))%nat
      by (rewrite length_app; cbn [length]; lia).
    eapply goes_trans; [|exact Hg]. apply split_cut; try done.
    + replace (pre ++ w ++ [32]) with ((pre ++ w) ++ [32]) by by rewrite <- app_assoc.
      rewrite E, app_assoc in Hh. by apply holds_prefix in Hh.
    + rewrite E, length_app in HL. cbn [length app] in HL. lia.
Qed.
End Split.

Lemma split_words_gives s b l less greater fu :
  l <> [] -> holds s b (text_words l) -> Forall word_ok l -> b + len (text_words l) = Z.min less greater ->
  (length (text_words l) < fu)%nat -> (1 < fu)%nat ->
  gives (split_words b less greater) fu s (map buffer_of l).
Proof.
  intros Hne Hh Hl HL Hf1 Hf2. destruct (split_all s fu less greater l [] b 0 []) as (x & q & Hg); try done.
  { by constructor. }
  unfold split_words. fold (split_round_at less greater).
  rewrite Z.add_0_r in Hg. eapply goes_out; [exact Hg| |done].
  unfold split_round_at. rewrite <- HL.
  destruct ((b + len (text_words l) <? greater) && (b + len (text_words l) <? less)) eqn:E; [|apply gives_ret].
  apply andb_true_iff in E as [?%Z.ltb_lt ?%Z.ltb_lt]. lia.
Qed.

(** The name after a '<' or '>' at [i] *)
Lemma name_gives s i x o end_ fu :
  holds s i (text_redirect x o) -> name_ok o -> (0 < fu)%nat -> end_ = i + len (text_redirect x o) - 1 ->
  forall v, o = Some v -> gives (remove_whitespace (i + 1) end_) fu s (buffer_of v).
Proof.
  intros Hh Ho Hfu -> v ->. cbn [text_redirect] in *. apply holds_cons in Hh as [_ Hh].
  replace (i + len (x :: v) - 1) with (i + 1 + len ([] ++ v ++ []) - 1) by (rewrite app_nil_r; cbn [length app]; lia).
  apply trim_gives; [cbn [app]; by rewrite app_nil_r|by apply Ho|constructor|constructor|done|done].
Qed.

(** [format_function] reads a simple command. *)
Lemma format_function_gives s b c fu :
  holds s b (text_simple c) -> simple_ok c -> (length (text_simple c) < fu)%nat -> (1 < fu)%nat ->
  gives (format_function b (b + len (text_simple c) - 1) None) fu s (tree_simple c).
Proof.
  intros Hh Hok Hfu Hfu1. unfold format_function.
  eapply gives_bind; [by apply find_redirections_gives|].
  assert (Hlen : len (text_simple c) = len (text_words (args c)) + len (text_redirect 60 (input_name c)) +
                 len (text_redirect 62 (output_name c))) by (unfold text_simple; rewrite !length_app; lia).
  pose proof Hh as Hh'. unfold text_simple in Hh'. apply holds_app in Hh' as [H1 Hh']. apply holds_app in Hh' as [H2 H3].
  destruct (so_first c Hok) as (w & l & El & _).
  eapply gives_bind.
  { eapply gives_bind; [|apply gives_ret]. apply (split_words_gives s b (args c)); [by rewrite El|done|by apply so_words| |lia|done].
    unfold less_at, greater_at, words_end. destruct (input_name c), (output_name c); cbn [text_redirect length] in *; lia. }
  unfold tree_simple. apply (gives_bind _ _ _ _ (buffer_of <$> input_name c)); [|apply (gives_bind _ _ _ _ (buffer_of <$> output_name c)); [|apply gives_ret]].
  - pose proof (name_gives s _ 60 (input_name c) (greater_at b c - 1) fu H2 (so_input c Hok) ltac:(lia)) as Hn.
    unfold less_at, greater_at, words_end in *. destruct (input_name c) as [v|].
    + rewrite (proj2 (Z.ltb_lt _ _)) by (cbn [text_redirect length] in *; lia). eapply gives_bind; [apply Hn; [|done]|apply gives_ret].
      destruct (output_name c); cbn [text_redirect length] in *; lia.
    + rewrite (proj2 (Z.ltb_ge _ _)) by lia. apply gives_ret.
  - pose proof (name_gives s _ 62 (output_name c) (b + len (text_simple c) - 1) fu H3 (so_output c Hok) ltac:(lia) ltac:(lia)) as Hn.
    unfold less_at, greater_at, words_end in *. destruct (output_name c) as [v|].
    + rewrite (proj2 (Z.ltb_lt _ _)) by (cbn [text_redirect length] in *; lia). eapply gives_bind; [by apply Hn|apply gives_ret].
    + rewrite (proj2 (Z.ltb_ge _ _)) by lia. apply gives_ret.
Qed.
