(* ===== verification/ShellLines.v ===== *)
(** * Pipelines and sequences of commands: their text and their separators *)

From S2P Require Import Prelude ShellExec ShellRead ShellText ShellWords.

(** ** Texts that begin and end with a character of a word *)

Definition solid (t : list Z) : Prop :=
  (exists x u, t = x :: u /\ wordchar x = true) /\ (exists u x, t = u ++ [x] /\ wordchar x = true).

Lemma solid_word w : word_ok w -> solid w.
Proof.
  intros [Hne Hw]. split.
  - destruct w as [|x u]; [done|]. exists x, u. split; [done|]. by apply Forall_inv in Hw.
  - destruct (exists_last Hne) as [u [x ->]]. exists u, x. split; [done|]. apply Forall_app in Hw as [_ Hx]. by apply Forall_inv in Hx.
Qed.

Lemma solid_around t m t' : solid t -> solid t' -> solid (t ++ m ++ t').
Proof.
  intros [(x & u & -> & Hx) _] [_ (v & y & -> & Hy)]. split.
  - by exists x, (u ++ m ++ v ++ [y]).
  - exists ((x :: u) ++ m ++ v), y. by rewrite !app_assoc.
Qed.

Lemma solid_pos t : solid t -> 0 < len t.
Proof. intros [(x & u & -> & _) _]. cbn [length]. lia. Qed.

Lemma solid_words l : l <> [] -> Forall word_ok l -> solid (text_words l).
Proof.
  intros Hne Hl. induction Hl as [|w l Hw Hl IH]; [done|]. destruct l as [|v l]; [by apply solid_word|].
  apply (solid_around w [32]); [by apply solid_word|by apply IH].
Qed.

Lemma solid_name t x o : solid t -> name_ok o -> solid (t ++ text_redirect x o).
Proof.
  intros Ht Ho. destruct o as [w|]; [|by rewrite app_nil_r]. apply (solid_around t [x]); [done|by apply solid_word, Ho].
Qed.

Lemma solid_simple c : simple_ok c -> solid (text_simple c).
Proof.
  intros Hok. destruct (so_first c Hok) as (w & l & E & _). unfold text_simple. rewrite app_assoc.
  apply solid_name; [|apply Hok]. apply solid_name; [|apply Hok]. apply solid_words; [by rewrite E|apply Hok].
Qed.

(** ** Separators with blanks around them *)

Record gap := Gap { before : nat; after : nat }.
Definition text_gap (x : Z) (g : gap) : list Z := replicate (before g) 32 ++ x :: replicate (after g) 32.

Lemma gap_forward (p : Z -> bool) s i x g t fu :
  holds s i (text_gap x g ++ t) -> solid t -> p x = true -> p 32 = true -> (forall c, wordchar c = true -> p c = false) ->
  (length (text_gap x g) < fu)%nat ->
  gives (skip p 1 (i + Z.of_nat (before g))) fu s (i + len (text_gap x g)).
Proof.
  intros Hh [(y & u & -> & Hy) _] Hx Hb Hp Hfu. unfold text_gap in *. rewrite <- app_assoc in Hh. apply holds_suffix in Hh.
  rewrite length_replicate in Hh. rewrite length_app, length_replicate in *.
  replace (i + Z.of_nat (before g + length (x :: replicate (after g) 32)))
    with (i + Z.of_nat (before g) + len (x :: replicate (after g) 32)) by lia.
  apply skip_over with (c := y); [| |by apply Hp|lia].
  - replace ((x :: replicate (after g) 32) ++ y :: u) with (((x :: replicate (after g) 32) ++ [y]) ++ u) in Hh by by rewrite <- app_assoc.
    by apply holds_prefix in Hh.
  - constructor; [done|]. apply Forall_replicate. done.
Qed.

Lemma gap_back (p : Z -> bool) s i x g t fu :
  holds s i (t ++ text_gap x g) -> solid t -> p x = true -> p 32 = true -> (forall c, wordchar c = true -> p c = false) ->
  (length (text_gap x g) < fu)%nat ->
  gives (skip p (-1) (i + len t + Z.of_nat (before g))) fu s (i + len t - 1).
Proof.
  intros Hh [_ (u & y & -> & Hy)] Hx Hb Hp Hfu. unfold text_gap in *.
  replace ((u ++ [y]) ++ replicate (before g) 32 ++ x :: replicate (after g) 32)
    with ((u ++ y :: replicate (before g) 32 ++ [x]) ++ replicate (after g) 32) in Hh
    by (rewrite <- !app_assoc; cbn [app]; by rewrite <- app_assoc).
  apply holds_prefix in Hh. apply holds_suffix in Hh. rewrite length_app in *. cbn [length] in *. rewrite length_replicate in Hfu.
  replace (i + Z.of_nat (length u + 1) + Z.of_nat (before g)) with (i + len u + len (replicate (before g) 32 ++ [x]))
    by (rewrite length_app, length_replicate; cbn [length]; lia).
  replace (i + Z.of_nat (length u + 1) - 1) with (i + len u) by lia.
  apply skip_back with (c := y); [done| |by apply Hp|].
  - apply Forall_app. split; [by apply Forall_replicate|by repeat constructor].
  - rewrite length_app, length_replicate. cbn [length]. lia.
Qed.

(** ** Items joined by separators *)

Section Links.
Context {A : Type} (text : A -> list Z).

Definition text_links (l : list (Z * gap * A)) : list Z := concat (map (fun '(x, g, a) => text_gap x g ++ text a) l).

(** Where the separators are in a text that begins at [i]. *)
Fixpoint positions (i : Z) (l : list (Z * gap * A)) : list Z :=
  match l with
  | [] => []
  | (x, g, a) :: l' => i + Z.of_nat (before g) :: positions (i + len (text_gap x g ++ text a)) l'
  end.

Lemma length_positions i l : length (positions i l) = length l.
Proof. revert i. induction l as [|[[x g] a] l IH]; intros i; [done|]. cbn. by rewrite IH. Qed.

Lemma text_links_cons x g a l : text_links ((x, g, a) :: l) = text_gap x g ++ text a ++ text_links l.
Proof. unfold text_links. cbn. by rewrite app_assoc. Qed.

Lemma links_pos l : l <> [] -> 0 < len (text_links l).
Proof.
  destruct l as [|[[x g] a] l]; [done|]. intros _. rewrite text_links_cons. unfold text_gap.
  rewrite !length_app. cbn [length]. lia.
Qed.

Lemma solid_links t l : solid t -> (forall x g a, (x, g, a) ∈ l -> solid (text a)) -> solid (t ++ text_links l).
Proof.
  intros Ht. revert t Ht. induction l as [|[[x g] a] l IH]; intros t Ht Hl.
  - cbn. by rewrite app_nil_r.
  - rewrite text_links_cons. rewrite !app_assoc. apply IH; [|intros; eapply Hl; by right].
    rewrite <- app_assoc. apply solid_around; [done|]. eapply Hl. by left.
Qed.
End Links.

(** ** Pipelines and sequences *)

Definition pipeline : Type := simple * list (Z * gap * simple).
Definition text_pipeline (p : pipeline) : list Z := text_simple p.1 ++ text_links text_simple p.2.
Definition tree_pipeline (p : pipeline) : command buffer :=
  foldl (fun t '(_, _, c) => PIPE_COMMAND t (tree_simple c)) (tree_simple p.1) p.2.
Definition pipes_at (i : Z) (p : pipeline) : list Z := positions text_simple (i + len (text_simple p.1)) p.2.

Definition block : Type := pipeline * list (Z * gap * pipeline).
Definition text_block (b : block) : list Z := text_pipeline b.1 ++ text_links text_pipeline b.2.
Definition tree_block (b : block) : command buffer :=
  foldl (fun t '(_, _, p) => SEQUENCE_COMMAND t (tree_pipeline p)) (tree_pipeline b.1) b.2.
Definition semis_at (i : Z) (b : block) : list Z := positions text_pipeline (i + len (text_pipeline b.1)) b.2.

(** The pipes of a whole sequence, and of the items after a separator. *)
Fixpoint link_pipes (i : Z) (l : list (Z * gap * pipeline)) : list Z :=
  match l with
  | [] => []
  | (x, g, p) :: l' => pipes_at (i + len (text_gap x g)) p ++ link_pipes (i + len (text_gap x g ++ text_pipeline p)) l'
  end.
Definition block_pipes (i : Z) (b : block) : list Z := pipes_at i b.1 ++ link_pipes (i + len (text_pipeline b.1)) b.2.

Record pipeline_ok (p : pipeline) : Prop := {
  po_first : simple_ok p.1;
  po_links : forall x g c, (x, g, c) ∈ p.2 -> x = 124 /\ simple_ok c
}.

Lemma solid_pipeline p : pipeline_ok p -> solid (text_pipeline p).
Proof. intros [H1 H2]. apply solid_links; [by apply solid_simple|]. intros x g c Hc. apply solid_simple. by eapply H2. Qed.
