(* ===== verification/ShellFind.v ===== *)
(** * How the shell's reader finds the separators of a command *)

From S2P Require Import Prelude ShellExec ShellRead ShellText ShellWords ShellLines.

Definition find_at (flag : bool) (end_ : Z) : finder * Z -> reader (finder * Z + finder) :=
  fun '(f, prev_rel_char) =>
    if f_index f <? end_ + 1 then
      cur_char ← array_at (f_index f);
      f ← find_round flag end_ prev_rel_char cur_char f;
      mret (inl (f_at (f_index f + 1) f, if is_blank cur_char then prev_rel_char else cur_char))
    else mret (inr f).

(** The finder in simple commands: between them, and after the first word of one. *)
Definition finds (i : Z) (inside : bool) (S P : list Z) : finder :=
  Finder i 0 inside 0 inside no_counts no_dones S P 10 (replicate 4 (-1)).

Lemma find_round_other flag end_ prev c f :
  c ∉ [9; 32; 59; 10; 124; 40] ->
  find_round flag end_ prev c f =
    if negb (f_little_command f) || positive (count 0 (f_count f)) then find_word flag end_ f else mret f.
Proof.
  intros H. unfold find_round. destruct c as [|p|p]; [done| |done].
  do 7 (try (destruct p as [p|p|]; try done)); by destruct H; set_solver.
Qed.

(** Characters that are neither separators nor parentheses *)
Definition plain_char (c : Z) : bool := wordchar c || (c =? 32) || (c =? 60) || (c =? 62).

Lemma text_redirect_plain x o : plain_char x = true -> name_ok o -> Forall (fun c => plain_char c = true) (text_redirect x o).
Proof.
  intros Hx Ho. destruct o as [w|]; [|constructor]. constructor; [done|]. destruct (Ho w eq_refl) as [_ Hw].
  eapply Forall_impl; [exact Hw|]. intros c Hc. unfold plain_char. by rewrite Hc.
Qed.

Lemma text_simple_plain c : simple_ok c -> Forall (fun x => plain_char x = true) (text_simple c).
Proof.
  intros Hok. unfold text_simple. apply Forall_app. split.
  - eapply Forall_impl; [apply text_words_chars, Hok|]. intros x Hx. unfold plain_char. by rewrite Hx.
  - apply Forall_app. split; apply text_redirect_plain; try done; apply Hok.
Qed.

(** The character after a text: its end, or one that ends a word. *)
Definition stops (end_ i : Z) (t : list Z) : Prop :=
  match t with [] => end_ = i - 1 | c :: _ => ends_word c = true /\ i <= end_ end.

Lemma stops_gap end_ i x g t : ends_word x = true -> i <= end_ -> stops end_ i (text_gap x g ++ t).
Proof. intros Hx Hi. unfold text_gap. by destruct (before g). Qed.

Lemma stops_links {A} (text : A -> list Z) end_ i l t :
  (forall x g a, (x, g, a) ∈ l -> ends_word x = true) -> 0 <= len (text_links text l) ->
  (l <> [] -> i <= end_) -> (l = [] -> stops end_ i t) -> stops end_ i (text_links text l ++ t).
Proof.
  intros Hx _ Hi Ht. destruct l as [|[[x g] a] l]; [by apply Ht|]. rewrite text_links_cons, <- app_assoc.
  apply stops_gap; [eapply Hx; by left|by apply Hi].
Qed.

(** The first word of a simple command, and the rest of it. *)
Lemma simple_split c : simple_ok c ->
  exists w r, text_simple c = w ++ r /\ word_ok w /\ find_reserved w reserved_words = 0 /\
    match r with [] => True | x :: _ => ends_word x = true end.
Proof.
  intros Hok. destruct (so_first c Hok) as (w & l & E & Hr). destruct (text_words_first w l) as (r & Er & Hrl).
  pose proof (so_words c Hok) as Hw. unfold text_simple. rewrite E in *. apply Forall_inv in Hw.
  exists w, (r ++ text_redirect 60 (input_name c) ++ text_redirect 62 (output_name c)). rewrite Er, <- app_assoc.
  split_and!; [done|done|done|]. destruct r as [|x r]; [|by subst x].
  by destruct (input_name c), (output_name c).
Qed.

Lemma simple_stops c w r end_ i t : text_simple c = w ++ r -> match r with [] => True | x :: _ => ends_word x = true end ->
  stops end_ (i + len (text_simple c)) t -> i + len (text_simple c) <= end_ + 1 -> stops end_ (i + len w) (r ++ t).
Proof.
  intros -> Hr Ht He. rewrite length_app in *. destruct r as [|x r].
  - cbn [app length] in *. by rewrite Nat.add_0_r in Ht.
  - cbn [app length] in *. split; [done|lia].
Qed.

Section Find.
Variables (s : list Z) (fu : nat) (end_ : Z).

Lemma find_pass t i S P prev :
  holds s i t -> Forall (fun c => plain_char c = true) t -> i + len t <= end_ + 1 -> prev <> 10 /\ prev <> 59 ->
  exists prev', goes (find_at true end_) fu s (length t) (finds i true S P, prev) (finds (i + len t) true S P, prev') /\
    prev' <> 10 /\ prev' <> 59.
Proof.
  intros Hh Ht. revert i prev Hh. induction Ht as [|c t Hc Ht IH]; intros i prev Hh He Hp.
  { exists prev. cbn. rewrite Z.add_0_r. split; [apply goes_refl|done]. }
  cbn [length] in *.
  assert (Hcv : c <> 10 /\ c <> 59).
  { unfold plain_char in Hc. rewrite !orb_true_iff, !Z.eqb_eq in Hc. destruct Hc as [[[Hc|Hc]|Hc]|Hc]; [apply wordchar_values in Hc|..]; lia. }
  destruct (IH (i + 1) (if is_blank c then prev else c)) as (p' & Hg & Hp').
  { by apply holds_cons in Hh as [_ ?]. }
  { lia. }
  { by destruct (is_blank c). }
  exists p'. split; [|done]. replace (i + Z.of_nat (Datatypes.S (length t))) with (i + 1 + len t) by lia.
  eapply goes_cons; [|exact Hg]. unfold find_at. cbn [finds f_index]. rewrite (proj2 (Z.ltb_lt _ _)) by lia.
  eapply gives_bind; [by eapply holds_at|]. cbv beta. apply (gives_bind _ _ _ _ (finds i true S P)); [|apply gives_ret].
  destruct (Z.eqb_spec c 32) as [->|]; [apply gives_ret|]. rewrite find_round_other; [apply gives_ret|].
  unfold plain_char in Hc. rewrite !orb_true_iff, !Z.eqb_eq in Hc.
  destruct Hc as [[[Hc|Hc]|Hc]|Hc]; [apply wordchar_values in Hc|..]; set_unfold; lia.
Qed.

Lemma find_simple c i S P prev t :
  holds s i (text_simple c ++ t) -> simple_ok c -> i + len (text_simple c) <= end_ + 1 -> stops end_ (i + len (text_simple c)) t ->
  (length (text_simple c) < fu)%nat ->
  exists prev', walks (find_at true end_) fu s (length (text_simple c)) (finds i false S P, prev) (finds (i + len (text_simple c)) true S P, prev') /\
    prev' <> 10 /\ prev' <> 59.
Proof.
  intros Hh Hok He Hstop Hfu. destruct (simple_split c Hok) as (w & r & E & Hw & Hres & Hr).
  pose proof (simple_stops c w r end_ i t E Hr Hstop He) as Hst.
  pose proof (text_simple_plain c Hok) as Hplain. rewrite E in Hh, Hplain, Hfu. rewrite <- app_assoc in Hh.
  apply Forall_app in Hplain as [_ Hpr]. pose proof Hw as [Hne Hwc]. destruct w as [|x w]; [done|]. pose proof (Forall_inv Hwc) as Hx.
  pose proof (wordchar_values x Hx) as Hxv.
  destruct (find_pass r (i + len (x :: w)) S P x) as (p' & Hg & Hp').
  { apply holds_suffix in Hh. by apply holds_prefix in Hh. }
  { done. }
  { rewrite E, length_app in He. lia. }
  { lia. }
  exists p'. split; [|done]. exists (1 + length r)%nat. split; [rewrite E, length_app; cbn [length]; lia|].
  replace (i + len (text_simple c)) with (i + len (x :: w) + len r) by (rewrite E, length_app; lia).
  eapply goes_trans; [apply goes_step|exact Hg].
  unfold find_at. cbn [finds f_index]. rewrite (proj2 (Z.ltb_lt _ _)) by (rewrite E, length_app in He; cbn [length] in He; lia).
  eapply gives_bind; [by eapply holds_at|]. cbv beta. rewrite find_round_other by (set_unfold; lia). cbn [finds f_little_command negb orb]. cbv iota.
  destruct (read_word_gives s i (x :: w) (r ++ t) end_ fu Hh Hw Hst) as (y & Hrw & _); [rewrite length_app in Hfu; lia|].
  eapply gives_bind; [|].
  - unfold find_word. cbn [finds f_index]. eapply gives_bind; [exact Hrw|]. cbv beta iota.
    eapply gives_bind; [apply check_reserved_gives; by apply holds_prefix in Hh|]. rewrite Hres. apply gives_ret.
  - assert (is_blank x = false) as ->; [|].
    { unfold is_blank. by rewrite !(wordchar_is_not x _ Hx). }
    cbn [f_index f_at]. replace (i + len (x :: w) - 1 + 1) with (i + len (x :: w)) by lia. apply gives_ret.
Qed.
Lemma find_blanks n i b S P prev :
  holds s i (replicate n 32) -> i + Z.of_nat n <= end_ + 1 ->
  goes (find_at true end_) fu s n (finds i b S P, prev) (finds (i + Z.of_nat n) b S P, prev).
Proof.
  revert i. induction n as [|n IH]; intros i Hh He.
  { rewrite Z.add_0_r. apply goes_refl. }
  cbn [replicate] in Hh. eapply goes_cons.
  - unfold find_at. cbn [finds f_index]. rewrite (proj2 (Z.ltb_lt _ _)) by lia.
    eapply gives_bind; [by eapply holds_at|]. cbv beta. apply (gives_bind _ _ _ _ (finds i b S P)); apply gives_ret.
  - replace (i + Z.of_nat (Datatypes.S n)) with (i + 1 + Z.of_nat n) by lia. apply IH; [by apply holds_cons in Hh as [_ ?]|lia].
Qed.

Lemma find_gap x g i S P prev S' P' :
  holds s i (text_gap x g) -> i + len (text_gap x g) <= end_ + 1 -> prev <> 10 /\ prev <> 59 ->
  x = 124 /\ S' = S /\ P' = P ++ [i + Z.of_nat (before g)] /\ (length P < 10)%nat \/
  (x = 59 \/ x = 10) /\ S' = S ++ [i + Z.of_nat (before g)] /\ P' = P /\ (length S < 10)%nat ->
  goes (find_at true end_) fu s (length (text_gap x g)) (finds i true S P, prev) (finds (i + len (text_gap x g)) false S' P', x).
Proof.
  intros Hh He [Hp1 Hp2] Hx. unfold text_gap in *. apply holds_app in Hh as [H1 Hh]. apply holds_cons in Hh as [H2 H3].
  rewrite !length_app, !length_replicate in *. cbn [length] in *. rewrite length_replicate in *.
  eapply goes_trans; [apply find_blanks; [done|lia]|].
  set (j := i + Z.of_nat (before g)) in *.
  replace (i + Z.of_nat (before g + Datatypes.S (after g))) with (j + 1 + Z.of_nat (after g)) by lia.
  eapply goes_cons; [|apply find_blanks; [done|lia]].
  unfold find_at. cbn [finds f_index]. rewrite (proj2 (Z.ltb_lt _ _)) by lia.
  eapply gives_bind; [by eapply holds_at|]. cbv beta.
  assert (Hgrown : forall l : list Z, (length l < 10)%nat -> grown_size l 10 = 10).
  { intros l Hl. unfold grown_size. by rewrite (proj2 (Z.eqb_neq _ _)) by lia. }
  destruct Hx as [(-> & -> & -> & Hn)|([-> | ->] & -> & -> & Hn)].
  - apply (gives_bind _ _ _ _ (finds j false S (P ++ [j]))); [|apply gives_ret].
    change (gives (mret (f_between (f_pipe (finds j true S P)))) fu s (finds j false S (P ++ [j]))).
    unfold f_pipe. cbn [finds pipes max_size]. rewrite (Hgrown P Hn). apply gives_ret.
  - apply (gives_bind _ _ _ _ (finds j false (S ++ [j]) P)); [|apply gives_ret].
    change (gives (mret (f_between (f_semi (finds j true S P)))) fu s (finds j false (S ++ [j]) P)).
    unfold f_semi. cbn [finds semis max_size]. rewrite (Hgrown S Hn). apply gives_ret.
  - apply (gives_bind _ _ _ _ (finds j false (S ++ [j]) P)); [|apply gives_ret].
    cbn [find_round finds f_cpd_sub]. rewrite (proj2 (Z.eqb_neq prev 10) Hp1), (proj2 (Z.eqb_neq prev 59) Hp2).
    change (gives (mret (f_between (f_semi (finds j true S P)))) fu s (finds j false (S ++ [j]) P)).
    unfold f_semi. cbn [finds semis max_size]. rewrite (Hgrown S Hn). apply gives_ret.
Qed.

(** The rest of a pipeline *)
Lemma find_pipes l i S P prev t :
  holds s i (text_links text_simple l ++ t) -> (forall x g c, (x, g, c) ∈ l -> x = 124 /\ simple_ok c) ->
  i + len (text_links text_simple l) <= end_ + 1 -> stops end_ (i + len (text_links text_simple l)) t ->
  (length (text_links text_simple l) < fu)%nat -> prev <> 10 /\ prev <> 59 -> (length P + length l <= 10)%nat ->
  exists prev', walks (find_at true end_) fu s (length (text_links text_simple l)) (finds i true S P, prev)
    (finds (i + len (text_links text_simple l)) true S (P ++ positions text_simple i l), prev') /\ prev' <> 10 /\ prev' <> 59.
Proof.
  revert i P prev. induction l as [|[[x g] c] l IH]; intros i P prev Hh Hl He Hstop Hfu Hp Hn.
  { exists prev. cbn. rewrite app_nil_r, Z.add_0_r. split; [apply walks_refl|done]. }
  destruct (Hl x g c ltac:(by left)) as [-> Hok].
  assert (Hl' : forall x g c, (x, g, c) ∈ l -> x = 124 /\ simple_ok c) by (intros; eapply Hl; by right).
  rewrite text_links_cons in Hh, He, Hstop, Hfu |- *. rewrite !length_app in He, Hstop, Hfu |- *. cbn [length] in Hn.
  rewrite <- !app_assoc in Hh. pose proof Hh as Hh1. apply holds_app in Hh as [Hg Hh]. apply holds_app in Hh as [Hc Ht].
  destruct (find_simple c (i + len (text_gap 124 g)) S (P ++ [i + Z.of_nat (before g)]) 124 (text_links text_simple l ++ t))
    as (p1 & Hw1 & Hp1); [by apply holds_app|done|lia| |lia|].
  { apply stops_links; [|lia| |].
    - intros x g0 a Ha. by destruct (Hl' _ _ _ Ha) as [-> _].
    - intros Hne%(links_pos text_simple). lia.
    - intros ->. cbn [text_links length concat map] in Hstop. rewrite !Nat2Z.inj_add, Z.add_0_r in Hstop.
      by rewrite <- Z.add_assoc. }
  destruct (IH (i + len (text_gap 124 g) + len (text_simple c)) (P ++ [i + Z.of_nat (before g)]) p1) as (p2 & Hw2 & Hp2);
    [done|done|lia| |lia|done|rewrite length_app; cbn [length]; lia|].
  { by rewrite !Nat2Z.inj_add, !Z.add_assoc in Hstop. }
  exists p2. split; [|done].
  eapply walks_trans; [|eapply walks_trans; [exact Hw1| |reflexivity]|].
  - exists (length (text_gap 124 g)). split; [reflexivity|]. apply find_gap; [done|lia|done|]. left. split_and!; try done. lia.
  - cbn [positions]. rewrite length_app, !Nat2Z.inj_add, !Z.add_assoc. rewrite <- app_assoc in Hw2. exact Hw2.
  - lia.
Qed.

Lemma pipeline_stops l i t :
  (forall x g c, (x, g, c) ∈ l -> x = 124 /\ simple_ok c) -> i + len (text_links text_simple l) <= end_ + 1 ->
  stops end_ (i + len (text_links text_simple l)) t -> stops end_ i (text_links text_simple l ++ t).
Proof.
  intros Hl He Hstop. apply stops_links; [|lia| |].
  - intros x g a Ha. by destruct (Hl _ _ _ Ha) as [-> _].
  - intros Hne%(links_pos text_simple). lia.
  - intros ->. cbn in Hstop. by rewrite Z.add_0_r in Hstop.
Qed.

Lemma find_pipeline p i S P prev t :
  holds s i (text_pipeline p ++ t) -> pipeline_ok p -> i + len (text_pipeline p) <= end_ + 1 -> stops end_ (i + len (text_pipeline p)) t ->
  (length (text_pipeline p) < fu)%nat -> (length P + length p.2 <= 10)%nat ->
  exists prev', walks (find_at true end_) fu s (length (text_pipeline p)) (finds i false S P, prev)
    (finds (i + len (text_pipeline p)) true S (P ++ pipes_at i p), prev') /\ prev' <> 10 /\ prev' <> 59.
Proof.
  destruct p as [c l]. intros Hh [Hc Hl] He Hstop Hfu Hn. unfold text_pipeline, pipes_at in *. cbn [fst snd] in *.
  rewrite length_app in *. rewrite Nat2Z.inj_add in *. rewrite Z.add_assoc in *. rewrite <- app_assoc in Hh.
  destruct (find_simple c i S P prev (text_links text_simple l ++ t) Hh Hc) as (p1 & Hw1 & Hp1); [lia| |lia|].
  { apply pipeline_stops; [done|lia|done]. }
  destruct (find_pipes l (i + len (text_simple c)) S P p1 t) as (p2 & Hw2 & Hp2);
    [by apply holds_suffix in Hh|done|lia|done|lia|done|done|].
  exists p2. split; [|done]. eapply walks_trans; [exact Hw1|exact Hw2|done].
Qed.

(** The rest of a sequence *)
Lemma find_lines l i S P prev t :
  holds s i (text_links text_pipeline l ++ t) ->
  (forall x g p, (x, g, p) ∈ l -> (x = 59 \/ x = 10) /\ pipeline_ok p) ->
  i + len (text_links text_pipeline l) <= end_ + 1 -> stops end_ (i + len (text_links text_pipeline l)) t ->
  (length (text_links text_pipeline l) < fu)%nat -> prev <> 10 /\ prev <> 59 -> (length S + length l <= 10)%nat ->
  (length P + length (link_pipes i l) <= 10)%nat ->
  exists prev', walks (find_at true end_) fu s (length (text_links text_pipeline l)) (finds i true S P, prev)
    (finds (i + len (text_links text_pipeline l)) true (S ++ positions text_pipeline i l) (P ++ link_pipes i l), prev') /\
    prev' <> 10 /\ prev' <> 59.
Proof.
  revert i S P prev. induction l as [|[[x g] p] l IH]; intros i S P prev Hh Hl He Hstop Hfu Hp Hn Hm.
  { exists prev. cbn. rewrite !app_nil_r, Z.add_0_r. split; [apply walks_refl|done]. }
  destruct (Hl x g p ltac:(by left)) as [Hx Hok].
  assert (Hl' : forall x g p, (x, g, p) ∈ l -> (x = 59 \/ x = 10) /\ pipeline_ok p) by (intros; eapply Hl; by right).
  rewrite text_links_cons in Hh, He, Hstop, Hfu |- *. rewrite !length_app in He, Hstop, Hfu |- *. cbn [length link_pipes positions] in *.
  rewrite !Nat2Z.inj_add, !Z.add_assoc in He, Hstop |- *. rewrite <- !app_assoc in Hh. rewrite !length_app, Nat2Z.inj_add, Z.add_assoc in *.
  apply holds_app in Hh as [Hg Hh]. pose proof (holds_suffix _ _ _ _ Hh) as Ht.
  assert (Hpipes : forall j, length (pipes_at j p) = length p.2) by (intros; apply length_positions). rewrite Hpipes in Hm.
  destruct (find_pipeline p (i + len (text_gap x g)) (S ++ [i + Z.of_nat (before g)]) P x (text_links text_pipeline l ++ t) Hh Hok)
    as (p1 & Hw1 & Hp1); [lia| |lia|lia|].
  { apply stops_links; [|lia| |].
    - intros y g' a Ha. by destruct (Hl' _ _ _ Ha) as [[-> | ->] _].
    - intros Hne%(links_pos text_pipeline). lia.
    - intros ->. cbn in Hstop. by rewrite Z.add_0_r in Hstop. }
  destruct (IH (i + len (text_gap x g) + len (text_pipeline p)) (S ++ [i + Z.of_nat (before g)])
              (P ++ pipes_at (i + len (text_gap x g)) p) p1) as (p2 & Hw2 & Hp2);
    [done|done|lia|done|lia|done|rewrite length_app; cbn [length]; lia|rewrite length_app, Hpipes; lia|].
  exists p2. split; [|done].
  eapply walks_trans; [|eapply walks_trans; [exact Hw1| |reflexivity]|].
  - exists (length (text_gap x g)). split; [reflexivity|]. apply find_gap; [done|lia|done|]. right. split_and!; try done. lia.
  - rewrite <- !app_assoc in Hw2. exact Hw2.
  - lia.
Qed.
End Find.

(** A sequence that can be read: pipelines joined by ';' or the end of a line. *)
Record block_ok (b : block) : Prop := {
  bo_first : pipeline_ok b.1;
  bo_links : forall x g p, (x, g, p) ∈ b.2 -> (x = 59 \/ x = 10) /\ pipeline_ok p;
  bo_semis : (length b.2 < 10)%nat;
  bo_pipes : (length (block_pipes 0 b) < 10)%nat
}.

Lemma link_pipes_length i j l : length (link_pipes i l) = length (link_pipes j l).
Proof.
  revert i j. induction l as [|[[x g] p] l IH]; intros i j; [done|]. cbn [link_pipes].
  rewrite !length_app. unfold pipes_at. rewrite !length_positions. f_equal. apply IH.
Qed.

Lemma block_pipes_length i j b : length (block_pipes i b) = length (block_pipes j b).
Proof.
  unfold block_pipes, pipes_at. rewrite !length_app, !length_positions. f_equal. apply link_pipes_length.
Qed.

(** [find_semi_pipes] lists the separators of a sequence. *)
Lemma find_semi_pipes_gives s b i fu :
  holds s i (text_block b) -> block_ok b -> (length (text_block b) < fu)%nat ->
  exists l, gives (find_semi_pipes i (i + len (text_block b) - 1) true) fu s (semis_at i b ++ [-1], block_pipes i b ++ [-1], l).
Proof.
  destruct b as [p l]. intros Hh [Hp Hl Hn Hm] Hfu. rewrite (block_pipes_length 0 i) in Hm.
  unfold text_block, semis_at, block_pipes in *. cbn [fst snd] in *. rewrite length_app in *. rewrite Nat2Z.inj_add in *.
  set (e := i + _ - 1). rewrite ?length_app in Hm. unfold pipes_at in Hm. rewrite length_positions in Hm.
  destruct (find_pipeline s fu e p i [] [] 10 (text_links text_pipeline l)) as (p1 & Hw1 & Hp1);
    [done|done|unfold e; lia| |lia|cbn; lia|].
  { rewrite <- (app_nil_r (text_links _ _)). apply stops_links; [|lia| |].
    - intros y g' a Ha. by destruct (Hl _ _ _ Ha) as [[-> | ->] _].
    - intros Hne%(links_pos text_pipeline). unfold e. lia.
    - intros ->. cbn. unfold e. cbn. lia. }
  destruct (find_lines s fu e l (i + len (text_pipeline p)) [] (pipes_at i p) p1 []) as (p2 & Hw2 & Hp2);
    [rewrite app_nil_r; by apply holds_suffix in Hh|done|unfold e; lia|cbn; unfold e; lia|lia|done|cbn; lia| |].
  { unfold pipes_at. rewrite length_positions. lia. }
  eexists. unfold find_semi_pipes. eapply gives_bind.
  - fold (find_at true e). eapply walks_out; [eapply walks_trans; [exact Hw1|exact Hw2|reflexivity]| |exact Hfu].
    unfold find_at. cbn [finds f_index]. rewrite (proj2 (Z.ltb_ge _ _)) by (unfold e; lia). apply gives_ret.
  - cbn [finds semis pipes max_size app locations]. rewrite !(proj2 (Z.leb_gt _ _)).
    + apply gives_ret.
    + rewrite length_app. unfold pipes_at. rewrite length_positions. lia.
    + rewrite length_positions. lia.
Qed.
