(* ===== verification/ShellTree.v ===== *)
(** * How the shell's reader builds the tree of a sequence of pipelines *)

From S2P Require Import Prelude ShellExec ShellRead ShellText ShellWords ShellLines ShellFind.

Lemma positions_bounds {A} (text : A -> list Z) i l : Forall (fun x => i <= x < i + len (text_links text l)) (positions text i l).
Proof.
  revert i. induction l as [|[[x g] a] l IH]; intros i; [constructor|]. cbn [positions]. rewrite text_links_cons.
  constructor.
  - unfold text_gap. rewrite !length_app, length_replicate. cbn [length]. lia.
  - eapply Forall_impl; [apply IH|]. cbv beta. intros y Hy. rewrite !length_app, !Nat2Z.inj_add in *. lia.
Qed.

Lemma pipes_at_bounds i p : Forall (fun x => i <= x < i + len (text_pipeline p)) (pipes_at i p).
Proof.
  unfold pipes_at, text_pipeline. eapply Forall_impl; [apply positions_bounds|]. cbv beta. intros x Hx. rewrite length_app. lia.
Qed.

Lemma link_pipes_bounds i l : Forall (fun x => i <= x < i + len (text_links text_pipeline l)) (link_pipes i l).
Proof.
  revert i. induction l as [|[[x g] p] l IH]; intros i; [constructor|]. cbn [link_pipes]. rewrite text_links_cons.
  apply Forall_app. split.
  - eapply Forall_impl; [apply pipes_at_bounds|]. cbv beta. intros y Hy. rewrite !length_app. lia.
  - eapply Forall_impl; [apply IH|]. cbv beta. intros y Hy. rewrite !length_app, !Nat2Z.inj_add in *. lia.
Qed.

Lemma at_drop l i x r : 0 <= i -> drop (Z.to_nat i) l = x :: r -> at_ l i = Some x.
Proof.
  intros Hi Hd. unfold at_. rewrite (proj2 (Z.leb_le _ _) Hi).
  by rewrite <- (Nat.add_0_r (Z.to_nat i)), <- lookup_drop, Hd.
Qed.

Lemma drop_next {A} (l : list A) i x r : 0 <= i -> drop (Z.to_nat i) l = x :: r -> drop (Z.to_nat (i + 1)) l = r.
Proof. intros Hi Hd. replace (Z.to_nat (i + 1)) with (Z.to_nat i + 1)%nat by lia. by rewrite <- drop_drop, Hd. Qed.

Lemma space_or_word x c : wordchar x = false -> wordchar c = true -> space_or x c = false.
Proof. intros Hx Hc. unfold space_or. by rewrite (wordchar_space c Hc), (wordchar_is_not c x Hc Hx). Qed.

Lemma skip_end (p : Z -> bool) s i t fu :
  holds s i t -> solid t -> (forall c, wordchar c = true -> p c = false) -> (0 < fu)%nat ->
  gives (skip p (-1) (i + len t - 1)) fu s (i + len t - 1).
Proof.
  intros Hh [_ (u & x & -> & Hx)] Hp Hfu. apply holds_suffix in Hh.
  replace (i + len (u ++ [x]) - 1) with (i + len u) by (rewrite length_app; cbn [length]; lia).
  by eapply skip_none; [exact Hh|apply Hp|].
Qed.

Lemma skip_begin (p : Z -> bool) s i t fu :
  holds s i t -> solid t -> (forall c, wordchar c = true -> p c = false) -> (0 < fu)%nat -> gives (skip p 1 i) fu s i.
Proof. intros Hh [(x & u & -> & Hx) _] Hp Hfu. by eapply skip_none; [exact Hh|apply Hp|]. Qed.

(** The end of an item before the next separator in [Q], or before [e]. *)
Lemma next_end {A} (text : A -> list Z) (p : Z -> bool) s i Q r t l start e fu :
  0 <= i -> drop (Z.to_nat i) Q = positions text (start + len t) l ++ -1 :: r ->
  holds s start (t ++ text_links text l) -> solid t -> e + 1 = start + len t + len (text_links text l) ->
  (forall x g a, (x, g, a) ∈ l -> p x = true) -> p 32 = true -> (forall c, wordchar c = true -> p c = false) ->
  (length (text_links text l) < fu)%nat -> (0 < fu)%nat ->
  exists v, gives (deref (at_ Q i) (fun x => mret (if x =? -1 then e else x))) fu s v /\
    gives (skip p (-1) v) fu s (start + len t - 1).
Proof.
  intros Hi HQ Hh Ht He Hl H32 Hw Hf1 Hf2. destruct l as [|[[x g] a] l].
  - exists e. split; [eapply gives_deref; [eapply at_drop; [done|exact HQ]|apply gives_ret]|]. cbn in He. rewrite Z.add_0_r in He.
    replace e with (start + len t - 1) by lia. apply skip_end; [by apply holds_prefix in Hh|done|done|done].
  - exists (start + len t + Z.of_nat (before g)). pose proof (holds_nonneg _ _ _ Hh). split.
    + eapply gives_deref; [eapply at_drop; [done|exact HQ]|]. rewrite (proj2 (Z.eqb_neq _ _)) by lia. apply gives_ret.
    + rewrite text_links_cons in *. rewrite length_app in Hf1.
      eapply gap_back; [|done|eapply Hl; by left|done|done|lia]. rewrite app_assoc in Hh. by apply holds_prefix in Hh.
Qed.

Section Pipes.
Variables (recur : Z -> Z -> reader (command buffer)) (s : list Z) (fu : nat).

Lemma format_command_gives b c :
  holds s b (text_simple c) -> simple_ok c -> (length (text_simple c) < fu)%nat ->
  gives (format_command recur b (b + len (text_simple c) - 1)) fu s (tree_simple c).
Proof.
  intros Hh Hok Hfu. pose proof (solid_simple c Hok) as Hs. pose proof (solid_pos _ Hs) as Hpos.
  destruct (simple_split c Hok) as (w & r & E & Hw & Hres & Hr).
  unfold format_command. eapply gives_bind.
  { eapply skip_begin; [exact Hh|done| |lia]. intros x Hx. unfold is_blank. by rewrite !(wordchar_is_not x _ Hx). }
  assert (Hst : stops (b + len (text_simple c) - 1) (b + len w) r).
  { rewrite <- (app_nil_r r). eapply (simple_stops c w r _ b []); [done|done|cbn; lia|lia]. }
  pose proof (text_simple_plain c Hok) as Hplain.
  destruct (read_word_gives s b w r (b + len (text_simple c) - 1) fu) as (y & Hy & _ & Hyr);
    [by rewrite <- E|done|exact Hst|rewrite E, length_app in Hfu; lia|].
  eapply gives_bind; [exact Hy|]. cbv beta iota.
  eapply gives_bind; [apply check_reserved_gives; rewrite E in Hh; by apply holds_prefix in Hh|]. rewrite Hres.
  change (positive 0) with false. cbv iota.
  assert ((y =? 40) = false) as ->; [|apply format_function_gives; try done; lia].
  rewrite E in Hplain. apply Forall_app in Hplain as [_ Hpr]. destruct r as [|x r].
  - by apply (wordchar_is_not y 40).
  - subst y. apply Forall_inv in Hpr. apply Z.eqb_neq. intros ->. discriminate.
Qed.

Definition pipe_at (beg end_ : Z) (pipe_locations : list Z) : Z * option (command buffer) -> reader (Z * option (command buffer) + option (command buffer)) :=
  fun '(i, container) =>
    deref (at_ pipe_locations i) (fun p =>
    if negb (p =? -1) && (p <? end_) then
      loc2 ← match container with
             | None => mret p
             | Some _ => deref (at_ pipe_locations (i + 1)) (fun p' => mret (if p' =? -1 then end_ else p'))
             end;
      loc1 ← skip (space_or 124) 1 match container with None => beg | Some _ => p end;
      loc2 ← skip (space_or 124) (-1) loc2;
      current ← format_command recur loc1 loc2;
      mret (inl match container with None => (i, Some current) | Some c0 => (i + 1, Some (PIPE_COMMAND c0 current)) end)
    else mret (inr container)).

(** The rounds after the first. *)
Lemma pipe_rounds beg e P r l : forall i cur t,
  0 <= i -> drop (Z.to_nat i) P = positions text_simple cur l ++ -1 :: r ->
  holds s cur (text_links text_simple l) -> (forall x g c, (x, g, c) ∈ l -> x = 124 /\ simple_ok c) ->
  e + 1 = cur + len (text_links text_simple l) -> (length (text_links text_simple l) < fu)%nat ->
  goes (pipe_at beg e P) fu s (length l) (i, Some t)
    (i + len l, Some (foldl (fun t '(_, _, c) => PIPE_COMMAND t (tree_simple c)) t l)).
Proof.
  induction l as [|[[x g] c] l IH]; intros i cur t Hi HP Hh Hl He Hfu.
  { cbn. rewrite Z.add_0_r. apply goes_refl. }
  destruct (Hl x g c ltac:(by left)) as [-> Hok].
  assert (Hl' : forall x g c, (x, g, c) ∈ l -> x = 124 /\ simple_ok c) by (intros; eapply Hl; by right).
  pose proof (solid_simple c Hok) as Hs. pose proof (solid_pos _ Hs) as Hpos. pose proof (holds_nonneg _ _ _ Hh) as Hcur.
  rewrite text_links_cons in Hh, He, Hfu. rewrite !length_app in He, Hfu. cbn [positions app] in HP.
  pose proof (drop_next _ _ _ _ Hi HP) as HP'. pose proof Hh as Hh0. apply holds_app in Hh0 as [Hg Hh0].
  assert (Hgap : len (text_gap 124 g) = Z.of_nat (before g) + 1 + Z.of_nat (after g)).
  { unfold text_gap. rewrite length_app, length_replicate. cbn [length]. rewrite length_replicate. lia. }
  destruct (next_end text_simple (space_or 124) s (i + 1) P r (text_simple c) l (cur + len (text_gap 124 g)) e fu)
    as (v & Hv & Hend); try done; try lia.
  { by rewrite length_app, Nat2Z.inj_add, Z.add_assoc in HP'. }
  { intros y g' d Hd. by destruct (Hl' _ _ _ Hd) as [-> _]. }
  { intros z Hz. by apply space_or_word. }
  eapply goes_cons; [|cbn [length foldl]; replace (i + Z.of_nat (S (length l))) with (i + 1 + len l) by lia;
    eapply (IH (i + 1)); [lia|exact HP'| |done| |lia]].
  - unfold pipe_at. eapply gives_deref; [by eapply at_drop|]. cbv beta.
    rewrite (proj2 (Z.eqb_neq _ _)), (proj2 (Z.ltb_lt _ _)) by lia. cbn [negb andb]. cbv iota.
    eapply gives_bind; [|eapply gives_bind; [|eapply gives_bind; [|eapply gives_bind; [|apply gives_ret]]]].
    + exact Hv.
    + eapply (gap_forward _ s cur 124 g (text_simple c)); [rewrite app_assoc in Hh; by apply holds_prefix in Hh|done|done|done| |lia].
      intros z Hz. by apply space_or_word.
    + exact Hend.
    + apply format_command_gives; [by apply holds_prefix in Hh0|done|lia].
  - apply holds_suffix in Hh0. by rewrite length_app, Nat2Z.inj_add, Z.add_assoc.
  - rewrite length_app. lia.
Qed.

(** The first round, if there is a pipe. *)
Lemma pipe_first b e c x g t P j r :
  holds s b (text_simple c ++ text_gap 124 g ++ t) -> simple_ok c -> x = b + len (text_simple c) + Z.of_nat (before g) ->
  0 <= j -> drop (Z.to_nat j) P = x :: r -> x < e -> (length (text_simple c ++ text_gap 124 g) < fu)%nat ->
  gives (pipe_at b e P (j, None)) fu s (inl (j, Some (tree_simple c))).
Proof.
  intros Hh Hc -> Hj HP He Hfu. pose proof (solid_simple c Hc) as Hs. pose proof (solid_pos _ Hs) as Hpos.
  pose proof (holds_nonneg _ _ _ Hh) as Hb. rewrite length_app in Hfu. rewrite app_assoc in Hh. apply holds_prefix in Hh.
  assert (Hw : forall z, wordchar z = true -> space_or 124 z = false) by (intros; by apply space_or_word).
  unfold pipe_at. eapply gives_deref; [by eapply at_drop|]. cbv beta.
  rewrite (proj2 (Z.eqb_neq _ _)), (proj2 (Z.ltb_lt _ _)) by lia. cbn [negb andb]. cbv iota.
  eapply gives_bind; [apply gives_ret|]. eapply gives_bind.
  { eapply skip_begin; [by apply holds_prefix in Hh|done|done|lia]. }
  eapply gives_bind; [apply (gap_back _ s b 124 g (text_simple c)); [done|done|done|done|done|lia]|].
  eapply gives_bind; [|apply gives_ret]. apply format_command_gives; [by apply holds_prefix in Hh|done|lia].
Qed.

Lemma links_length {A} (text : A -> list Z) l : (length l <= length (text_links text l))%nat.
Proof.
  induction l as [|[[x g] a] l IH]; [cbn; lia|]. rewrite text_links_cons. unfold text_gap. rewrite !length_app. cbn [length]. lia.
Qed.

(** [pipe_command] reads a pipeline, if its pipes are the next in the list and
    no other pipe follows them. *)
Lemma pipe_command_gives b p P j q r :
  holds s b (text_pipeline p) -> pipeline_ok p -> (length (text_pipeline p) < fu)%nat ->
  0 <= j -> drop (Z.to_nat j) P = pipes_at b p ++ q :: r -> q = -1 \/ p.2 = [] /\ b + len (text_pipeline p) - 1 <= q ->
  gives (pipe_command recur b (b + len (text_pipeline p) - 1) P j) fu s (tree_pipeline p).
Proof.
  destruct p as [c l]. intros Hh [Hc Hl] Hfu Hj HP Hq. unfold text_pipeline, tree_pipeline, pipes_at in *. cbn [fst snd] in *.
  pose proof (solid_pos _ (solid_simple c Hc)) as Hpos.
  unfold pipe_command. fold (pipe_at b (b + len (text_simple c ++ text_links text_simple l) - 1) P).
  destruct l as [|[[x g] d] l].
  - cbn [text_links map concat positions app foldl] in *. rewrite !app_nil_r in *.
    apply (gives_bind _ _ _ _ None); [|by apply format_command_gives].
    eapply (goes_out _ _ _ 0); [apply goes_refl| |lia]. unfold pipe_at. eapply gives_deref; [by eapply at_drop|]. cbv beta.
    assert (negb (q =? -1) && (q <? b + len (text_simple c) - 1) = false) as ->; [|apply gives_ret].
    destruct Hq as [-> |[_ Hq]]; [done|]. rewrite (proj2 (Z.ltb_ge _ _)) by lia. apply andb_false_r.
  - destruct Hq as [-> |[? _]]; [|done]. destruct (Hl x g d ltac:(by left)) as [-> Hd].
    pose proof (solid_pos _ (solid_simple d Hd)) as Hdpos.
    pose proof (links_length text_simple ((124, g, d) :: l)) as Hlen. rewrite length_app in Hfu.
    assert (HL : len (text_links text_simple ((124, g, d) :: l)) = len (text_gap 124 g) + len (text_simple d) + len (text_links text_simple l))
      by (rewrite text_links_cons, !length_app; lia).
    assert (Hgap : Z.of_nat (before g) < len (text_gap 124 g)) by (unfold text_gap; rewrite length_app, length_replicate; cbn [length]; lia).
    eapply gives_bind.
    + eapply (goes_out _ _ _ (S (length ((124%Z, g, d) :: l)))); [eapply goes_cons|..].
      * rewrite text_links_cons in Hh. eapply pipe_first; [exact Hh|done|done|done|exact HP|rewrite length_app; lia|rewrite length_app; lia].
      * eapply pipe_rounds; [done|exact HP|by apply holds_suffix in Hh|done|rewrite length_app; lia|lia].
      * unfold pipe_at. eapply gives_deref.
        { eapply (at_drop P _ (-1) r); [lia|].
          replace (Z.to_nat (j + len ((124, g, d) :: l))) with (Z.to_nat j + length ((124%Z, g, d) :: l))%nat by lia.
          rewrite <- drop_drop, HP. apply drop_app_length'. by rewrite length_positions. }
        cbv beta. change (-1 =? -1) with true. cbn [negb andb]. cbv iota. apply gives_ret.
      * cbn [length] in *. lia.
    + cbn [foldl]. apply gives_ret.
Qed.
End Pipes.

(** ** Sequences *)

(** At most one of the pipelines has more than one command. *)
Fixpoint lone (l : list pipeline) : Prop :=
  match l with [] => True | p :: l' => (p.2 <> [] -> Forall (fun q => q.2 = []) l') /\ lone l' end.
Definition block_lone (b : block) : Prop := lone (b.1 :: map snd b.2).

Lemma no_link_pipes i l : Forall (fun q : pipeline => q.2 = []) (map snd l) -> link_pipes i l = [].
Proof.
  revert i. induction l as [|[[x g] p] l IH]; intros i Hl; [done|]. cbn in Hl. apply Forall_cons in Hl as [Hp Hl].
  cbn [link_pipes]. unfold pipes_at. cbn in Hp. rewrite Hp, IH by done. done.
Qed.

(** What follows the pipes of an item in the list of pipes. *)
Lemma next_pipe i p l : lone (p :: map snd l) ->
  exists q r, link_pipes i l ++ [-1] = q :: r /\ (q = -1 \/ p.2 = [] /\ i <= q).
Proof.
  intros [Hp _]. destruct p.2 as [|a m] eqn:E.
  - pose proof (link_pipes_bounds i l) as Hb. destruct (link_pipes i l) as [|q r].
    + exists (-1), []. split; [done|]. by left.
    + exists q, (r ++ [-1]). split; [done|]. right. apply Forall_inv in Hb. split; [done|lia].
  - rewrite no_link_pipes by (by apply Hp). exists (-1), []. split; [done|]. by left.
Qed.

(** [while(pipe_locations[j] != -1 && pipe_locations[j] < loc1) j++;] *)
Lemma pipes_before A B x loc1 j s fu :
  Forall (fun a => 0 <= a < loc1) A -> x = -1 \/ loc1 <= x -> 0 <= j <= len A -> (length A < fu)%nat ->
  gives (loop (fun j => deref (at_ (A ++ x :: B) j) (fun p =>
           mret (if negb (p =? -1) && (p <? loc1) then inl (j + 1) else inr j))) j) fu (s : list Z) (len A).
Proof.
  intros HA Hx Hj Hfu. eapply (goes_out _ _ _ (length A - Z.to_nat j)); [|eapply gives_deref|lia].
  - clear Hfu. remember (length A - Z.to_nat j)%nat as k eqn:Ek. revert j Hj Ek. induction k as [|k IH]; intros j Hj Ek.
    { replace j with (len A) by lia. apply goes_refl. }
    destruct (lookup_lt_is_Some_2 A (Z.to_nat j)) as [a Ha]; [lia|].
    pose proof (proj1 (Forall_lookup _ _) HA _ _ Ha) as Hav. cbv beta in Hav.
    eapply goes_cons; [|apply (IH (j + 1)); lia].
    eapply gives_deref.
    + unfold at_. rewrite (proj2 (Z.leb_le _ _)) by lia. rewrite lookup_app_l by lia. exact Ha.
    + rewrite (proj2 (Z.eqb_neq _ _)), (proj2 (Z.ltb_lt _ _)) by lia. apply gives_ret.
  - apply (at_drop _ _ x B); [lia|]. rewrite Nat2Z.id. apply drop_app_length.
  - cbv beta. assert (negb (x =? -1) && (x <? loc1) = false) as ->; [|apply gives_ret].
    destruct Hx as [-> |Hx]; [done|]. rewrite (proj2 (Z.ltb_ge _ _)) by lia. apply andb_false_r.
Qed.

Section Lines.
Variables (n : nat) (s : list Z) (fu : nat).

Definition line_at (beg end_ : Z) (semi_locations pipe_locations : list Z) :
  Z * Z * option (command buffer) -> reader (Z * Z * option (command buffer) + option (command buffer)) :=
  fun '(i, j, container) =>
    deref (at_ semi_locations i) (fun l =>
    if l =? -1 then mret (inr container)
    else
      loc2 ← match container with
             | None => mret l
             | Some _ => deref (at_ semi_locations (i + 1)) (fun l' => mret (if l' =? -1 then end_ else l'))
             end;
      let loc1 := match container with None => beg | Some _ => l end in
      j ← loop (fun j => deref (at_ pipe_locations j) (fun p =>
            mret (if negb (p =? -1) && (p <? loc1) then inl (j + 1) else inr j))) j;
      loc1 ← skip (space_or 59) 1 loc1;
      loc2 ← skip (space_or 59) (-1) loc2;
      current ← pipe_command (complete_command_n n) loc1 loc2 pipe_locations j;
      mret (inl match container with
                | None => (i, j, Some current)
                | Some c0 => (i + 1, j, Some (SEQUENCE_COMMAND c0 current))
                end)).

Lemma line_rounds beg e Q l : forall i j cur t A P,
  0 <= i -> drop (Z.to_nat i) Q = positions text_pipeline cur l ++ [-1] ->
  P = A ++ link_pipes cur l ++ [-1] -> Forall (fun a => 0 <= a < cur) A -> 0 <= j <= len A ->
  holds s cur (text_links text_pipeline l) -> (forall x g p, (x, g, p) ∈ l -> (x = 59 \/ x = 10) /\ pipeline_ok p) -> lone (map snd l) ->
  e + 1 = cur + len (text_links text_pipeline l) -> (length (text_links text_pipeline l) < fu)%nat -> (length P < fu)%nat ->
  exists j', goes (line_at beg e Q P) fu s (length l) (i, j, Some t)
    (i + len l, j', Some (foldl (fun t '(_, _, p) => SEQUENCE_COMMAND t (tree_pipeline p)) t l)).
Proof.
  induction l as [|[[x g] p] l IH]; intros i j cur t A P Hi HQ HP HA Hj Hh Hl Hlone He Hfu HfuP.
  { exists j. cbn. rewrite Z.add_0_r. apply goes_refl. }
  destruct (Hl x g p ltac:(by left)) as [Hx Hok].
  assert (Hl' : forall x g p, (x, g, p) ∈ l -> (x = 59 \/ x = 10) /\ pipeline_ok p) by (intros; eapply Hl; by right).
  assert (Hw : forall z, wordchar z = true -> space_or 59 z = false) by (intros; by apply space_or_word).
  assert (Hsep : forall x, x = 59 \/ x = 10 -> space_or 59 x = true) by (by intros ? [-> | ->]).
  pose proof (solid_pipeline p Hok) as Hs. pose proof (solid_pos _ Hs) as Hpos. pose proof (holds_nonneg _ _ _ Hh) as Hcur.
  rewrite text_links_cons in Hh, He, Hfu. rewrite !length_app in He, Hfu. cbn [positions link_pipes app map] in *.
  pose proof (drop_next _ _ _ _ Hi HQ) as HQ'. pose proof Hh as Hh0. apply holds_app in Hh0 as [Hg Hh0].
  assert (Hgap : Z.of_nat (before g) < len (text_gap x g)) by (unfold text_gap; rewrite length_app, length_replicate; cbn [length]; lia).
  set (start := cur + len (text_gap x g)) in *.
  replace (cur + len (text_gap x g ++ text_pipeline p)) with (start + len (text_pipeline p)) in * by (subst start; rewrite length_app; lia).
  destruct (next_end text_pipeline (space_or 59) s (i + 1) Q [] (text_pipeline p) l start e fu) as (v & Hv & Hend); try done; try lia.
  { intros y g' d Hd. by destruct (Hl' _ _ _ Hd) as [Hy _]; apply Hsep. }
  destruct (next_pipe (start + len (text_pipeline p)) p l Hlone) as (q & r & Eq & Hq).
  pose proof (pipes_at_bounds start p) as Hpb.
  rewrite <- !app_assoc in HP. rewrite Eq in HP.
  destruct (IH (i + 1) (len A) (start + len (text_pipeline p)) (SEQUENCE_COMMAND t (tree_pipeline p)) (A ++ pipes_at start p) P) as (j' & Hg');
    [lia|done|by rewrite <- app_assoc, Eq| |rewrite length_app; lia|by apply holds_suffix in Hh0|done|by destruct Hlone|lia|lia|done|].
  { apply Forall_app. split; [eapply Forall_impl; [exact HA|]|eapply Forall_impl; [exact Hpb|]]; cbv beta; intros; lia. }
  assert (Hhead : exists y B, pipes_at start p ++ q :: r = y :: B /\ (y = -1 \/ cur + Z.of_nat (before g) <= y)).
  { destruct (pipes_at start p) as [|y B]; [|apply Forall_inv in Hpb; eexists _, _; split; [done|right; lia]].
    eexists _, _. split; [done|]. destruct Hq as [?|[_ ?]]; [by left|right; lia]. }
  exists j'. cbn [length foldl]. replace (i + Z.of_nat (S (length l))) with (i + 1 + len l) by lia.
  eapply goes_cons; [|exact Hg']. unfold line_at. eapply gives_deref; [by eapply at_drop|]. cbv beta.
  rewrite (proj2 (Z.eqb_neq _ _)) by lia.
  eapply gives_bind; [exact Hv|]. cbv beta zeta. eapply gives_bind; [|eapply gives_bind; [|eapply gives_bind; [exact Hend|]]].
  - destruct Hhead as (y & B & EB & Hy). rewrite HP, EB. apply pipes_before; [|done|lia|rewrite HP, length_app in HfuP; lia].
    eapply Forall_impl; [exact HA|]. cbv beta. intros; lia.
  - eapply (gap_forward _ s cur x g (text_pipeline p)); [rewrite app_assoc in Hh; by apply holds_prefix in Hh|done|by apply Hsep|done|done|lia].
  - eapply gives_bind; [|apply gives_ret].
    eapply pipe_command_gives; [by apply holds_prefix in Hh0|done|lia|lia| |destruct Hq as [?|[? ?]]; [by left|right; split; [done|lia]]].
    rewrite HP, Nat2Z.id. by rewrite drop_app_length.
Qed.

(** The first round, if there is a separator. *)
Lemma line_first b e p x g t Q i P r :
  holds s b (text_pipeline p ++ text_gap x g ++ t) -> pipeline_ok p -> x = 59 \/ x = 10 ->
  i = b + len (text_pipeline p) + Z.of_nat (before g) -> Q = i :: r ->
  (exists q r, P = pipes_at b p ++ q :: r /\ (q = -1 \/ p.2 = [] /\ b + len (text_pipeline p) - 1 <= q)) ->
  (length (text_pipeline p ++ text_gap x g) < fu)%nat ->
  gives (line_at b e Q P (0, 0, None)) fu s (inl (0, 0, Some (tree_pipeline p))).
Proof.
  intros Hh Hok Hx -> -> (q & r0 & -> & Hq) Hfu. pose proof (solid_pipeline p Hok) as Hs. pose proof (solid_pos _ Hs) as Hpos.
  pose proof (holds_nonneg _ _ _ Hh) as Hb. rewrite length_app in Hfu. rewrite app_assoc in Hh. apply holds_prefix in Hh.
  assert (Hw : forall z, wordchar z = true -> space_or 59 z = false) by (intros; by apply space_or_word).
  unfold line_at. eapply gives_deref; [done|]. cbv beta. rewrite (proj2 (Z.eqb_neq _ _)) by lia.
  eapply gives_bind; [apply gives_ret|]. cbv zeta. eapply gives_bind; [|eapply gives_bind; [|eapply gives_bind]].
  - assert (Hhead : exists y B, pipes_at b p ++ q :: r0 = y :: B /\ (y = -1 \/ b <= y)).
    { pose proof (pipes_at_bounds b p) as Hpb. destruct (pipes_at b p) as [|y B].
      - eexists _, _. split; [done|]. destruct Hq as [?|[_ ?]]; [by left|right; lia].
      - apply Forall_inv in Hpb. eexists _, _. split; [done|right; lia]. }
    destruct Hhead as (y & B & -> & Hy). apply (pipes_before [] B y b 0); [constructor|done|cbn; lia|cbn; lia].
  - eapply skip_begin; [by apply holds_prefix in Hh|done|done|lia].
  - apply (gap_back _ s b x g (text_pipeline p)); [done|done|by destruct Hx as [-> | ->]|done|done|lia].
  - eapply gives_bind; [|apply gives_ret].
    eapply pipe_command_gives; [by apply holds_prefix in Hh|done|lia|done|done|done].
Qed.
End Lines.

Lemma pipes_at_length i p : simple_ok p.1 -> (length (pipes_at i p) < length (text_pipeline p))%nat.
Proof.
  intros Hc%solid_simple%solid_pos. unfold pipes_at, text_pipeline. rewrite length_positions, length_app.
  pose proof (links_length text_simple p.2). lia.
Qed.

Lemma link_pipes_text i l : (forall x g p, (x, g, p) ∈ l -> (x = 59 \/ x = 10) /\ pipeline_ok p) ->
  (length (link_pipes i l) <= length (text_links text_pipeline l))%nat.
Proof.
  revert i. induction l as [|[[x g] p] l IH]; intros i Hl; [done|]. cbn [link_pipes]. rewrite text_links_cons, !length_app.
  destruct (Hl x g p ltac:(by left)) as [_ [Hc _]]. pose proof (pipes_at_length (i + len (text_gap x g)) p Hc).
  specialize (IH (i + len (text_gap x g ++ text_pipeline p)) ltac:(intros; eapply Hl; by right)). rewrite length_app in IH. lia.
Qed.

(** The loop of [complete_command], where there is a separator. *)
Lemma lines_give n s i p L fu e :
  holds s i (text_pipeline p ++ text_links text_pipeline L) -> pipeline_ok p -> L <> [] ->
  (forall x g p, (x, g, p) ∈ L -> (x = 59 \/ x = 10) /\ pipeline_ok p) -> block_lone (p, L) ->
  e + 1 = i + len (text_pipeline p ++ text_links text_pipeline L) ->
  (length (text_pipeline p ++ text_links text_pipeline L) + 1 < fu)%nat ->
  gives (loop (line_at n i e (semis_at i (p, L) ++ [-1]) (block_pipes i (p, L) ++ [-1])) (0, 0, None)) fu s
    (Some (tree_block (p, L))).
Proof.
  intros Hh Hp Hne Hl Hlone He Hfu. pose proof (solid_pos _ (solid_pipeline p Hp)) as Hpos. pose proof (holds_nonneg _ _ _ Hh) as Hi.
  destruct (next_pipe (i + len (text_pipeline p)) p L Hlone) as (q & r & Eq & Hq).
  pose proof (links_length text_pipeline L) as HL. pose proof (link_pipes_text (i + len (text_pipeline p)) L Hl) as Hlp.
  pose proof (pipes_at_length i p (po_first p Hp)) as Hpp. rewrite length_app in *.
  destruct (line_rounds n s fu i e (semis_at i (p, L) ++ [-1]) L 0 0 (i + len (text_pipeline p)) (tree_pipeline p)
              (pipes_at i p) (block_pipes i (p, L) ++ [-1])) as (j' & Hg); try done; try lia.
  { unfold block_pipes. cbn [fst snd]. by rewrite <- app_assoc. }
  { eapply Forall_impl; [apply pipes_at_bounds|]. cbv beta. intros; lia. }
  { by apply holds_suffix in Hh. }
  { by destruct Hlone. }
  { unfold block_pipes. cbn [fst snd]. rewrite !length_app. cbn [length]. lia. }
  eapply (goes_out _ _ _ (S (length L))); [eapply goes_cons; [|exact Hg]| |lia].
  - destruct L as [|[[x g] a] L]; [done|]. unfold semis_at, block_pipes. cbn [fst snd positions app].
    rewrite text_links_cons in Hh, Hfu. rewrite !length_app in Hfu.
    eapply line_first; [exact Hh|done|by eapply (Hl x g a); left|done|done| |rewrite length_app; lia].
    exists q, r. rewrite <- app_assoc. rewrite Eq. split; [done|]. destruct Hq as [?|[? ?]]; [by left|right; split; [done|lia]].
  - unfold line_at. apply (gives_deref _ _ _ _ (-1)); [|apply gives_ret].
    apply (at_drop _ _ (-1) []); [lia|]. rewrite Z.add_0_l, Nat2Z.id. unfold semis_at. apply drop_app_length'. by rewrite length_positions.
Qed.

(** [complete_command] reads a sequence, with space after it. *)
Lemma complete_command_gives n s i b post fu :
  holds s i (text_block b ++ post) -> Forall (fun c => isspace c = true) post -> block_ok b -> block_lone b ->
  (length (text_block b ++ post) + 1 < fu)%nat ->
  gives (complete_command_n (S n) i (i + len (text_block b ++ post) - 1)) fu s (tree_block b).
Proof.
  intros Hh Hpost Hok Hlone Hfu. rewrite length_app in Hfu. pose proof Hok as [Hp Hl _ _].
  assert (Hs : solid (text_block b)).
  { apply solid_links; [by apply solid_pipeline|]. intros x g p Hin. by apply solid_pipeline, (Hl x g p). }
  assert (Hw : forall z, wordchar z = true -> space_or 59 z = false) by (intros; by apply space_or_word).
  pose proof (holds_nonneg _ _ _ Hh) as Hi. pose proof Hs as [_ (u & y & E & Hy)]. pose proof (solid_pos _ Hs) as Hpos.
  cbn [complete_command_n]. eapply gives_bind.
  { eapply skip_begin; [by apply holds_prefix in Hh|done|done|lia]. }
  apply (gives_bind _ _ _ _ (i + len (text_block b) - 1)).
  { rewrite E in Hh |- *. rewrite <- app_assoc in Hh. apply holds_suffix in Hh.
    replace (i + len ((u ++ [y]) ++ post) - 1) with (i + len u + len post) by (rewrite !length_app; cbn [length]; lia).
    replace (i + len (u ++ [y]) - 1) with (i + len u) by (rewrite length_app; cbn [length]; lia).
    apply (skip_back _ s _ y); [exact Hh| |by apply Hw|lia].
    eapply Forall_impl; [exact Hpost|]. cbv beta. intros c Hc. unfold space_or. by rewrite Hc. }
  apply holds_prefix in Hh. destruct (find_semi_pipes_gives s b i fu) as (locs & Hf); [done|done|lia|].
  eapply gives_bind; [exact Hf|]. cbv beta iota.
  fold (line_at n i (i + len (text_block b) - 1) (semis_at i b ++ [-1]) (block_pipes i b ++ [-1])).
  destruct b as [p L]. cbn [fst snd] in *. unfold text_block in *. cbn [fst snd] in *. destruct L as [|a L].
  - cbn [text_links map concat] in *. rewrite app_nil_r in *. apply (gives_bind _ _ _ _ None).
    { eapply (goes_out _ _ _ 0); [apply goes_refl|apply gives_ret|lia]. }
    eapply pipe_command_gives; [done|done|lia|done| |by left]. unfold block_pipes. cbn [fst snd link_pipes]. by rewrite app_nil_r.
  - eapply gives_bind; [apply lines_give; [done|done|done|done|done|lia|lia]|apply gives_ret].
Qed.
