(* ===== verification/ShellScript.v ===== *)
(** * How the shell's reader splits a script into commands *)

From S2P Require Import Prelude ShellExec ShellRead ShellText ShellWords ShellLines ShellFind ShellTree.

(** The words, then the redirections of a simple command *)
Lemma simple_parts c : simple_ok c ->
  exists w r, text_simple c = w ++ r ++ text_redirect 60 (input_name c) ++ text_redirect 62 (output_name c) /\
    word_ok w /\ find_reserved w reserved_words = 0 /\ Forall (fun x => wordchar x || (x =? 32) = true) r /\
    match r with [] => True | x :: _ => ends_word x = true end.
Proof.
  intros Hok. destruct (so_first c Hok) as (w & l & E & Hr). destruct (text_words_first w l) as (r & Er & Hrl).
  pose proof (so_words c Hok) as Hw. pose proof (text_words_chars _ Hw) as Hc. unfold text_simple. rewrite E in *. apply Forall_inv in Hw.
  exists w, r. rewrite Er, <- app_assoc in *. split_and!; [done|done|done|by apply Forall_app in Hc as [_ ?]|].
  destruct r; [done|by subst].
Qed.

Definition split_at (end_ : Z) : splitter -> reader (splitter + (Z + splitter)) :=
  fun s =>
    if index s <? end_ + 1 then
      r ← split_round end_ s;
      mret match r with inl s => inl s | inr l => inr (inl l) end
    else mret (inr (inr s)).

(** In a simple command, after its first word *)
Definition running (i start less greater prev : Z) (arr : list (command buffer)) (s : splitter) : Prop :=
  exists line cend fchar fword,
    s = Splitter i line true start cend 0 0 0 less greater false fchar fword true 0 0 no_counts no_dones prev arr.

(** Before a pipeline: at the beginning of a command ([inside] is false), or after
    a separator in it. *)
Definition waiting (i : Z) (inside : bool) (start cend endl prev : Z) (arr : list (command buffer)) (s : splitter) : Prop :=
  exists line semi fword, 0 <= semi <= 1 /\
    s = Splitter i line inside start cend semi endl 0 0 0 false false fword false 0 0 no_counts no_dones prev arr.

Lemma on_char_other end_ c s : c ∉ [9; 32; 59; 10; 124; 40; 41; 60; 62] -> on_char end_ c s = on_other end_ c s.
Proof.
  intros H. unfold on_char. destruct c as [|p|p]; [done| |done].
  do 7 (try (destruct p as [p|p|]; try done)); by destruct H; set_solver.
Qed.

Lemma wordchar_other c : wordchar c = true -> c ∉ [9; 32; 59; 10; 124; 40; 41; 60; 62].
Proof. intros H%wordchar_values. set_unfold. lia. Qed.

Section Script.
Variables (buf : list Z) (fu : nat) (e : Z).

Definition reaches (n : nat) (s : splitter) (Q : splitter -> Prop) : Prop :=
  exists s', walks (split_at e) fu buf n s s' /\ Q s'.

Lemma reaches_refl n s (Q : splitter -> Prop) : Q s -> reaches n s Q.
Proof. intros H. exists s. split; [apply walks_refl|done]. Qed.

Lemma reaches_trans n n1 n2 s (Q1 Q2 : splitter -> Prop) :
  reaches n1 s Q1 -> (forall s', Q1 s' -> reaches n2 s' Q2) -> (n1 + n2 <= n)%nat -> reaches n s Q2.
Proof.
  intros (s1 & W1 & H1) H2 Hn. destruct (H2 s1 H1) as (s2 & W2 & H). exists s2. split; [|done]. by apply (walks_trans _ _ _ n n1 n2 _ s1).
Qed.

(** A round that goes on *)
Lemma round_step s s1 c t (Q : splitter -> Prop) :
  holds buf (index s) (c :: t) -> index s <= e -> c <> 35 -> gives (on_char e c s) fu buf (Some s1) ->
  num_semi s1 <= 1 -> num_endl s1 < 2 -> num_parens s1 = 0 -> compound_count s1 = no_counts ->
  index s1 < e \/ is_one_of (if is_blank c then prev_rel_char s1 else c) [124; 60; 62] = false ->
  Q (s_at (index s1 + 1) (if is_blank c then s1 else s_prev c s1)) -> reaches 1 s Q.
Proof.
  intros Hh Hi Hc Hon Hsemi Hendl Hpar Hcc Hlast HQ. eexists. split; [|exact HQ]. apply walks_step; [lia|].
  unfold split_at. rewrite (proj2 (Z.ltb_lt _ _)) by lia. apply (gives_bind _ _ _ _ (inl (s_at (index s1 + 1) (if is_blank c then s1 else s_prev c s1))));
    [|apply gives_ret].
  unfold split_round. eapply gives_bind; [by eapply holds_at|]. cbv beta. rewrite (proj2 (Z.eqb_neq c 35) Hc). cbn [andb]. cbv iota.
  eapply gives_bind; [exact Hon|]. cbv beta iota zeta.
  rewrite (proj2 (Z.ltb_ge 1 _)), (proj2 (Z.eqb_neq (num_endl s1) 2)), (proj2 (Z.ltb_ge 2 _)) by lia. cbn [andb]. cbv iota.
  assert (E : forall s2, s2 = (if is_blank c then s1 else s_prev c s1) ->
    index s2 = index s1 /\ num_parens s2 = 0 /\ compound_count s2 = no_counts /\
    prev_rel_char s2 = if is_blank c then prev_rel_char s1 else c) by (intros s2 ->; by destruct (is_blank c)).
  destruct (E _ eq_refl) as (-> & -> & -> & ->).
  assert ((index s1 =? e) && (is_one_of (if is_blank c then prev_rel_char s1 else c) [124; 60; 62] || positive 0 || positive (count 0 no_counts)) = false) as ->;
    [|apply gives_ret].
  destruct Hlast as [Hlast| ->]; [by rewrite (proj2 (Z.eqb_neq _ _)) by lia|apply andb_false_r].
Qed.

(** The characters of words and blanks, after the first word *)
Lemma run_char s i start l g prev arr c t :
  running i start l g prev arr s -> holds buf i (c :: t) -> i <= e -> wordchar c = true \/ c = 32 ->
  i < e \/ is_one_of prev [124; 60; 62] = false ->
  reaches 1 s (running (i + 1) start l g (if c =? 32 then prev else c) arr).
Proof.
  intros (line & cend & fchar & fword & ->) Hh Hi Hc Hlast.
  assert (Hnc : c <> 35) by (destruct Hc as [Hc%wordchar_values| ->]; lia).
  assert (Hb : is_blank c = (c =? 32)).
  { unfold is_blank. destruct Hc as [Hc| ->]; [|done]. by rewrite (wordchar_is_not c 9 Hc), orb_false_r. }
  eapply (round_step _ (Splitter i line true start cend 0 0 0 l g false fchar fword true 0 0 no_counts no_dones prev arr));
    [exact Hh|exact Hi|done| |done|done|done|done| |].
  - destruct Hc as [Hc| ->]; [|apply gives_ret]. rewrite on_char_other by by apply wordchar_other.
    unfold on_other. rewrite (wordchar_check c 1 Hc). apply gives_ret.
  - rewrite Hb. destruct Hlast as [?|Hlast]; [by left|right]. cbn [prev_rel_char]. destruct (c =? 32) eqn:E; [done|].
    destruct Hc as [Hc| ->]; [|done]. apply wordchar_values in Hc. unfold is_one_of. apply bool_decide_eq_false. set_unfold. lia.
  - rewrite Hb. exists line, cend, fchar, fword. by destruct (c =? 32).
Qed.
(** [running] with some character of a word before *)
Definition ran (i start l g : Z) (arr : list (command buffer)) (s : splitter) : Prop :=
  exists prev, wordchar prev = true /\ running i start l g prev arr s.

Lemma run_pass t : forall s i start l g arr,
  ran i start l g arr s -> holds buf i t -> Forall (fun x => wordchar x || (x =? 32) = true) t -> i + len t <= e ->
  reaches (length t) s (ran (i + len t) start l g arr).
Proof.
  induction t as [|c t IH]; intros s i start l g arr (prev & Hp & Hs) Hh Ht He.
  { cbn. rewrite Z.add_0_r. apply reaches_refl. by exists prev. }
  apply Forall_cons in Ht as [Hc Ht]. apply orb_true_iff in Hc. rewrite Z.eqb_eq in Hc. cbn [length] in *.
  eapply (reaches_trans _ 1 (length t)); [eapply run_char; [exact Hs|exact Hh|lia|done|left; lia]| |lia].
  intros s1 H1. replace (i + Z.of_nat (S (length t))) with (i + 1 + len t) by lia.
  apply IH; [|by apply holds_cons in Hh as [_ ?]|done|lia].
  eexists. split; [|exact H1]. destruct Hc as [Hc| ->]; [|done]. by rewrite (wordchar_is_not c 32 Hc).
Qed.

(** A word after a separator *)
Lemma run_word w s i start l g prev arr :
  running i start l g prev arr s -> holds buf i w -> word_ok w -> i + len w <= e ->
  reaches (length w) s (ran (i + len w) start l g arr).
Proof.
  intros Hs Hh [Hne Hw] He. destruct w as [|c w]; [done|]. apply Forall_cons in Hw as [Hc Hw]. cbn [length] in *.
  eapply (reaches_trans _ 1 (length w)); [eapply run_char; [exact Hs|exact Hh|lia|by left|left; lia]| |lia].
  intros s1 H1. replace (i + Z.of_nat (S (length w))) with (i + 1 + len w) by lia.
  apply run_pass; [|by apply holds_cons in Hh as [_ ?]| |lia].
  - eexists. split; [|exact H1]. by rewrite (wordchar_is_not c 32 Hc).
  - eapply Forall_impl; [exact Hw|]. by intros x ->.
Qed.

(** A separator is not among the characters that a word ends with. *)
Lemma not_among c l : wordchar c = true -> forallb (fun x => negb (wordchar x)) l = true -> is_one_of c l = false.
Proof.
  intros Hc Hl. apply bool_decide_eq_false. intros Hin. apply list_elem_of_In in Hin.
  pose proof (proj1 (forallb_forall _ _) Hl _ Hin) as H. cbn in H. by rewrite Hc in H.
Qed.

(** A redirection *)
Lemma run_redirect x o s i start l g arr :
  ran i start l g arr s -> x = 60 /\ l = 0 /\ g = 0 \/ x = 62 /\ g = 0 -> holds buf i (text_redirect x o) -> name_ok o ->
  i + len (text_redirect x o) <= e ->
  exists l' g', (x = 60 -> g' = 0) /\ reaches (length (text_redirect x o)) s (ran (i + len (text_redirect x o)) start l' g' arr).
Proof.
  intros Hs Hx Hh Ho He. destruct o as [w|].
  2: { exists l, g. cbn. rewrite Z.add_0_r. split; [by intros ->; destruct Hx as [(_ & _ & ?)|[? _]]|]. by apply reaches_refl. }
  destruct Hs as (prev & Hp & line & cend & fchar & fword & ->). cbn [text_redirect length] in *.
  exists (if x =? 60 then l + 1 else l), (if x =? 60 then g else g + 1).
  split; [intros ->; destruct Hx as [(_ & _ & ?)|[? _]]; [done|lia]|].
  assert (Hc : x <> 35 /\ is_blank x = false /\ (x =? 60) = bool_decide (x = 60)) by (by destruct Hx as [(-> & _)|[-> _]]).
  destruct Hc as (Hn & Hb & _).
  eapply (reaches_trans _ 1 (length w)).
  - eapply (round_step _ (s_redirect (if x =? 60 then l + 1 else l) (if x =? 60 then g else g + 1)
              (Splitter i line true start cend 0 0 0 l g false fchar fword true 0 0 no_counts no_dones prev arr)));
      [exact Hh|cbn; lia|done| |done|done|done|done|cbn; left; lia|].
    + destruct Hx as [(-> & -> & ->)|[-> ->]]; apply gives_ret ||
        (unfold on_char, on_less, on_greater; cbn [prev_rel_char]; rewrite (not_among prev _ Hp) by done; apply gives_ret).
    + instantiate (1 := running (i + 1) start (if x =? 60 then l + 1 else l) (if x =? 60 then g else g + 1) x arr).
      rewrite Hb. by eexists _, _, _, _.
  - intros s1 H1. replace (i + Z.of_nat (S (length w))) with (i + 1 + len w) by lia.
    eapply run_word; [exact H1|by apply holds_cons in Hh as [_ ?]|by apply Ho|lia].
  - lia.
Qed.
(** The rest of a simple command *)
Lemma run_rest r o1 o2 s i start arr :
  ran i start 0 0 arr s -> holds buf i (r ++ text_redirect 60 o1 ++ text_redirect 62 o2) ->
  Forall (fun x => wordchar x || (x =? 32) = true) r -> name_ok o1 -> name_ok o2 ->
  i + len (r ++ text_redirect 60 o1 ++ text_redirect 62 o2) <= e ->
  exists l g, reaches (length (r ++ text_redirect 60 o1 ++ text_redirect 62 o2)) s
    (ran (i + len (r ++ text_redirect 60 o1 ++ text_redirect 62 o2)) start l g arr).
Proof.
  intros Hs Hh Hr H1 H2 He. apply holds_app in Hh as [Hh1 Hh]. apply holds_app in Hh as [Hh2 Hh3]. rewrite !length_app in *.
  destruct (run_pass r s i start 0 0 arr) as (s1 & W1 & R1); [done|done|done|lia|].
  destruct (run_redirect 60 o1 s1 _ start 0 0 arr R1) as (l1 & g1 & Hg & s2 & W2 & R2); [by left|done|done|lia|].
  rewrite (Hg eq_refl) in R2.
  destruct (run_redirect 62 o2 s2 _ start l1 0 arr R2) as (l2 & g2 & _ & s3 & W3 & R3); [by right|done|done|lia|].
  exists l2, g2, s3. split.
  - eapply walks_trans; [exact W1|eapply walks_trans; [exact W2|exact W3|done]|lia].
  - rewrite !Nat2Z.inj_add, !Z.add_assoc. exact R3.
Qed.

Lemma run_blanks n : forall s i start l g prev arr,
  running i start l g prev arr s -> holds buf i (replicate n 32) -> i + Z.of_nat n <= e ->
  reaches n s (running (i + Z.of_nat n) start l g prev arr).
Proof.
  induction n as [|n IH]; intros s i start l g prev arr Hs Hh He.
  { rewrite Z.add_0_r. by apply reaches_refl. }
  cbn [replicate] in Hh. eapply (reaches_trans _ 1 n); [eapply run_char; [exact Hs|exact Hh|lia|by right|left; lia]| |lia].
  intros s1 H1. replace (i + Z.of_nat (S n)) with (i + 1 + Z.of_nat n) by lia.
  apply IH; [exact H1|by apply holds_cons in Hh as [_ ?]|lia].
Qed.

Lemma wait_blanks n : forall s i inside start cend endl prev arr,
  waiting i inside start cend endl prev arr s -> endl < 2 -> holds buf i (replicate n 32) -> i + Z.of_nat n <= e ->
  reaches n s (waiting (i + Z.of_nat n) inside start cend endl prev arr).
Proof.
  induction n as [|n IH]; intros s i inside start cend endl prev arr Hs Hend Hh He.
  { rewrite Z.add_0_r. by apply reaches_refl. }
  cbn [replicate] in Hh. eapply (reaches_trans _ 1 n).
  - destruct Hs as (line & semi & fword & Hsemi & ->).
    eapply (round_step _ _ 32 _ (waiting (i + 1) inside start cend endl prev arr));
      [exact Hh|cbn; lia|done|apply gives_ret|cbn; lia|done|done|done|cbn; left; lia|].
    by exists line, semi, fword.
  - intros s1 H1. replace (i + Z.of_nat (S n)) with (i + 1 + Z.of_nat n) by lia.
    apply IH; [exact H1|done|by apply holds_cons in Hh as [_ ?]|lia].
  - lia.
Qed.

(** '|' *)
Lemma run_pipe s i start l g arr gp :
  ran i start l g arr s -> holds buf i (text_gap 124 gp) -> i + len (text_gap 124 gp) < e ->
  reaches (length (text_gap 124 gp)) s (running (i + len (text_gap 124 gp)) start 0 0 124 arr).
Proof.
  intros (prev & Hp & Hs) Hh He. unfold text_gap in *. apply holds_app in Hh as [H1 Hh]. apply holds_cons in Hh as [H2 H3].
  rewrite !length_app, !length_replicate in *. cbn [length] in *. rewrite length_replicate in *.
  eapply (reaches_trans _ (before gp) (1 + after gp)); [eapply run_blanks; [exact Hs|done|lia]| |lia].
  intros s1 (line & cend & fchar & fword & ->). set (j := i + Z.of_nat (before gp)) in *.
  replace (i + Z.of_nat (before gp + S (after gp))) with (j + 1 + Z.of_nat (after gp)) by lia.
  eapply (reaches_trans _ 1 (after gp)); [|intros s2 R; eapply run_blanks; [exact R|done|lia]|lia].
  eapply (round_step _ (Splitter j line true start cend 0 0 0 0 0 false false fword true 0 0 no_counts no_dones prev arr) 124);
    [exact H2|cbn; lia|done| |done|done|done|done|cbn; left; lia|by eexists _, _, _, _].
  unfold on_char, on_pipe. cbn [prev_rel_char cpd_sub]. rewrite (not_among prev _ Hp) by done. apply gives_ret.
Qed.

(** ';' or the end of a line *)
Lemma run_end x s i start l g arr t :
  ran i start l g arr s -> x = 59 \/ x = 10 -> holds buf i (x :: t) -> i <= e ->
  reaches 1 s (waiting (i + 1) true start (i - 1) (if x =? 10 then 1 else 0) x arr).
Proof.
  intros (prev & Hp & line & cend & fchar & fword & ->) Hx Hh He.
  assert (Hc : x <> 35 /\ is_blank x = false /\ is_one_of x [124; 60; 62] = false) by (by destruct Hx as [-> | ->]).
  destruct Hc as (Hn & Hb & Hno).
  eapply (round_step _ (Splitter i (if x =? 10 then line + 1 else line) true start (i - 1) (if x =? 10 then 0 else 1) (if x =? 10 then 1 else 0)
            0 0 0 false false fword false 0 0 no_counts no_dones prev arr)); [exact Hh|exact He|done| |by destruct Hx as [-> | ->]..| |].
  - destruct Hx as [-> | ->]; unfold on_char, on_semi, on_newline; cbn [prev_rel_char cpd_sub].
    + rewrite (not_among prev _ Hp) by done. apply gives_ret.
    + rewrite (not_among prev _ Hp), (wordchar_is_not prev 59 Hp) by done. apply gives_ret.
  - rewrite Hb. by right.
  - rewrite Hb. eexists _, _, _. split; [|done]. by destruct Hx as [-> | ->].
Qed.

Lemma run_sep x s i start l g arr gp :
  ran i start l g arr s -> x = 59 \/ x = 10 -> holds buf i (text_gap x gp) -> i + len (text_gap x gp) < e ->
  exists cend, reaches (length (text_gap x gp)) s (waiting (i + len (text_gap x gp)) true start cend (if x =? 10 then 1 else 0) x arr).
Proof.
  intros (prev & Hp & Hs) Hx Hh He. unfold text_gap in *. apply holds_app in Hh as [H1 Hh]. pose proof Hh as H2.
  apply holds_cons in Hh as [_ H3]. rewrite !length_app, !length_replicate in *. cbn [length] in *. rewrite length_replicate in *.
  set (j := i + Z.of_nat (before gp)) in *. exists (j - 1).
  replace (i + Z.of_nat (before gp + S (after gp))) with (j + 1 + Z.of_nat (after gp)) by lia.
  eapply (reaches_trans _ (before gp) (1 + after gp)); [eapply run_blanks; [exact Hs|done|lia]| |lia].
  intros s1 R1. eapply (reaches_trans _ 1 (after gp)); [eapply run_end; [by exists prev|done|exact H2|lia]| |lia].
  intros s2 R2. apply wait_blanks; [done|by destruct Hx as [-> | ->]|done|lia].
Qed.

(** The first word of a pipeline is read by [read_word]. *)
Lemma wait_word w t s i inside start cend endl prev arr :
  waiting i inside start cend endl prev arr s -> holds buf i (w ++ t) -> word_ok w -> find_reserved w reserved_words = 0 ->
  stops e (i + len w) t -> i + len w <= e -> (length w < fu)%nat ->
  reaches (length w) s (ran (i + len w) (if inside then start else i) 0 0 arr).
Proof.
  intros (line & semi & fword & Hsemi & ->) Hh Hw Hres Hst He Hfu.
  destruct (read_word_gives buf i w t e fu Hh Hw Hst Hfu) as (y & Hrd & Hy & _).
  pose proof Hw as [Hne Hwc]. destruct w as [|c w]; [done|]. pose proof (Forall_inv Hwc) as Hc. pose proof (wordchar_values c Hc) as Hcv.
  assert (Hb : is_blank c = false) by (unfold is_blank; by rewrite !(wordchar_is_not c _ Hc)).
  assert (Hy0 : (y =? 0) = false) by (destruct (Z.eqb_spec y 0) as [->|]; [discriminate|done]).
  eapply (reaches_trans _ 1 0); [|intros s1 H1; apply reaches_refl; exact H1|cbn [length]; lia].
  eapply (round_step _ (Splitter (i + len (c :: w) - 1) line true (if inside then start else i) cend 0 0 0 0 0 false true true true 0 0 no_counts no_dones prev arr));
    [exact Hh|cbn [index length] in *; lia|lia| |done|done|done|done|cbn [index length] in *; left; lia|].
  - rewrite on_char_other by by apply wordchar_other. unfold on_other. rewrite (wordchar_check c 1 Hc). cbn [negb]. cbv iota zeta.
    assert (E : s_begin (Splitter i line inside start cend semi endl 0 0 0 false false fword false 0 0 no_counts no_dones prev arr) =
            Splitter i line true (if inside then start else i) cend semi endl 0 0 0 false false fword false 0 0 no_counts no_dones prev arr)
      by (by destruct inside).
    rewrite E. cbn [first_command andb little_command negb orb]. cbv iota.
    apply (gives_bind _ _ _ _ (Some (Splitter (i + len (c :: w) - 1) line true (if inside then start else i) cend semi endl 0 0 0
      false true true true 0 0 no_counts no_dones prev arr))); [|apply gives_ret]. unfold on_word, s_little. cbn [index].
    eapply gives_bind; [exact Hrd|]. cbv beta iota. rewrite Hy0.
    eapply gives_bind; [apply check_reserved_gives; by apply holds_prefix in Hh|]. rewrite Hres. apply gives_ret.
  - rewrite Hb. exists c. split; [done|]. exists line, cend, true, true. cbn [s_at s_prev index].
    by replace (i + len (c :: w) - 1 + 1) with (i + len (c :: w)) by lia.
Qed.

(** What may follow an item: something that ends a word *)
Definition cut (t : list Z) : Prop := match t with [] => False | x :: _ => ends_word x = true end.

Lemma cut_links {A} (text : A -> list Z) k t :
  (forall x g a, (x, g, a) ∈ k -> ends_word x = true) -> cut t -> cut (text_links text k ++ t).
Proof.
  intros Hk Ht. destruct k as [|[[x g] a] k]; [done|]. rewrite text_links_cons. unfold text_gap.
  destruct (before g); [|done]. eapply Hk. by left.
Qed.

Lemma simple_tail c t w r :
  text_simple c = w ++ r ++ text_redirect 60 (input_name c) ++ text_redirect 62 (output_name c) ->
  match r with [] => True | x :: _ => ends_word x = true end -> cut t ->
  forall i, i + len (text_simple c) <= e ->
  stops e (i + len w) (r ++ text_redirect 60 (input_name c) ++ text_redirect 62 (output_name c) ++ t).
Proof.
  intros E Hr Ht i He. rewrite E, !length_app in He.
  destruct r as [|x r]; [|split; [done|cbn [length] in *; lia]].
  destruct (input_name c); [split; [done|cbn [length text_redirect app] in *; lia]|].
  destruct (output_name c); [split; [done|cbn [length text_redirect app] in *; lia]|].
  destruct t; [done|]. split; [done|]. cbn [length app text_redirect] in *. lia.
Qed.

(** A simple command at the beginning of a pipeline, or after a '|' *)
Lemma wait_simple c t s i inside start cend endl prev arr :
  waiting i inside start cend endl prev arr s -> holds buf i (text_simple c ++ t) -> simple_ok c -> cut t ->
  i + len (text_simple c) <= e -> (length (text_simple c) < fu)%nat ->
  exists l g, reaches (length (text_simple c)) s (ran (i + len (text_simple c)) (if inside then start else i) l g arr).
Proof.
  intros Hs Hh Hok Ht He Hfu. destruct (simple_parts c Hok) as (w & r & E & Hw & Hres & Hrc & Hr).
  pose proof (simple_tail c t w r E Hr Ht i He) as Hst. rewrite E in *. rewrite length_app in *.
  destruct (wait_word w (r ++ text_redirect 60 (input_name c) ++ text_redirect 62 (output_name c) ++ t) s i inside start cend endl prev arr)
    as (s1 & W1 & R1); [done|by rewrite <- !app_assoc in Hh|done|done|done|lia|lia|].
  apply holds_prefix, holds_suffix in Hh.
  destruct (run_rest r (input_name c) (output_name c) s1 _ _ arr R1 Hh Hrc) as (l & g & s2 & W2 & R2); [apply Hok|apply Hok|lia|].
  exists l, g, s2. split; [by eapply walks_trans; [exact W1|exact W2|]|]. by rewrite Nat2Z.inj_add, Z.add_assoc.
Qed.

Lemma run_simple c s i start prev arr :
  running i start 0 0 prev arr s -> holds buf i (text_simple c) -> simple_ok c -> i + len (text_simple c) <= e ->
  exists l g, reaches (length (text_simple c)) s (ran (i + len (text_simple c)) start l g arr).
Proof.
  intros Hs Hh Hok He. destruct (simple_parts c Hok) as (w & r & E & Hw & Hres & Hrc & Hr).
  rewrite E in *. rewrite length_app in *.
  destruct (run_word w s i start 0 0 prev arr) as (s1 & W1 & R1); [done|by apply holds_prefix in Hh|done|lia|].
  apply holds_suffix in Hh.
  destruct (run_rest r (input_name c) (output_name c) s1 _ _ arr R1 Hh Hrc) as (l & g & s2 & W2 & R2); [apply Hok|apply Hok|lia|].
  exists l, g, s2. split; [by eapply walks_trans; [exact W1|exact W2|]|]. by rewrite Nat2Z.inj_add, Z.add_assoc.
Qed.

Lemma run_pipes k : forall s i start l g arr,
  ran i start l g arr s -> holds buf i (text_links text_simple k) -> (forall x g c, (x, g, c) ∈ k -> x = 124 /\ simple_ok c) ->
  i + len (text_links text_simple k) <= e ->
  exists l' g', reaches (length (text_links text_simple k)) s (ran (i + len (text_links text_simple k)) start l' g' arr).
Proof.
  induction k as [|[[x gp] c] k IH]; intros s i start l g arr Hs Hh Hk He.
  { exists l, g. cbn. rewrite Z.add_0_r. by apply reaches_refl. }
  destruct (Hk x gp c ltac:(by left)) as [-> Hok]. rewrite text_links_cons in *.
  apply holds_app in Hh as [H1 Hh]. apply holds_app in Hh as [H2 H3]. rewrite !length_app in *.
  pose proof (solid_pos _ (solid_simple c Hok)) as Hpos.
  destruct (run_pipe s i start l g arr gp) as (s1 & W1 & R1); [done|done|lia|].
  destruct (run_simple c s1 _ start 124 arr R1 H2 Hok) as (l2 & g2 & s2 & W2 & R2); [lia|].
  destruct (IH s2 _ start l2 g2 arr R2 H3) as (l3 & g3 & s3 & W3 & R3); [intros; eapply Hk; by right|lia|].
  exists l3, g3, s3. split; [eapply walks_trans; [exact W1|eapply walks_trans; [exact W2|exact W3|done]|done]|].
  by rewrite !Nat2Z.inj_add, !Z.add_assoc.
Qed.

Lemma wait_pipeline p t s i inside start cend endl prev arr :
  waiting i inside start cend endl prev arr s -> holds buf i (text_pipeline p ++ t) -> pipeline_ok p -> cut t ->
  i + len (text_pipeline p) <= e -> (length (text_pipeline p) < fu)%nat ->
  exists l g, reaches (length (text_pipeline p)) s (ran (i + len (text_pipeline p)) (if inside then start else i) l g arr).
Proof.
  destruct p as [c k]. intros Hs Hh [Hc Hk] Ht He Hfu. unfold text_pipeline in *. cbn [fst snd] in *. rewrite length_app in *.
  rewrite <- app_assoc in Hh.
  destruct (wait_simple c (text_links text_simple k ++ t) s i inside start cend endl prev arr) as (l & g & s1 & W1 & R1);
    [done|done|done| |lia|lia|].
  { apply cut_links; [|done]. intros x gp a Ha. by destruct (Hk _ _ _ Ha) as [-> _]. }
  destruct (run_pipes k s1 _ _ l g arr R1) as (l2 & g2 & s2 & W2 & R2);
    [by apply holds_suffix, holds_prefix in Hh|done|lia|].
  exists l2, g2, s2. split; [by eapply walks_trans; [exact W1|exact W2|]|]. by rewrite Nat2Z.inj_add, Z.add_assoc.
Qed.

Lemma run_lines k : forall t s i start l g arr,
  ran i start l g arr s -> holds buf i (text_links text_pipeline k ++ t) ->
  (forall x g p, (x, g, p) ∈ k -> (x = 59 \/ x = 10) /\ pipeline_ok p) -> cut t ->
  i + len (text_links text_pipeline k) <= e -> (length (text_links text_pipeline k) < fu)%nat ->
  exists l' g', reaches (length (text_links text_pipeline k)) s (ran (i + len (text_links text_pipeline k)) start l' g' arr).
Proof.
  induction k as [|[[x gp] p] k IH]; intros t s i start l g arr Hs Hh Hk Ht He Hfu.
  { exists l, g. cbn. rewrite Z.add_0_r. by apply reaches_refl. }
  destruct (Hk x gp p ltac:(by left)) as [Hx Hok]. rewrite text_links_cons in *. rewrite <- !app_assoc in Hh.
  assert (Hk' : forall x g p, (x, g, p) ∈ k -> (x = 59 \/ x = 10) /\ pipeline_ok p) by (intros; eapply Hk; by right).
  apply holds_app in Hh as [H1 Hh]. rewrite !length_app in *. pose proof (solid_pos _ (solid_pipeline p Hok)) as Hpos.
  destruct (run_sep x s i start l g arr gp) as (cend & s1 & W1 & R1); [done|done|done|lia|].
  destruct (wait_pipeline p (text_links text_pipeline k ++ t) s1 _ _ _ _ _ _ _ R1 Hh Hok) as (l2 & g2 & s2 & W2 & R2); [|lia|lia|].
  { apply cut_links; [|done]. intros y h a Ha. by destruct (Hk' _ _ _ Ha) as [[-> | ->] _]. }
  destruct (IH t s2 _ start l2 g2 arr R2) as (l3 & g3 & s3 & W3 & R3); [by apply holds_suffix in Hh|done|done|lia|lia|].
  exists l3, g3, s3. split; [eapply walks_trans; [exact W1|eapply walks_trans; [exact W2|exact W3|done]|done]|].
  by rewrite !Nat2Z.inj_add, !Z.add_assoc.
Qed.

Lemma wait_block b t s i start cend endl prev arr :
  waiting i false start cend endl prev arr s -> holds buf i (text_block b ++ t) -> block_ok b -> cut t ->
  i + len (text_block b) <= e -> (length (text_block b) < fu)%nat ->
  exists l g, reaches (length (text_block b)) s (ran (i + len (text_block b)) i l g arr).
Proof.
  destruct b as [p k]. intros Hs Hh [Hp Hk _ _] Ht He Hfu. unfold text_block in *. cbn [fst snd] in *. rewrite length_app in *.
  rewrite <- app_assoc in Hh.
  destruct (wait_pipeline p (text_links text_pipeline k ++ t) s i false start cend endl prev arr) as (l & g & s1 & W1 & R1);
    [done|done|done| |lia|lia|].
  { apply cut_links; [|done]. intros x gp a Ha. by destruct (Hk _ _ _ Ha) as [[-> | ->] _]. }
  destruct (run_lines k t s1 _ _ l g arr R1) as (l2 & g2 & s2 & W2 & R2);
    [by apply holds_suffix in Hh|done|done|lia|lia|].
  exists l2, g2, s2. split; [by eapply walks_trans; [exact W1|exact W2|]|]. by rewrite Nat2Z.inj_add, Z.add_assoc.
Qed.

(** An empty line ends a command. *)
Lemma wait_push s i start cend arr c t :
  waiting i true start cend 1 10 arr s -> holds buf i (10 :: t) -> i <= e -> gives (complete_command start cend) fu buf c ->
  reaches 1 s (waiting (i + 1) false start cend 2 10 (arr ++ [c])).
Proof.
  intros (line & semi & fword & Hsemi & ->) Hh Hi Hc.
  set (s' := Splitter (i + 1) (line + 1) false start cend semi 2 0 0 0 false false fword false 0 0 no_counts no_dones 10 (arr ++ [c])).
  exists s'. split; [|by exists (line + 1), semi, fword].
  apply walks_step; [lia|]. unfold split_at. cbn [index]. rewrite (proj2 (Z.ltb_lt _ _)) by lia.
  apply (gives_bind _ _ _ _ (inl s')); [|apply gives_ret].
  unfold split_round. cbn [index]. eapply gives_bind; [by eapply holds_at|]. cbv beta. change (10 =? 35) with false. cbn [andb]. cbv iota.
  eapply gives_bind; [apply gives_ret|]. cbv beta iota zeta. cbn [num_semi s_unredirected s_end s_line s_marks little_command].
  rewrite (proj2 (Z.ltb_ge 1 semi)) by lia. cbv iota.
  cbn [num_endl num_parens command_start command_end]. change (1 + 1 =? 2) with true. change (is_blank 10) with false. cbn [negb andb]. cbv iota.
  eapply gives_bind; [exact Hc|]. cbn [s_push s_prev index prev_rel_char num_parens compound_count].
  change (is_one_of 10 [124; 60; 62] || positive 0 || positive (count 0 no_counts)) with false. rewrite andb_false_r. apply gives_ret.
Qed.

(** ** Scripts: sequences separated by empty lines *)

Fixpoint text_script (b : block) (l : list block) : list Z :=
  text_block b ++ match l with [] => [10] | b' :: l' => 10 :: 10 :: text_script b' l' end.

Lemma complete_block b i post :
  holds buf i (text_block b ++ post) -> Forall (fun c => isspace c = true) post -> block_ok b -> block_lone b ->
  (length (text_block b ++ post) + 1 < fu)%nat ->
  gives (complete_command i (i + len (text_block b ++ post) - 1)) fu buf (tree_block b).
Proof.
  intros Hh Hp Hok Hl Hfu. unfold gives, complete_command.
  replace (complete_command_n fu) with (complete_command_n (S (fu - 1))) by (f_equal; lia). by apply complete_command_gives.
Qed.

(** The loop leaves the last sequence to be read by the end. *)
Lemma wait_script l : forall b s i start cend endl arr,
  waiting i false start cend endl 10 arr s -> holds buf i (text_script b l) ->
  Forall (fun b => block_ok b /\ block_lone b) (b :: l) -> e + 1 = i + len (text_script b l) -> (length (text_script b l) + 1 < fu)%nat ->
  exists start' cend' arr' c, reaches (length (text_script b l)) s (waiting (e + 1) true start' cend' 1 10 arr') /\
    arr' ++ [c] = arr ++ map tree_block (b :: l) /\ gives (complete_command start' e) fu buf c.
Proof.
  induction l as [|b' l IH]; intros b s i start cend endl arr Hs Hh Hok He Hfu; apply Forall_cons in Hok as [[Hb Hlone] Hok].
  - cbn [text_script] in *. rewrite length_app in *. cbn [length] in *.
    destruct (wait_block b [10] s i start cend endl 10 arr) as (l & g & s1 & W1 & R1); [done|done|done|done|lia|lia|].
    destruct (run_end 10 s1 _ i l g arr [] R1) as (s2 & W2 & R2); [by right|by apply holds_suffix in Hh|lia|].
    eexists i, _, arr, (tree_block b). split_and!; [|done|].
    + exists s2. split; [by eapply walks_trans; [exact W1|exact W2|]|].
      replace (i + len (text_block b) + 1) with (e + 1) in R2 by lia. exact R2.
    + replace e with (i + len (text_block b ++ [10]) - 1) by (rewrite length_app; cbn [length]; lia).
      apply complete_block; [done|by repeat constructor|done|done|rewrite length_app; cbn [length]; lia].
  - change (text_script b (b' :: l)) with (text_block b ++ 10 :: 10 :: text_script b' l) in *.
    rewrite length_app in *. cbn [length] in *.
    destruct (wait_block b (10 :: 10 :: text_script b' l) s i start cend endl 10 arr) as (l1 & g1 & s1 & W1 & R1);
      [done|done|done|done|lia|lia|].
    pose proof (holds_suffix _ _ _ _ Hh) as H1. pose proof H1 as H2. apply holds_cons in H2 as [_ H2].
    destruct (run_end 10 s1 _ i l1 g1 arr (10 :: text_script b' l) R1) as (s2 & W2 & R2); [by right|exact H1|lia|].
    destruct (wait_push s2 _ i _ arr (tree_block b) (text_script b' l) R2 H2) as (s3 & W3 & R3); [lia| |].
    { replace (i + len (text_block b) - 1) with (i + len (text_block b ++ []) - 1) by by rewrite app_nil_r.
      apply complete_block; [rewrite app_nil_r; by apply holds_prefix in Hh|constructor|done|done|rewrite app_nil_r; lia]. }
    apply holds_cons in H2 as [_ H2].
    destruct (IH b' s3 _ _ _ _ _ R3 H2 Hok) as (st & ce & ar & c & (s4 & W4 & R4) & Ear & Hc); [lia|lia|].
    exists st, ce, ar, c. split_and!; [|by rewrite Ear, <- app_assoc|done].
    exists s4. split; [|done]. eapply walks_trans; [exact W1|eapply walks_trans; [exact W2|eapply walks_trans; [exact W3|exact W4|done]|done]|lia].
Qed.
End Script.

(** The space before the first command, and the number of the line where it ends *)
Fixpoint newlines (l : list Z) : Z := match l with [] => 0 | c :: l' => (if c =? 10 then 1 else 0) + newlines l' end.

Definition leading_at (end_ : Z) : Z * Z -> reader (Z * Z + Z * Z) :=
  fun '(i, line) =>
    if i <? end_ + 1 then
      c ← array_at i;
      mret (if isspace c then inl (i + 1, if c =? 10 then line + 1 else line) else inr (i, line))
    else mret (inr (i, line)).

Lemma leading_rounds l : forall s i line e fu t,
  holds s i (l ++ t) -> Forall (fun x => isspace x = true) l -> i + len l <= e + 1 ->
  goes (leading_at e) fu s (length l) (i, line) (i + len l, line + newlines l).
Proof.
  induction l as [|x l IH]; intros s i line e fu t Hh Hl He.
  { cbn. rewrite !Z.add_0_r. apply goes_refl. }
  apply Forall_cons in Hl as [Hx Hl]. cbn [length newlines app] in *.
  eapply goes_cons; [|replace (i + Z.of_nat (S (length l))) with (i + 1 + len l) by lia;
    replace (line + ((if x =? 10 then 1 else 0) + newlines l)) with ((if x =? 10 then line + 1 else line) + newlines l) by (destruct (x =? 10); lia);
    eapply IH; [by apply holds_cons in Hh as [_ Hh]; exact Hh|done|lia]].
  unfold leading_at. rewrite (proj2 (Z.ltb_lt _ _)) by lia. eapply gives_bind; [by eapply holds_at|]. cbv beta. rewrite Hx. apply gives_ret.
Qed.

Lemma skip_leading_gives s lead c t e fu :
  holds s 0 (lead ++ c :: t) -> Forall (fun x => isspace x = true) lead -> isspace c = false -> len lead <= e -> (length lead < fu)%nat ->
  gives (skip_leading 0 e) fu s (len lead, 1 + newlines lead).
Proof.
  intros Hh Hl Hc He Hfu. unfold skip_leading. fold (leading_at e).
  eapply goes_out; [eapply (leading_rounds lead s 0 1 e fu (c :: t)); [done|done|lia]| |done].
  unfold leading_at. rewrite (proj2 (Z.ltb_lt _ _)) by lia. apply holds_suffix in Hh.
  eapply gives_bind; [by eapply holds_at|]. cbv beta. rewrite Hc. apply gives_ret.
Qed.

Lemma text_script_solid b l : solid (text_block b) -> exists c t, text_script b l = c :: t /\ wordchar c = true.
Proof. intros [(x & u & E & Hx) _]. destruct l; cbn [text_script]; rewrite E; by eexists _, _. Qed.

Lemma solid_block b : block_ok b -> solid (text_block b).
Proof.
  intros [Hp Hl _ _]. apply solid_links; [by apply solid_pipeline|]. intros x g p Hin. by apply solid_pipeline, (Hl x g p).
Qed.

(** [split_everything] reads a script. *)
Lemma split_everything_gives lead b l fu :
  let s := lead ++ text_script b l in
  Forall (fun x => isspace x = true) lead -> Forall (fun b => block_ok b /\ block_lone b) (b :: l) -> (length s + 1 < fu)%nat ->
  gives (split_everything 0 (len s - 1)) fu s (inr (map tree_block (b :: l))).
Proof.
  intros s Hlead Hok Hfu. pose proof (holds_all s) as Hh. subst s. set (s := lead ++ text_script b l) in *. set (e := len s - 1).
  destruct (text_script_solid b l) as (c & t & E & Hc); [by apply Forall_inv in Hok as [? _]; apply solid_block|].
  assert (Hlen : len s = len lead + len (text_script b l)) by (subst s; rewrite length_app; lia).
  assert (0 < len (text_script b l)) by (rewrite E; cbn [length]; lia).
  set (line := 1 + newlines lead).
  assert (Hskip : gives (skip_leading 0 e) fu s (len lead, line)).
  { apply (skip_leading_gives s lead c t); [by rewrite <- E|done|by apply wordchar_space|lia|lia]. }
  unfold split_everything. eapply gives_bind; [exact Hskip|]. cbv beta iota. fold (split_at e).
  destruct (wait_script s fu e l b (start_split 0 e (len lead) line) (len lead) 0 e 0 [])
    as (start & cend & arr & d & (s1 & W & R) & Ear & Hd); [|by apply holds_suffix in Hh|done|lia|lia|].
  { exists line, 0, false. split; [lia|done]. }
  destruct R as (line' & semi & fword & _ & ->).
  eapply gives_bind.
  - eapply walks_out; [exact W| |lia]. unfold split_at. cbn [index]. rewrite (proj2 (Z.ltb_ge _ _)) by lia. apply gives_ret.
  - cbv beta iota. cbn [command_start command_array]. eapply gives_bind; [exact Hd|]. cbv beta.
    cbn [app] in Ear. rewrite Ear. apply gives_ret.
Qed.
