(* ===== verification/ShellReadSpec.v ===== *)
(** * What the shell's reader promises

    A script of sequences of pipelines is read as the trees that its text stands
    for; a command that cannot begin is a syntax error in the line where it is.
    The examples at the end show other scripts, with compound commands and
    subshells, and what the reader gets wrong. *)

From Stdlib Require Import String.
From S2P Require Import Prelude ShellExec ShellRead ShellText ShellWords ShellLines ShellFind ShellTree ShellScript.

(** ** Bytes that are characters *)

Definition ascii (c : Z) : Prop := 0 <= c < 128.

Lemma read_chars_ascii l : Forall ascii l -> read_chars l = l.
Proof.
  induction 1 as [|c l Hc Hl IH]; [done|]. unfold ascii in Hc. cbn [read_chars]. unfold char_of.
  rewrite Z.mod_small by lia. replace (c + 128 - 128) with c by lia. by rewrite (proj2 (Z.eqb_neq _ _)), IH by lia.
Qed.

Lemma isspace_ascii l : Forall (fun c => isspace c = true) l -> Forall ascii l.
Proof.
  intros Hl. eapply Forall_impl; [exact Hl|]. intros c Hc. unfold isspace in Hc.
  rewrite orb_true_iff, andb_true_iff, !Z.leb_le, Z.eqb_eq in Hc. unfold ascii. lia.
Qed.

Lemma simple_ascii c : simple_ok c -> Forall ascii (text_simple c).
Proof.
  intros Hok. eapply Forall_impl; [by apply text_simple_plain|]. intros x Hx. unfold plain_char in Hx.
  rewrite !orb_true_iff, !Z.eqb_eq in Hx. unfold ascii. destruct Hx as [[[Hx%wordchar_values|Hx]|Hx]|Hx]; lia.
Qed.

Lemma links_ascii {A} (text : A -> list Z) l :
  (forall x g a, (x, g, a) ∈ l -> ascii x /\ Forall ascii (text a)) -> Forall ascii (text_links text l).
Proof.
  induction l as [|[[x g] a] l IH]; intros Hl; [constructor|]. rewrite text_links_cons. unfold text_gap.
  assert (ascii 32) by (unfold ascii; lia). destruct (Hl x g a ltac:(by left)) as [Hx Ha].
  apply Forall_app. split; [apply Forall_app; split; [by apply Forall_replicate|constructor; [done|by apply Forall_replicate]]|].
  apply Forall_app. split; [done|]. apply IH. intros y h d Hd. apply (Hl y h d). by right.
Qed.

Lemma pipeline_ascii p : pipeline_ok p -> Forall ascii (text_pipeline p).
Proof.
  intros [Hc Hl]. apply Forall_app. split; [by apply simple_ascii|]. apply links_ascii. intros x g a Ha.
  destruct (Hl _ _ _ Ha) as [-> Hok]. split; [unfold ascii; lia|by apply simple_ascii].
Qed.

Lemma block_ascii b : block_ok b -> Forall ascii (text_block b).
Proof.
  intros [Hp Hl _ _]. apply Forall_app. split; [by apply pipeline_ascii|]. apply links_ascii. intros x g a Ha.
  destruct (Hl _ _ _ Ha) as [Hx Hok]. split; [unfold ascii; lia|by apply pipeline_ascii].
Qed.

Lemma script_ascii l : forall b, Forall (fun b => block_ok b /\ block_lone b) (b :: l) -> Forall ascii (text_script b l).
Proof.
  assert (H10 : ascii 10) by (unfold ascii; lia).
  induction l as [|b' l IH]; intros b Hok; apply Forall_cons in Hok as [[Hb _] Hok]; cbn [text_script].
  - apply Forall_app. split; [by apply block_ascii|by repeat constructor].
  - apply Forall_app. split; [by apply block_ascii|]. constructor; [done|]. constructor; [done|]. by apply IH.
Qed.

Lemma stream_gives fu s r :
  Forall ascii s -> gives (split_everything 0 (len s - 1)) fu s r ->
  make_command_stream fu s = Some match r with inl l => inl l | inr l => inr (Stream l 0) end.
Proof. intros Hs Hr. unfold make_command_stream. rewrite read_chars_ascii by done. cbv zeta. rewrite Hr. by destruct r. Qed.

(** ** The round trip *)

(** C8. The text of a script, sequences of pipelines that are separated by an empty
    line, is read as the list of their trees, in which ';', the end of a line and
    '|' group to the left; with any space before it and any blanks around the
    separators.  This holds if each sequence has fewer than ten separators of either
    kind and at most one pipeline of more than one command, and words have only
    word characters, the first of a command not being a reserved word.  A tree's
    words are buffers with the word's characters and one byte that is not set. *)
Theorem read_script lead b l fu :
  Forall (fun c => isspace c = true) lead -> Forall (fun b => block_ok b /\ block_lone b) (b :: l) ->
  (length (lead ++ text_script b l) + 1 < fu)%nat ->
  make_command_stream fu (lead ++ text_script b l) = Some (inr (Stream (map tree_block (b :: l)) 0)).
Proof.
  intros Hlead Hok Hfu. apply (stream_gives _ _ (inr _)); [|by apply split_everything_gives].
  apply Forall_app. split; [by apply isspace_ascii|by apply script_ascii].
Qed.

(** ** Syntax errors *)

(** A character that no command begins with *)
Definition no_command (c : Z) : Prop := c ∈ [59; 124; 60; 62; 41] \/ c <> 35 /\ check_char c 1 = false.

Lemma no_command_fails c s fu end_ i line :
  no_command c -> isspace c = false -> gives (on_char end_ c (start_split 0 end_ i line)) fu s None.
Proof.
  intros [Hc|[Hn Hc]] Hs.
  - set_unfold in Hc. destruct_or! Hc; subst c; apply gives_ret.
  - rewrite on_char_other.
    + unfold on_other. rewrite Hc. apply gives_ret.
    + intros Hin. set_unfold in Hin. destruct_or! Hin; subst c; discriminate.
Qed.

(** C21. A script whose first character cannot begin a command is a syntax error,
    reported with the number of the line where it is. *)
Theorem syntax_error_line lead c t fu :
  Forall (fun x => isspace x = true) lead -> no_command c -> ascii c -> isspace c = false -> Forall ascii t ->
  (length (lead ++ c :: t) + 1 < fu)%nat ->
  make_command_stream fu (lead ++ c :: t) = Some (inl (1 + newlines lead)).
Proof.
  intros Hlead Hc Hca Hcs Ht Hfu. apply (stream_gives _ _ (inl _)).
  { apply Forall_app. split; [by apply isspace_ascii|by constructor]. }
  set (s := lead ++ c :: t) in *. set (e := len s - 1). pose proof (holds_all s) as Hh.
  assert (Hlen : len s = len lead + 1 + len t) by (subst s; rewrite length_app; cbn [Datatypes.length]; lia).
  pose proof (holds_suffix _ _ _ _ Hh) as Hc1.
  unfold split_everything. eapply gives_bind.
  { eapply (skip_leading_gives s lead c t); [exact Hh|done|done|lia|lia]. }
  cbv beta iota. fold (split_at e). eapply gives_bind.
  { eapply (goes_out _ _ _ 0); [apply goes_refl| |lia]. unfold split_at. cbn [index start_split]. rewrite (proj2 (Z.ltb_lt _ _)) by lia.
    apply (gives_bind _ _ _ _ (inr (1 + newlines lead))); [|apply gives_ret]. unfold split_round. cbn [index start_split].
    eapply gives_bind; [by eapply holds_at|]. cbv beta.
    assert ((c =? 35) = false) as ->. { apply Z.eqb_neq. intros ->. destruct Hc as [Hc|[? _]]; [by set_unfold in Hc; intuition lia|done]. }
    cbn [andb]. cbv iota. eapply gives_bind; [by apply no_command_fails|]. apply gives_ret. }
  apply gives_ret.
Qed.

(** ** Witnesses and examples *)

Definition lines (l : list string) : list Z := concat (map (fun s => text s ++ [10]) l).
Definition plain (l : list string) : simple := Simple (map text l) None None.
Definition tight : gap := Gap 0 0.
Definition spaced : gap := Gap 1 1.

Ltac word_facts := vm_compute; repeat first [discriminate | constructor].
Ltac simple_facts :=
  split; [by eexists _, _|word_facts|intros ? [=]; subst; word_facts|intros ? [=]; subst; word_facts].

Definition read_block : block :=
  ((plain ["ls"; "-l"], [(124, spaced, Simple [text "wc"] None (Some (text "out")))]), [(59, Gap 0 1, (plain ["echo"; "hi"], []))])%string.
Definition read_last : block := ((Simple [text "cat"] (Some (text "in")) None, []), [])%string.

Ltac pipeline_facts := split; [simple_facts|intros x g a Ha; set_unfold in Ha; destruct_or? Ha; simplify_eq; first [done|split; [done|simple_facts]]].

Lemma read_block_ok : Forall (fun b => block_ok b /\ block_lone b) [read_block; read_last].
Proof.
  apply Forall_cons; split; [split; [split|]|apply Forall_cons; split; [split; [split|]|constructor]].
  - pipeline_facts.
  - intros x g a Ha. set_unfold in Ha. destruct_or? Ha; simplify_eq. split; [by left|pipeline_facts].
  - cbn. lia.
  - cbn. lia.
  - split; [by repeat constructor|done].
  - pipeline_facts.
  - intros x g a Ha. set_unfold in Ha. done.
  - cbn. lia.
  - cbn. lia.
  - done.
Qed.

(** A newline, then "ls -l | wc>out; echo hi", an empty line and "cat<in" *)
Lemma read_script_witness :
  [10] ++ text_script read_block [read_last] = lines [""; "ls -l | wc>out; echo hi"; ""; "cat<in"]%string /\
  make_command_stream 100 ([10] ++ text_script read_block [read_last]) = Some (inr (Stream [tree_block read_block; tree_block read_last] 0)).
Proof.
  split; [reflexivity|]. apply (read_script [10] read_block [read_last] 100).
  - by repeat constructor.
  - apply read_block_ok.
  - vm_compute. lia.
Defined.

Lemma syntax_error_line_witness :
  make_command_stream 100 ([10; 10] ++ 38 :: text "a"%string) = Some (inl 3).
Proof.
  apply (syntax_error_line [10; 10] 38 (text "a"%string) 100).
  - by repeat constructor.
  - right. split; [discriminate|reflexivity].
  - unfold ascii. lia.
  - reflexivity.
  - repeat constructor; unfold ascii; cbn; lia.
  - vm_compute. lia.
Defined.

(** Compound commands and subshells, with a redirection of the whole *)
Definition one (s : string) : command buffer := SIMPLE_COMMAND None None [buffer_of (text s)].

Example reads_compound :
  make_command_stream 200 (lines ["if a; then (b | c) >o; else while d"; "do e; done; fi"])%string =
  Some (inr (Stream [IF_COMMAND None None (one "a")
    (SUBSHELL_COMMAND None (Some (buffer_of (text "o"))) (PIPE_COMMAND (one "b") (one "c")))
    (Some (WHILE_COMMAND None None (one "d") (one "e")))] 0))%string.
Proof. vm_compute. reflexivity. Qed.

Example unfinished_compound : make_command_stream 200 (lines ["while a"; "do b"])%string = Some (inl 3).
Proof. vm_compute. reflexivity. Qed.

Example unclosed_subshell : make_command_stream 200 (lines ["(a"; "b"])%string = Some (inl 3).
Proof. vm_compute. reflexivity. Qed.

(** [pipe_command] takes the next pipe for the end of a command, also if a ';' comes before it. *)
Example pipe_beyond_semicolon :
  make_command_stream 200 (lines ["a|b;c|d"])%string =
  Some (inr (Stream [SEQUENCE_COMMAND (PIPE_COMMAND (one "a") (one "b;c")) (PIPE_COMMAND (one "c") (one "d"))] 0))%string.
Proof. vm_compute. reflexivity. Qed.

(** The last command is read twice if an empty line follows it. *)
Example last_command_twice :
  make_command_stream 200 (lines ["a"; ""])%string = Some (inr (Stream [one "a"; one "a"] 0))%string.
Proof. vm_compute. reflexivity. Qed.

(** A comment between the lines of a command is a command. *)
Example comment_is_command :
  make_command_stream 200 (lines ["a"; "# b"; "c"])%string =
  Some (inr (Stream [SEQUENCE_COMMAND (one "a"%string) (SIMPLE_COMMAND None None [buffer_of (text "# b"%string ++ [10] ++ text "c"%string)])] 0)).
Proof. vm_compute. reflexivity. Qed.

(** With ten separators the -1 at the end of [semis] is written beyond it. *)
Example ten_separators_overflow : make_command_stream 200 (lines ["a;b;c;d;e;f;g;h;i;j;k"])%string = None.
Proof. vm_compute. reflexivity. Qed.

(** Two blanks before a '<' make [remove_whitespace] ask for a negative size. *)
Example blanks_before_input : make_command_stream 200 (lines ["a  <b"])%string = None.
Proof. vm_compute. reflexivity. Qed.

(** A tab does not separate words. *)
Example tab_in_word :
  make_command_stream 200 (text "a"%string ++ [9] ++ text "b"%string ++ [10]) =
  Some (inr (Stream [SIMPLE_COMMAND None None [buffer_of (text "a"%string ++ [9] ++ text "b"%string)]] 0)).
Proof. vm_compute. reflexivity. Qed.

(** A pipe after a compound command is a syntax error. *)
Example pipe_after_compound : make_command_stream 200 (lines ["if a; then b; fi | c"])%string = Some (inl 1).
Proof. vm_compute. reflexivity. Qed.

(** The byte 255 is taken for the end of the input. *)
Example byte_255_ends :
  make_command_stream 200 (text "a"%string ++ [255] ++ text "b"%string) = Some (inr (Stream [one "a"] 0))%string.
Proof. vm_compute. reflexivity. Qed.

(** An empty script reads a buffer that was never set. *)
Example empty_script : make_command_stream 200 [] = None.
Proof. vm_compute. reflexivity. Qed.
