(* ===== verification/ShellPrint.v ===== *)
(** * The shell's printer (Lab1-Profiling-Shell/print-command.c)

    The text that [printf] writes to standard output, for a tree in memory.
    [None] is a simple command without words, or a word without a 0 behind it, for
    which C does not define the output.  A simple command whose words end with a 0
    is printed such that it is read back; anything with a ';' or '|' is not. *)

From Stdlib Require Import String.
From S2P Require Import Prelude ShellExec ShellRead ShellText ShellWords ShellLines ShellFind ShellTree ShellScript ShellReadSpec.

(** The tags of [enum command_type] *)
Inductive command_type := IF | PIPE | SEQUENCE | SIMPLE | SUBSHELL | UNTIL | WHILE.
#[export] Instance command_type_eq : EqDecision command_type.
Proof. solve_decision. Defined.

Definition type_of {chars} (c : command chars) : command_type :=
  match c with
  | IF_COMMAND _ _ _ _ _ => IF | PIPE_COMMAND _ _ => PIPE | SEQUENCE_COMMAND _ _ => SEQUENCE
  | SIMPLE_COMMAND _ _ _ => SIMPLE | SUBSHELL_COMMAND _ _ _ => SUBSHELL
  | UNTIL_COMMAND _ _ _ _ => UNTIL | WHILE_COMMAND _ _ _ _ => WHILE
  end.

(** [printf("%*s", indent, "")] *)
Definition indentation (indent : nat) : list Z := replicate indent 32.

(** [if (c->input) printf("<%s", c->input);], and the same for the output *)
Definition print_redirections (input output : option (list Z)) : option (list Z) :=
  t ← match input with Some w => s ← string_in_memory w; Some (60 :: s) | None => Some [] end;
  u ← match output with Some w => s ← string_in_memory w; Some (62 :: s) | None => Some [] end;
  Some (t ++ u).

(** [while ( *++w) printf(" %s", *w);] *)
Fixpoint print_more_words (word : list (list Z)) : option (list Z) :=
  match word with
  | [] => Some []
  | w :: l => s ← string_in_memory w; t ← print_more_words l; Some (32 :: s ++ t)
  end.
Definition print_words (word : list (list Z)) : option (list Z) :=
  match word with
  | [] => None
  | w :: l => s ← string_in_memory w; t ← print_more_words l; Some (s ++ t)
  end.

Fixpoint command_indented_print (indent : nat) (c : command (list Z)) : option (list Z) :=
  let loop_text (word : string) (c0 c1 : command (list Z)) :=
    t0 ← command_indented_print (indent + 2) c0;
    t1 ← command_indented_print (indent + 2) c1;
    Some (indentation indent ++ text word ++ [10] ++ t0 ++ [10] ++ indentation indent ++ text "do"%string ++ [10] ++ t1 ++
          [10] ++ indentation indent ++ text "done"%string) in
  let joined (separator : Z) (c0 c1 : command (list Z)) :=
    t0 ← command_indented_print (if decide (type_of c0 = type_of c) then indent else indent + 2) c0;
    t1 ← command_indented_print (if decide (type_of c1 = type_of c) then indent else indent + 2) c1;
    Some (t0 ++ [32; 92; 10] ++ indentation indent ++ [separator; 10] ++ t1) in
  match c with
  | IF_COMMAND input output c0 c1 c2 =>
      t0 ← command_indented_print (indent + 2) c0;
      t1 ← command_indented_print (indent + 2) c1;
      t2 ← match c2 with
           | Some c2 => t2 ← command_indented_print (indent + 2) c2;
                        Some ([10] ++ indentation indent ++ text "else"%string ++ [10] ++ t2)
           | None => Some []
           end;
      r ← print_redirections input output;
      Some (indentation indent ++ text "if"%string ++ [10] ++ t0 ++ [10] ++ indentation indent ++ text "then"%string ++ [10] ++ t1 ++ t2 ++
            [10] ++ indentation indent ++ text "fi"%string ++ r)
  | UNTIL_COMMAND input output c0 c1 => t ← loop_text "until"%string c0 c1; r ← print_redirections input output; Some (t ++ r)
  | WHILE_COMMAND input output c0 c1 => t ← loop_text "while"%string c0 c1; r ← print_redirections input output; Some (t ++ r)
  | SEQUENCE_COMMAND c0 c1 => joined 59 c0 c1
  | PIPE_COMMAND c0 c1 => joined 124 c0 c1
  | SIMPLE_COMMAND input output word =>
      t ← print_words word; r ← print_redirections input output; Some (indentation indent ++ t ++ r)
  | SUBSHELL_COMMAND input output c0 =>
      t0 ← command_indented_print (indent + 1) c0;
      r ← print_redirections input output;
      Some (indentation indent ++ [40; 10] ++ t0 ++ [10] ++ indentation indent ++ [41] ++ r)
  end.

Definition print_command (c : command (list Z)) : option (list Z) := t ← command_indented_print 2 c; Some (t ++ [10]).

(** ** Words that end with a 0, and others *)

(** The words and redirections of a simple command *)
Definition simple_words {chars} (c : command chars) : list chars :=
  match c with
  | SIMPLE_COMMAND input output word => word ++ option_list input ++ option_list output
  | _ => []
  end.
Definition terminated (m : list Z) : Prop := 0 ∈ m.

#[export] Instance terminated_dec m : Decision (terminated m).
Proof. unfold terminated. apply _. Defined.

Lemma held_word w m : word_ok w -> held (buffer_of w) m -> string_in_memory m = if decide (terminated m) then Some w else None.
Proof.
  intros [_ Hw] Hm. unfold held, buffer_of in Hm. revert m Hm. induction Hw as [|c w Hc Hw IH]; intros m Hm.
  - apply Forall2_cons_inv_l in Hm as (x & m' & _ & Hm & ->). apply Forall2_nil_inv_l in Hm as ->.
    unfold terminated. cbn [string_in_memory]. destruct (Z.eqb_spec x 0) as [->|Hx].
    + by rewrite decide_True by set_solver.
    + by rewrite decide_False by set_solver.
  - apply Forall2_cons_inv_l in Hm as (x & m' & [?|[= <-]] & Hm & ->); [done|].
    assert (c <> 0) by (apply wordchar_values in Hc; lia).
    cbn [string_in_memory]. rewrite (proj2 (Z.eqb_neq c 0)), (IH m' Hm) by done.
    rewrite (decide_ext (terminated m') (terminated (c :: m'))) by (unfold terminated; set_solver). by case_decide.
Qed.

Lemma held_name o m : name_ok o -> option_held (buffer_of <$> o) m ->
  option_string m = if decide (Forall terminated (option_list m)) then Some o else None.
Proof.
  intros Ho Hm. destruct o as [w|], m as [m|]; try done. cbn in Hm |- *.
  rewrite (held_word w m (Ho w eq_refl) Hm).
  rewrite (decide_ext (terminated m) (Forall terminated [m])) by (by rewrite Forall_singleton). by case_decide.
Qed.

Lemma held_words l : forall ms, Forall word_ok l -> Forall2 held (map buffer_of l) ms ->
  mapM string_in_memory ms = if decide (Forall terminated ms) then Some l else None.
Proof.
  induction l as [|w l IH]; intros ms Hl Hm.
  - apply Forall2_nil_inv_l in Hm as ->. by rewrite decide_True by constructor.
  - apply Forall2_cons_inv_l in Hm as (m & ms' & Hw & Hm & ->). apply Forall_cons in Hl as [Hok Hl].
    cbn [mapM]. rewrite (held_word w m Hok Hw), (IH ms' Hl Hm).
    rewrite (decide_ext (Forall terminated (m :: ms')) (terminated m /\ Forall terminated ms')) by apply Forall_cons.
    repeat case_decide; cbn; tauto || done.
Qed.

(** The executor's command of a simple command in memory. *)
Lemma simple_strings c m : simple_ok c -> tree_held (tree_simple c) m ->
  strings m = if decide (Forall terminated (simple_words m)) then Some (SIMPLE_COMMAND (input_name c) (output_name c) (args c)) else None.
Proof.
  intros [_ Hw Hi Ho] Hm. destruct m as [| | |i o ms| | |]; try done. destruct Hm as (Hmi & Hmo & Hmw). cbn [strings simple_words].
  rewrite (held_name _ _ Hi Hmi), (held_name _ _ Ho Hmo), (held_words _ _ Hw Hmw).
  rewrite (decide_ext (Forall terminated (ms ++ _)) (Forall terminated ms /\ Forall terminated (option_list i) /\ Forall terminated (option_list o)))
    by (by rewrite !Forall_app).
  repeat case_decide; cbn; tauto || done.
Qed.

(** ** What is printed is read *)

Lemma print_more_text ms : print_more_words ms = l ← mapM string_in_memory ms; Some (concat (map (fun v => 32 :: v) l)).
Proof. induction ms as [|m ms IH]; [done|]. cbn. rewrite IH. by destruct (string_in_memory m), (mapM string_in_memory ms). Qed.

Lemma text_words_concat w l : w ++ concat (map (fun v => 32 :: v) l) = text_words (w :: l).
Proof.
  revert w. induction l as [|v l IH]; intros w; [cbn; by rewrite app_nil_r|].
  change (text_words (w :: v :: l)) with (w ++ 32 :: text_words (v :: l)). by rewrite <- IH.
Qed.

(** A simple command is printed as the text of its strings. *)
Lemma print_simple i o ms : print_command (SIMPLE_COMMAND i o ms) =
  c ← strings (SIMPLE_COMMAND i o ms);
  match c with
  | SIMPLE_COMMAND i o (w :: l) =>
      Some ([32; 32] ++ ((w ++ concat (map (fun v => 32 :: v) l)) ++ text_redirect 60 i ++ text_redirect 62 o) ++ [10])
  | _ => None
  end.
Proof.
  unfold print_command. cbn [command_indented_print strings]. destruct ms as [|m ms].
  { cbn. by destruct (option_string i), (option_string o). }
  cbn [print_words mapM]. rewrite print_more_text. unfold print_redirections.
  destruct (string_in_memory m) as [w|], (mapM string_in_memory ms) as [l|], i as [i|], o as [o|]; cbn;
    repeat (destruct (string_in_memory _); cbn); by rewrite <- ?app_assoc.
Qed.

(** C28. A simple command, of words that have only word characters and whose first
    is not a reserved word, in the buffers that the reader makes: if the byte that
    is not set is 0 in each, it is printed such that it is read back as it was,
    and its strings are its words; if not, the reader's words are no strings, and
    what is printed is not defined. *)
Theorem print_then_read c m fu :
  simple_ok c -> tree_held (tree_simple c) m -> (length (text_simple c) + 4 < fu)%nat ->
  (Forall terminated (simple_words m) ->
    strings m = Some (SIMPLE_COMMAND (input_name c) (output_name c) (args c)) /\
    exists t, print_command m = Some t /\ make_command_stream fu t = Some (inr (Stream [tree_simple c] 0))) /\
  (~ Forall terminated (simple_words m) -> strings m = None /\ print_command m = None).
Proof.
  intros Hok Hm Hfu. pose proof (simple_strings c m Hok Hm) as Hs.
  destruct m as [| | |i o ms| | |]; try done. rewrite print_simple. split; intros Ht.
  2: { rewrite decide_False in Hs by done. by rewrite Hs. }
  rewrite decide_True in Hs by done. split; [done|]. rewrite Hs.
  destruct (so_first c Hok) as (w & l & Ew & _). destruct c as [ws ci co]. cbn [args input_name output_name] in *. subst ws.
  set (c := Simple (w :: l) ci co) in *. set (b := ((c, []), []) : block). exists ([32; 32] ++ text_script b []).
  assert (E : text_script b [] = text_simple c ++ [10]).
  { unfold b, text_script, text_block, text_pipeline. cbn [fst snd text_links map concat]. by rewrite !app_nil_r. }
  assert (Hb : block_ok b /\ block_lone b).
  { split; [|done]. split; [split; [done|]| |cbn; lia|cbn; lia]; cbn; intros x g a Ha; by set_unfold in Ha. }
  split; [by cbn [mbind option_bind]; rewrite E, text_words_concat|]. apply (stream_gives _ _ (inr [tree_simple c])).
  - apply Forall_app. split; [by repeat constructor|]. apply script_ascii. constructor; [exact Hb|constructor].
  - apply (split_everything_gives [32; 32] b [] fu); [by repeat constructor|constructor; [exact Hb|constructor]|].
    rewrite E, !length_app. cbn [length]. lia.
Qed.

(** "cat -n<in>out", with a 0 behind each word *)
Lemma print_then_read_witness :
  let c := Simple [text "cat"; text "-n"] (Some (text "in")) (Some (text "out")) in
  let m := SIMPLE_COMMAND (Some (text "in" ++ [0])) (Some (text "out" ++ [0])) [text "cat" ++ [0]; text "-n" ++ [0]] in
  exists t, print_command m = Some t /\ make_command_stream 100 t = Some (inr (Stream [tree_simple c] 0)).
Proof.
  intros c m. apply (print_then_read c m 100).
  - simple_facts.
  - cbn. unfold held. repeat first [by left | by right | constructor].
  - vm_compute. lia.
  - cbn. unfold terminated. repeat (constructor; [set_solver|]). constructor.
Defined.

(** A word with the byte 7 behind it is no string. *)
Example word_without_end : print_command (SIMPLE_COMMAND None None [text "ls"%string ++ [7]]) = None.
Proof. reflexivity. Qed.

Definition in_strings (s : string) : command (list Z) := SIMPLE_COMMAND None None [text s ++ [0]].

(** The '\' before a separator is not a character of a script. *)
Example printed_pipe_not_read :
  exists t, print_command (PIPE_COMMAND (in_strings "a") (in_strings "b")) = Some t /\ make_command_stream 100 t = Some (inl 1).
Proof. eexists. split; [reflexivity|]. vm_compute. reflexivity. Qed.
