(* ===== verification/BootDisk.v ===== *)
(** * The program that makes a boot disk (weensyos1/mkbootdisk.c)

    The state is the output, and what [write] will return, call by call: a part
    written, an interruption, a failure; after that it writes everything.  The
    host's files are an argument, by their names.  [oops] stands for [usage()],
    which ends the program with status 1.  [size_t] and [unsigned long] have 32
    bits, as on the machine the labs run on. *)

From S2P Require Import Prelude CMemory Fmt ShellText.

Inductive write_result := Wrote (w : nat) | Interrupted | Failed.

Record maker := Maker { output : list Z; curoff : Z; results : list write_result }.

(** [maxoff] is never set. *)
Definition maxoff : Z := 0.

Definition next_write (amt : nat) (s : maker) : write_result * list write_result :=
  match results s with [] => (Wrote amt, []) | r :: rs => (r, rs) end.

(** One round of the loop, with what is left to write *)
Definition write_some (data : list Z) : prog maker (list Z + unit) :=
  if bool_decide (data = []) then mret (inr tt)
  else
    s ← get;
    let '(r, rs) := next_write (length data) s in
    match r with
    | Failed => oops
    | Interrupted => put (Maker (output s) (curoff s) rs);; mret (inl data)
    | Wrote w =>
        let w := Nat.min w (length data) in
        if bool_decide (w = 0%nat) then oops
        else put (Maker (output s ++ take w data) (curoff s + Z.of_nat w) rs);; mret (inl (drop w data))
    end.

Definition diskwrite (data : list Z) : prog maker unit :=
  s ← get;
  if negb (maxoff =? 0) && (maxoff <? curoff s + len data) then oops
  else loop write_some data.

Definition SECTOR : Z := 512.
Definition zerobuf : list Z := replicate 512 0.

(** [strtoul(text, &str, 0)] of a text that begins with a digit: the number and
    the rest. *)
Definition strtoul (text : list Z) : Z * list Z :=
  let '(v, rest) :=
    match text with
    | c :: x :: d :: l' =>
        if (c =? 48) && ((x =? 120) || (x =? 88)) && (digit d <? 16) then digits 16 0 (d :: l')
        else digits (if c =? 48 then 8 else 10) 0 text
    | c :: _ => digits (if c =? 48 then 8 else 10) 0 text
    | [] => (0, [])
    end in
  (Z.min v (2 ^ 32 - 1), rest).

(** "@X": the sector to skip to. *)
Definition skipto_sector (arg : list Z) : option Z :=
  match arg with
  | a :: d :: l =>
      if (a =? 64) && ((48 <=? d) && (d <=? 57)) then
        match strtoul (d :: l) with (v, []) => Some v | _ => None end
      else None
  | _ => None
  end.

(** Zero sectors up to the sector [to]. *)
Definition fill_to (to nsectors : Z) : prog maker Z :=
  loop (fun n => if n <? to then diskwrite zerobuf;; mret (inl (u32 (n + 1))) else mret (inr n)) nsectors.

Definition BUFFER : nat := 4096.

(** A file, in pieces, and zeros to the end of its last sector. *)
Definition copy_file (f : list Z) : prog maker Z :=
  pos ← loop (fun '(rest, pos) =>
    let buf := take BUFFER rest in
    if bool_decide (buf = []) then mret (inr pos)
    else diskwrite buf;; mret (inl (drop BUFFER rest, u32 (pos + len buf)))) (f, 0);
  if pos mod SECTOR =? 0 then mret pos
  else
    diskwrite (take (Z.to_nat (SECTOR - pos mod SECTOR)) zerobuf);;
    mret (u32 (pos + (SECTOR - pos mod SECTOR))).

Definition boot_sector (f : list Z) : prog maker unit :=
  let buf := take BUFFER f in
  if 510 <? len buf then oops
  else diskwrite (buf ++ replicate (510 - length buf) 0 ++ [0x55; 0xAA]).

Section Host.
Variable files : list Z -> option (list Z).

Fixpoint write_args (args : list (list Z)) (nsectors : Z) : prog maker Z :=
  match args with
  | [] => mret nsectors
  | a :: args' =>
      match skipto_sector a with
      | Some to => if to <? nsectors then oops else n ← fill_to to nsectors; write_args args' n
      | None => deref (files a) (fun f => pos ← copy_file f; write_args args' (u32 (nsectors + pos / SECTOR)))
      end
  end.

(** [main], with the arguments after the program's name. *)
Definition mkbootdisk (argv : list (list Z)) : prog maker unit :=
  match argv with
  | [] => oops
  | boot :: args =>
      deref (files boot) (fun f =>
      boot_sector f;;
      nsectors ← write_args args 1;
      _ ← fill_to 1024 nsectors; mret tt)
  end.

(** ** What the disk should be *)

(** Zeros up to a multiple of 512. *)
Definition padded (l : list Z) : list Z := l ++ replicate (Z.to_nat ((- len l) mod SECTOR)) 0.

Fixpoint image_of (args : list (list Z)) (img : list Z) : option (list Z) :=
  match args with
  | [] => Some img
  | a :: args' =>
      match skipto_sector a with
      | Some to => if SECTOR * to <? len img then None else image_of args' (img ++ replicate (Z.to_nat (SECTOR * to - len img)) 0)
      | None => f ← files a; image_of args' (img ++ padded f)
      end
  end.

Definition disk_image (argv : list (list Z)) : option (list Z) :=
  match argv with
  | [] => None
  | boot :: args =>
      f ← files boot;
      if 510 <? len f then None
      else
        img ← image_of args (f ++ replicate (510 - length f) 0 ++ [0x55; 0xAA]);
        Some (img ++ replicate (Z.to_nat (SECTOR * 1024 - len img)) 0)
  end.
End Host.
