(* ===== verification/BootDiskSpec.v ===== *)
(** * The boot disk is what it should be *)

From Stdlib Require Import String.
From S2P Require Import Prelude CMemory ShellExec ShellText BootDisk.

(** A host whose [write]s make progress: any sizes, and interruptions. *)
Definition progress (r : write_result) : Prop := match r with Wrote w => w <> 0%nat | Interrupted => True | Failed => False end.
Definition works (rs : list write_result) : Prop := Forall progress rs.

(** The program went from [s] to [s'] and wrote [l]. *)
Definition wrote (l : list Z) (s s' : maker) : Prop := output s' = output s ++ l /\ exists k, results s' = drop k (results s).

Lemma wrote_nil s : wrote [] s s.
Proof. split; [by rewrite app_nil_r|]. by exists 0%nat. Qed.

Lemma wrote_app l1 l2 s1 s2 s3 : wrote l1 s1 s2 -> wrote l2 s2 s3 -> wrote (l1 ++ l2) s1 s3.
Proof. intros [O1 [k1 E1]] [O2 [k2 E2]]. split; [by rewrite O2, O1, app_assoc|]. exists (k1 + k2)%nat. by rewrite E2, E1, drop_drop. Qed.

Lemma wrote_works l s s' : wrote l s s' -> works (results s) -> works (results s').
Proof. intros [_ [k ->]]. apply Forall_drop. Qed.

Lemma wrote_results l s s' : wrote l s s' -> (length (results s') <= length (results s))%nat.
Proof. intros [_ [k ->]]. rewrite length_drop. lia. Qed.

(** [c] writes [l] and gives [a]; [N] bounds the writes' results that are left. *)
Definition writes {A} (c : prog maker A) (fu N : nat) (a : A) (l : list Z) : Prop :=
  forall s, works (results s) -> (length (results s) <= N)%nat -> exists s', c fu s = Ret a s' /\ wrote l s s'.

Lemma writes_ret {A} fu N (a : A) : writes (mret a) fu N a [].
Proof. intros s _ _. exists s. split; [done|apply wrote_nil]. Qed.

Lemma writes_bind {A B} (c : prog maker A) (f : A -> prog maker B) fu N a b l1 l2 :
  writes c fu N a l1 -> writes (f a) fu N b l2 -> writes (c ≫= f) fu N b (l1 ++ l2).
Proof.
  intros H1 H2 s Hw HN. destruct (H1 s Hw HN) as (s1 & E1 & W1).
  destruct (H2 s1) as (s2 & E2 & W2); [by eapply wrote_works|apply wrote_results in W1; lia|].
  exists s2. split; [|by eapply wrote_app]. unfold mbind, prog_bind. by rewrite E1.
Qed.

(** A loop, round by round *)
Lemma writes_loop {X R} (body : X -> prog maker (X + R)) fu N : forall n x r l,
  (forall m, (n <= m)%nat -> writes (fun fu => loop_n m body x fu) fu N r l) -> (n <= fu)%nat -> writes (loop body x) fu N r l.
Proof. intros n x r l H Hn s Hw HN. by apply (H fu Hn s). Qed.

Lemma writes_round {X R} (body : X -> prog maker (X + R)) fu N n x y r l1 l2 :
  writes (body x) fu N (inl y) l1 -> (forall m, (n <= m)%nat -> writes (fun fu => loop_n m body y fu) fu N r l2) ->
  forall m, (S n <= m)%nat -> writes (fun fu => loop_n m body x fu) fu N r (l1 ++ l2).
Proof.
  intros H1 H2 [|m] Hm; [lia|]. intros s Hw HN. destruct (H1 s Hw HN) as (s1 & E1 & W1).
  destruct (H2 m ltac:(lia) s1) as (s2 & E2 & W2); [by eapply wrote_works|apply wrote_results in W1; lia|].
  exists s2. split; [|by eapply wrote_app]. cbn. by rewrite E1.
Qed.

Lemma writes_leave {X R} (body : X -> prog maker (X + R)) fu N x r l :
  writes (body x) fu N (inr r) l -> forall m, (1 <= m)%nat -> writes (fun fu => loop_n m body x fu) fu N r l.
Proof. intros H [|m] Hm; [lia|]. intros s Hw HN. destruct (H s Hw HN) as (s1 & E1 & W1). exists s1. split; [|done]. cbn. by rewrite E1. Qed.

Lemma write_some_goes data fu s : data <> [] -> works (results s) ->
  exists v s1, write_some data fu s = Ret (inl (drop v data)) s1 /\ wrote (take v data) s s1 /\
    (length (drop v data) + length (results s1) < length data + length (results s))%nat.
Proof.
  intros Hd Hw. assert (Hl : (0 < length data)%nat) by (destruct data; [done|cbn; lia]).
  unfold write_some. rewrite bool_decide_eq_false_2 by done. unfold mbind, prog_bind, get, put, next_write.
  destruct (results s) as [|r rs] eqn:E.
  - rewrite Nat.min_id, bool_decide_eq_false_2 by lia. exists (length data). eexists. split; [done|]. split.
    + split; [done|]. exists 0%nat. by rewrite E.
    + rewrite length_drop. cbn. lia.
  - apply Forall_cons in Hw as [Hr _]. destruct r as [w| |]; [|exists 0%nat|done].
    + cbn in Hr. rewrite bool_decide_eq_false_2 by lia. exists (Nat.min w (length data)). eexists. split; [done|]. split.
      * split; [done|]. exists 1%nat. by rewrite E.
      * rewrite length_drop. cbn. lia.
    + eexists. split; [done|]. split.
      * split; [cbn; by rewrite app_nil_r|]. exists 1%nat. by rewrite E.
      * rewrite drop_0. cbn. lia.
Qed.

(** [diskwrite] writes everything, whatever sizes the host's [write]s have. *)
Lemma diskwrite_writes data fu N : (length data + N < fu)%nat -> writes (diskwrite data) fu N tt data.
Proof.
  intros Hfu s Hw HN. enough (exists s', loop_n fu write_some data fu s = Ret tt s' /\ wrote data s s') as H by exact H.
  assert (Hn : (length data + length (results s) < fu)%nat) by lia. clear Hfu HN. revert Hn. generalize fu at 1 2. intros n.
  revert data s Hw. induction n as [|n IH]; intros data s Hw Hn; [lia|].
  destruct (decide (data = [])) as [->|Hd]; [exists s; split; [done|apply wrote_nil]|].
  destruct (write_some_goes data fu s Hd Hw) as (v & s1 & E & W & Hlt).
  destruct (IH (drop v data) s1) as (s2 & E2 & W2); [by eapply wrote_works|lia|].
  exists s2. split.
  - cbn [loop_n]. by rewrite E.
  - rewrite <- (take_drop v data). by eapply wrote_app.
Qed.

(** ** The parts of the program *)

Lemma zerobuf_length : length zerobuf = 512%nat.
Proof. apply length_replicate. Qed.

Lemma fill_to_writes to n fu N :
  0 <= n -> to < 2 ^ 32 -> (512 + N < fu)%nat -> to - n < Z.of_nat fu ->
  writes (fill_to to n) fu N (Z.max to n) (replicate (Z.to_nat (SECTOR * (to - n))) 0).
Proof.
  intros Hn Hto Hfu Hk. apply (writes_loop _ _ _ (S (Z.to_nat (to - n)))); [|lia].
  remember (Z.to_nat (to - n)) as k eqn:Ek. revert n Hn Hk Ek. induction k as [|k IH]; intros n Hn Hk Ek.
  - apply writes_leave. rewrite (proj2 (Z.ltb_ge _ _)) by lia. replace (Z.max to n) with n by lia.
    replace (Z.to_nat (SECTOR * (to - n))) with 0%nat by (unfold SECTOR; lia). apply writes_ret.
  - replace (replicate (Z.to_nat (SECTOR * (to - n))) 0) with ((zerobuf ++ []) ++ replicate (Z.to_nat (SECTOR * (to - (n + 1)))) 0).
    2: { rewrite app_nil_r. unfold zerobuf. rewrite <- replicate_add. f_equal. unfold SECTOR. lia. }
    eapply writes_round; [|replace (Z.max to n) with (Z.max to (n + 1)) by lia; apply (IH (n + 1)); lia].
    rewrite (proj2 (Z.ltb_lt _ _)) by lia. eapply writes_bind; [apply diskwrite_writes; rewrite zerobuf_length; lia|].
    rewrite u32_small by lia. apply writes_ret.
Qed.

Lemma pieces_write N fu : (4096 + N < fu)%nat -> forall k rest pos, len rest <= Z.of_nat k * 4096 -> 0 <= pos -> pos + len rest < 2 ^ 32 ->
  forall m, (S k <= m)%nat -> writes (fun fu => loop_n m (fun '(rest, pos) =>
    let buf := take BUFFER rest in
    if bool_decide (buf = []) then mret (inr pos)
    else diskwrite buf;; mret (inl (drop BUFFER rest, u32 (pos + len buf)))) (rest, pos) fu) fu N (pos + len rest) rest.
Proof.
  intros Hfu. induction k as [|k IH]; intros rest pos Hk Hp Hmax.
  - destruct rest; [|cbn [length] in Hk; lia]. replace (pos + len []) with pos by (cbn; lia).
    intros m Hm. apply writes_leave; [apply writes_ret|lia].
  - destruct (decide (rest = [])) as [->|Hne].
    { replace (pos + len []) with pos by (cbn; lia). intros m Hm. apply writes_leave; [apply writes_ret|lia]. }
    assert (Hbuf : take BUFFER rest <> []) by (by destruct rest).
    assert (Hlen : (length (take BUFFER rest) <= 4096)%nat) by (rewrite length_take; unfold BUFFER; lia).
    assert (Hsum : len rest = len (take BUFFER rest) + len (drop BUFFER rest)).
    { rewrite <- (take_drop BUFFER rest) at 1. rewrite length_app. lia. }
    replace (pos + len rest) with ((pos + len (take BUFFER rest)) + len (drop BUFFER rest)) by lia.
    assert (Hr : writes (let buf := take BUFFER rest in
        if bool_decide (buf = []) then mret (inr pos)
        else diskwrite buf;; mret (inl (drop BUFFER rest, u32 (pos + len buf)))) fu N
        (inl (drop BUFFER rest, pos + len (take BUFFER rest)) : list Z * Z + Z) (take BUFFER rest ++ [])).
    { cbv zeta. rewrite bool_decide_eq_false_2 by done. eapply writes_bind; [apply diskwrite_writes; lia|].
      rewrite u32_small by lia. apply writes_ret. }
    intros m Hm. pose proof (writes_round _ fu N (S k) (rest, pos) _ _ _ _ Hr (IH (drop BUFFER rest) (pos + len (take BUFFER rest))
      ltac:(rewrite length_drop; unfold BUFFER; lia) ltac:(lia) ltac:(lia)) m Hm) as Hall.
    rewrite app_nil_r, take_drop in Hall. exact Hall.
Qed.

Lemma length_padded l : len (padded l) = len l + (- len l) mod SECTOR.
Proof.
  unfold padded. rewrite length_app, length_replicate. pose proof (Z.mod_pos_bound (- len l) SECTOR). unfold SECTOR in *. lia.
Qed.

Lemma copy_file_writes f fu N : (4096 + N + length f < fu)%nat -> len (padded f) < 2 ^ 32 -> writes (copy_file f) fu N (len (padded f)) (padded f).
Proof.
  intros Hfu Hmax. pose proof (length_padded f) as Hlen. pose proof (Z.mod_pos_bound (- len f) SECTOR ltac:(done)) as Hm.
  set (v := len (padded f)) in *. unfold copy_file, padded. eapply writes_bind.
  { apply (writes_loop _ fu N (S (length f)) _ (0 + len f) f); [|lia]. apply pieces_write; lia. }
  rewrite Z.add_0_l.
  destruct (Z.eqb_spec (len f mod SECTOR) 0) as [E|E].
  - assert (E' : (- len f) mod SECTOR = 0) by (unfold SECTOR in *; divlia). replace v with (len f) by lia. rewrite E'. apply writes_ret.
  - assert (E' : (- len f) mod SECTOR = SECTOR - len f mod SECTOR) by (unfold SECTOR in *; divlia).
    rewrite <- (app_nil_r (replicate _ _)). eapply writes_bind.
    + replace (replicate (Z.to_nat ((- len f) mod SECTOR)) 0) with (take (Z.to_nat (SECTOR - len f mod SECTOR)) zerobuf).
      { apply diskwrite_writes. rewrite length_take, zerobuf_length. lia. }
      unfold zerobuf. rewrite take_replicate, E'. f_equal. unfold SECTOR in *. lia.
    + rewrite u32_small by lia. replace (len f + (SECTOR - len f mod SECTOR)) with v by lia. apply writes_ret.
Qed.

Section Host.
Variable files : list Z -> option (list Z).

(** The image only grows, in whole sectors. *)
Lemma image_of_grows args : forall img l, image_of files args img = Some l -> (SECTOR | len img) -> len img <= len l /\ (SECTOR | len l).
Proof.
  induction args as [|a args IH]; intros img l; cbn [image_of]; [by intros [= <-]|].
  destruct (skipto_sector a) as [to|].
  - destruct (Z.ltb_spec (SECTOR * to) (len img)) as [|Hle]; [done|]. intros Hl Hd. apply IH in Hl as [Hl1 Hl2].
    + rewrite length_app, length_replicate in Hl1. split; [lia|done].
    + rewrite length_app, length_replicate. replace (Z.of_nat _) with (SECTOR * to) by lia. by apply Z.divide_factor_l.
  - destruct (files a) as [f|]; [|done]. cbn. intros Hl Hd. apply IH in Hl as [Hl1 Hl2].
    + rewrite length_app in Hl1. split; [lia|done].
    + rewrite length_app, Nat2Z.inj_add, length_padded. apply Z.divide_add_r; [done|]. unfold SECTOR.
      exists ((len f + 511) / 512). divlia.
Qed.

Lemma image_of_prefix args : forall img l, image_of files args img = Some l -> img `prefix_of` l.
Proof.
  induction args as [|a args IH]; intros img l; cbn [image_of]; [by intros [= <-]|].
  destruct (skipto_sector a) as [to|].
  - destruct (_ <? _); [done|]. intros Hl%IH. by eapply prefix_app_l.
  - destruct (files a) as [f|]; [|done]. cbn. intros Hl%IH. by eapply prefix_app_l.
Qed.

(** The first file begins at sector 1. *)
Lemma disk_image_first boot kname args l k :
  disk_image files (boot :: kname :: args) = Some l -> files kname = Some k -> skipto_sector kname = None ->
  exists b t, l = b ++ k ++ t /\ length b = 512%nat.
Proof.
  cbn [disk_image image_of]. intros Hl Hk Hs. rewrite Hs, Hk in Hl. destruct (files boot) as [f|]; [|done].
  cbn [mbind option_bind] in Hl. destruct (Z.ltb_spec 510 (len f)) as [|Hf]; [done|].
  destruct (image_of files args _) as [img|] eqn:Ei; [|done]. cbn in Hl. injection Hl as <-.
  apply image_of_prefix in Ei as [t ->].
  match goal with |- context [replicate (Z.to_nat (SECTOR * 1024 - ?n)) 0] => generalize (replicate (Z.to_nat (SECTOR * 1024 - n)) 0) end.
  intros z. unfold padded.
  exists (f ++ replicate (510 - length f) 0 ++ [85; 170]), (replicate (Z.to_nat ((- len k) mod SECTOR)) 0 ++ t ++ z). split.
  - by rewrite <- !app_assoc.
  - rewrite !length_app, length_replicate. cbn [length]. lia.
Qed.

(** An image of bytes *)
Lemma image_of_bytes args : (forall n f, files n = Some f -> bytes f) -> forall img l, image_of files args img = Some l -> bytes img -> bytes l.
Proof.
  intros Hf. assert (Hz : forall n, bytes (replicate n 0)) by (intros; apply Forall_replicate; cbv beta; lia).
  induction args as [|a args IH]; intros img l; cbn [image_of]; [by intros [= <-]|].
  destruct (skipto_sector a) as [to|].
  - destruct (_ <? _); [done|]. intros Hl Hi. eapply IH; [exact Hl|]. apply Forall_app. split; [exact Hi|apply Hz].
  - destruct (files a) as [f|] eqn:E; [|done]. cbn. intros Hl Hi. eapply IH; [exact Hl|].
    apply Forall_app. split; [exact Hi|]. apply Forall_app. split; [by eapply Hf|apply Hz].
Qed.

Lemma disk_image_bytes argv l : (forall n f, files n = Some f -> bytes f) -> disk_image files argv = Some l -> bytes l.
Proof.
  intros Hf. assert (Hz : forall n, bytes (replicate n 0)) by (intros; apply Forall_replicate; cbv beta; lia).
  destruct argv as [|boot args]; [done|]. cbn [disk_image]. destruct (files boot) as [f|] eqn:E; [|done]. cbn [mbind option_bind].
  destruct (_ <? _); [done|]. destruct (image_of files args _) as [img|] eqn:Ei; [|done]. cbn. intros [= <-].
  apply Forall_app. split; [|apply Hz]. eapply image_of_bytes; [exact Hf|exact Ei|]. apply Forall_app. split; [by eapply Hf|].
  apply Forall_app. split; [apply Hz|]. repeat constructor; lia.
Qed.

(** A disk with one file *)
Lemma disk_image_one boot kname f k :
  files boot = Some f -> len f <= 510 -> skipto_sector kname = None -> files kname = Some k ->
  exists l, disk_image files [boot; kname] = Some l /\ len l <= 1024 + len k + SECTOR * 1024.
Proof.
  intros Hf Hlen Hs Hk. cbn [disk_image image_of]. rewrite Hf, Hs, Hk. cbn [mbind option_bind].
  rewrite (proj2 (Z.ltb_ge _ _)) by lia. eexists. split; [reflexivity|].
  pose proof (length_padded k) as Hp. pose proof (Z.mod_pos_bound (- len k) SECTOR ltac:(done)) as Hm.
  rewrite !length_app, !length_replicate. cbn [length]. unfold SECTOR in *. lia.
Qed.

Lemma write_args_writes args : forall img n l fu N,
  len img = SECTOR * n -> image_of files args img = Some l -> len l < 2 ^ 31 -> 4096 + Z.of_nat N + len l < Z.of_nat fu ->
  exists t, l = img ++ t /\ writes (write_args files args n) fu N (len l / SECTOR) t.
Proof.
  induction args as [|a args IH]; intros img n l fu N Hn Hl Hmax Hfu; cbn [image_of write_args] in *.
  - injection Hl as <-. exists []. rewrite app_nil_r, Hn, Z.mul_comm, Z.div_mul by done. split; [done|apply writes_ret].
  - assert (Hdiv : (SECTOR | len img)) by (rewrite Hn; apply Z.divide_factor_l). destruct (skipto_sector a) as [to|].
    + rewrite Hn in Hl. assert (E : (SECTOR * to <? SECTOR * n) = (to <? n)) by (unfold SECTOR; zcases). rewrite E in Hl. clear E.
      destruct (Z.ltb_spec to n) as [|Hle]; [done|].
      set (z := replicate (Z.to_nat (SECTOR * to - SECTOR * n)) 0) in *.
      assert (Hz : len (img ++ z) = SECTOR * to) by (unfold z; rewrite length_app, length_replicate; unfold SECTOR in *; lia).
      destruct (image_of_grows _ _ _ Hl) as [Hge _]; [rewrite Hz; apply Z.divide_factor_l|].
      destruct (IH _ to _ fu N Hz Hl Hmax Hfu) as (t & -> & Ht). exists (z ++ t). split; [by rewrite app_assoc|].
      eapply writes_bind; [|exact Ht]. replace to with (Z.max to n) at 2 by lia.
      unfold z. rewrite <- Z.mul_sub_distr_l. apply fill_to_writes; unfold SECTOR in *; lia.
    + destruct (files a) as [f|]; [|done]. cbn [mbind option_bind] in Hl.
      assert (Hz : len (img ++ padded f) = SECTOR * (n + len (padded f) / SECTOR)).
      { rewrite length_app, Nat2Z.inj_add, Hn. pose proof (length_padded f). unfold SECTOR in *. divlia. }
      destruct (image_of_grows _ _ _ Hl) as [Hge _]; [rewrite Hz; apply Z.divide_factor_l|]. rewrite length_app in Hge.
      pose proof (length_padded f) as Hp. pose proof (Z.mod_pos_bound (- len f) SECTOR ltac:(done)) as Hm.
      destruct (IH _ _ _ fu N Hz Hl Hmax Hfu) as (t & -> & Ht). exists (padded f ++ t). split; [by rewrite app_assoc|].
      cbn [deref]. eapply writes_bind; [apply copy_file_writes; lia|].
      rewrite u32_small; [done|]. unfold SECTOR in *. divlia.
Qed.

Lemma mkbootdisk_writes argv l fu N :
  disk_image files argv = Some l -> len l < 2 ^ 31 -> 4096 + Z.of_nat N + len l < Z.of_nat fu ->
  writes (mkbootdisk files argv) fu N tt l.
Proof.
  intros Hl Hmax Hfu. destruct argv as [|boot args]; [done|]. cbn [disk_image mkbootdisk] in *.
  destruct (files boot) as [f|]; [|done]. cbn [mbind option_bind deref] in *. destruct (Z.ltb_spec 510 (len f)) as [|Hf]; [done|].
  set (b := f ++ replicate (510 - length f) 0 ++ [0x55; 0xAA]) in *.
  assert (Hb : len b = SECTOR * 1) by (unfold b, SECTOR; rewrite !length_app, length_replicate; cbn [length]; lia).
  destruct (image_of files args b) as [img|] eqn:E; [|done]. cbn in Hl. injection Hl as <-.
  destruct (image_of_grows _ _ _ E) as [Hge [k Hk]]; [rewrite Hb; apply Z.divide_factor_l|].
  rewrite length_app, length_replicate in *.
  destruct (write_args_writes args b 1 img fu N Hb E) as (t & -> & Ht); [lia|lia|].
  rewrite <- app_assoc. apply (writes_bind _ _ _ _ tt).
  - unfold boot_sector. rewrite take_ge by (unfold BUFFER; lia). rewrite (proj2 (Z.ltb_ge _ _)) by lia. fold b. apply diskwrite_writes. unfold SECTOR in *. lia.
  - eapply writes_bind; [exact Ht|]. rewrite <- (app_nil_r (replicate _ _)). eapply writes_bind; [|apply writes_ret].
    rewrite Hk, Z.div_mul by done.
    replace (SECTOR * 1024 - k * SECTOR) with (SECTOR * (1024 - k)) by (unfold SECTOR; lia). apply fill_to_writes; unfold SECTOR in *; lia.
Qed.
End Host.

(** [mkbootdisk] writes exactly the boot disk: the boot sector with its
    signature, each file from the next whole sector on, zeros up to each sector
    that is skipped to, and at least 1024 sectors; whatever sizes the [write]s of
    the host have, and with any interruptions. *)
Theorem mkbootdisk_image files argv l rs fu :
  disk_image files argv = Some l -> len l < 2 ^ 31 -> works rs -> 4096 + Z.of_nat (length rs) + len l < Z.of_nat fu ->
  exists s, mkbootdisk files argv fu (Maker [] 0 rs) = Ret tt s /\ output s = l /\ SECTOR * 1024 <= len l /\ (SECTOR | len l).
Proof.
  intros Hl Hmax Hw Hfu. destruct (mkbootdisk_writes files argv l fu (length rs) Hl Hmax Hfu (Maker [] 0 rs) Hw) as (s & E & Ho & _); [done|].
  exists s. split; [done|]. split; [done|]. destruct argv as [|boot args]; [done|]. cbn [disk_image] in Hl.
  destruct (files boot) as [f|]; [|done]. cbn [mbind option_bind] in Hl. destruct (Z.ltb_spec 510 (len f)) as [|Hf]; [done|].
  destruct (image_of files args _) as [img|] eqn:Ei; [|done]. cbn in Hl. injection Hl as <-.
  destruct (image_of_grows _ _ _ _ Ei) as [Hge [k Hk]].
  { rewrite !length_app, length_replicate. exists 1. unfold SECTOR. cbn [length]. lia. }
  rewrite length_app, length_replicate. unfold SECTOR in *. split; [lia|]. exists (Z.max k 1024). lia.
Qed.
