(* ===== verification/BootLoad.v ===== *)
(** * The boot loader (weensyos1/mpos-boot.c)

    The state is the memory and the disk's drive, which the code reaches through
    the input and output instructions of x86.h: the class [Drive].  [DriveLaws]
    says what a drive does that keeps the sectors [disk]: after the command to read
    a sector it becomes ready, within [bound] polls of its status, and gives the
    sector's bytes. *)

From S2P Require Import Prelude CMemory Mpos.

(** ** The drive *)

(** [inb(port)], [outb(port, data)], and [insl(port, addr, cnt)], which gives
    4 * cnt bytes. *)
Class Drive (W : Type) := {
  inb : W -> Z -> Z * W;
  outb : W -> Z -> Z -> W;
  insl : W -> Z -> Z -> list Z * W
}.

(** The drive after [n] or fewer polls of the status, the last of which says that
    it is ready. *)
Fixpoint polls {W} `{Drive W} (n : nat) (w : W) : option W :=
  match n with
  | O => None
  | S n' => let '(v, w') := inb w 0x1F7 in if Z.land v 0xC0 =? 0x40 then Some w' else polls n' w'
  end.

(** The command to read one sector by its number of 28 bits *)
Definition read_command {W} `{Drive W} (w : W) (lba : Z) : W :=
  outb (outb (outb (outb (outb (outb w 0x1F2 1) 0x1F3 (lba mod 2 ^ 8)) 0x1F4 (lba / 2 ^ 8 mod 2 ^ 8))
    0x1F5 (lba / 2 ^ 16 mod 2 ^ 8)) 0x1F6 (0xE0 + lba / 2 ^ 24)) 0x1F7 0x20.

Class DriveLaws (W : Type) `{Drive W} (disk : Z -> list Z) (bound : nat) := {
  idle : W -> Prop;
  drive_ready w : idle w -> exists w', polls bound w = Some w' /\ idle w';
  drive_reads w lba : idle w -> 0 <= lba < 2 ^ 28 ->
    exists w' w'', polls bound (read_command w lba) = Some w' /\ insl w' 0x1F0 128 = (disk lba, w'') /\ idle w'';
  disk_sector lba : bytes (disk lba) /\ length (disk lba) = 512%nat
}.

(** ** The loader *)

Record machine (W : Type) := Machine { ram : mem; drive : W }.
Arguments Machine {W} ram drive.
Arguments ram {W} m.
Arguments drive {W} m.

Section Loader.
Context {W : Type} `{Drive W}.

(** A memory access *)
Definition in_ram {A} (c : prog mem A) : prog (machine W) A := fun fu s =>
  match c fu (ram s) with Ret a m => Ret a (Machine m (drive s)) | Oops => Oops | Hang => Hang end.
Definition out (port data : Z) : prog (machine W) unit := s ← get; put (Machine (ram s) (outb (drive s) port (u8 data))).

Definition SECTORSIZE : Z := 512.
Definition ELFHDR : Z := 0x10000.

Definition waitdisk : prog (machine W) unit :=
  loop (fun _ =>
    s ← get;
    let '(v, w) := inb (drive s) 0x1F7 in
    put (Machine (ram s) w);;
    mret (if Z.land v 0xC0 =? 0x40 then inr tt else inl tt)) tt.

Definition readsect (dst sect : Z) : prog (machine W) unit :=
  waitdisk;;
  out 0x1F2 1;;
  out 0x1F3 sect;;
  out 0x1F4 (Z.shiftr sect 8);;
  out 0x1F5 (Z.shiftr sect 16);;
  out 0x1F6 (Z.lor (Z.shiftr sect 24) 0xE0);;
  out 0x1F7 0x20;;
  waitdisk;;
  s ← get;
  let '(data, w) := insl (drive s) 0x1F0 (SECTORSIZE / 4) in
  put (Machine (st_bytes (ram s) dst data) w).

Definition readseg (va filesz memsz sect : Z) : prog (machine W) unit :=
  let end_va := u32 (va + filesz) in
  let memsz := u32 (memsz + va) in
  let va := Z.land va (Z.lnot (SECTORSIZE - 1)) in
  loop (fun '(va, sect) =>
    if va <? end_va then readsect va sect;; mret (inl (u32 (va + SECTORSIZE), u32 (sect + 1)))
    else mret (inr tt)) (va, sect);;
  loop (fun end_va =>
    if end_va <? memsz then in_ram (store8 end_va 0);; mret (inl (u32 (end_va + 1)))
    else mret (inr tt)) end_va.

(** The address that is jumped to, unless there is no kernel. *)
Definition bootmain : prog (machine W) (option Z) :=
  readseg ELFHDR PAGESIZE PAGESIZE 1;;
  magic ← in_ram (load32 (e_magic ELFHDR));
  if negb (magic =? ELF_MAGIC) then mret None
  else
    phoff ← in_ram (load32 (e_phoff ELFHDR));
    lo ← in_ram (load8 (e_phnum ELFHDR));
    hi ← in_ram (load8 (e_phnum ELFHDR + 1));
    let ph := ELFHDR + phoff in
    let eph := ph + SIZEOF_PROGHDR * (lo + 2 ^ 8 * hi) in
    loop (fun ph =>
      if ph <? eph then
        va ← in_ram (load32 (p_va ph));
        filesz ← in_ram (load32 (p_filesz ph));
        memsz ← in_ram (load32 (p_memsz ph));
        offset ← in_ram (load32 (p_offset ph));
        readseg va filesz memsz (1 + offset / SECTORSIZE);;
        mret (inl (ph + SIZEOF_PROGHDR))
      else mret (inr tt)) ph;;
    entry ← in_ram (load32 (e_entry ELFHDR));
    mret (Some entry).

End Loader.
