(* ===== verification/BootLoadSpec.v ===== *)
(** * The boot loader loads a kernel from a boot disk *)

From Stdlib Require Import String.
From S2P Require Import Prelude CMemory Mpos ShellExec ShellText BootDisk BootDiskSpec BootLoad.

Section Loader.
Context {W : Type} {D : Drive W} {disk : Z -> list Z} {bound : nat} {L : DriveLaws W disk bound}.
Implicit Types (s t : machine W).

(** The byte [x] of the disk *)
Definition disk_byte (x : Z) : Z := default 0 (disk (x / 512) !! Z.to_nat (x mod 512)).

Lemma wp_waitdisk k fu s w (Q : unit -> machine W -> Prop) :
  polls k (drive s) = Some w -> (k <= fu)%nat -> Q tt (Machine (ram s) w) -> wp waitdisk fu s Q.
Proof.
  unfold waitdisk, wp, loop. generalize fu at 1 2. intros n Hp Hn HQ.
  revert n Hn s Hp HQ. induction k as [|k IH]; intros n Hn s Hp HQ; [done|]. destruct n as [|n]; [lia|].
  cbn in Hp |- *. unfold mbind, prog_bind, get, put. destruct (inb (drive s) 0x1F7) as [v w1] eqn:E. cbn.
  destruct (Z.land v 192 =? 64); [by injection Hp as ->|]. apply (IH n ltac:(lia) (Machine (ram s) w1)); done.
Qed.

Lemma wp_out fu s port data (Q : unit -> machine W -> Prop) :
  Q tt (Machine (ram s) (outb (drive s) port (u8 data))) -> wp (out port data) fu s Q.
Proof. done. Qed.

(** The four parts of the sector's number *)
Lemma sector_parts sect : 0 <= sect < 2 ^ 28 ->
  u8 sect = sect mod 2 ^ 8 /\ u8 (Z.shiftr sect 8) = sect / 2 ^ 8 mod 2 ^ 8 /\ u8 (Z.shiftr sect 16) = sect / 2 ^ 16 mod 2 ^ 8 /\
  u8 (Z.lor (Z.shiftr sect 24) 0xE0) = 0xE0 + sect / 2 ^ 24.
Proof.
  intros Hs. rewrite !Z.shiftr_div_pow2 by lia. split; [done|]. split; [done|]. split; [done|].
  assert (Hk : 0 <= sect / 2 ^ 24 < 16) by divlia. remember (sect / 2 ^ 24) as k eqn:E. clear - Hk.
  assert (k = 0 \/ k = 1 \/ k = 2 \/ k = 3 \/ k = 4 \/ k = 5 \/ k = 6 \/ k = 7 \/ k = 8 \/ k = 9 \/ k = 10 \/ k = 11 \/ k = 12 \/
    k = 13 \/ k = 14 \/ k = 15) as Hc by lia. by destruct_or! Hc; subst k.
Qed.

Lemma wp_readsect fu s dst sect (Q : unit -> machine W -> Prop) :
  idle (drive s) -> 0 <= sect < 2 ^ 28 -> (bound <= fu)%nat ->
  (forall t, ram t = st_bytes (ram s) dst (disk sect) -> idle (drive t) -> Q tt t) ->
  wp (readsect dst sect) fu s Q.
Proof.
  intros Hi Hs Hfu HQ. destruct (sector_parts sect Hs) as (E1 & E2 & E3 & E4).
  destruct (drive_ready (disk := disk) _ Hi) as (w & Hw & Hi').
  destruct (drive_reads w sect Hi' Hs) as (w1 & w2 & Hp & Hr & Hi2).
  unfold readsect. apply wp_bind. eapply wp_waitdisk; [exact Hw|done|]. do 6 (apply wp_bind, wp_out).
  cbn [ram drive]. rewrite E1, E2, E3, E4. apply wp_bind. eapply wp_waitdisk; [exact Hp|done|].
  apply wp_bind, wp_get. cbn [ram drive]. change (SECTORSIZE / 4) with 128. rewrite Hr. apply wp_put. by apply HQ.
Qed.

Lemma wp_in_ram {A} (c : prog mem A) fu s (Q : A -> machine W -> Prop) :
  wp c fu (ram s) (fun a m => Q a (Machine m (drive s))) -> wp (in_ram c) fu s Q.
Proof. unfold wp, in_ram. by destruct (c fu (ram s)). Qed.

Lemma sector_start va : Z.land va (Z.lnot (SECTORSIZE - 1)) = va - va mod 512.
Proof.
  change (SECTORSIZE - 1) with (Z.ones 9). rewrite <- Z.ldiff_land, Z.ldiff_ones_r by lia.
  rewrite Z.shiftl_mul_pow2, Z.shiftr_div_pow2 by lia. change (2 ^ 9) with 512. divlia.
Qed.

Lemma disk_byte_in sect i : 0 <= i < 512 -> disk sect !! Z.to_nat i = Some (disk_byte (512 * sect + i)).
Proof.
  intros Hi. unfold disk_byte. replace ((512 * sect + i) / 512) with sect by divlia. replace ((512 * sect + i) mod 512) with i by divlia.
  destruct (disk_sector (disk := disk) sect) as [_ Hl].
  by destruct (lookup_lt_is_Some_2 (disk sect) (Z.to_nat i) ltac:(rewrite Hl; lia)) as [v ->].
Qed.

Lemma disk_byte_range x : 0 <= disk_byte x < 2 ^ 8.
Proof.
  unfold disk_byte. destruct (disk_sector (disk := disk) (x / 512)) as [Hb _].
  destruct (disk (x / 512) !! _) as [v|] eqn:E; [|cbn; lia]. by apply (Forall_lookup_1 _ _ _ _ Hb E).
Qed.

(** The sectors of a segment *)
Lemma wp_sectors base end_va sect0 fu s (Q : unit -> machine W -> Prop) :
  idle (drive s) -> 0 <= base -> end_va < 2 ^ 32 - 512 -> 0 <= sect0 -> sect0 + (end_va + 511 - base) / 512 < 2 ^ 28 ->
  (bound <= fu)%nat -> end_va + 512 - base < Z.of_nat fu -> (0 < fu)%nat ->
  (forall t, idle (drive t) -> (forall i, 0 <= i < end_va - base -> ld8 (ram t) (base + i) = disk_byte (512 * sect0 + i)) ->
     changes (within base (end_va + 512)) (ram s) (ram t) -> Q tt t) ->
  wp (loop (fun '(va, sect) =>
    if va <? end_va then readsect va sect;; mret (inl (u32 (va + SECTORSIZE), u32 (sect + 1)))
    else mret (inr tt)) (base, sect0)) fu s Q.
Proof.
  intros Hi Hbase Hend Hs0 Hsect Hb Hfu Hpos HQ.
  apply (wp_loop (fun '(va, sect) t => exists j, 0 <= j /\ va = base + 512 * j /\ sect = sect0 + j /\ (j = 0 \/ va < end_va + 512) /\ idle (drive t) /\
      changes (within base va) (ram s) (ram t) /\ forall i, 0 <= i < 512 * j -> ld8 (ram t) (base + i) = disk_byte (512 * sect0 + i))
    (fun '(va, _) => Z.to_nat (end_va + 512 - va))).
  - exists 0. split_and!; try lia; [done|apply changes_refl].
  - lia.
  - intros [va sect] t (j & Hj & -> & -> & Hva & Hit & Hch & Hd). destruct (Z.ltb_spec (base + 512 * j) end_va) as [Hlt|Hge].
    + apply wp_bind. assert (sect0 + j < 2 ^ 28) by (assert (j <= (end_va + 511 - base) / 512) by divlia; lia).
      apply wp_readsect; [done|lia|done|]. intros t' Hram Hi'. apply wp_ret. cbv beta iota.
      rewrite !u32_small by (unfold SECTORSIZE; lia). split; [|unfold SECTORSIZE; lia].
      destruct (disk_sector (disk := disk) (sect0 + j)) as [_ Hl].
      exists (j + 1). split_and!; [lia|unfold SECTORSIZE; lia|lia|unfold SECTORSIZE; lia|done| |].
      * rewrite Hram. intros x Hx. unfold within, SECTORSIZE in Hx. rewrite ld8_st_bytes_out by (rewrite Hl; lia).
        apply Hch. unfold within. lia.
      * intros i Hi2. rewrite Hram. destruct (Z.lt_ge_cases i (512 * j)) as [Hlo|Hhi].
        -- rewrite ld8_st_bytes_out by lia. apply Hd. lia.
        -- replace (base + i) with (base + 512 * j + Z.of_nat (Z.to_nat (i - 512 * j))) by lia.
           rewrite (ld8_st_bytes_in _ _ _ _ _ (disk_byte_in (sect0 + j) (i - 512 * j) ltac:(lia))).
           rewrite u8_small by apply disk_byte_range. f_equal. lia.
    + apply wp_ret. apply HQ; [done| |].
      * intros i Hi2. apply Hd. lia.
      * eapply changes_weaken; [exact Hch|]. unfold within. lia.
Qed.

(** The BSS *)
Lemma wp_bss a b fu s (Q : unit -> machine W -> Prop) :
  0 <= a -> b < 2 ^ 32 -> b - a < Z.of_nat fu -> (0 < fu)%nat ->
  (forall t, drive t = drive s -> changes (within a b) (ram s) (ram t) -> (forall x, a <= x < b -> ld8 (ram t) x = 0) -> Q tt t) ->
  wp (loop (fun end_va => if end_va <? b then in_ram (store8 end_va 0);; mret (inl (u32 (end_va + 1))) else mret (inr tt)) a) fu s Q.
Proof.
  intros Ha Hb Hfu Hpos HQ.
  apply (wp_loop (fun x t => a <= x /\ (x <= b \/ x = a) /\ drive t = drive s /\ changes (within a b) (ram s) (ram t) /\
      forall y, a <= y < x -> ld8 (ram t) y = 0) (fun x => Z.to_nat (b - x))).
  - split_and!; try lia; [done|apply changes_refl].
  - lia.
  - intros x t (Hx & Hxb & Hdr & Hch & Hz). destruct (Z.ltb_spec x b) as [Hlt|Hge].
    + apply wp_bind, wp_in_ram, wp_store8, wp_ret. rewrite u32_small by lia. split; [|lia]. cbn [ram drive]. split_and!; [lia|lia|done| |].
      * intros y Hy. rewrite ld8_st8_ne; [by apply Hch|]. intros <-. apply Hy. unfold within. lia.
      * intros y Hy. rewrite ld8_st8. case_decide; [done|]. apply Hz. lia.
    + apply wp_ret. apply HQ; [done|done|]. intros y Hy. apply Hz. lia.
Qed.

(** A segment: the disk's bytes from the sector's beginning on, at the multiple of
    512 below its address, then zeros. *)
Lemma wp_readseg va filesz memsz sect fu s (Q : unit -> machine W -> Prop) :
  idle (drive s) -> 0 <= va -> 0 <= filesz <= memsz -> va + memsz < 2 ^ 32 - 512 -> 0 <= sect -> sect + (filesz + 1022) / 512 < 2 ^ 28 ->
  (bound <= fu)%nat -> memsz + 1024 < Z.of_nat fu ->
  (forall t, idle (drive t) ->
     (forall i, 0 <= i < filesz -> ld8 (ram t) (va + i) = disk_byte (512 * sect + va mod 512 + i)) ->
     (forall i, filesz <= i < memsz -> ld8 (ram t) (va + i) = 0) ->
     changes (within (va - va mod 512) (va + memsz + 512)) (ram s) (ram t) -> Q tt t) ->
  wp (readseg va filesz memsz sect) fu s Q.
Proof.
  intros Hi Hva Hsz Hmax Hs0 Hsect Hb Hfu HQ. pose proof (Z.mod_pos_bound va 512 ltac:(lia)) as Hm. pose proof (Z.mod_le va 512 Hva ltac:(lia)) as Hle.
  unfold readseg. cbv zeta. rewrite sector_start, (u32_small (va + filesz)), (u32_small (memsz + va)) by lia.
  apply wp_bind, wp_sectors; [done|lia|lia|done| |done|lia|lia|].
  { assert ((va + filesz + 511 - (va - va mod 512)) / 512 <= (filesz + 1022) / 512); [|lia]. apply Z.div_le_mono; lia. }
  intros t Hit Hd Hch. apply wp_bss; [lia|lia|lia|lia|]. intros t' Hdr Hch' Hz. apply HQ; [by rewrite Hdr| | |].
  - intros i Hi2. rewrite Hch' by (unfold within; lia). replace (va + i) with (va - va mod 512 + (va mod 512 + i)) by lia.
    rewrite Hd by lia. f_equal. lia.
  - intros i Hi2. apply Hz. lia.
  - eapply changes_trans; (eapply changes_weaken; [eassumption|unfold within; lia]).
Qed.

(** ** Kernels

    The program headers of the ELF file [K]. *)
Definition phnum (K : mem) : Z := ld8 K (e_phnum 0) + 2 ^ 8 * ld8 K (e_phnum 0 + 1).
Definition phdr (K : mem) (j : Z) : Z := ld32 K (e_phoff 0) + SIZEOF_PROGHDR * j.
Definition seg_va (K : mem) (j : Z) : Z := ld32 K (p_va (phdr K j)).
Definition seg_offset (K : mem) (j : Z) : Z := ld32 K (p_offset (phdr K j)).
Definition seg_filesz (K : mem) (j : Z) : Z := ld32 K (p_filesz (phdr K j)).
Definition seg_memsz (K : mem) (j : Z) : Z := ld32 K (p_memsz (phdr K j)).

(** A kernel that can be loaded: its headers are in its first page; each segment
    lies above the scratch space, at its place in the file modulo 512, and is not
    touched by the sectors of a later one. *)
Record kernel_ok (K : mem) (limit : Z) : Prop := {
  ko_magic : ld32 K (e_magic 0) = ELF_MAGIC;
  ko_limit : 0 <= limit;
  ko_headers : ld32 K (e_phoff 0) + SIZEOF_PROGHDR * phnum K <= 4096;
  ko_segment j : 0 <= j < phnum K ->
    ELFHDR + 4096 + 512 <= seg_va K j /\ seg_va K j mod 512 = seg_offset K j mod 512 /\ seg_filesz K j <= seg_memsz K j <= limit /\
    seg_va K j + seg_memsz K j < 2 ^ 32 - 512;
  ko_apart j j' : 0 <= j < j' -> j' < phnum K ->
    seg_va K j + seg_memsz K j <= seg_va K j' - seg_va K j' mod 512 \/ seg_va K j' + seg_memsz K j' + 512 <= seg_va K j
}.

Context (K : mem).

Definition header_at t : Prop := forall i, 0 <= i < 4096 -> ld8 (ram t) (ELFHDR + i) = ld8 K i.

Lemma header_ld32 t i : header_at t -> 0 <= i -> i + 4 <= 4096 -> ld32 (ram t) (ELFHDR + i) = ld32 K i.
Proof. intros Hh Hi He. unfold ld32. rewrite <- !Z.add_assoc, !Hh by lia. done. Qed.

(** A segment is in its place. *)
Definition loaded t (j : Z) : Prop :=
  (forall i, 0 <= i < seg_filesz K j -> ld8 (ram t) (seg_va K j + i) = disk_byte (512 + seg_offset K j + i)) /\
  (forall i, seg_filesz K j <= i < seg_memsz K j -> ld8 (ram t) (seg_va K j + i) = 0).

Lemma loaded_keep t t' j lo hi : loaded t j -> changes (within lo hi) (ram t) (ram t') ->
  seg_va K j + seg_memsz K j <= lo \/ hi <= seg_va K j -> seg_filesz K j <= seg_memsz K j -> loaded t' j.
Proof.
  intros [H1 H2] Hch Hd Hsz. pose proof (ld32_range K (p_filesz (phdr K j))) as Hr. split; intros i Hi; (rewrite Hch; [auto|]); unfold within, seg_filesz in *; lia.
Qed.

Lemma header_keep t t' lo hi : header_at t -> changes (within lo hi) (ram t) (ram t') -> ELFHDR + 4096 <= lo -> header_at t'.
Proof. intros Hh Hch Hd i Hi. rewrite Hch by (unfold within; lia). by apply Hh. Qed.

Lemma wp_segments limit fu s (Q : unit -> machine W -> Prop) :
  kernel_ok K limit -> idle (drive s) -> header_at s -> (bound <= fu)%nat -> limit + 1024 < Z.of_nat fu ->
  (forall t, header_at t -> (forall j, 0 <= j < phnum K -> loaded t j) -> Q tt t) ->
  wp (loop (fun ph =>
      if ph <? ELFHDR + ld32 K (e_phoff 0) + SIZEOF_PROGHDR * phnum K then
        va ← in_ram (load32 (p_va ph));
        filesz ← in_ram (load32 (p_filesz ph));
        memsz ← in_ram (load32 (p_memsz ph));
        offset ← in_ram (load32 (p_offset ph));
        readseg va filesz memsz (1 + offset / SECTORSIZE);;
        mret (inl (ph + SIZEOF_PROGHDR))
      else mret (inr tt)) (ELFHDR + ld32 K (e_phoff 0))) fu s Q.
Proof.
  intros Hok Hi Hh Hb Hfu HQ. pose proof (ko_headers _ _ Hok) as Hhd. pose proof (ld32_range K (e_phoff 0)) as Hoff.
  assert (Hn : 0 <= phnum K) by (unfold phnum; pose proof (ld8_range K (e_phnum 0)); pose proof (ld8_range K (e_phnum 0 + 1)); lia).
  assert (Hlim : phnum K <= 128) by (unfold SIZEOF_PROGHDR in *; lia).
  pose proof (ko_limit _ _ Hok) as Hl0.
  apply (wp_loop (fun ph t => exists j, 0 <= j <= phnum K /\ ph = ELFHDR + phdr K j /\ idle (drive t) /\ header_at t /\ forall j', 0 <= j' < j -> loaded t j')
    (fun ph => Z.to_nat ((ELFHDR + phdr K (phnum K) - ph) / SIZEOF_PROGHDR))).
  - exists 0. split_and!; try done; [unfold phdr; lia|intros; lia].
  - unfold phdr. replace (ELFHDR + (ld32 K (e_phoff 0) + SIZEOF_PROGHDR * phnum K) - (ELFHDR + ld32 K (e_phoff 0))) with (phnum K * SIZEOF_PROGHDR) by lia.
    rewrite Z.div_mul by done. lia.
  - intros ph t (j & Hj & -> & Hit & Hht & Hld). destruct (Z.ltb_spec (ELFHDR + phdr K j) (ELFHDR + ld32 K (e_phoff 0) + SIZEOF_PROGHDR * phnum K)) as [Hlt|Hge].
    + assert (Hjn : j < phnum K) by (unfold phdr, SIZEOF_PROGHDR in *; lia).
      destruct (ko_segment _ _ Hok j ltac:(lia)) as (Hva & Hmod & Hsz & Hmax).
      assert (Hfield : forall o, 0 <= o <= 28 -> ld32 (ram t) (ELFHDR + phdr K j + o) = ld32 K (phdr K j + o)).
      { intros o Ho. rewrite <- Z.add_assoc. apply header_ld32; [done| |]; unfold phdr, SIZEOF_PROGHDR in *; lia. }
      do 4 (apply wp_bind, wp_in_ram, wp_load32). destruct t as [m w]. cbn [ram drive] in *.
      unfold p_va, p_filesz, p_memsz, p_offset in *. rewrite !Hfield by lia.
      fold (p_va (phdr K j)) (p_filesz (phdr K j)) (p_memsz (phdr K j)) (p_offset (phdr K j)).
      fold (seg_va K j) (seg_filesz K j) (seg_memsz K j) (seg_offset K j).
      pose proof (ld32_range K (p_filesz (phdr K j))) as Hfr. pose proof (ld32_range K (p_offset (phdr K j))) as Hor.
      apply wp_bind, wp_readseg; try done; try (unfold seg_va, seg_filesz, seg_offset, SECTORSIZE, ELFHDR in *; divlia).
      intros t' Hi' Hd Hz Hch. cbn [ram] in Hch. apply wp_ret. split.
      * exists (j + 1). split_and!; [lia|lia|unfold phdr; lia|done| |].
        -- eapply header_keep; [exact Hht|exact Hch|]. unfold ELFHDR in *. divlia.
        -- intros j' Hj'. destruct (decide (j' = j)) as [->|Hne].
           ++ split; [|done]. intros i Hi2. rewrite Hd by done. f_equal. unfold SECTORSIZE. divlia.
           ++ destruct (ko_segment _ _ Hok j' ltac:(lia)) as (_ & _ & Hsz' & _).
              eapply loaded_keep; [apply Hld; lia|exact Hch| |lia]. destruct (ko_apart _ _ Hok j' j ltac:(lia) Hjn) as [?|?]; [left|right]; lia.
      * unfold phdr. replace (ELFHDR + (ld32 K (e_phoff 0) + SIZEOF_PROGHDR * phnum K) - (ELFHDR + (ld32 K (e_phoff 0) + SIZEOF_PROGHDR * j) + SIZEOF_PROGHDR))
          with ((phnum K - j - 1) * SIZEOF_PROGHDR) by lia.
        replace (ELFHDR + (ld32 K (e_phoff 0) + SIZEOF_PROGHDR * phnum K) - (ELFHDR + (ld32 K (e_phoff 0) + SIZEOF_PROGHDR * j)))
          with ((phnum K - j) * SIZEOF_PROGHDR) by lia. rewrite !Z.div_mul by done. lia.
    + apply wp_ret. apply HQ; [done|]. intros j' Hj'. apply Hld. unfold phdr, SIZEOF_PROGHDR in *. lia.
Qed.

Lemma wp_bootmain limit fu s (Q : option Z -> machine W -> Prop) :
  kernel_ok K limit -> (forall i, 0 <= i < 4096 -> ld8 K i = disk_byte (512 + i)) -> idle (drive s) -> (bound <= fu)%nat ->
  limit + 8192 < Z.of_nat fu ->
  (forall t, (forall j, 0 <= j < phnum K -> loaded t j) -> Q (Some (ld32 K (e_entry 0))) t) ->
  wp bootmain fu s Q.
Proof.
  intros Hok HK Hi Hb Hfu HQ. pose proof (ko_limit _ _ Hok) as Hl0. unfold bootmain. apply wp_bind, wp_readseg; try done; try (unfold ELFHDR, PAGESIZE; lia).
  intros t Hit Hd _ _. assert (Hh : header_at t).
  { intros i Hi2. rewrite (Hd i) by done. rewrite HK by done. f_equal. }
  apply wp_bind, wp_in_ram, wp_load32. cbn [ram].
  assert (Hf : forall o, 0 <= o <= 4092 -> ld32 (ram t) (ELFHDR + o) = ld32 K o) by (intros; apply header_ld32; [done|lia|lia]).
  assert (Hm : ld32 (ram t) (e_magic ELFHDR) = ld32 K (e_magic 0)) by exact (Hf 0 ltac:(lia)).
  assert (Hp : ld32 (ram t) (e_phoff ELFHDR) = ld32 K (e_phoff 0)) by exact (Hf 28 ltac:(lia)).
  rewrite Hm, (ko_magic _ _ Hok). change (negb (ELF_MAGIC =? ELF_MAGIC)) with false. cbv iota. destruct t as [m w]. cbn [ram drive] in *.
  apply wp_bind, wp_in_ram, wp_load32. cbn [ram drive]. apply wp_bind, wp_in_ram, wp_load8, wp_bind, wp_in_ram, wp_load8. cbn [ram drive]. cbv zeta.
  rewrite Hp. assert (En : ld8 m (e_phnum ELFHDR) + 2 ^ 8 * ld8 m (e_phnum ELFHDR + 1) = phnum K).
  { unfold phnum, e_phnum. rewrite <- Z.add_assoc. cbn [ram] in Hh. pose proof (Hh 44 ltac:(lia)) as E1. pose proof (Hh (44 + 1) ltac:(lia)) as E2.
    cbn [ram] in E1, E2. by rewrite E1, E2. }
  rewrite En. apply wp_bind. eapply wp_segments; [exact Hok|exact Hit|exact Hh|done|lia|].
  intros t Hht Hld. apply wp_bind, wp_in_ram, wp_load32, wp_ret. cbn [ram drive].
  assert (He : ld32 (ram t) (e_entry ELFHDR) = ld32 K (e_entry 0)) by (apply (header_ld32 t 24 Hht); lia).
  rewrite He. destruct t as [m' w']. by apply HQ.
Qed.
End Loader.

(** ** From the files to the memory *)

(** The sectors of a disk with the bytes [l] *)
Definition sectors (l : list Z) (lba : Z) : list Z := take 512 (drop (Z.to_nat (512 * lba)) l ++ replicate 512 0).

Lemma sectors_byte l x : 0 <= x < len l -> disk_byte (disk := sectors l) x = default 0 (l !! Z.to_nat x).
Proof.
  intros Hx. unfold disk_byte, sectors. rewrite lookup_take_lt by divlia. rewrite lookup_app_l by (rewrite length_drop; divlia).
  rewrite lookup_drop. f_equal. f_equal. divlia.
Qed.

(** C33. A kernel whose file comes first after the boot sector is booted: the program
    makes a disk, whatever sizes the [write]s of the host have, and on any drive
    with the sectors of that disk the boot loader jumps to the kernel's entry
    point, with every segment in its place: the bytes of the file, then zeros. *)
Theorem disk_boots files boot kname args l k limit rs fu :
  disk_image files (boot :: kname :: args) = Some l -> len l < 2 ^ 31 -> files kname = Some k -> skipto_sector kname = None ->
  bytes k -> 4096 <= len k -> kernel_ok (st_bytes ∅ 0 k) limit ->
  (forall j, 0 <= j < phnum (st_bytes ∅ 0 k) -> seg_offset (st_bytes ∅ 0 k) j + seg_filesz (st_bytes ∅ 0 k) j <= len k) ->
  works rs -> 4096 + Z.of_nat (length rs) + len l < Z.of_nat fu -> limit + 8192 < Z.of_nat fu ->
  exists t, mkbootdisk files (boot :: kname :: args) fu (Maker [] 0 rs) = Ret tt t /\ output t = l /\
    forall (W : Type) (D : Drive W) (bound : nat) (L : DriveLaws W (sectors l) bound) (s : machine W),
      idle (drive s) -> (bound <= fu)%nat ->
      exists s', bootmain fu s = Ret (Some (ld32 (st_bytes ∅ 0 k) (e_entry 0))) s' /\
        forall j, 0 <= j < phnum (st_bytes ∅ 0 k) ->
          (forall i, 0 <= i < seg_filesz (st_bytes ∅ 0 k) j ->
             Some (ld8 (ram s') (seg_va (st_bytes ∅ 0 k) j + i)) = k !! Z.to_nat (seg_offset (st_bytes ∅ 0 k) j + i)) /\
          (forall i, seg_filesz (st_bytes ∅ 0 k) j <= i < seg_memsz (st_bytes ∅ 0 k) j -> ld8 (ram s') (seg_va (st_bytes ∅ 0 k) j + i) = 0).
Proof.
  intros Hl Hmax Hk Hskip Hbk Hlen Hok Hseg Hw Hfu Hfu2.
  destruct (mkbootdisk_writes files _ l fu (length rs) Hl Hmax Hfu (Maker [] 0 rs) Hw) as (t & E & Ho & _); [done|].
  exists t. split; [done|]. split; [exact Ho|]. clear t E Ho Hw. intros W D bound L s Hi Hb.
  destruct (disk_image_first files boot kname args l k Hl Hk Hskip) as (b & r & El & Hb512).
  assert (Hbyte : forall i, 0 <= i < len k -> Some (disk_byte (disk := sectors l) (512 + i)) = k !! Z.to_nat i).
  { intros i Hi2. rewrite sectors_byte by (rewrite El, !length_app; lia). rewrite El, lookup_app_r by lia.
    rewrite lookup_app_l by lia. replace (Z.to_nat (512 + i) - length b)%nat with (Z.to_nat i) by lia.
    by destruct (lookup_lt_is_Some_2 k (Z.to_nat i) ltac:(lia)) as [v ->]. }
  destruct (wp_run bootmain fu s (fun r t' => r = Some (ld32 (st_bytes ∅ 0 k) (e_entry 0)) /\
    forall j, 0 <= j < phnum (st_bytes ∅ 0 k) -> loaded (disk := sectors l) (st_bytes ∅ 0 k) t' j)) as (e & s' & Hrun & -> & Hld).
  { eapply wp_bootmain; [exact Hok| |exact Hi|done|done|].
    - intros i Hi2. pose proof (Hbyte i ltac:(lia)) as Hx. symmetry in Hx.
      pose proof (ld8_st_bytes_in ∅ 0 k (Z.to_nat i) _ Hx) as Hv. rewrite Z.add_0_l, Z2Nat.id in Hv by lia. rewrite Hv.
      apply u8_small. by apply (Forall_lookup_1 _ _ _ _ Hbk Hx).
    - intros t' Ht'. by split. }
  exists s'. split; [exact Hrun|]. intros j Hj. destruct (Hld j Hj) as [H1 H2]. split; [|exact H2].
  intros i Hi2. rewrite (H1 i Hi2). specialize (Hseg j Hj). pose proof (ld32_range (st_bytes ∅ 0 k) (p_offset (phdr (st_bytes ∅ 0 k) j))) as Hr.
  fold (seg_offset (st_bytes ∅ 0 k) j) in Hr. rewrite <- Z.add_assoc. apply Hbyte. lia.
Qed.

(** ** A drive, and a kernel *)

(** A drive that is busy for two polls after a command *)
Record simple_drive := SimpleDrive { registers : gmap Z Z; busy_polls : nat }.

Definition register (w : simple_drive) (port : Z) : Z := default 0 (registers w !! port).
Definition lba_of (w : simple_drive) : Z :=
  register w 0x1F3 + 2 ^ 8 * register w 0x1F4 + 2 ^ 16 * register w 0x1F5 + 2 ^ 24 * (register w 0x1F6 mod 16).

#[local] Instance simple_drive_ops (disk : Z -> list Z) : Drive simple_drive := {|
  inb w port := match busy_polls w with O => (0x40, w) | S n => (0x80, SimpleDrive (registers w) n) end;
  outb w port data := SimpleDrive (<[port := data]> (registers w)) 2;
  insl w port cnt := (disk (lba_of w), w)
|}.

Lemma lba_parts lba : 0 <= lba < 2 ^ 28 ->
  lba mod 2 ^ 8 + 2 ^ 8 * (lba / 2 ^ 8 mod 2 ^ 8) + 2 ^ 16 * (lba / 2 ^ 16 mod 2 ^ 8) + 2 ^ 24 * ((0xE0 + lba / 2 ^ 24) mod 16) = lba.
Proof. intros H. divlia. Qed.

Lemma sectors_sector l lba : bytes l -> bytes (sectors l lba) /\ length (sectors l lba) = 512%nat.
Proof.
  intros Hl. unfold sectors. split.
  - apply Forall_take, Forall_app. split; [by apply Forall_drop|]. apply Forall_replicate. lia.
  - rewrite length_take, length_app, length_replicate. lia.
Qed.

Definition simple_idle (w : simple_drive) : Prop := (busy_polls w <= 2)%nat.

Lemma simple_ready l w : simple_idle w -> exists w', polls (H := simple_drive_ops (sectors l)) 3 w = Some w' /\ simple_idle w'.
Proof. destruct w as [r n]. unfold simple_idle. cbn. intros Hn. destruct n as [|[|[|n]]]; [..|lia]; (eexists; split; [reflexivity|cbn; lia]). Qed.

Lemma simple_reads l w lba : simple_idle w -> 0 <= lba < 2 ^ 28 ->
  exists w' w'', polls (H := simple_drive_ops (sectors l)) 3 (read_command (H := simple_drive_ops (sectors l)) w lba) = Some w' /\
    insl (Drive := simple_drive_ops (sectors l)) w' 0x1F0 128 = (sectors l lba, w'') /\ simple_idle w''.
Proof.
  intros Hi Hlba.
  set (r := <[0x1F7 := 0x20]> (<[0x1F6 := 0xE0 + lba / 2 ^ 24]> (<[0x1F5 := lba / 2 ^ 16 mod 2 ^ 8]>
    (<[0x1F4 := lba / 2 ^ 8 mod 2 ^ 8]> (<[0x1F3 := lba mod 2 ^ 8]> (<[0x1F2 := 1]> (registers w))))))).
  exists (SimpleDrive r 0), (SimpleDrive r 0). split; [reflexivity|]. split; [|unfold simple_idle; cbn; lia].
  cbn [insl simple_drive_ops]. f_equal. f_equal.
  unfold lba_of, register, r. cbn [registers]. simplify_map_eq. by apply lba_parts.
Qed.

Definition simple_drive_laws l (Hl : bytes l) : @DriveLaws simple_drive (simple_drive_ops (sectors l)) (sectors l) 3 := {|
  idle := simple_idle;
  drive_ready := simple_ready l;
  drive_reads := simple_reads l;
  disk_sector lba := sectors_sector l lba Hl
|}.

(** A kernel with one segment: four bytes at 4096 in the file, eight in memory *)
Definition tiny_kernel : list Z :=
  [0x7F; 0x45; 0x4C; 0x46] ++ replicate 20 0 ++ [2; 0; 0x10; 0] ++ [52; 0; 0; 0] ++ replicate 12 0 ++ [1; 0] ++ replicate 6 0 ++
  [1; 0; 0; 0] ++ [0; 0x10; 0; 0] ++ [0; 0; 0x10; 0] ++ replicate 4 0 ++ [4; 0; 0; 0] ++ [8; 0; 0; 0] ++ replicate 8 0 ++
  replicate 4012 0 ++ [11; 12; 13; 14].

Definition boot_files (name : list Z) : option (list Z) :=
  if bool_decide (name = text "boot"%string) then Some [0xEB; 0xFE] else if bool_decide (name = text "kern"%string) then Some tiny_kernel else None.

Lemma tiny_kernel_bytes : bytes tiny_kernel.
Proof. apply (bool_decide_eq_true_1 (bytes tiny_kernel)). vm_compute. reflexivity. Qed.

Lemma tiny_kernel_ok : kernel_ok (st_bytes ∅ 0 tiny_kernel) 8.
Proof.
  assert (En : phnum (st_bytes ∅ 0 tiny_kernel) = 1) by (vm_compute; reflexivity).
  split.
  - vm_compute. reflexivity.
  - lia.
  - vm_compute. discriminate.
  - rewrite En. intros j Hj. assert (j = 0) as -> by lia.
    assert (Ev : seg_va (st_bytes ∅ 0 tiny_kernel) 0 = 0x100000) by (vm_compute; reflexivity).
    assert (Ef : seg_filesz (st_bytes ∅ 0 tiny_kernel) 0 = 4) by (vm_compute; reflexivity).
    assert (Em : seg_memsz (st_bytes ∅ 0 tiny_kernel) 0 = 8) by (vm_compute; reflexivity).
    assert (Eo : seg_offset (st_bytes ∅ 0 tiny_kernel) 0 = 4096) by (vm_compute; reflexivity).
    rewrite Ev, Ef, Em, Eo. unfold ELFHDR. split_and!; try lia. reflexivity.
  - rewrite En. intros j j' Hj Hj'. lia.
Qed.

(** The boot disk of this kernel, made by a host whose first [write] is short and
    whose second is interrupted, and booted *)
Lemma disk_boots_witness :
  exists l t s', disk_image boot_files [text "boot"; text "kern"]%string = Some l /\
    mkbootdisk boot_files [text "boot"; text "kern"]%string (Z.to_nat 1000000) (Maker [] 0 [Wrote 3; Interrupted]) = Ret tt t /\
    bootmain (H := simple_drive_ops (sectors l)) (Z.to_nat 1000000) (Machine ∅ (SimpleDrive ∅ 0)) = Ret (Some 0x100002) s' /\
    ld8 (ram s') 0x100001 = 12 /\ ld8 (ram s') 0x100005 = 0.
Proof.
  destruct (disk_image_one boot_files (text "boot"%string) (text "kern"%string) [0xEB; 0xFE] tiny_kernel) as (l & El & Hlen); [reflexivity|done|reflexivity|reflexivity|].
  assert (Ek : len tiny_kernel = 4100) by (vm_compute; reflexivity). rewrite Ek in Hlen. unfold SECTOR in Hlen.
  destruct (disk_boots boot_files (text "boot"%string) (text "kern"%string) [] l tiny_kernel 8 [Wrote 3; Interrupted] (Z.to_nat 1000000))
    as (t & Et & _ & Hboot).
  - exact El.
  - lia.
  - reflexivity.
  - reflexivity.
  - apply tiny_kernel_bytes.
  - rewrite Ek. lia.
  - apply tiny_kernel_ok.
  - assert (En : phnum (st_bytes ∅ 0 tiny_kernel) = 1) by (vm_compute; reflexivity). rewrite En, Ek. intros j Hj.
    assert (j = 0) as -> by lia. vm_compute. discriminate.
  - repeat constructor. discriminate.
  - cbn [length]. lia.
  - lia.
  - assert (Hb : bytes l).
    { apply (disk_image_bytes boot_files _ l) with (2 := El). intros n f. unfold boot_files. case_bool_decide; [intros [= <-]; repeat constructor; lia|].
      case_bool_decide; [intros [= <-]; apply tiny_kernel_bytes|done]. }
    destruct (Hboot simple_drive (simple_drive_ops (sectors l)) 3%nat (simple_drive_laws l Hb) (Machine ∅ (SimpleDrive ∅ 0)))
      as (s' & Es & Hs); [exact (Nat.le_0_l 2)|lia|].
    exists l, t, s'. split; [exact El|]. split; [exact Et|].
    assert (Ee : ld32 (st_bytes ∅ 0 tiny_kernel) (e_entry 0) = 0x100002) by (vm_compute; reflexivity).
    rewrite Ee in Es. split; [exact Es|]. destruct (Hs 0) as [H1 H2]; [split; [lia|vm_compute; reflexivity]|].
    assert (Ev : seg_va (st_bytes ∅ 0 tiny_kernel) 0 = 0x100000) by (vm_compute; reflexivity).
    assert (Ef : seg_filesz (st_bytes ∅ 0 tiny_kernel) 0 = 4) by (vm_compute; reflexivity).
    assert (Em : seg_memsz (st_bytes ∅ 0 tiny_kernel) 0 = 8) by (vm_compute; reflexivity).
    assert (Eo : seg_offset (st_bytes ∅ 0 tiny_kernel) 0 = 4096) by (vm_compute; reflexivity).
    rewrite Ev, Ef, Eo in H1. rewrite Ev, Ef, Em in H2. split; [|exact (H2 5 ltac:(lia))].
    specialize (H1 1 ltac:(lia)). assert (Eb : tiny_kernel !! Z.to_nat (4096 + 1) = Some 12) by (vm_compute; reflexivity).
    rewrite Eb in H1. by injection H1.
Defined.
