(* ===== verification/ImgToC.v ===== *)
(** * A disk image as a C array (fsimgtoc.c)

    The kernel module of OSPFS is linked with its disk, which fsimgtoc prints as
    the definition of a C array.  The model is the text that [print] writes for a
    file, the numbers of [fprintf] included.  [definition] reads such a text by the
    rules of C for initializers: a designator moves the position, each value is
    stored at the position, which then advances, and what has no initializer is 0. *)

From Stdlib Require Import String.
From S2P Require Import Prelude CMemory ShellText ShellExec Fmt.

(** ** The program *)

(** "%d" and "%ld" of a number that is not negative *)
Fixpoint decimal_n (k : nat) (n : Z) (acc : list Z) : list Z :=
  match k with
  | O => acc
  | S k' => if n <? 10 then 48 + n :: acc else decimal_n k' (n / 10) (48 + n mod 10 :: acc)
  end.
Definition decimal (n : Z) : list Z := decimal_n (S (Z.to_nat (Z.log2 n))) n [].

Definition designated_initializers : bool := true.

(** [for (; last < n; last++) fprintf(out, "0,")], of [k] rounds *)
Fixpoint print_zeros (k : nat) : list Z :=
  match k with O => [] | S k' => text "0," ++ print_zeros k' end.

(** The loop, with the bytes of the file that are left *)
Fixpoint print_from (f : list Z) (n last printed : Z) : list Z :=
  match f with
  | [] => []
  | c :: f' =>
      if (c =? 0) && designated_initializers then print_from f' (n + 1) last printed
      else
        (if last <=? n - 4 then text "[" ++ decimal n ++ text "]=" else print_zeros (Z.to_nat (n - last))) ++
        decimal c ++ text "," ++
        (if (printed + 1) mod 19 =? 0 then [10] else []) ++
        print_from f' (n + 1) (n + 1) (printed + 1)
  end.

Definition print (f : list Z) (size : Z) : list Z :=
  text "unsigned char ospfs_data[" ++ decimal size ++ text "] = {" ++ [10] ++
  print_from f 0 0 0 ++
  text "};" ++ [10] ++ text "uint32_t ospfs_length = " ++ decimal size ++ text ";" ++ [10].

(** ** What the text says *)

(** A constant, which is octal when it begins with 0 *)
Definition constant (t : list Z) : option (Z * list Z) :=
  match t with
  | c :: _ => if (48 <=? c) && (c <=? 57) then Some (digits (if c =? 48 then 8 else 10) 0 t) else None
  | [] => None
  end.

Definition expect (p t : list Z) : option (list Z) :=
  if bool_decide (take (length p) t = p) then Some (drop (length p) t) else None.

(** The initializers up to the closing brace, stored into [a] from [pos] on *)
Fixpoint initializers (fu : nat) (t : list Z) (pos : Z) (a : list Z) : option (list Z * list Z) :=
  match fu, t with
  | S fu', c :: t' =>
      if c =? 125 then Some (a, t')
      else if is_space c then initializers fu' t' pos a
      else
        '(pos, t) ← (if c =? 91 then '(i, t) ← constant t'; t ← expect (text "]=") t; Some (i, t) else Some (pos, t));
        '(v, t) ← constant t;
        t ← expect (text ",") t;
        if (pos <? len a) && (v <? 2 ^ 8) then initializers fu' t (pos + 1) (<[Z.to_nat pos := v]> a) else None
  | _, _ => None
  end.

(** [unsigned char ospfs_data[N] = { ... };] and [uint32_t ospfs_length = L;] *)
Definition definition (t : list Z) : option (list Z * Z) :=
  t ← expect (text "unsigned char ospfs_data[") t;
  '(n, t) ← constant t;
  t ← expect (text "] = {") t;
  '(a, t) ← initializers (S (length t)) t 0 (replicate (Z.to_nat n) 0);
  t ← expect (text ";" ++ [10] ++ text "uint32_t ospfs_length = ") t;
  '(l, t) ← constant t;
  if bool_decide (t = text ";" ++ [10]) then Some (a, u32 l) else None.

(** ** Numbers *)

Lemma digits_decimal_digit d a r : 0 <= d < 10 -> digits 10 a (48 + d :: r) = digits 10 (10 * a + d) r.
Proof.
  intros Hd. assert (E : digit (48 + d) = d) by (unfold digit; zcases).
  cbn [digits]. rewrite E. by rewrite (proj2 (Z.ltb_lt _ _)) by lia.
Qed.

Lemma log2_fuel n : 0 <= n -> 0 <= n < 2 ^ Z.of_nat (S (Z.to_nat (Z.log2 n))).
Proof.
  intros Hn. split; [done|]. pose proof (Z.log2_nonneg n). rewrite Nat2Z.inj_succ, Z2Nat.id by done.
  destruct (decide (n = 0)) as [->|]; [done|]. apply Z.log2_spec. lia.
Qed.

Lemma decimal_n_S k n acc : decimal_n (S k) n acc = if n <? 10 then 48 + n :: acc else decimal_n k (n / 10) (48 + n mod 10 :: acc).
Proof. done. Qed.

Lemma decimal_n_digits k : forall n acc, 0 <= n < 2 ^ Z.of_nat (S k) ->
  exists d ds, decimal_n (S k) n acc = (48 + d :: ds) ++ acc /\ 0 <= d < 10 /\ (0 < n -> 0 < d) /\ (n = 0 -> d = 0 /\ ds = []) /\
    forall r, digits 10 0 ((48 + d :: ds) ++ r) = digits 10 n r.
Proof.
  induction k as [|k IH]; intros n acc Hn; rewrite decimal_n_S; (destruct (Z.ltb_spec n 10) as [Hlt|Hge];
    [exists n, []; do 4 (split; [first [lia|done]|]); intros r; cbn [app]; by rewrite digits_decimal_digit by lia|]).
  - change (2 ^ Z.of_nat 1) with 2 in Hn. lia.
  - rewrite (Nat2Z.inj_succ (S k)), Z.pow_succ_r in Hn by lia.
    destruct (IH (n / 10) (48 + n mod 10 :: acc)) as (d & ds & -> & Hd & Hp & _ & Hr); [divlia|].
    exists d, (ds ++ [48 + n mod 10]). split; [cbn [app]; by rewrite <- app_assoc|]. split; [done|]. split; [intros _; apply Hp; divlia|]. split; [lia|].
    intros r. specialize (Hr (48 + n mod 10 :: r)). cbn [app] in *. rewrite <- app_assoc. cbn [app]. rewrite Hr.
    rewrite digits_decimal_digit by divlia. f_equal. divlia.
Qed.

(** A number that is printed is read back. *)
Lemma constant_decimal n c r : 0 <= n -> 10 <= digit c -> constant (decimal n ++ c :: r) = Some (n, c :: r).
Proof.
  intros Hn Hc. unfold decimal. destruct (decimal_n_digits _ n [] (log2_fuel n Hn)) as (d & ds & E & Hd & Hp & Hz & Hr).
  rewrite E, app_nil_r. unfold constant. cbn [app].
  rewrite (proj2 (Z.leb_le _ _)), (proj2 (Z.leb_le _ _)) by lia. cbn [andb]. f_equal.
  destruct (decide (n = 0)) as [->|Hne].
  - destruct (Hz eq_refl) as [-> ->]. cbn [app]. change (48 + 0 =? 48) with true. cbn [digits]. change (digit (48 + 0) <? 8) with true. cbv iota.
    by rewrite (proj2 (Z.ltb_ge _ _)) by lia.
  - rewrite (proj2 (Z.eqb_neq _ _)) by lia. cbn [app] in Hr. rewrite Hr. cbn [digits]. by rewrite (proj2 (Z.ltb_ge _ _)) by lia.
Qed.

Lemma decimal_head n : 0 <= n -> exists c l, decimal n = c :: l /\ 48 <= c <= 57.
Proof.
  intros Hn. destruct (decimal_n_digits _ n [] (log2_fuel n Hn)) as (d & ds & E & Hd & _).
  exists (48 + d), ds. split; [by rewrite <- (app_nil_r (_ :: _))|lia].
Qed.

Lemma expect_app p t : expect p (p ++ t) = Some t.
Proof. unfold expect. rewrite take_app_length, drop_app_length. by rewrite bool_decide_eq_true_2. Qed.

Lemma constant_then n p t : 0 <= n -> 10 <= digit (hd 48 p) -> constant (decimal n ++ p ++ t) = Some (n, p ++ t).
Proof. destruct p as [|c p]; [done|]. apply constant_decimal. Qed.

(** ** Initializers *)

Lemma value_read v pos r (a : list Z) : 0 <= v < 2 ^ 8 -> 0 <= pos < len a ->
  ('(v, t) ← constant (decimal v ++ text "," ++ r); t ← expect (text ",") t;
   if (pos <? len a) && (v <? 2 ^ 8) then Some (v, t) else None) = Some (v, r).
Proof.
  intros Hv Hp. change (text "," ++ r) with (44 :: r). rewrite constant_decimal by (done || lia). cbn [mbind option_bind].
  change (44 :: r) with (text "," ++ r). rewrite expect_app. cbn [mbind option_bind].
  by rewrite !(proj2 (Z.ltb_lt _ _)) by lia.
Qed.

Lemma initializers_value fu v r pos a : 0 <= v < 2 ^ 8 -> 0 <= pos < len a ->
  initializers (S fu) (decimal v ++ text "," ++ r) pos a = initializers fu r (pos + 1) (<[Z.to_nat pos := v]> a).
Proof.
  intros Hv Hp. pose proof (value_read v pos r a Hv Hp) as Hr. destruct (decimal_head v ltac:(lia)) as (c & l & E & Hc).
  rewrite E in *. cbn [app initializers] in *.
  rewrite (proj2 (Z.eqb_neq c 125)), (proj2 (Z.eqb_neq c 91)) by lia.
  replace (is_space c) with false by (unfold is_space; zcases). cbn [mbind option_bind].
  destruct (constant _) as [[v' t]|]; [|done]. cbn [mbind option_bind] in *. destruct (expect _ t) as [t'|]; [|done].
  cbn [mbind option_bind] in *. destruct (_ && _); [|done]. by injection Hr as -> ->.
Qed.

Lemma initializers_designated fu i v r pos a : 0 <= v < 2 ^ 8 -> 0 <= i < len a ->
  initializers (S fu) ((text "[" ++ decimal i ++ text "]=") ++ decimal v ++ text "," ++ r) pos a =
  initializers fu r (i + 1) (<[Z.to_nat i := v]> a).
Proof.
  intros Hv Hi. pose proof (value_read v i r a Hv Hi) as Hr. rewrite <- !app_assoc. change (text "[" ++ ?l) with (91 :: l). cbn [initializers].
  change (91 =? 125) with false. change (is_space 91) with false. change (91 =? 91) with true. cbv iota.
  change (text "]=" ++ ?l) with (93 :: 61 :: l). rewrite constant_decimal by (done || lia). cbn [mbind option_bind].
  change (93 :: 61 :: ?l) with (text "]=" ++ l). rewrite expect_app. cbn [mbind option_bind].
  destruct (constant _) as [[v' t]|]; [|done]. cbn [mbind option_bind] in *. destruct (expect _ t) as [t'|]; [|done].
  cbn [mbind option_bind] in *. destruct (_ && _); [|done]. by injection Hr as -> ->.
Qed.

(** Values 0 that are printed change nothing where the array is 0. *)
Lemma initializers_zeros k fu r pos a : 0 <= pos -> pos + Z.of_nat k <= len a ->
  (forall i, pos <= i < pos + Z.of_nat k -> a !! Z.to_nat i = Some 0) ->
  initializers (k + fu) (print_zeros k ++ r) pos a = initializers fu r (pos + Z.of_nat k) a.
Proof.
  revert pos. induction k as [|k IH]; intros pos Hp Hk Ha; [by rewrite Z.add_0_r|].
  cbn [print_zeros]. rewrite <- app_assoc. change (text "0," ++ ?l) with (decimal 0 ++ text "," ++ l). cbn [Nat.add].
  rewrite initializers_value by lia. rewrite list_insert_id by (apply Ha; lia).
  rewrite IH by (try intros; try apply Ha; lia). f_equal. lia.
Qed.

Lemma print_zeros_length k : length (print_zeros k) = (2 * k)%nat.
Proof. induction k as [|k IH]; [done|]. cbn [print_zeros]. rewrite length_app, IH. cbn. lia. Qed.

Lemma initializers_newline (b : bool) fu r pos a :
  initializers ((if b then 1 else 0) + fu) ((if b then [10] else []) ++ r) pos a = initializers fu r pos a.
Proof. by destruct b. Qed.

(** One byte of the file that is not 0 *)
Lemma initializers_byte c n last (b : bool) r a :
  0 < c < 2 ^ 8 -> 0 <= last <= n -> n < len a -> (forall i, last <= i < n -> a !! Z.to_nat i = Some 0) ->
  let t := (if last <=? n - 4 then text "[" ++ decimal n ++ text "]=" else print_zeros (Z.to_nat (n - last))) ++
    decimal c ++ text "," ++ (if b then [10] else []) in
  exists k, (k <= length t)%nat /\ forall fu, initializers (k + fu) (t ++ r) last a = initializers fu r (n + 1) (<[Z.to_nat n := c]> a).
Proof.
  intros Hc Hl Hn Ha t. subst t. destruct (decimal_head c ltac:(lia)) as (d & ds & Ed & _). destruct (Z.leb_spec last (n - 4)) as [Hfar|Hnear].
  - exists (S ((if b then 1 else 0)))%nat. split; [rewrite !length_app, Ed; destruct b; cbn; lia|]. intros fu.
    rewrite <- (app_assoc (text "[" ++ _)), <- (app_assoc (decimal c)), <- (app_assoc (text ",")). cbn [Nat.add].
    rewrite initializers_designated by lia. apply initializers_newline.
  - exists (Z.to_nat (n - last) + S (if b then 1 else 0))%nat. split; [rewrite !length_app, print_zeros_length, Ed; destruct b; cbn; lia|]. intros fu.
    rewrite <- !app_assoc, <- Nat.add_assoc.
    rewrite initializers_zeros by (try intros; try apply Ha; lia). replace (last + Z.of_nat (Z.to_nat (n - last))) with n by lia.
    cbn [Nat.add]. rewrite initializers_value by lia. apply initializers_newline.
Qed.

(** The loop, after the part [p] of the file *)
Lemma initializers_file f : forall p last printed r fu,
  bytes f -> 0 <= last <= len p -> (forall i, last <= i < len p -> p !! Z.to_nat i = Some 0) ->
  (length (print_from f (len p) last printed) < fu)%nat ->
  initializers fu (print_from f (len p) last printed ++ 125 :: r) last (p ++ replicate (length f) 0) = Some (p ++ f, r).
Proof.
  induction f as [|c f IH]; intros p last printed r fu Hf Hl Hp Hfu; cbn [print_from length replicate] in *.
  - destruct fu as [|fu]; [lia|]. cbn. done.
  - apply Forall_cons in Hf as [Hc Hf].
    assert (En : len p + 1 = len (p ++ [c])) by (rewrite length_app; cbn; lia). rewrite En in *.
    rewrite (cons_middle c p f), (app_assoc p [c] f).
    destruct (Z.eqb_spec c 0) as [->|Hne]; cbn [andb designated_initializers] in *.
    + rewrite (cons_middle 0 p (replicate _ _)), (app_assoc p [0]). apply IH; [done|lia| |done].
      intros i Hi. destruct (decide (i < len p)) as [Hlt|]; [rewrite lookup_app_l by lia; apply Hp; lia|].
      rewrite lookup_app_r by lia. by replace (Z.to_nat i - length p)%nat with 0%nat by lia.
    + set (b := (printed + 1) mod 19 =? 0) in *. set (rest := print_from f (len (p ++ [c])) (len (p ++ [c])) (printed + 1)) in *.
      destruct (initializers_byte c (len p) last b (rest ++ 125 :: r) (p ++ 0 :: replicate (length f) 0)) as (k & Hk & E);
        [lia|lia|rewrite length_app; cbn; lia|intros i Hi; rewrite lookup_app_l by lia; by apply Hp|].
      cbv zeta in Hk, E. set (t := (if last <=? len p - 4 then _ else _)) in *. rewrite !length_app in Hk. rewrite !length_app in Hfu.
      replace fu with (k + (fu - k))%nat by lia.
      replace ((t ++ decimal c ++ text "," ++ (if b then [10] else []) ++ rest) ++ 125 :: r)
        with ((t ++ decimal c ++ text "," ++ (if b then [10] else [])) ++ rest ++ 125 :: r) by (by rewrite <- !app_assoc).
      rewrite E, Nat2Z.id, En. rewrite insert_app_r_alt, Nat.sub_diag by lia. cbn [list_insert insert].
      rewrite (cons_middle c p (replicate _ _)), (app_assoc p [c]). apply IH; [done|lia|lia|fold rest; lia].
Qed.

(** C15. What fsimgtoc prints for a file, read as C, is an array with exactly the
    bytes of the file, and its length as a [uint32_t]: modulo 2^32. *)
Theorem print_defines_file f : bytes f -> definition (print f (len f)) = Some (f, u32 (len f)).
Proof.
  intros Hf. unfold definition, print. rewrite expect_app. cbn [mbind option_bind].
  rewrite (constant_then (len f) (text "] = {")) by (done || lia). cbn [mbind option_bind]. rewrite expect_app. cbn [mbind option_bind].
  set (tail := [10] ++ text "uint32_t ospfs_length = " ++ decimal (len f) ++ text ";" ++ [10]).
  change (text "};" ++ tail) with (125 :: text ";" ++ tail). set (body := [10] ++ print_from f 0 0 0 ++ _). change body with (10 :: tl body) at 2. cbn [initializers].
  change (10 =? 125) with false. change (is_space 10) with true. cbv iota. rewrite Nat2Z.id. cbn [body app tl].
  rewrite (initializers_file f [] 0 0); [|done|cbn; lia|cbn; lia|unfold body; change (len []) with 0; cbn [length app]; rewrite length_app; lia].
  cbn [mbind option_bind]. change (text ";" ++ tail) with ((text ";" ++ 10 :: text "uint32_t ospfs_length = ") ++ decimal (len f) ++ text ";" ++ [10]).
  rewrite expect_app. cbn [mbind option_bind].
  change (text ";" ++ [10]) with ((text ";" ++ [10]) ++ []) at 1. rewrite constant_then by (done || lia). cbn [mbind option_bind]. by rewrite bool_decide_eq_true_2.
Qed.

Lemma print_defines_file_witness :
  print [0; 0; 0; 0; 0; 7; 0; 255] 8 =
    text "unsigned char ospfs_data[8] = {" ++ [10] ++ text "[5]=7,0,255,};" ++ [10] ++ text "uint32_t ospfs_length = 8;" ++ [10] /\
  definition (print [0; 0; 0; 0; 0; 7; 0; 255] 8) = Some ([0; 0; 0; 0; 0; 7; 0; 255], 8).
Proof. split; [vm_compute; reflexivity|]. apply (print_defines_file [0; 0; 0; 0; 0; 7; 0; 255]). repeat constructor; lia. Defined.
